(* ===== verification/_CoqProject ===== *)
-Q . S2P
Prelude.v
Dom.v
Format.v
Catalog.v
Render.v
Stages.v
Loaders.v
SharedPanels.v
Breakdown.v
FormulaPanels.v
CubeFormulas.v
ResourceFormulas.v
CatalogProvider.v
CatalogPage.v
AddCode.v
Dispatch.v
Session.v
C15.v
PageIds.v
