(* ===== verification/Prelude.v ===== *)
(** * Verification of the statistics layer of Synergism ([src/src/Statistics.ts])

    ** The program and its parts

    [Statistics.ts] draws the statistics tabs of the incremental game
    Synergism.  Its parts, and the file of this library that models each:

    - [Catalog.v]: the stat catalog, [interface StatLine] (lines 71-76: an
      i18n key, a formula [stat : () => number], an optional colour and an
      optional accuracy) and the fifteen catalog arrays [allCubeStats] ...
      [antSacrificeRewardStats] (lines 78-1592) with their keys, colours and
      accuracies in source order; [obtainiumDR],
      [offeringObtainiumTimeModifiers] and [antSacrificeTimeStats] (lines
      1500-1607) with their formulas.  A line reads its formula from the
      class [StateProvider] over an abstract game state [Game].
    - [CubeFormulas.v], [ResourceFormulas.v]: the [stat] closure of every
      catalog line (317 closures), translated expression by expression over
      the reads of [player], [G] and other modules ([FormulaEnv] and
      [CatalogEnv]: a field by its path, a call by its expression), one
      table of [(i18n, closure)] pairs per array; shared closures
      ([score_achievement], [platonic_delta], [cube_cx12], ...) once.
    - [CatalogProvider.v]: [catalog_provider], the [StateProvider] built
      from those tables, which makes every theorem of the engine and the
      loaders a theorem about the source's closures, and the lookup of a
      closure by its key.
    - [CatalogPage.v]: [catalog_call], the [loadStatistics] call of
      [Loaders.v] that renders each catalog array, and the composition of
      the provider with the engine: the value node of each key shows the
      source closure of that key.
    - [Render.v]: the engine [loadStatistics] (lines 1737-1797), a
      computation of [St Dom]: detection of a first render through the
      panel's marker class, creation of one [<p>]/[<span>] pair per line
      and of the total row, then the value writes.
    - [Loaders.v]: the fourteen loaders that are one or two calls of
      [loadStatistics] (lines 2101-2252), as argument tuples [PanelCall].
    - [SharedPanels.v]: the two loaders whose two calls share one panel
      (offering, obtainium), run as a pair.
    - [Breakdown.v]: the six variable-length breakdown renderers
      ([loadPowderMultiplier], [loadStatisticsAscensionSpeedMultipliers],
      [loadStatisticsGoldenQuarkMultipliers], [loadStatisticsAmbrosiaLuck],
      [loadStatisticsAmbrosiaGeneration], [loadGlobalSpeedMultiplier]),
      which index a descriptor table ([gmap nat Descr]) by position.
    - [FormulaPanels.v]: [loadStatisticsAccelerator] and
      [loadStatisticsMultiplier] (lines 1866-2099), straight-line lists of
      [DOMCacheGetOrSet(id).textContent = formula] assignments, kept
      formula by formula over the fields they read ([FormulaEnv]) and run
      by the block [Dom.writes].
    - [AddCode.v]: [loadAddCodeModifiersAndEffects] (lines 2360-2498): the
      interval breakdown (with the in-place [/ 1000]), the capacity
      breakdown and the effects lines, over the add-code module's values
      ([AddCodeEnv]); its row loops are those of [Breakdown.v].
    - [Dispatch.v]: the tab table [associated] (1613-1638), the tab
      switcher [displayStats] (1640-1653), the dispatcher
      [loadStatisticsUpdate] (1655-1735) over the closed enumeration
      [Panel], and the fixed-id panel [loadStatisticsMiscellaneous]
      (1799-1864).
    - [Stages.v]: the ladder [gameStages] (2668-2849) and the classifier
      [synergismStage] (2854-2866).
    - [C15.v]: [c15RewardUpdate] and [updateDisplayC15Rewards]
      (2575-2666), over an explicit world holding [G.challenge15Rewards],
      the module flag [LOADED_STATS_HTMLS.challenge15], the hepteract
      unlock flags and the document.
    - [Session.v]: the page session, the click handler and the periodic
      update on one document as a step relation [session], with the frame
      fact that no loader adds the class [activeStats].
    - [PageIds.v]: the page's id namespace: the id templates every
      renderer reads, against the ids the catalog loaders create.

    Two collaborators that are not under [src/] are modelled from the
    specification (marked [spec_modelled] in the map):
    - [Dom.v]: the browser document (a heap of elements addressed by
      creation index, with id, classes, style, leading text node, children,
      parent and attachment) and the id cache [DOMCacheGetOrSet] of
      [Cache/DOM.ts] (a [gmap string nat]);
    - [Format.v]: the number formatter [format] of [Synergism.ts].
    How they interact: every loader of [Loaders.v], [Breakdown.v],
    [FormulaPanels.v], [AddCode.v], [Dispatch.v] and [C15.v] is a sequence
    of DOM steps of [Dom.v] whose written values come from [Format.v]; all
    of them share one id cache, whose namespace [PageIds.v] checks; the
    switcher and the dispatcher of [Dispatch.v] decide through the class
    [activeStats] which loader [load_panel] runs, and [Session.v] composes
    the two handlers over one document; the miscellaneous panel calls the
    classifier of [Stages.v]; the catalog loaders evaluate the closures of
    [CubeFormulas.v] and [ResourceFormulas.v] through [catalog_provider].  The collaborators a component
    needs are classes ([NumberFormat], [I18n], [StateProvider],
    [LoaderEnv], [BreakdownEnv], [FormulaEnv], [CatalogEnv], [AddCodeEnv],
    [MiscEnv], [C15Env]): the theorems hold for every instance.

    This file, [Prelude.v], holds what the components share: the error
    type [JsError], the state-and-exception monad [St] with its notation in
    [st_scope], the loop [forM_] for [for (const x of xs)], the relations a
    computation respects on success ([stable]) or on every outcome
    ([always]) with their composition rules, list lemmas, and the hint
    database [stats].

    ** How the model corresponds to the code

    - Effects.  Every DOM call of a handler is one step of [St Dom], in the
      source's order.  A [TypeError] is the [Throw] outcome, which carries
      the document at the throw: as in JavaScript, the writes made before
      the exception stay.
    - Numbers.  JavaScript numbers and [break_infinity] decimals are both
      rationals [Q]; binary floating-point rounding is not modelled, and a
      division by zero is [0] in [Q] where JavaScript gives [Infinity]
      (the closures divide by [resetTimeThreshold()] and
      [calculateSingularityDebuff], which the game keeps positive).
      Counters compared with integers ([prestigeCount],
      [singularityCount], tiers) are [Z] or [nat].
    - Maps.  The DOM cache and the descriptor tables are [gmap]s; the
      C15 rewards object is an association list in [Object.entries] order.

    ** What is proved

    - Engine (C1-C5, C29): on a fresh, attached panel [loadStatistics]
      succeeds, creates exactly [2 * (n + 1)] elements, gives them the
      marker class, writes [format (stat line) acc] into each value node
      and the formatted total into the total node; a second call with
      unchanged state changes nothing; every later call, with any game
      state, is the rewrite of the value nodes and of the total node with
      the current values (C5); a missing value node after initialisation
      throws that node's [TypeError] after the earlier lines are written,
      before the later lines and the total (C4 for the first line, C29 for
      any line).
    - Loaders (C6-C8): the ids of all sixteen calls are pairwise distinct
      and the marker classes are distinct; any loader call on a fresh
      panel renders and is then idempotent.
    - Breakdowns (C9-C11, C30): the ascension-speed and golden quark
      breakdowns write label and value of every row, the golden quark one
      colours the PseudoCoin line [gold] and no other; an array longer
      than its descriptor table throws, after having written the earlier
      rows.
    - Stages (C12-C16, C33): [synergismStage] is the first stage of the
      ladder meeting the code's test (refinement of the index loop by
      [list_find]), the ladder is numbered 0..24 with non-decreasing
      tiers, the fallback is taken exactly from tier 6 on, the answer
      moves forward when [skipTier] grows, and every stage after the first
      is the answer of [synergismStage(0)] for some player (C33: no stage
      is shadowed).
    - Catalog panels (C17): under [catalog_provider], the loader call of
      each catalog array renders on a fresh panel, and the value node
      [prefix ++ "N" ++ key] of every line shows [format] of the closure
      written under [key] in the source, with the line's accuracy: the
      provider, the loaders and the engine composed.
    - C15 (C18-C20, C34): each refresh resets a reward before recomputing
      it, [c15RewardUpdate] sets every record from the exponent alone and
      unlocks the hepteracts with a positive reward, on an initialised
      page the display creates nothing and names the least requirement
      not yet met, and the display loop's running minimum is a [foldr] of
      [Qmin].
    - Dispatch (C21-C23, C27-C28, C35): after [displayStats] exactly the
      clicked panel is shown; [associated] is a bijection onto the switch
      cases; when a catalog panel is active, [loadStatisticsUpdate] runs
      exactly the [loadStatistics] calls whose [parentDiv] is that panel
      (the switch and the loaders agree); an unknown first tab throws; the
      miscellaneous panel writes its sixteen lines, the last the stage
      name; a click followed by the periodic update runs the clicked
      panel's loader.
    - Format (C24-C25): the fixed-point form has exactly [acc] fraction
      digits and parses back to the rounded value.
    - Namespace (C26): no id a catalog loader creates is an id another
      renderer reads, for every row index and every C15 key.
    - Add-code panel (C31-C32): the base interval is shown in seconds with
      [" sec"], later rows with ["x"], [s+next] emptied exactly when every
      use is available; a list longer than [intervalMap] throws.
    - Shared panels (C36): the offering and the obtainium loaders render
      both of their catalogs into one fresh panel, each marker class on
      exactly its own lines, and a second run changes nothing.
    - Caps (C37): the [Math.min] caps of the achievement lines bound them
      (1.15, [1 + cap], and [SpeedAchievement] within
      [[1 + a/10, 1 + a/2]]).
    - Session (C38-C40): along any interleaving of clicks on the tabs of
      the bar and updates against any game state, at most one element
      carries [activeStats] and it is a tab's panel (rule induction on
      [rtc session]); so an update runs at most one loader.  A click is a
      step only when the clicked button sits in the tab bar whose tabs are
      registered in [associated] ([tab_bar]); C40 shows that on a bar with
      an unregistered child the click throws after the tabs before it,
      leaving any panel active before the click active beside the
      clicked one.

    ** Bounds and fuel

    The only fuel is in [Dom.mark_subtree], which walks a subtree when an
    element is attached; it gets [length (heap d)] steps, which bounds the
    depth of any acyclic tree of the heap, and [Dom.mark_subtree_fuel]
    shows that fuel beyond the depth ([Dom.depth_leb]) changes nothing.
    The index loop of [synergismStage] is structural in the number of
    stages left, with [stages.length] iterations
    ([Stages.scan_stages_find] shows the loop is [list_find] whenever the
    budget covers the stages left).  The add-code intervals
    and the breakdown arrays are bounded by their descriptor tables
    ([intervalMap] has five rows, [capacityMap] eight), which C10 and C32
    show the code relies on.

    ** Not modelled

    The balance formulas of other modules ([calculate*] of [Calculate.ts],
    [CalcECC], [hepteractEffective], the upgrades' [getEffect()]) are not
    under [src/]: the closures that call them are translated, and their
    values come from the classes, as do [Math.pow], [Math.log10],
    [Decimal.log] and [calculateSigmoidExponential]; i18next is the
    abstract function [translate] and [formatTimeShort] a function of
    [MiscEnv].  [activeStats] is read as a snapshot, not as a live
    collection; the wiring of the two handlers to DOM events is outside
    [src/] and is the relation [session]. *)

From stdpp Require Export base list strings gmap.
From Stdlib Require Export ZArith.

(** ** JavaScript errors and results *)

Inductive JsError : Type :=
| TypeError (msg : string).

(** The outcome of a step: a result with the new state, or an exception
    with the state at the point of the throw (JavaScript does not undo the
    DOM writes made before an exception). *)
Inductive Result (A S : Type) : Type :=
| Ok (r : A * S)
| Throw (e : JsError) (s : S).
Arguments Ok {A S} r.
Arguments Throw {A S} e s.

(** ** The state-and-exception monad *)

Definition St (S A : Type) : Type := S -> Result A S.

Definition st_ret {S A} (a : A) : St S A := fun s => Ok (a, s).

Definition st_bind {S A B} (m : St S A) (k : A -> St S B) : St S B :=
  fun s => match m s with
           | Ok (a, s') => k a s'
           | Throw e s' => Throw e s'
           end.

Definition st_get {S} : St S S := fun s => Ok (s, s).
Definition st_modify {S} (f : S -> S) : St S unit := fun s => Ok (tt, f s).
Definition st_throw {S A} (e : JsError) : St S A := fun s => Throw e s.

Declare Scope st_scope.
Delimit Scope st_scope with st.
Notation "x <- m ;; k" := (st_bind m (fun x => k))
  (at level 100, m at next level, right associativity) : st_scope.
Notation "m ;; k" := (st_bind m (fun _ => k))
  (at level 100, right associativity) : st_scope.
Open Scope st_scope.

(** [for (const x of l) { f(x) }] *)
Fixpoint forM_ {S A} (l : list A) (f : A -> St S unit) : St S unit :=
  match l with
  | [] => st_ret tt
  | x :: l' => f x ;; forM_ l' f
  end.

(** Running a computation to its final state. *)
Definition exec {S A} (m : St S A) (s : S) : option S :=
  match m s with Ok (_, s') => Some s' | Throw _ _ => None end.

(** The state a run ends in, whether it returns or throws. *)
Definition res_state {A S} (r : Result A S) : S :=
  match r with Ok (_, s) => s | Throw _ s => s end.

(** ** Relations a computation respects

    [stable R m]: whenever [m] returns, its final state is related to its
    initial state by [R].  [always R m]: the same for every outcome, a
    thrown exception included (its state is the one at the throw).  With a
    preorder [R] both compose through binds and loops, so a property of
    every primitive operation is a property of every handler built from
    them. *)
Definition stable {S A} (R : relation S) (m : St S A) : Prop :=
  forall s a s', m s = Ok (a, s') -> R s s'.

Definition always {S A} (R : relation S) (m : St S A) : Prop :=
  forall s, R s (res_state (m s)).

(** ** Generic lemmas on the monad *)

Lemma st_bind_Ok {S A B} (m : St S A) (k : A -> St S B) s a s' :
  m s = Ok (a, s') -> st_bind m k s = k a s'.
Proof. intros H. unfold st_bind. by rewrite H. Qed.

Lemma st_bind_Throw {S A B} (m : St S A) (k : A -> St S B) s e s' :
  m s = Throw e s' -> st_bind m k s = Throw e s'.
Proof. intros H. unfold st_bind. by rewrite H. Qed.

Lemma st_bind_ret_unit {S} (m : St S unit) s : st_bind m (fun _ => st_ret tt) s = m s.
Proof. unfold st_bind. by destruct (m s) as [[[] s']|e s']. Qed.

Lemma forM__noop {S A} (l : list A) (f : A -> St S unit) s :
  (forall x, x ∈ l -> f x s = Ok (tt, s)) -> forM_ l f s = Ok (tt, s).
Proof.
  induction l as [|x l IH]; intros Hf; simpl; [done|].
  rewrite (st_bind_Ok _ _ _ tt s) by (apply Hf; set_solver).
  apply IH. intros y Hy. apply Hf. set_solver.
Qed.

Lemma forM__app {S A} (l1 l2 : list A) (f : A -> St S unit) s :
  forM_ (l1 ++ l2) f s = st_bind (forM_ l1 f) (fun _ => forM_ l2 f) s.
Proof.
  revert s. induction l1 as [|x l1 IH]; intros s; simpl; [done|].
  unfold st_bind at 1. destruct (f x s) as [[[] s1]|e s1] eqn:Hf.
  - rewrite IH. unfold st_bind. rewrite Hf. done.
  - unfold st_bind. by rewrite Hf.
Qed.

Section Stable.
Context {S : Type} (R : relation S) `{!PreOrder R}.

Lemma stable_ret {A} (a : A) : stable R (st_ret a).
Proof. intros s a' s' [= _ <-]. reflexivity. Qed.

Lemma stable_modify (f : S -> S) : (forall s, R s (f s)) -> stable R (st_modify f).
Proof. intros Hf s a s' [= _ <-]. apply Hf. Qed.

Lemma stable_bind {A B} (m : St S A) (k : A -> St S B) :
  stable R m -> (forall a, stable R (k a)) -> stable R (st_bind m k).
Proof.
  intros Hm Hk s b s'' Hrun. unfold st_bind in Hrun.
  destruct (m s) as [[a s']|e s'] eqn:Hms; [|done].
  transitivity s'; [by eapply Hm | by eapply Hk].
Qed.

Lemma stable_forM_ {A} (l : list A) (f : A -> St S unit) :
  (forall x, stable R (f x)) -> stable R (forM_ l f).
Proof.
  intros Hf. induction l as [|x l IH]; simpl.
  - apply stable_ret.
  - apply stable_bind; auto.
Qed.

Lemma stable_if {A} (b : bool) (m1 m2 : St S A) :
  stable R m1 -> stable R m2 -> stable R (if b then m1 else m2).
Proof. by destruct b. Qed.

Lemma always_ret {A} (a : A) : always R (st_ret a).
Proof. intros s. simpl. reflexivity. Qed.

Lemma always_get : always R st_get.
Proof. intros s. simpl. reflexivity. Qed.

Lemma always_modify (f : S -> S) : (forall s, R s (f s)) -> always R (st_modify f).
Proof. intros Hf s. apply Hf. Qed.

Lemma always_bind {A B} (m : St S A) (k : A -> St S B) :
  always R m -> (forall a, always R (k a)) -> always R (st_bind m k).
Proof.
  intros Hm Hk s. specialize (Hm s). unfold st_bind.
  destruct (m s) as [[a s']|e s']; simpl in *; [|done].
  etransitivity; [exact Hm|apply Hk].
Qed.

Lemma always_if {A} (b : bool) (m1 m2 : St S A) :
  always R m1 -> always R m2 -> always R (if b then m1 else m2).
Proof. by destruct b. Qed.

(** A computation whose exceptions leave the state as it was, and whose
    returns respect [R], respects [R] on every outcome. *)
Lemma always_of_stable {A} (m : St S A) :
  stable R m -> (forall s e s', m s = Throw e s' -> s' = s) -> always R m.
Proof.
  intros Hs Ht s. destruct (m s) as [[a s']|e s'] eqn:E; simpl.
  - by eapply Hs.
  - rewrite (Ht _ _ _ E). reflexivity.
Qed.

Lemma always_forM_ {A} (l : list A) (f : A -> St S unit) :
  (forall x, always R (f x)) -> always R (forM_ l f).
Proof.
  intros Hf. induction l as [|x l IH]; simpl.
  - apply always_ret.
  - apply always_bind; auto.
Qed.
End Stable.

(** ** Generic list lemmas shared by the components *)

Lemma list_find_unique {A} (P : A -> Prop) `{!forall x, Decision (P x)}
      (l : list A) i x :
  l !! i = Some x -> P x ->
  (forall j y, l !! j = Some y -> P y -> j = i) ->
  list_find P l = Some (i, x).
Proof.
  intros Hi HP Huniq. apply list_find_Some. split_and!; [done|done|].
  intros j y Hj Hlt HPy. specialize (Huniq j y Hj HPy). lia.
Qed.

(** Distinct images make a function injective on the list. *)
Lemma NoDup_fmap_inj {A B} (f : A -> B) (l : list A) :
  NoDup (f <$> l) -> forall x y, x ∈ l -> y ∈ l -> f x = f y -> x = y.
Proof.
  induction l as [|a l IH]; intros Hnd x y Hx Hy Hf; [set_solver|].
  rewrite fmap_cons in Hnd. apply NoDup_cons in Hnd as [Ha Hnd].
  apply elem_of_cons in Hx as [->|Hx], Hy as [->|Hy]; [done| | |by apply IH].
  - exfalso. apply Ha. rewrite Hf. by apply list_elem_of_fmap_2.
  - exfalso. apply Ha. rewrite <- Hf. by apply list_elem_of_fmap_2.
Qed.

Lemma NoDup_app_inv_l {A} (l1 l2 : list A) : NoDup (l1 ++ l2) -> NoDup l1.
Proof. rewrite NoDup_app. tauto. Qed.

Lemma NoDup_app_inv_r {A} (l1 l2 : list A) : NoDup (l1 ++ l2) -> NoDup l2.
Proof. rewrite NoDup_app. tauto. Qed.

(** ** Automation *)

Create HintDb stats discriminated.
Create Rewrite HintDb stats.
#[export] Hint Resolve stable_ret stable_bind stable_forM_ stable_if : stats.
#[export] Hint Resolve always_ret always_get always_bind always_forM_ always_if : stats.
#[export] Hint Resolve NoDup_app_inv_l NoDup_app_inv_r : stats.
