(* ===== verification/Dom.v ===== *)
(** * The browser DOM and the id cache, as the statistics layer uses them

    Modelled from the specification (the DOM API and [Cache/DOM.ts] are not
    under [src/]).  The document is a heap of elements addressed by handles
    (their creation index); an element records its id, class list, inline
    style, its leading text node ([childNodes[0]]), its element children in
    order, its parent, and whether it is attached to the document.
    [getElementById] and [getElementsByClassName] only see attached
    elements; among several attached elements with the same id,
    [getElementById] returns the one created first (document order is
    approximated by creation order, which only matters for duplicate ids).
    [DOMCacheGetOrSet] returns the cached element for an id, or looks the id
    up in the document, caches and returns it, or throws a [TypeError].
    The frame relations at the end ([no_new_match], [same_styles]) say
    what a text write never does: give an element an id it can be found
    by, or change an inline style. *)

From S2P Require Import Prelude.

Record Elem : Type := mkElem {
  el_tag : string;
  el_id : string;
  el_classes : list string;
  el_style : gmap string string;
  el_text : option string;
  el_children : list nat;
  el_parent : option nat;
  el_attached : bool
}.

Record Dom : Type := mkDom {
  heap : list Elem;
  dom_cache : gmap string nat
}.

#[export] Instance elem_eq_dec : EqDecision Elem.
Proof. solve_decision. Defined.
#[export] Instance dom_eq_dec : EqDecision Dom.
Proof. solve_decision. Defined.

(** ** Field updates *)

Definition set_el_id (s : string) (e : Elem) : Elem :=
  mkElem (el_tag e) s (el_classes e) (el_style e) (el_text e) (el_children e)
         (el_parent e) (el_attached e).
Definition set_el_classes (cs : list string) (e : Elem) : Elem :=
  mkElem (el_tag e) (el_id e) cs (el_style e) (el_text e) (el_children e)
         (el_parent e) (el_attached e).
Definition set_el_style (k v : string) (e : Elem) : Elem :=
  mkElem (el_tag e) (el_id e) (el_classes e) (<[k:=v]> (el_style e)) (el_text e)
         (el_children e) (el_parent e) (el_attached e).
Definition set_el_text (t : option string) (e : Elem) : Elem :=
  mkElem (el_tag e) (el_id e) (el_classes e) (el_style e) t (el_children e)
         (el_parent e) (el_attached e).
Definition set_el_children (cs : list nat) (e : Elem) : Elem :=
  mkElem (el_tag e) (el_id e) (el_classes e) (el_style e) (el_text e) cs
         (el_parent e) (el_attached e).
Definition set_el_parent (p : option nat) (e : Elem) : Elem :=
  mkElem (el_tag e) (el_id e) (el_classes e) (el_style e) (el_text e)
         (el_children e) p (el_attached e).
Definition set_el_attached (b : bool) (e : Elem) : Elem :=
  mkElem (el_tag e) (el_id e) (el_classes e) (el_style e) (el_text e)
         (el_children e) (el_parent e) b.

Definition dom_alter (h : nat) (f : Elem -> Elem) (d : Dom) : Dom :=
  mkDom (alter f h (heap d)) (dom_cache d).

(** ** Queries *)

Definition id_match (id : string) (e : Elem) : Prop :=
  el_attached e = true /\ el_id e = id.

Definition class_match (c : string) (e : Elem) : Prop :=
  el_attached e = true /\ c ∈ el_classes e.

(** [document.getElementById(id)] *)
Definition getElementById (d : Dom) (id : string) : option nat :=
  fst <$> list_find (id_match id) (heap d).

(** [document.getElementsByClassName(c).length] *)
Definition classCount (d : Dom) (c : string) : nat :=
  length (filter (class_match c) (heap d)).

(** ** Mutations *)

(** [document.createElement(tag)]: a fresh, detached element. *)
Definition new_elem (tag : string) : Elem :=
  mkElem tag "" [] ∅ None [] None false.

Definition createElement (tag : string) : St Dom nat :=
  fun d => Ok (length (heap d), mkDom (heap d ++ [new_elem tag]) (dom_cache d)).

(** Attaching or detaching a subtree: every element below [h] takes the
    attachment status [b].  The fuel bounds the depth of the walk. *)
Fixpoint mark_subtree (fuel : nat) (b : bool) (h : nat) (d : Dom) : Dom :=
  match fuel with
  | O => d
  | S fuel' =>
      match heap d !! h with
      | None => d
      | Some e =>
          foldl (fun d' c => mark_subtree fuel' b c d') (dom_alter h (set_el_attached b) d)
                (el_children e)
      end
  end.

Definition mark (b : bool) (h : nat) (d : Dom) : Dom :=
  mark_subtree (length (heap d)) b h d.

(** Remove [c] from the child list of its current parent, if any. *)
Definition detach_from_parent (c : nat) (d : Dom) : Dom :=
  match heap d !! c with
  | Some ec =>
      match el_parent ec with
      | Some op =>
          dom_alter op (fun ep => set_el_children (filter (fun x => x ≠ c) (el_children ep)) ep) d
      | None => d
      end
  | None => d
  end.

(** [parent.appendChild(child)]: the child moves to the end of the parent's
    children, and its subtree takes the attachment status of the parent. *)
Definition appendChild_dom (p c : nat) (d : Dom) : Dom :=
  let d1 := detach_from_parent c d in
  let d2 := dom_alter p (fun ep => set_el_children (el_children ep ++ [c]) ep)
              (dom_alter c (set_el_parent (Some p)) d1) in
  match heap d2 !! p with
  | Some ep => mark (el_attached ep) c d2
  | None => d2
  end.

Definition appendChild (p c : nat) : St Dom unit := st_modify (appendChild_dom p c).

(** [el.id = s] *)
Definition setId (h : nat) (s : string) : St Dom unit :=
  st_modify (dom_alter h (set_el_id s)).

(** [el.className = s] *)
Definition setClassName (h : nat) (s : string) : St Dom unit :=
  st_modify (dom_alter h (set_el_classes [s])).

(** [el.classList.add(c)] *)
Definition classListAdd (h : nat) (c : string) : St Dom unit :=
  st_modify (dom_alter h (fun e =>
    if decide (c ∈ el_classes e) then e else set_el_classes (el_classes e ++ [c]) e)).

(** [el.classList.remove(c)] *)
Definition classListRemove (h : nat) (c : string) : St Dom unit :=
  st_modify (dom_alter h (fun e => set_el_classes (filter (fun x => x ≠ c) (el_classes e)) e)).

(** [el.style.<k> = v] *)
Definition setStyle (h : nat) (k v : string) : St Dom unit :=
  st_modify (dom_alter h (set_el_style k v)).

(** [el.textContent = s] (also [el.innerHTML = s], whose markup is not
    parsed in the model): all children are removed and detached, and the
    element keeps one text node holding [s] (none when [s] is empty). *)
Definition text_node (s : string) : option string :=
  if decide (s = "") then None else Some s.

Definition setTextContent_dom (h : nat) (s : string) (d : Dom) : Dom :=
  match heap d !! h with
  | None => d
  | Some e =>
      let d1 := foldl (fun d' c => mark false c (dom_alter c (set_el_parent None) d'))
                      d (el_children e) in
      dom_alter h (fun e' => set_el_text (text_node s) (set_el_children [] e')) d1
  end.

Definition setTextContent (h : nat) (s : string) : St Dom unit :=
  st_modify (setTextContent_dom h s).

(** [el.childNodes[0].textContent = s]: the leading text node, or the
    first element child; an element with no child nodes throws. *)
Definition setFirstChildText (h : nat) (s : string) : St Dom unit :=
  fun d =>
    match heap d !! h with
    | Some e =>
        match el_text e, el_children e with
        | Some _, _ => Ok (tt, dom_alter h (set_el_text (Some s)) d)
        | None, c :: _ => Ok (tt, setTextContent_dom c s d)
        | None, [] => Throw (TypeError "Cannot set properties of undefined (setting 'textContent')") d
        end
    | None => Throw (TypeError "Cannot read properties of undefined (reading 'childNodes')") d
    end.

(** [DOMCacheGetOrSet(id)] of [Cache/DOM.ts] *)
Definition DOMCacheGetOrSet (id : string) : St Dom nat :=
  fun d =>
    match dom_cache d !! id with
    | Some h => Ok (h, d)
    | None =>
        match getElementById d id with
        | Some h => Ok (h, mkDom (heap d) (<[id:=h]> (dom_cache d)))
        | None => Throw (TypeError ("Could not find element with id " +:+ id)) d
        end
    end.

(** [DOMCacheGetOrSet(id).textContent = s] (also [.innerHTML = s]) *)
Definition write_text (id s : string) : St Dom unit :=
  h <- DOMCacheGetOrSet id ;; setTextContent h s.

(** A straight-line block of such assignments, in order: the body of a
    panel whose every statement is [DOMCacheGetOrSet(id).textContent = s]. *)
Fixpoint writes (ws : list (string * string)) : St Dom unit :=
  match ws with
  | [] => st_ret tt
  | [(id, s)] => write_text id s
  | (id, s) :: ws' => write_text id s ;; writes ws'
  end.

(** A page on which every id of [ws] is cached, at a handle of its own. *)
Definition ids_ready (d : Dom) (hs : string -> nat) (ws : list (string * string)) : Prop :=
  (forall id s, (id, s) ∈ ws -> dom_cache d !! id = Some (hs id) /\ hs id < length (heap d)) /\
  (forall id1 id2, id1 ∈ ws.*1 -> id2 ∈ ws.*1 -> hs id1 = hs id2 -> id1 = id2).

(** The subtree below [h] is at most [n] levels deep (a missing handle is
    a leaf, as [mark_subtree] treats it). *)
Fixpoint depth_leb (d : Dom) (n h : nat) : bool :=
  match n with
  | O => false
  | S n' =>
      match heap d !! h with
      | None => true
      | Some e => forallb (depth_leb d n') (el_children e)
      end
  end.

(** Two documents whose elements have the same children. *)
Definition same_children (d d' : Dom) : Prop :=
  forall h, el_children <$> heap d' !! h = el_children <$> heap d !! h.

(** ** Well-formedness: every cached handle denotes an element *)

Definition dom_wf (d : Dom) : Prop :=
  forall id h, dom_cache d !! id = Some h -> h < length (heap d).

(** The evolution every operation respects: the heap only grows, and a
    cached id keeps its element for the lifetime of the page. *)
Definition dom_grows (d d' : Dom) : Prop :=
  length (heap d) <= length (heap d') /\ dom_cache d ⊆ dom_cache d'.

Definition dom_step (d d' : Dom) : Prop := dom_wf d -> dom_wf d' /\ dom_grows d d'.

#[export] Instance dom_step_preorder : PreOrder dom_step.
Proof.
  split.
  - intros d Hwf. split; [done|]. split; [lia|done].
  - intros d1 d2 d3 H12 H23 Hwf.
    destruct (H12 Hwf) as [Hwf2 [Hl12 Hc12]]. destruct (H23 Hwf2) as [Hwf3 [Hl23 Hc23]].
    split; [done|]. split; [lia|]. by transitivity (dom_cache d2).
Qed.

(** Transformers that keep the number of elements and the cache. *)
Definition shape_preserving (f : Dom -> Dom) : Prop :=
  forall d, length (heap (f d)) = length (heap d) /\ dom_cache (f d) = dom_cache d.

(** Two documents with the same number of elements and the same cache. *)
Definition same_shape (d d' : Dom) : Prop :=
  length (heap d') = length (heap d) /\ dom_cache d' = dom_cache d.

(** The text node of the element [h], if the element exists. *)
Definition text_at (d : Dom) (h : nat) : option (option string) := el_text <$> heap d !! h.

(** Transformers that change the text of no element, except perhaps of [x]. *)
Definition text_frame (x : option nat) (f : Dom -> Dom) : Prop :=
  forall d h, x ≠ Some h -> text_at (f d) h = text_at d h.

Lemma dom_alter_shape h f : shape_preserving (dom_alter h f).
Proof. intros d. simpl. by rewrite length_alter. Qed.

Lemma foldl_shape {A} (g : Dom -> A -> Dom) (l : list A) :
  (forall a, shape_preserving (fun d => g d a)) ->
  shape_preserving (fun d => foldl g d l).
Proof.
  intros Hg. induction l as [|a l IH]; intros d; simpl; [done|].
  destruct (IH (g d a)) as [-> ->]. apply Hg.
Qed.

Lemma shape_compose f g :
  shape_preserving f -> shape_preserving g -> shape_preserving (fun d => f (g d)).
Proof. intros Hf Hg d. destruct (Hf (g d)) as [-> ->]. apply Hg. Qed.

Lemma mark_subtree_shape fuel b h : shape_preserving (mark_subtree fuel b h).
Proof.
  revert h. induction fuel as [|fuel IH]; intros h d; simpl; [done|].
  destruct (heap d !! h) as [e|]; [|done].
  apply (shape_compose (fun d' => foldl _ d' _) (dom_alter h _)).
  - apply foldl_shape. intros c. apply IH.
  - apply dom_alter_shape.
Qed.

Lemma mark_shape b h : shape_preserving (mark b h).
Proof. intros d. apply mark_subtree_shape. Qed.

Lemma detach_shape c : shape_preserving (detach_from_parent c).
Proof.
  intros d. unfold detach_from_parent.
  destruct (heap d !! c) as [ec|]; [|done].
  destruct (el_parent ec); [apply dom_alter_shape|done].
Qed.

Lemma appendChild_dom_shape p c : shape_preserving (appendChild_dom p c).
Proof.
  intros d. unfold appendChild_dom.
  destruct (detach_shape c d) as [Hl1 Hc1].
  destruct (dom_alter_shape c (set_el_parent (Some p)) (detach_from_parent c d)) as [Hl2 Hc2].
  destruct (dom_alter_shape p (fun ep => set_el_children (el_children ep ++ [c]) ep)
              (dom_alter c (set_el_parent (Some p)) (detach_from_parent c d))) as [Hl3 Hc3].
  destruct (heap _ !! p) as [ep|].
  - destruct (mark_shape (el_attached ep) c (dom_alter p (fun ep => set_el_children (el_children ep ++ [c]) ep)
              (dom_alter c (set_el_parent (Some p)) (detach_from_parent c d)))) as [-> ->].
    split; congruence.
  - split; congruence.
Qed.

Lemma setTextContent_dom_shape h s : shape_preserving (setTextContent_dom h s).
Proof.
  intros d. unfold setTextContent_dom. destruct (heap d !! h) as [e|]; [|done].
  apply (shape_compose (dom_alter h _) (fun d' => foldl _ d' _)).
  - apply dom_alter_shape.
  - apply foldl_shape. intros c.
    apply (shape_compose (mark false c) (dom_alter c _)); [apply mark_shape|apply dom_alter_shape].
Qed.

Lemma shape_step f d : shape_preserving f -> dom_step d (f d).
Proof.
  intros Hf Hwf. destruct (Hf d) as [Hl Hc]. split.
  - intros id h. rewrite Hc, Hl. apply Hwf.
  - split; [lia|]. by rewrite Hc.
Qed.

Lemma shape_stable f : shape_preserving f -> stable dom_step (st_modify f).
Proof. intros Hf. apply stable_modify. intros d. by apply shape_step. Qed.

Lemma createElement_stable tag : stable dom_step (createElement tag).
Proof.
  intros d h d' [= _ <-] Hwf. split.
  - intros id h' Hid. simpl in *. rewrite length_app. specialize (Hwf id h' Hid). lia.
  - split; simpl; [rewrite length_app; lia|done].
Qed.

Lemma getElementById_lt d id h : getElementById d id = Some h -> h < length (heap d).
Proof.
  unfold getElementById. destruct (list_find _ _) as [[i e]|] eqn:Hf; [|done].
  intros [= <-]. apply list_find_Some in Hf as [Hi _]. by apply lookup_lt_Some in Hi.
Qed.

Lemma DOMCacheGetOrSet_stable id : stable dom_step (DOMCacheGetOrSet id).
Proof.
  intros d h d' Hrun Hwf. unfold DOMCacheGetOrSet in Hrun.
  destruct (dom_cache d !! id) as [h0|] eqn:Hc.
  - injection Hrun as <- <-. split; [done|]. split; [lia|done].
  - destruct (getElementById d id) as [h1|] eqn:Hg; [|done].
    injection Hrun as <- <-. apply getElementById_lt in Hg. split.
    + intros id' h'. simpl. rewrite lookup_insert.
      case_decide; [intros [= <-]; done|apply Hwf].
    + split; simpl; [lia|]. by apply insert_subseteq.
Qed.

Lemma setFirstChildText_stable h s : stable dom_step (setFirstChildText h s).
Proof.
  intros d a d' Hrun. unfold setFirstChildText in Hrun.
  destruct (heap d !! h) as [e|]; [|done].
  destruct (el_text e), (el_children e); try done;
    injection Hrun as _ <-; apply shape_step;
    auto using dom_alter_shape, setTextContent_dom_shape.
Qed.

Lemma appendChild_stable p c : stable dom_step (appendChild p c).
Proof. apply shape_stable, appendChild_dom_shape. Qed.
Lemma setId_stable h s : stable dom_step (setId h s).
Proof. apply shape_stable, dom_alter_shape. Qed.
Lemma setClassName_stable h s : stable dom_step (setClassName h s).
Proof. apply shape_stable, dom_alter_shape. Qed.
Lemma classListAdd_stable h c : stable dom_step (classListAdd h c).
Proof. apply shape_stable, dom_alter_shape. Qed.
Lemma classListRemove_stable h c : stable dom_step (classListRemove h c).
Proof. apply shape_stable, dom_alter_shape. Qed.
Lemma setStyle_stable h k v : stable dom_step (setStyle h k v).
Proof. apply shape_stable, dom_alter_shape. Qed.
Lemma setTextContent_stable h s : stable dom_step (setTextContent h s).
Proof. apply shape_stable, setTextContent_dom_shape. Qed.

(** Every primitive respects [dom_step] on every outcome: its exceptions
    are thrown before it writes anything. *)
Ltac throw_same :=
  let H := fresh in
  intros ? ? ? H; cbv [createElement DOMCacheGetOrSet setFirstChildText appendChild setId
    setClassName classListAdd classListRemove setStyle setTextContent st_modify] in H;
  repeat case_match; congruence.

Lemma createElement_always tag : always dom_step (createElement tag).
Proof. apply always_of_stable; [apply _|apply createElement_stable|throw_same]. Qed.
Lemma DOMCacheGetOrSet_always id : always dom_step (DOMCacheGetOrSet id).
Proof. apply always_of_stable; [apply _|apply DOMCacheGetOrSet_stable|throw_same]. Qed.
Lemma setFirstChildText_always h s : always dom_step (setFirstChildText h s).
Proof. apply always_of_stable; [apply _|apply setFirstChildText_stable|throw_same]. Qed.
Lemma appendChild_always p c : always dom_step (appendChild p c).
Proof. apply always_of_stable; [apply _|apply appendChild_stable|throw_same]. Qed.
Lemma setId_always h s : always dom_step (setId h s).
Proof. apply always_of_stable; [apply _|apply setId_stable|throw_same]. Qed.
Lemma setClassName_always h s : always dom_step (setClassName h s).
Proof. apply always_of_stable; [apply _|apply setClassName_stable|throw_same]. Qed.
Lemma classListAdd_always h c : always dom_step (classListAdd h c).
Proof. apply always_of_stable; [apply _|apply classListAdd_stable|throw_same]. Qed.
Lemma classListRemove_always h c : always dom_step (classListRemove h c).
Proof. apply always_of_stable; [apply _|apply classListRemove_stable|throw_same]. Qed.
Lemma setStyle_always h k v : always dom_step (setStyle h k v).
Proof. apply always_of_stable; [apply _|apply setStyle_stable|throw_same]. Qed.
Lemma setTextContent_always h s : always dom_step (setTextContent h s).
Proof. apply always_of_stable; [apply _|apply setTextContent_stable|throw_same]. Qed.

#[export] Hint Resolve createElement_always DOMCacheGetOrSet_always setFirstChildText_always
  appendChild_always setId_always setClassName_always classListAdd_always
  classListRemove_always setStyle_always setTextContent_always : stats.

(** Solve [always dom_step m] for a handler [m] built from the primitives. *)
Ltac solve_dom_always :=
  repeat first
    [ progress intros
    | apply always_bind; try (apply _)
    | apply always_forM_; try (apply _)
    | apply always_if; try (apply _)
    | match goal with |- always _ (if ?c then _ else _) => destruct c end
    | apply always_ret; try (apply _)
    | solve [eauto with stats] ].

(** ** The primitives on a heap whose last elements are known

    The render engine creates elements at the end of the heap and then
    updates them; these lemmas compute each primitive on such a heap. *)

Lemma alter_insert_lookup {A} (f : A -> A) (l : list A) i x :
  l !! i = Some x -> alter f i l = <[i := f x]> l.
Proof.
  intros Hi. apply list_eq. intros j. rewrite list_lookup_alter.
  destruct (decide (i = j)) as [<-|Hne].
  - rewrite Hi. simpl. rewrite list_lookup_insert_eq; [done|]. by apply lookup_lt_Some in Hi.
  - by rewrite list_lookup_insert_ne.
Qed.

Lemma dom_alter_last L e c f :
  dom_alter (length L) f (mkDom (L ++ [e]) c) = mkDom (L ++ [f e]) c.
Proof. unfold dom_alter. simpl. f_equal. rewrite <- (Nat.add_0_r (length L)), alter_app_r. done. Qed.

Lemma lookup_last {A} (L : list A) e : (L ++ [e]) !! length L = Some e.
Proof. rewrite lookup_app_r by lia. by rewrite Nat.sub_diag. Qed.

Lemma setTextContent_last_leaf L e c s :
  el_children e = [] ->
  setTextContent_dom (length L) s (mkDom (L ++ [e]) c) =
  mkDom (L ++ [set_el_text (text_node s) (set_el_children [] e)]) c.
Proof.
  intros Hch. unfold setTextContent_dom. simpl heap. rewrite lookup_last, Hch. simpl.
  by rewrite dom_alter_last.
Qed.

Lemma mark_subtree_leaf fuel b h d e :
  heap d !! h = Some e -> el_children e = [] ->
  mark_subtree (S fuel) b h d = dom_alter h (set_el_attached b) d.
Proof. intros Hh Hch. simpl. by rewrite Hh, Hch. Qed.


Lemma detach_orphan d c ec :
  heap d !! c = Some ec -> el_parent ec = None -> detach_from_parent c d = d.
Proof. intros Hc Hp. unfold detach_from_parent. by rewrite Hc, Hp. Qed.

Lemma lookup_last' {A} (L : list A) e n : n = length L -> (L ++ [e]) !! n = Some e.
Proof. intros ->. apply lookup_last. Qed.

Lemma dom_alter_last' L e c f n :
  n = length L -> dom_alter n f (mkDom (L ++ [e]) c) = mkDom (L ++ [f e]) c.
Proof. intros ->. apply dom_alter_last. Qed.

Lemma dom_alter_before_last L e1 e2 c f :
  dom_alter (length L) f (mkDom ((L ++ [e1]) ++ [e2]) c) = mkDom ((L ++ [f e1]) ++ [e2]) c.
Proof.
  unfold dom_alter. simpl. f_equal.
  rewrite alter_app_l by (rewrite length_app; simpl; lia).
  rewrite <- (Nat.add_0_r (length L)), alter_app_r. done.
Qed.

(** Appending a fresh leaf to the element created just before it. *)
Lemma appendChild_fresh_leaf L e1 e2 c n :
  n = S (length L) ->
  el_parent e2 = None -> el_children e2 = [] -> el_attached e1 = false ->
  appendChild_dom (length L) n (mkDom ((L ++ [e1]) ++ [e2]) c) =
  mkDom ((L ++ [set_el_children (el_children e1 ++ [n]) e1]) ++
         [set_el_attached false (set_el_parent (Some (length L)) e2)]) c.
Proof.
  intros Hn Hp2 Hc2 Ha1. unfold appendChild_dom.
  assert (Hn' : forall e, n = length (L ++ [e])) by (intros; rewrite length_app; simpl; lia).
  rewrite (detach_orphan _ _ e2) by (apply lookup_last', Hn' || done).
  rewrite (dom_alter_last' _ _ _ _ n) by apply Hn'. rewrite dom_alter_before_last.
  cbn [heap]. rewrite lookup_app_l by (rewrite length_app; simpl; lia).
  rewrite lookup_last. cbn [el_attached set_el_children]. rewrite Ha1.
  unfold mark. cbn [heap]. rewrite length_app. simpl length. rewrite Nat.add_1_r.
  erewrite mark_subtree_leaf; [|apply lookup_last', Hn'|done].
  rewrite (dom_alter_last' _ _ _ _ n) by apply Hn'. done.
Qed.

Lemma dom_alter_before_last' L e1 e2 c f n :
  n = length L ->
  dom_alter n f (mkDom ((L ++ [e1]) ++ [e2]) c) = mkDom ((L ++ [f e1]) ++ [e2]) c.
Proof. intros ->. apply dom_alter_before_last. Qed.

Lemma dom_alter_old L L2 c f p ep :
  L !! p = Some ep ->
  dom_alter p f (mkDom (L ++ L2) c) = mkDom (<[p := f ep]> L ++ L2) c.
Proof.
  intros Hp. unfold dom_alter. simpl. f_equal.
  rewrite alter_app_l by (by apply lookup_lt_Some in Hp).
  by rewrite (alter_insert_lookup _ _ _ ep).
Qed.

Lemma mark_subtree_S fuel b h d :
  mark_subtree (S fuel) b h d =
  match heap d !! h with
  | None => d
  | Some e => foldl (fun d' c => mark_subtree fuel b c d') (dom_alter h (set_el_attached b) d) (el_children e)
  end.
Proof. reflexivity. Qed.

Lemma mark_subtree_one_child fuel b h c d e ec :
  heap d !! h = Some e -> el_children e = [c] -> h ≠ c ->
  heap d !! c = Some ec -> el_children ec = [] ->
  mark_subtree (S (S fuel)) b h d = dom_alter c (set_el_attached b) (dom_alter h (set_el_attached b) d).
Proof.
  intros Hh Hch Hne Hc Hcc. rewrite mark_subtree_S, Hh, Hch. cbn [foldl].
  erewrite mark_subtree_leaf; [done| |done].
  unfold dom_alter. cbn [heap]. by rewrite list_lookup_alter_ne.
Qed.

(** Appending a freshly built line (an element and its one leaf child) to
    an attached element of the old part of the heap. *)
Lemma appendChild_fresh_line L e1 e2 c p ep n :
  n = length L -> L !! p = Some ep -> el_attached ep = true ->
  el_parent e1 = None -> el_children e1 = [S n] -> el_children e2 = [] ->
  appendChild_dom p n (mkDom ((L ++ [e1]) ++ [e2]) c) =
  mkDom ((<[p := set_el_children (el_children ep ++ [n]) ep]> L ++
          [set_el_attached true (set_el_parent (Some p) e1)]) ++ [set_el_attached true e2]) c.
Proof.
  intros Hn Hp Ha Hp1 Hc1 Hc2. pose proof (lookup_lt_Some _ _ _ Hp) as Hlt.
  unfold appendChild_dom.
  rewrite (detach_orphan _ _ e1); [| |done].
  2:{ cbn [heap]. rewrite lookup_app_l by (rewrite length_app; simpl; lia). by apply lookup_last'. }
  rewrite (dom_alter_before_last' _ _ _ _ _ n) by done.
  rewrite <- app_assoc, (dom_alter_old _ _ _ _ _ ep) by done.
  cbn [heap]. rewrite lookup_app_l by (rewrite length_insert; lia).
  rewrite list_lookup_insert_eq by lia. cbn [el_attached set_el_children]. rewrite Ha.
  unfold mark. cbn [heap]. rewrite length_app, length_insert. simpl length.
  rewrite Nat.add_succ_r, Nat.add_1_r.
  rewrite (mark_subtree_one_child _ _ n (S n) _ (set_el_parent (Some p) e1) e2); [| | |lia| |done].
  - rewrite app_assoc, (dom_alter_before_last' _ _ _ _ _ n) by (rewrite length_insert; done).
    rewrite (dom_alter_last' _ _ _ _ (S n)); [done|].
    rewrite length_app, length_insert. simpl. lia.
  - cbn [heap]. rewrite lookup_app_r by (rewrite length_insert; lia).
    rewrite length_insert, Hn, Nat.sub_diag. done.
  - done.
  - cbn [heap]. rewrite lookup_app_r by (rewrite length_insert; lia).
    rewrite length_insert, Hn. replace (S (length L) - length L) with 1 by lia. done.
Qed.

Lemma setTextContent_last_leaf' L e c s n :
  n = length L -> el_children e = [] ->
  setTextContent_dom n s (mkDom (L ++ [e]) c) =
  mkDom (L ++ [set_el_text (text_node s) (set_el_children [] e)]) c.
Proof. intros ->. apply setTextContent_last_leaf. Qed.

(** ** The id cache *)

Lemma DOMCacheGetOrSet_cached d id h :
  dom_cache d !! id = Some h -> DOMCacheGetOrSet id d = Ok (h, d).
Proof. intros Hc. unfold DOMCacheGetOrSet. by rewrite Hc. Qed.

Lemma getElementById_unique d id h e :
  heap d !! h = Some e -> id_match id e ->
  (forall j e', heap d !! j = Some e' -> id_match id e' -> j = h) ->
  getElementById d id = Some h.
Proof.
  intros Hh Hm Hu. unfold getElementById.
  by rewrite (list_find_unique _ _ h e).
Qed.

Lemma DOMCacheGetOrSet_fresh d id h e :
  dom_cache d !! id = None -> heap d !! h = Some e -> id_match id e ->
  (forall j e', heap d !! j = Some e' -> id_match id e' -> j = h) ->
  DOMCacheGetOrSet id d = Ok (h, mkDom (heap d) (<[id:=h]> (dom_cache d))).
Proof.
  intros Hc Hh Hm Hu. unfold DOMCacheGetOrSet. rewrite Hc.
  by rewrite (getElementById_unique d id h e).
Qed.

Lemma DOMCacheGetOrSet_missing d id :
  dom_cache d !! id = None -> getElementById d id = None ->
  DOMCacheGetOrSet id d = Throw (TypeError ("Could not find element with id " +:+ id)) d.
Proof. intros Hc Hg. unfold DOMCacheGetOrSet. by rewrite Hc, Hg. Qed.

Lemma getElementById_None d id :
  getElementById d id = None <-> Forall (fun e => ¬ id_match id e) (heap d).
Proof.
  unfold getElementById.
  destruct (list_find (id_match id) (heap d)) as [[i e]|] eqn:E; simpl; split; intros H; try done.
  - apply (list_find_None (id_match id)) in H. congruence.
  - by apply (list_find_None (id_match id)).
Qed.

Lemma setTextContent_same d h e s :
  heap d !! h = Some e -> el_children e = [] -> el_text e = text_node s ->
  setTextContent_dom h s d = d.
Proof.
  intros Hh Hc Ht. unfold setTextContent_dom. rewrite Hh, Hc. simpl.
  destruct d as [hp c]. unfold dom_alter. simpl in *. f_equal.
  rewrite (alter_insert_lookup _ _ _ e) by done. apply list_insert_id. rewrite Hh. f_equal.
  destruct e; cbn in *; by subst.
Qed.

Lemma DOMCacheGetOrSet_caches d id h d' :
  DOMCacheGetOrSet id d = Ok (h, d') -> dom_cache d' !! id = Some h.
Proof.
  unfold DOMCacheGetOrSet. destruct (dom_cache d !! id) eqn:Hc; [by intros [= <- <-]|].
  destruct (getElementById d id); [|done]. intros [= <- <-]. simpl. apply lookup_insert_eq.
Qed.

Lemma classCount_pos d c h e :
  heap d !! h = Some e -> class_match c e -> classCount d c ≠ 0.
Proof.
  intros Hh Hm. unfold classCount. intros Hlen. apply length_zero_iff_nil in Hlen.
  assert (He : e ∈ filter (class_match c) (heap d)).
  { apply list_elem_of_filter. split; [done|]. by eapply list_elem_of_lookup_2. }
  rewrite Hlen in He. set_solver.
Qed.

Lemma length_filter_insert_same {A} (P : A -> Prop) `{!forall x, Decision (P x)}
      (l : list A) i x y :
  l !! i = Some y -> (P x <-> P y) -> length (filter P (<[i:=x]> l)) = length (filter P l).
Proof.
  revert i. induction l as [|z l IH]; intros [|i] Hi Hxy; simpl in *; try done.
  - injection Hi as ->. rewrite !filter_cons.
    destruct (decide (P x)), (decide (P y)); simpl; tauto.
  - rewrite !filter_cons. destruct (decide (P z)); simpl; by rewrite IH.
Qed.

(** ** Which operations change which texts *)

Lemma dom_alter_text_at h g d h' :
  text_at (dom_alter h g d) h' =
  if decide (h = h') then (fun e => el_text (g e)) <$> heap d !! h else text_at d h'.
Proof.
  unfold text_at, dom_alter. simpl. case_decide as Hh.
  - subst. rewrite list_lookup_alter_eq. by destruct (heap d !! h').
  - by rewrite list_lookup_alter_ne.
Qed.

Lemma dom_alter_text_frame h g : text_frame (Some h) (dom_alter h g).
Proof. intros d h' Hne. rewrite dom_alter_text_at. case_decide; [congruence|done]. Qed.

Lemma dom_alter_text_keep h g :
  (forall e, el_text (g e) = el_text e) -> text_frame None (dom_alter h g).
Proof.
  intros Hg d h' _. rewrite dom_alter_text_at. case_decide as Hh; [|done].
  subst. unfold text_at. destruct (heap d !! h'); simpl; [by rewrite Hg|done].
Qed.

Lemma text_frame_compose x f g :
  text_frame x f -> text_frame x g -> text_frame x (fun d => f (g d)).
Proof. intros Hf Hg d h Hx. rewrite Hf, Hg; done. Qed.

Lemma text_frame_foldl {A} x (g : Dom -> A -> Dom) (l : list A) :
  (forall a, text_frame x (fun d => g d a)) -> text_frame x (fun d => foldl g d l).
Proof.
  intros Hg. induction l as [|a l IH]; intros d h Hx; simpl; [done|].
  rewrite IH by done. by apply (Hg a).
Qed.

Lemma text_frame_weaken f h : text_frame None f -> text_frame (Some h) f.
Proof. intros Hf d h' _. by apply Hf. Qed.

Lemma mark_subtree_text fuel b h : text_frame None (mark_subtree fuel b h).
Proof.
  revert h. induction fuel as [|fuel IH]; intros h d h' Hx; simpl; [done|].
  destruct (heap d !! h) as [e|]; [|done].
  apply (text_frame_compose None (fun d' => foldl _ d' _) (dom_alter h _)); [|by apply dom_alter_text_keep|done].
  apply text_frame_foldl. intros c. apply IH.
Qed.

Lemma mark_text b h : text_frame None (mark b h).
Proof. intros d h' Hx. apply mark_subtree_text, Hx. Qed.

Lemma setTextContent_dom_text h s : text_frame (Some h) (setTextContent_dom h s).
Proof.
  intros d h' Hx. unfold setTextContent_dom. destruct (heap d !! h) as [e|]; [|done].
  apply (text_frame_compose (Some h) (dom_alter h _) (fun d' => foldl _ d' _));
    [apply dom_alter_text_frame| |done].
  apply text_frame_foldl. intros c.
  apply text_frame_weaken, (text_frame_compose None (mark false c) (dom_alter c _)).
  - apply mark_text.
  - by apply dom_alter_text_keep.
Qed.

Lemma setTextContent_dom_text_at h s d :
  h < length (heap d) -> text_at (setTextContent_dom h s d) h = Some (text_node s).
Proof.
  intros Hlt. unfold setTextContent_dom.
  destruct (heap d !! h) as [e|] eqn:He; [|apply lookup_ge_None in He; lia].
  rewrite dom_alter_text_at, decide_True by done.
  set (d1 := foldl _ d _).
  assert (Hl : length (heap d1) = length (heap d)).
  { apply (foldl_shape (fun d' c => mark false c (dom_alter c (set_el_parent None) d'))).
    intros c. apply (shape_compose (mark false c) (dom_alter c _)); [apply mark_shape|apply dom_alter_shape]. }
  destruct (heap d1 !! h) eqn:Hd1; [done|]. apply lookup_ge_None in Hd1. lia.
Qed.

Lemma setFirstChildText_text h s d e :
  heap d !! h = Some e -> el_text e ≠ None ->
  setFirstChildText h s d = Ok (tt, dom_alter h (set_el_text (Some s)) d).
Proof. intros Hh Ht. unfold setFirstChildText. rewrite Hh. by destruct (el_text e). Qed.

Lemma write_text_cached id s d h :
  dom_cache d !! id = Some h -> write_text id s d = Ok (tt, setTextContent_dom h s d).
Proof. intros Hc. unfold write_text. by rewrite (st_bind_Ok _ _ _ _ _ (DOMCacheGetOrSet_cached _ _ _ Hc)). Qed.

(** A write through the cache, run on a document with the cache of [d0]. *)
Lemma write_text_bind {A} id s h (k : unit -> St Dom A) d0 d :
  dom_cache d = dom_cache d0 -> dom_cache d0 !! id = Some h ->
  st_bind (write_text id s) k d = k tt (setTextContent_dom h s d).
Proof. intros E Hc. rewrite <- E in Hc. by rewrite (st_bind_Ok _ _ _ _ _ (write_text_cached id s d h Hc)). Qed.

Lemma setTextContent_dom_cache h s d : dom_cache (setTextContent_dom h s d) = dom_cache d.
Proof. apply setTextContent_dom_shape. Qed.

Lemma setTextContent_dom_length h s d : length (heap (setTextContent_dom h s d)) = length (heap d).
Proof. apply setTextContent_dom_shape. Qed.

Lemma writes_cons id s ws d :
  writes ((id, s) :: ws) d = st_bind (write_text id s) (fun _ => writes ws) d.
Proof. destruct ws as [|w ws]; [symmetry; apply st_bind_ret_unit|reflexivity]. Qed.

(** A block of writes to cached ids, at handles [hs id] that distinct ids
    do not share: it returns, keeps the shape of the page, leaves every
    other node's text alone, and every id shows the text written to it. *)
Lemma writes_run (hs : string -> nat) ws : forall d,
  NoDup ws.*1 ->
  (forall id s, (id, s) ∈ ws -> dom_cache d !! id = Some (hs id) /\ hs id < length (heap d)) ->
  (forall id1 id2, id1 ∈ ws.*1 -> id2 ∈ ws.*1 -> hs id1 = hs id2 -> id1 = id2) ->
  exists d', writes ws d = Ok (tt, d') /\ same_shape d d' /\
    (forall id s, (id, s) ∈ ws -> text_at d' (hs id) = Some (text_node s)) /\
    (forall h, (forall id, id ∈ ws.*1 -> hs id ≠ h) -> text_at d' h = text_at d h).
Proof.
  induction ws as [|[id s] ws IH]; intros d Hnd Hc Hinj.
  { exists d. split; [done|]. split; [split; done|]. split; [intros ? ? Hin; set_solver|done]. }
  rewrite fmap_cons in Hnd. apply NoDup_cons in Hnd as [Hnin Hnd]. cbn [fst] in Hnin.
  destruct (Hc id s) as [Hid Hlt]; [set_solver|].
  set (d1 := setTextContent_dom (hs id) s d).
  destruct (IH d1) as (d2 & R2 & [L2 C2] & W2 & F2); [done| |by intros; apply Hinj; set_solver|].
  { intros id' s' Hin. unfold d1. rewrite setTextContent_dom_cache, setTextContent_dom_length.
    apply (Hc id' s'). set_solver. }
  exists d2. rewrite writes_cons, (write_text_bind _ _ (hs id) _ d d) by done. split; [done|]. split; [|split].
  - split; [rewrite L2; apply setTextContent_dom_length|rewrite C2; apply setTextContent_dom_cache].
  - intros id' s' [[= -> ->]|Hin]%elem_of_cons.
    + rewrite F2; [by apply setTextContent_dom_text_at|]. intros id' Hid' Heq.
      apply Hnin. rewrite <- (Hinj id' id); set_solver.
    + by apply W2.
  - intros h Hh. rewrite F2 by set_solver. apply setTextContent_dom_text. intros [= <-].
    apply (Hh id). set_solver. done.
Qed.

Lemma ids_ready_check d hs ws :
  Forall (fun id => dom_cache d !! id = Some (hs id) /\ hs id < length (heap d)) ws.*1 ->
  NoDup (hs <$> ws.*1) -> ids_ready d hs ws.
Proof.
  intros Hall Hnd. rewrite Forall_forall in Hall. split.
  - intros id s Hin. apply Hall. apply (list_elem_of_fmap_2 fst _ (id, s) Hin).
  - apply NoDup_fmap_inj, Hnd.
Qed.

(** A block with distinct ids, on a page where they are ready, returns,
    creates nothing and shows every text at its id's node. *)
Lemma writes_ready d hs ws :
  NoDup ws.*1 -> ids_ready d hs ws ->
  exists d', writes ws d = Ok (tt, d') /\ same_shape d d' /\
    forall id s, (id, s) ∈ ws -> text_at d' (hs id) = Some (text_node s).
Proof.
  intros Hnd [Hc Hinj]. destruct (writes_run hs ws d Hnd Hc Hinj) as (d' & R & S & W & _).
  by exists d'.
Qed.

(** ** The subtree walk terminates within the subtree's depth *)

#[export] Instance same_children_preorder : PreOrder same_children.
Proof. split; [intros d h; done|intros d1 d2 d3 H12 H23 h; by rewrite H23, H12]. Qed.

Lemma dom_alter_children h f d :
  (forall e, el_children (f e) = el_children e) -> same_children d (dom_alter h f d).
Proof.
  intros Hf h'. unfold dom_alter. simpl. destruct (decide (h = h')) as [->|Hne].
  - rewrite list_lookup_alter_eq. destruct (heap d !! h'); simpl; [by rewrite Hf|done].
  - by rewrite list_lookup_alter_ne.
Qed.

Lemma foldl_children {A} (g : Dom -> A -> Dom) (l : list A) d :
  (forall d' a, same_children d' (g d' a)) -> same_children d (foldl g d l).
Proof.
  intros Hg. revert d. induction l as [|a l IH]; intros d; simpl; [reflexivity|].
  etransitivity; [apply Hg|apply IH].
Qed.

Lemma mark_subtree_children fuel b h d : same_children d (mark_subtree fuel b h d).
Proof.
  revert h d. induction fuel as [|fuel IH]; intros h d; simpl; [reflexivity|].
  destruct (heap d !! h) as [e|]; [|reflexivity].
  transitivity (dom_alter h (set_el_attached b) d); [apply dom_alter_children; by intros []|].
  apply foldl_children. intros d' c. apply IH.
Qed.

Lemma depth_leb_children d d' n h :
  same_children d d' -> depth_leb d' n h = depth_leb d n h.
Proof.
  intros Hs. revert h. induction n as [|n IH]; intros h; simpl; [done|].
  pose proof (Hs h) as E.
  destruct (heap d' !! h) as [e'|], (heap d !! h) as [e|]; simpl in E; try discriminate; [|done].
  injection E as ->. induction (el_children e) as [|c cs IHc]; simpl; [done|]. by rewrite IH, IHc.
Qed.

(** A fold whose steps agree on every state that has the children of [d]. *)
Lemma foldl_ext_children {A} (g1 g2 : Dom -> A -> Dom) (l : list A) d :
  (forall d' a, same_children d' (g2 d' a)) ->
  (forall d' a, a ∈ l -> same_children d d' -> g1 d' a = g2 d' a) ->
  forall d', same_children d d' -> foldl g1 d' l = foldl g2 d' l.
Proof.
  intros Hg2 Heq. induction l as [|a l IH]; intros d' Hd; simpl; [done|].
  rewrite Heq by set_solver. apply IH; [set_solver|]. etransitivity; [exact Hd|apply Hg2].
Qed.

(** Fuel beyond the depth of the subtree is never used: the walk of a
    subtree at most [n] levels deep is over after [n] steps. *)
Lemma mark_subtree_fuel n k b h d :
  depth_leb d n h = true -> mark_subtree (n + k) b h d = mark_subtree n b h d.
Proof.
  revert h d. induction n as [|n IH]; intros h d Hd; [discriminate|].
  simpl in Hd |- *. destruct (heap d !! h) as [e|]; [|done].
  apply (foldl_ext_children _ _ _ d).
  - intros d' c. apply mark_subtree_children.
  - intros d' c Hc Hs. apply IH. rewrite (depth_leb_children d d') by done.
    apply forallb_forall with (x := c) in Hd; [done|]. by apply list_elem_of_In.
  - apply dom_alter_children. by intros [].
Qed.

Lemma same_shape_trans d1 d2 d3 : same_shape d1 d2 -> same_shape d2 d3 -> same_shape d1 d3.
Proof. intros [L1 C1] [L2 C2]. split; congruence. Qed.

Lemma shape_same_shape f d : shape_preserving f -> same_shape d (f d).
Proof. intros Hf. apply Hf. Qed.

#[export] Hint Rewrite setTextContent_dom_cache setTextContent_dom_length : stats.

(** ** No element gains an id *)

(** Every element of [d'] that [getElementById(id)] would find was found
    in [d]: ids never change and no element is attached. *)
Definition no_new_match (id : string) (d d' : Dom) : Prop :=
  forall h e', heap d' !! h = Some e' -> id_match id e' ->
  exists e, heap d !! h = Some e /\ id_match id e.

#[export] Instance no_new_match_preorder id : PreOrder (no_new_match id).
Proof.
  split; [intros d h e' He' Hm; by exists e'|].
  intros d1 d2 d3 H12 H23 h e3 He3 Hm. destruct (H23 h e3 He3 Hm) as (e2 & He2 & Hm2). eauto.
Qed.

Lemma dom_alter_no_new_match id h f d :
  (forall e, id_match id (f e) -> id_match id e) -> no_new_match id d (dom_alter h f d).
Proof.
  intros Hf h' e' He' Hm. unfold dom_alter in He'. simpl in He'. destruct (decide (h = h')) as [->|Hne].
  - rewrite list_lookup_alter_eq in He'. destruct (heap d !! h') as [e|]; simpl in He'; [|done].
    injection He' as <-. eauto.
  - rewrite list_lookup_alter_ne in He' by done. eauto.
Qed.

Lemma foldl_no_new_match {A} id (g : Dom -> A -> Dom) (l : list A) d :
  (forall d' a, no_new_match id d' (g d' a)) -> no_new_match id d (foldl g d l).
Proof.
  intros Hg. revert d. induction l as [|a l IH]; intros d; simpl; [reflexivity|].
  etransitivity; [apply Hg|apply IH].
Qed.

(** Detaching a subtree attaches nothing. *)
Lemma mark_subtree_detach_no_new_match id fuel h d :
  no_new_match id d (mark_subtree fuel false h d).
Proof.
  revert h d. induction fuel as [|fuel IH]; intros h d; simpl; [reflexivity|].
  destruct (heap d !! h) as [e|]; [|reflexivity].
  transitivity (dom_alter h (set_el_attached false) d); [apply dom_alter_no_new_match; intros [] [Ha _]; cbn in Ha; discriminate Ha|].
  apply foldl_no_new_match. intros d' c. apply IH.
Qed.

Lemma setTextContent_dom_no_new_match id h s d : no_new_match id d (setTextContent_dom h s d).
Proof.
  unfold setTextContent_dom. destruct (heap d !! h) as [e|]; [|reflexivity].
  etransitivity; [|apply dom_alter_no_new_match; by intros []].
  apply foldl_no_new_match. intros d' c. etransitivity; [|apply mark_subtree_detach_no_new_match].
  apply dom_alter_no_new_match. by intros [].
Qed.

Lemma write_text_no_new_match id id' s : always (no_new_match id) (write_text id' s).
Proof.
  apply always_bind; [apply _| |].
  - intros d h e' He' Hm. unfold DOMCacheGetOrSet in He'. repeat case_match; simpl in He'; eauto.
  - intros h d. apply setTextContent_dom_no_new_match.
Qed.

Lemma writes_no_new_match id ws : always (no_new_match id) (writes ws).
Proof.
  induction ws as [|[id' s] ws IH]; [apply always_ret; apply _|].
  intros d. rewrite writes_cons. revert d.
  apply always_bind; [apply _|apply write_text_no_new_match|done].
Qed.

Lemma no_new_match_getElementById id d d' :
  no_new_match id d d' -> getElementById d id = None -> getElementById d' id = None.
Proof.
  rewrite !getElementById_None, !Forall_lookup. intros Hn Hall h e' He' Hm.
  destruct (Hn h e' He' Hm) as (e & He & Hme). exact (Hall h e He Hme).
Qed.

(** ** Inline styles *)

(** The inline style of the element [h], if the element exists. *)
Definition style_at (d : Dom) (h : nat) : option (gmap string string) := el_style <$> heap d !! h.

(** Two documents whose elements have the same inline styles. *)
Definition same_styles (d d' : Dom) : Prop := forall h, style_at d' h = style_at d h.

#[export] Instance same_styles_preorder : PreOrder same_styles.
Proof. split; [intros d h; done|intros d1 d2 d3 H12 H23 h; by rewrite H23, H12]. Qed.

Lemma dom_alter_same_styles h f d :
  (forall e, el_style (f e) = el_style e) -> same_styles d (dom_alter h f d).
Proof.
  intros Hf h'. unfold style_at, dom_alter. simpl. destruct (decide (h = h')) as [->|Hne].
  - rewrite list_lookup_alter_eq. destruct (heap d !! h'); simpl; [by rewrite Hf|done].
  - by rewrite list_lookup_alter_ne.
Qed.

Lemma dom_alter_style_at h f d :
  style_at (dom_alter h f d) h = (fun e => el_style (f e)) <$> heap d !! h.
Proof. unfold style_at, dom_alter. simpl. rewrite list_lookup_alter_eq. by destruct (heap d !! h). Qed.

Lemma foldl_same_styles {A} (g : Dom -> A -> Dom) (l : list A) d :
  (forall d' a, same_styles d' (g d' a)) -> same_styles d (foldl g d l).
Proof.
  intros Hg. revert d. induction l as [|a l IH]; intros d; simpl; [reflexivity|].
  etransitivity; [apply Hg|apply IH].
Qed.

Lemma mark_subtree_same_styles fuel b h d : same_styles d (mark_subtree fuel b h d).
Proof.
  revert h d. induction fuel as [|fuel IH]; intros h d; simpl; [reflexivity|].
  destruct (heap d !! h) as [e|]; [|reflexivity].
  transitivity (dom_alter h (set_el_attached b) d); [apply dom_alter_same_styles; by intros []|].
  apply foldl_same_styles. intros d' c. apply IH.
Qed.

Lemma setTextContent_dom_same_styles h s d : same_styles d (setTextContent_dom h s d).
Proof.
  unfold setTextContent_dom. destruct (heap d !! h) as [e|]; [|reflexivity].
  etransitivity; [|apply dom_alter_same_styles; by intros []].
  apply foldl_same_styles. intros d' c. etransitivity; [|apply mark_subtree_same_styles].
  apply dom_alter_same_styles. by intros [].
Qed.

Lemma DOMCacheGetOrSet_same_styles id d h d' :
  DOMCacheGetOrSet id d = Ok (h, d') -> same_styles d d'.
Proof. unfold DOMCacheGetOrSet. repeat case_match; intros [= <- <-]; intros h'; done. Qed.

Lemma write_text_same_styles id s d d' : write_text id s d = Ok (tt, d') -> same_styles d d'.
Proof.
  unfold write_text, st_bind. destruct (DOMCacheGetOrSet id d) as [[h d1]|e d1] eqn:E; [|done].
  intros [= <-]. etransitivity; [exact (DOMCacheGetOrSet_same_styles _ _ _ _ E)|].
  apply setTextContent_dom_same_styles.
Qed.
