(* ===== verification/Format.v ===== *)
(** * The number formatter [format] used by every statistics line

    Modelled from the specification (the formatter lives in [Synergism.ts],
    which is not under [src/]): [format(value, accuracy, long)] accepts a
    JavaScript number or a [break_infinity] [Decimal] ([NumVal]); below the
    magnitude threshold ([10^6], or [10^13] when [long] is set) it prints the
    value in fixed point with exactly [accuracy] fractional digits, rounding
    half away from zero like [toFixed]; at or above the threshold it prints
    scientific notation with a two-digit mantissa fraction.  The file proves
    the round trip of the fixed-point form through [parse_fixed]. *)

From S2P Require Import Prelude.
From Stdlib Require Import NArith QArith Qround Qabs Ascii.

(** ** Values: [number | Decimal] *)

Inductive NumVal : Type :=
| JsNumber (q : Q)
| BigDecimal (mantissa : Q) (exponent : Z).

Definition num_value (v : NumVal) : Q :=
  match v with
  | JsNumber q => q
  | BigDecimal m e => (m * Qpower (inject_Z 10) e)%Q
  end.

(** ** Digits *)

Definition digit_char (n : N) : ascii := ascii_of_N (48 + n).

Definition char_digit (c : ascii) : option N :=
  let k := N_of_ascii c in
  if decide (48 <= k < 58)%N then Some (k - 48)%N else None.

(** The [k] low-order decimal digits of [n], most significant first. *)
Fixpoint fixed_digits (k : nat) (n : N) : string :=
  match k with
  | O => ""
  | S k' => fixed_digits k' (n / 10) +:+ String (digit_char (n mod 10)) ""
  end.

(** The number of decimal digits of [n] (at least one); [fuel] halves at
    each step, and [N.size n] binary digits are enough. *)
Fixpoint ndigits_aux (fuel : nat) (n : N) : nat :=
  match fuel with
  | O => 1
  | S f => if decide (n < 10)%N then 1 else S (ndigits_aux f (n / 10))
  end.

Definition ndigits (n : N) : nat := ndigits_aux (N.to_nat (N.size n)) n.

Definition int_digits (n : N) : string := fixed_digits (ndigits n) n.

Fixpoint parse_digits (s : string) (acc : N) : option N :=
  match s with
  | EmptyString => Some acc
  | String c s' =>
      match char_digit c with
      | Some d => parse_digits s' (acc * 10 + d)%N
      | None => None
      end
  end.

(** ** Fixed-point rendering, as [Number.prototype.toFixed] *)

Definition pow10 (k : nat) : N := (10 ^ N.of_nat k)%N.

Definition round_half_away (q : Q) : Z :=
  if Qle_bool 0 q then Qfloor (q + (1 # 2))%Q else (- Qfloor (- q + (1 # 2))%Q)%Z.

Definition format_fixed (q : Q) (acc : nat) : string :=
  let n := round_half_away (q * inject_Z (Z.of_N (pow10 acc))) in
  let m := Z.to_N (Z.abs n) in
  (if decide (n < 0)%Z then "-" else "") +:+
  int_digits (m / pow10 acc) +:+
  (match acc with O => "" | S _ => "." +:+ fixed_digits acc (m mod pow10 acc) end).

(** Split at the first ["."]. *)
Fixpoint split_dot (s : string) : string * option string :=
  match s with
  | EmptyString => ("", None)
  | String c s' =>
      if decide (c = "."%char) then ("", Some s')
      else let '(a, b) := split_dot s' in (String c a, b)
  end.

(** Read back a fixed-point string with [acc] fractional digits, as the
    integer [round (value * 10^acc)]. *)
Definition strip_sign (s : string) : bool * string :=
  match s with
  | String c s' => if decide (c = "-"%char) then (true, s') else (false, s)
  | EmptyString => (false, s)
  end.

(** The unsigned part: integer digits, then a point and exactly [acc]
    digits when [acc > 0]; the result is [int * 10^acc + frac]. *)
Definition parse_unsigned_fixed (acc : nat) (s : string) : option N :=
  let '(ip, fp) := split_dot s in
  i ← parse_digits ip 0 ;
  f ← match acc, fp with
       | O, None => Some 0%N
       | S _, Some fs => if decide (String.length fs = acc) then parse_digits fs 0 else None
       | _, _ => None
       end ;
  Some (i * pow10 acc + f)%N.

Definition parse_fixed (acc : nat) (s : string) : option Z :=
  let '(neg, s1) := strip_sign s in
  v ← parse_unsigned_fixed acc s1 ;
  Some (if neg then (- Z.of_N v)%Z else Z.of_N v).

(** ** Scientific notation and the formatter *)

Definition threshold (long : bool) : Q :=
  if long then inject_Z (10 ^ 13) else inject_Z (10 ^ 6).

(** For [|q| >= 1]: mantissa with two fractional digits and exponent. *)
Definition format_sci (q : Q) : string :=
  let a := Qabs q in
  let e := (ndigits (Z.to_N (Qfloor a)) - 1)%nat in
  let m := Z.to_N (round_half_away (a * 100 / inject_Z (Z.of_N (pow10 e)))) in
  let '(m', e') := if decide (m = 1000)%N then (100%N, S e) else (m, e) in
  (if Qle_bool 0 q then "" else "-") +:+
  int_digits (m' / 100) +:+ "." +:+ fixed_digits 2 (m' mod 100) +:+ "e" +:+
  int_digits (N.of_nat e').

Definition format (v : NumVal) (accuracy : nat) (long : bool) : string :=
  let q := num_value v in
  if Qle_bool (threshold long) (Qabs q) then format_sci q else format_fixed q accuracy.

(** Whether a string is made of decimal digits only. *)
Fixpoint digits_only (s : string) : bool :=
  match s with
  | EmptyString => true
  | String c s' => bool_decide (is_Some (char_digit c)) && digits_only s'
  end.

Definition frac_text (acc : nat) (f : N) : string :=
  match acc with O => "" | S _ => "." +:+ fixed_digits acc f end.

(** ** The formatter as the render engine sees it *)

(** The number-formatter interface of the specification:
    [format(value, precision, abbreviate) -> string]. *)
Class NumberFormat : Type := {
  formatNum : NumVal -> nat -> bool -> string
}.

#[export] Instance synergism_format : NumberFormat := {| formatNum := format |}.

(** ** Lemmas on digits and the fixed-point form *)

Lemma char_digit_digit_char d : (d < 10)%N -> char_digit (digit_char d) = Some d.
Proof.
  intros Hd. unfold char_digit, digit_char.
  rewrite N_ascii_embedding by lia. rewrite decide_True by lia. f_equal. lia.
Qed.

Lemma parse_digits_app s1 s2 acc :
  parse_digits (s1 +:+ s2) acc = parse_digits s1 acc ≫= parse_digits s2.
Proof.
  revert acc. induction s1 as [|c s1 IH]; intros acc; simpl; [done|].
  destruct (char_digit c); [apply IH|done].
Qed.

Lemma digits_only_app s1 s2 : digits_only (s1 +:+ s2) = digits_only s1 && digits_only s2.
Proof. induction s1 as [|c s1 IH]; simpl; [done|]. by rewrite IH, andb_assoc. Qed.

Lemma fixed_digits_parse k n acc :
  parse_digits (fixed_digits k n) acc = Some (acc * pow10 k + n mod pow10 k)%N.
Proof.
  unfold pow10. revert n acc. induction k as [|k IH]; intros n acc; simpl.
  - f_equal. rewrite N.mod_1_r. lia.
  - rewrite parse_digits_app, IH. simpl.
    rewrite char_digit_digit_char by (apply N.mod_lt; lia).
    f_equal. rewrite Nnat.Nat2N.inj_succ, N.pow_succ_r'.
    rewrite (N.Div0.mod_mul_r n 10 (10 ^ N.of_nat k)). lia.
Qed.

Lemma fixed_digits_only k n : digits_only (fixed_digits k n) = true.
Proof.
  revert n. induction k as [|k IH]; intros n; simpl; [done|].
  rewrite digits_only_app, IH. simpl.
  rewrite char_digit_digit_char by (apply N.mod_lt; lia). done.
Qed.

Lemma string_length_app s1 s2 : String.length (s1 +:+ s2) = (String.length s1 + String.length s2)%nat.
Proof. induction s1 as [|c s1 IH]; simpl; [done|]. by rewrite IH. Qed.

Lemma fixed_digits_length k n : String.length (fixed_digits k n) = k.
Proof.
  revert n. induction k as [|k IH]; intros n; simpl; [done|].
  rewrite string_length_app, IH. simpl. lia.
Qed.

Lemma ndigits_aux_spec fuel n :
  (n < 2 ^ N.of_nat fuel)%N -> (n < pow10 (ndigits_aux fuel n))%N /\ (1 <= ndigits_aux fuel n)%nat.
Proof.
  unfold pow10. revert n. induction fuel as [|f IH]; intros n Hn; simpl.
  - simpl in Hn. split; [|lia]. simpl. lia.
  - case_decide; [split; [simpl; lia|lia]|].
    rewrite Nnat.Nat2N.inj_succ, N.pow_succ_r' in Hn.
    assert (Hd : (n / 10 < 2 ^ N.of_nat f)%N).
    { pose proof (N.Div0.mul_div_le n 10). lia. }
    destruct (IH _ Hd) as [IH1 IH2]. split; [|lia].
    rewrite Nnat.Nat2N.inj_succ, N.pow_succ_r'.
    pose proof (N.div_mod n 10 ltac:(lia)). pose proof (N.mod_lt n 10 ltac:(lia)). lia.
Qed.

Lemma ndigits_spec n : (n < pow10 (ndigits n))%N /\ (1 <= ndigits n)%nat.
Proof. apply ndigits_aux_spec. rewrite Nnat.N2Nat.id. apply N.size_gt. Qed.

Lemma int_digits_parse n acc : parse_digits (int_digits n) acc = Some (acc * pow10 (ndigits n) + n)%N.
Proof.
  unfold int_digits. rewrite fixed_digits_parse, N.mod_small; [done|]. apply ndigits_spec.
Qed.

Lemma string_app_cons c s1 s2 : String c s1 +:+ s2 = String c (s1 +:+ s2).
Proof. reflexivity. Qed.

Lemma string_app_nil_l s : "" +:+ s = s.
Proof. reflexivity. Qed.

Lemma string_app_nil_r s : s +:+ "" = s.
Proof. induction s as [|c s IH]; [done|]. by rewrite string_app_cons, IH. Qed.

Lemma digit_not_special c : is_Some (char_digit c) -> c ≠ "."%char /\ c ≠ "-"%char.
Proof. intros Hc. split; intros ->; by destruct Hc. Qed.

Lemma split_dot_digits s1 s2 :
  digits_only s1 = true ->
  split_dot (s1 +:+ s2) = (s1 +:+ fst (split_dot s2), snd (split_dot s2)).
Proof.
  induction s1 as [|c s1 IH]; intros Hd; [rewrite !string_app_nil_l; by destruct (split_dot s2)|].
  rewrite !string_app_cons. simpl in *.
  apply andb_prop in Hd as [Hc Hd]. apply bool_decide_eq_true in Hc.
  rewrite decide_False by (apply digit_not_special; done). by rewrite IH.
Qed.

Lemma strip_sign_digits s1 s2 :
  digits_only s1 = true -> s1 ≠ "" -> strip_sign (s1 +:+ s2) = (false, s1 +:+ s2).
Proof.
  destruct s1 as [|c s1]; intros Hd Hne; [done|]. rewrite string_app_cons. simpl in *.
  apply andb_prop in Hd as [Hc _]. apply bool_decide_eq_true in Hc.
  rewrite decide_False by (apply digit_not_special; done). done.
Qed.

Lemma int_digits_nonempty n : int_digits n ≠ "".
Proof.
  intros Hn. pose proof (fixed_digits_length (ndigits n) n) as Hl.
  pose proof (ndigits_spec n) as [_ H1]. unfold int_digits in Hn. rewrite Hn in Hl. simpl in Hl. lia.
Qed.

Lemma int_digits_only n : digits_only (int_digits n) = true.
Proof. apply fixed_digits_only. Qed.

(** The two pieces after the sign: integer digits, then the fraction. *)
Lemma split_dot_dot s : split_dot ("." +:+ s) = ("", Some s).
Proof. reflexivity. Qed.

Lemma parse_unsigned acc i f :
  (f < pow10 acc)%N ->
  parse_unsigned_fixed acc (int_digits i +:+ frac_text acc f) = Some (i * pow10 acc + f)%N.
Proof.
  intros Hf. unfold parse_unsigned_fixed. rewrite split_dot_digits by apply int_digits_only.
  destruct acc as [|acc].
  - simpl. rewrite string_app_nil_r, int_digits_parse. simpl. unfold pow10 in *. simpl in *. f_equal. lia.
  - unfold frac_text. rewrite split_dot_dot, string_app_nil_r.
    remember (fixed_digits (S acc) f) as fs eqn:Hfs. simpl.
    rewrite int_digits_parse. simpl.
    rewrite decide_True by (subst fs; apply fixed_digits_length).
    subst fs. rewrite fixed_digits_parse. simpl. rewrite N.mod_small by done. done.
Qed.

Lemma format_fixed_split q acc :
  format_fixed q acc =
  (if decide (round_half_away (q * inject_Z (Z.of_N (pow10 acc))) < 0)%Z then "-" else "") +:+
  (int_digits (Z.to_N (Z.abs (round_half_away (q * inject_Z (Z.of_N (pow10 acc))))) / pow10 acc) +:+
   frac_text acc (Z.to_N (Z.abs (round_half_away (q * inject_Z (Z.of_N (pow10 acc))))) mod pow10 acc)).
Proof. reflexivity. Qed.

Lemma pow10_pos acc : pow10 acc ≠ 0%N.
Proof. unfold pow10. apply N.pow_nonzero. lia. Qed.

Lemma strip_sign_minus s : strip_sign ("-" +:+ s) = (true, s).
Proof. reflexivity. Qed.

Lemma format_fixed_roundtrip q acc :
  parse_fixed acc (format_fixed q acc) = Some (round_half_away (q * inject_Z (Z.of_N (pow10 acc)))).
Proof.
  rewrite format_fixed_split. unfold parse_fixed.
  set (n := round_half_away _). set (m := Z.to_N (Z.abs n)).
  assert (Hm : (m / pow10 acc * pow10 acc + m mod pow10 acc)%N = m).
  { rewrite N.mul_comm. symmetry. apply N.div_mod, pow10_pos. }
  assert (Hf : (m mod pow10 acc < pow10 acc)%N) by apply N.mod_lt, pow10_pos.
  case_decide as Hneg.
  - rewrite strip_sign_minus, parse_unsigned by done. simpl. f_equal.
    rewrite Hm. subst m. rewrite Z2N.id by lia. lia.
  - rewrite string_app_nil_l, strip_sign_digits by auto using int_digits_only, int_digits_nonempty.
    rewrite parse_unsigned by done. simpl. f_equal.
    rewrite Hm. subst m. rewrite Z2N.id by lia. lia.
Qed.

Lemma format_fixed_fraction q acc :
  option_map String.length (snd (split_dot (format_fixed q acc))) =
  match acc with O => None | S _ => Some acc end.
Proof.
  rewrite format_fixed_split.
  assert (Hu : forall i f, snd (split_dot (int_digits i +:+ frac_text acc f)) =
                           match acc with O => None | S _ => Some (fixed_digits acc f) end).
  { intros i f. rewrite split_dot_digits by apply int_digits_only. simpl.
    destruct acc; [done|]. unfold frac_text. by rewrite split_dot_dot. }
  case_decide.
  - rewrite string_app_cons, string_app_nil_l. cbn [split_dot]. rewrite decide_False by done.
    match goal with |- context [split_dot ?x] => pose proof (Hu (Z.to_N 0) 0%N) as _; destruct (split_dot x) as [a b] eqn:E end.
    match type of E with split_dot (int_digits ?i +:+ frac_text _ ?f) = _ => pose proof (Hu i f) as Hx end. rewrite E in Hx. cbn [snd] in Hx. subst b. destruct acc; [done|]. cbn [option_map snd]. by rewrite fixed_digits_length.
  - rewrite string_app_nil_l, Hu. destruct acc; [done|]. cbn [option_map]. by rewrite fixed_digits_length.
Qed.

Lemma format_below_threshold v acc long :
  (Qabs (num_value v) < threshold long)%Q -> format v acc long = format_fixed (num_value v) acc.
Proof.
  intros H. unfold format. destruct (Qle_bool _ _) eqn:E; [|done].
  apply Qle_bool_iff in E. exfalso. by apply (Qlt_not_le _ _ H).
Qed.

(** ** Round trip of the formatter *)

(** C24. Below the abbreviation threshold, [format] prints the value in
    fixed point, and reading the text back yields exactly the value rounded
    half away from zero to [acc] decimals: nothing but the rounding is lost. *)
Theorem format_roundtrip v acc long :
  (Qabs (num_value v) < threshold long)%Q ->
  parse_fixed acc (format v acc long) =
  Some (round_half_away (num_value v * inject_Z (Z.of_N (pow10 acc)))).
Proof. intros H. rewrite format_below_threshold by done. apply format_fixed_roundtrip. Qed.

Lemma format_roundtrip_witness :
  (Qabs (num_value (JsNumber (-1234567 # 1000))) < threshold true)%Q /\
  parse_fixed 2 (format (JsNumber (-1234567 # 1000)) 2 true) = Some (-123457)%Z.
Proof.
  split; [reflexivity|].
  rewrite (format_roundtrip (JsNumber (-1234567 # 1000)) 2 true); reflexivity.
Defined.

(** C25. Below the abbreviation threshold, the text [format] prints has
    exactly [acc] digits after the decimal point, and no point at all when
    [acc = 0] (an integer string). *)
Theorem format_fraction_digits v acc long :
  (Qabs (num_value v) < threshold long)%Q ->
  option_map String.length (snd (split_dot (format v acc long))) =
  match acc with O => None | S _ => Some acc end.
Proof. intros H. rewrite format_below_threshold by done. apply format_fixed_fraction. Qed.

Lemma format_fraction_digits_witness :
  (Qabs (num_value (BigDecimal 3 2)) < threshold false)%Q /\
  option_map String.length (snd (split_dot (format (BigDecimal 3 2) 3 false))) = Some 3%nat.
Proof.
  split; [reflexivity|].
  rewrite (format_fraction_digits (BigDecimal 3 2) 3 false); reflexivity.
Defined.

(** The formatted values of the specification's scenario. *)
Example format_scenario :
  format (JsNumber 2) 2 true = "2.00" /\ format (JsNumber 3) 2 true = "3.00" /\
  format (JsNumber 6) 3 true = "6.000" /\ format (JsNumber 7) 0 true = "7".
Proof. vm_compute. auto. Qed.
