(* ===== verification/Catalog.v ===== *)
(** * The stat catalog: [interface StatLine] and the catalog arrays

    [StatLine] is the record of [Statistics.ts] lines 71-76.  Each catalog
    array keeps the source's keys, colours and accuracies in the source's
    order; the balance formula of a line (the body of its [stat] closure,
    which calls the [calculate*] functions of [Calculate.ts] or reads
    [player]) is supplied by the state provider as [catalogFormula], indexed
    by the catalog and the key.  The time modifiers
    [offeringObtainiumTimeModifiers] and [antSacrificeTimeStats] are
    translated with their formulas, over the observers they read. *)

From S2P Require Import Prelude.
From Stdlib Require Import QArith Qminmax.

(** [export interface StatLine] *)
Record StatLine (Game : Type) : Type := mkStatLine {
  i18n : string;
  stat : Game -> Q;
  color : option string;
  acc : option nat
}.
Arguments mkStatLine {Game} _ _ _ _.
Arguments i18n {Game} _.
Arguments stat {Game} _ _.
Arguments color {Game} _.
Arguments acc {Game} _.

(** The static arrays of the module, one constructor per array. *)
Inductive CatalogId : Type :=
| CubeCat | WowCubeCat | TesseractCat | HypercubeCat | PlatonicCat
| HepteractCat | OcteractCat | BaseOfferingCat | OfferingCat | QuarkCat
| BaseObtainiumCat | ObtainiumIgnoreDRCat | ObtainiumCat | ObtainiumDRCat
| AntSacrificeCat.

(** What the formulas read of the game: the state provider. *)
Class StateProvider (Game : Type) : Type := {
  catalogFormula : CatalogId -> string -> Game -> Q;
  resetTimeThreshold : Game -> Q;
  halfMindBonus : Game -> bool;
  timeAccelerationMult : Game -> Q;
  achievement177 : Game -> Z;
  antSacrificeTimer : Game -> Q
}.

Section Catalogs.
Context {Game : Type} `{!StateProvider Game}.

Definition line (c : CatalogId) (key : string) (col : option string) (a : option nat)
  : StatLine Game :=
  mkStatLine key (catalogFormula c key) col a.

(** [allCubeStats], [Statistics.ts] lines 78-270 *)
Definition allCubeStats : list (StatLine Game) := [
  line CubeCat "PseudoCoins" (Some "gold") None;
  line CubeCat "AscensionTime" None None;
  line CubeCat "CampaignTutorial" None None;
  line CubeCat "Campaign" None None;
  line CubeCat "SunMoon" None None;
  line CubeCat "SpeedAchievement" None None;
  line CubeCat "Challenge15" None None;
  line CubeCat "InfiniteAscent" None None;
  line CubeCat "Beta" None None;
  line CubeCat "Omega" None None;
  line CubeCat "Powder" None None;
  line CubeCat "SingDebuff" None None;
  line CubeCat "PassY" None None;
  line CubeCat "PassZ" None None;
  line CubeCat "PassINF" None None;
  line CubeCat "CashGrabUltra" None None;
  line CubeCat "EXUltra" None None;
  line CubeCat "StarterPack" None None;
  line CubeCat "SingCubes1" None None;
  line CubeCat "SingCubes2" None None;
  line CubeCat "SingCubes3" None None;
  line CubeCat "SingCitadel" None None;
  line CubeCat "SingCitadel2" None None;
  line CubeCat "Delta" None None;
  line CubeCat "CookieUpgrade8" None None;
  line CubeCat "CookieUpgrade16" None None;
  line CubeCat "WowOcteract" None None;
  line CubeCat "NoSing" None None;
  line CubeCat "TwentyAscensions" None None;
  line CubeCat "Ambrosia" None None;
  line CubeCat "ModuleTutorial" None None;
  line CubeCat "ModuleCubes1" None None;
  line CubeCat "ModuleLuckCube1" None None;
  line CubeCat "ModuleQuarkCube1" None None;
  line CubeCat "ModuleCubes2" None None;
  line CubeCat "ModuleHyperflux" None None;
  line CubeCat "Exalt6" None None;
  line CubeCat "Event" None None
].

(** [allWowCubeStats], [Statistics.ts] lines 272-378 *)
Definition allWowCubeStats : list (StatLine Game) := [
  line WowCubeCat "AscensionScore" None None;
  line WowCubeCat "GlobalCube" None None;
  line WowCubeCat "SeasonPass1" None None;
  line WowCubeCat "Researches" None None;
  line WowCubeCat "Research8x25" None None;
  line WowCubeCat "CubeUpgrades" None None;
  line WowCubeCat "ConstantUpgrade10" None None;
  line WowCubeCat "Achievement189" None None;
  line WowCubeCat "Achievement193" None None;
  line WowCubeCat "Achievement195" None None;
  line WowCubeCat "Achievement198-201" None None;
  line WowCubeCat "Achievement254" None None;
  line WowCubeCat "SpiritPower" None None;
  line WowCubeCat "PlatonicOpening" None None;
  line WowCubeCat "Platonic1x1" None None;
  line WowCubeCat "CookieUpgrade13" None None
].

(** [allTesseractStats], [Statistics.ts] lines 380-443 *)
Definition allTesseractStats : list (StatLine Game) := [
  line TesseractCat "AscensionScore" None None;
  line TesseractCat "GlobalCube" None None;
  line TesseractCat "SeasonPass1" None None;
  line TesseractCat "ConstantUpgrade10" None None;
  line TesseractCat "CubeUpgrade3x10" None None;
  line TesseractCat "CubeUpgrade4x8" None None;
  line TesseractCat "Achievement195" None None;
  line TesseractCat "Achievement202" None None;
  line TesseractCat "Achievement205-208" None None;
  line TesseractCat "Achievement255" None None;
  line TesseractCat "PlatonicCube" None None;
  line TesseractCat "Platonic1x2" None None
].

(** [allHypercubeStats], [Statistics.ts] lines 445-500 *)
Definition allHypercubeStats : list (StatLine Game) := [
  line HypercubeCat "AscensionScore" None None;
  line HypercubeCat "GlobalCube" None None;
  line HypercubeCat "SeasonPass2" None None;
  line HypercubeCat "Achievement212-215" None None;
  line HypercubeCat "Achievement216" None None;
  line HypercubeCat "Achievement253" None None;
  line HypercubeCat "Achievement256" None None;
  line HypercubeCat "Achievement265" None None;
  line HypercubeCat "PlatonicCube" None None;
  line HypercubeCat "Platonic1x3" None None;
  line HypercubeCat "HyperrealHepteract" None None
].

(** [allPlatonicCubeStats], [Statistics.ts] lines 502-553 *)
Definition allPlatonicCubeStats : list (StatLine Game) := [
  line PlatonicCat "AscensionScore" None None;
  line PlatonicCat "GlobalCube" None None;
  line PlatonicCat "SeasonPass2" None None;
  line PlatonicCat "Achievement196" None None;
  line PlatonicCat "Achievement219-222" None None;
  line PlatonicCat "Achievement223" None None;
  line PlatonicCat "Achievement257" None None;
  line PlatonicCat "PlatonicCube" None None;
  line PlatonicCat "Platonic1x4" None None
].

(** [allHepteractCubeStats], [Statistics.ts] lines 555-592 *)
Definition allHepteractCubeStats : list (StatLine Game) := [
  line HepteractCat "AscensionScore" None None;
  line HepteractCat "GlobalCube" None None;
  line HepteractCat "SeasonPass3" None None;
  line HepteractCat "Achievement258" None None;
  line HepteractCat "Achievement264" None None;
  line HepteractCat "Achievement265" None None;
  line HepteractCat "Achievement270" None None
].

(** [allOcteractCubeStats], [Statistics.ts] lines 594-767 *)
Definition allOcteractCubeStats : list (StatLine Game) := [
  line OcteractCat "BasePerSecond" None None;
  line OcteractCat "AscensionScore" None None;
  line OcteractCat "PseudoCoins" (Some "gold") None;
  line OcteractCat "Campaign" None None;
  line OcteractCat "SeasonPass3" None None;
  line OcteractCat "SeasonPassY" None None;
  line OcteractCat "SeasonPassZ" None None;
  line OcteractCat "SeasonPassLost" None None;
  line OcteractCat "CookieUpgrade20" None None;
  line OcteractCat "DivinePack" None None;
  line OcteractCat "SingCubes1" None None;
  line OcteractCat "SingCubes2" None None;
  line OcteractCat "SingCubes3" None None;
  line OcteractCat "SingOcteractGain" None None;
  line OcteractCat "SingOcteractGain2" None None;
  line OcteractCat "SingOcteractGain3" None None;
  line OcteractCat "SingOcteractGain4" None None;
  line OcteractCat "SingOcteractGain5" None None;
  line OcteractCat "PatreonBonus" None None;
  line OcteractCat "OcteractStarter" None None;
  line OcteractCat "OcteractGain" None None;
  line OcteractCat "OcteractGain2" None None;
  line OcteractCat "DerpsmithCornucopia" None None;
  line OcteractCat "DigitalOcteractAccumulator" None None;
  line OcteractCat "Event" None None;
  line OcteractCat "PlatonicDelta" None None;
  line OcteractCat "NoSingUpgrades" None None;
  line OcteractCat "PassINF" None None;
  line OcteractCat "Ambrosia" None None;
  line OcteractCat "ModuleTutorial" None None;
  line OcteractCat "ModuleCubes1" None None;
  line OcteractCat "ModuleLuckCube1" None None;
  line OcteractCat "ModuleQuarkCube1" None None;
  line OcteractCat "ModuleCubes2" None None;
  line OcteractCat "CashGrabUltra" None None;
  line OcteractCat "EXUltra" None None;
  line OcteractCat "AscensionSpeed" None None
].

(** [allBaseOfferingStats], [Statistics.ts] lines 769-814 *)
Definition allBaseOfferingStats : list (StatLine Game) := [
  line BaseOfferingCat "Base" None None;
  line BaseOfferingCat "Prestige" None None;
  line BaseOfferingCat "Transcend" None None;
  line BaseOfferingCat "Reincarnate" None None;
  line BaseOfferingCat "Achievements" None None;
  line BaseOfferingCat "Challenge1" None None;
  line BaseOfferingCat "ReincarnationUpgrade2" None None;
  line BaseOfferingCat "Research1x24" None None;
  line BaseOfferingCat "Research1x25" None None;
  line BaseOfferingCat "Research4x20" None None
].

(** [allOfferingStats], [Statistics.ts] lines 816-1020 *)
Definition allOfferingStats : list (StatLine Game) := [
  line OfferingCat "Base" None None;
  line OfferingCat "PrestigeShards" None None;
  line OfferingCat "SuperiorIntellect" None None;
  line OfferingCat "ReincarnationChallenge" None None;
  line OfferingCat "AlchemyAchievement5" None None;
  line OfferingCat "AlchemyAchievement6" None None;
  line OfferingCat "AlchemyAchievement7" None None;
  line OfferingCat "DiamondUpgrade4x3" None None;
  line OfferingCat "ParticleUpgrade3x5" None None;
  line OfferingCat "AutoOfferingShop" None None;
  line OfferingCat "OfferingEXShop" None None;
  line OfferingCat "CashGrab" None None;
  line OfferingCat "Research4x10" None None;
  line OfferingCat "AntUpgrade" None None;
  line OfferingCat "Brutus" None None;
  line OfferingCat "ConstantUpgrade3" None None;
  line OfferingCat "ResearchTalismans" None None;
  line OfferingCat "TutorialBonus" None None;
  line OfferingCat "CampaignBonus" None None;
  line OfferingCat "Challenge12" None None;
  line OfferingCat "Research8x25" None None;
  line OfferingCat "AscensionAchievement" None None;
  line OfferingCat "SunMoonAchievements" None None;
  line OfferingCat "CubeUpgrade5x6" None None;
  line OfferingCat "CubeUpgrade5x10" None None;
  line OfferingCat "PlatonicALPHA" None None;
  line OfferingCat "PlatonicBETA" None None;
  line OfferingCat "PlatonicOMEGA" None None;
  line OfferingCat "Challenge15" None None;
  line OfferingCat "SingularityDebuff" (Some "red") None;
  line OfferingCat "StarterPack" None None;
  line OfferingCat "OfferingCharge" None None;
  line OfferingCat "OfferingStorm" None None;
  line OfferingCat "OfferingTempest" None None;
  line OfferingCat "Citadel" None None;
  line OfferingCat "Citadel2" None None;
  line OfferingCat "CubeUpgradeCx4" None None;
  line OfferingCat "CubeUpgradeCx12" None None;
  line OfferingCat "OcteractElectrolosis" None None;
  line OfferingCat "OcteractBonus" None None;
  line OfferingCat "Ambrosia" None None;
  line OfferingCat "CubeUpgradeCx22" None None;
  line OfferingCat "EXALTBonus" None None;
  line OfferingCat "CashGrab2" None None;
  line OfferingCat "OfferingEX2" None None;
  line OfferingCat "OfferingINF" None None;
  line OfferingCat "EXUltra" None None;
  line OfferingCat "Event" None None;
  line OfferingCat "Exalt6Penalty" (Some "red") None
].

(** [allQuarkStats], [Statistics.ts] lines 1022-1174 *)
Definition allQuarkStats : list (StatLine Game) := [
  line QuarkCat "AchievementPoints" None None;
  line QuarkCat "Achievement250" None None;
  line QuarkCat "Achievement251" None None;
  line QuarkCat "Achievement266" None None;
  line QuarkCat "PlatonicALPHA" None None;
  line QuarkCat "PlatonicBETA" None None;
  line QuarkCat "PlatonicOMEGA" None None;
  line QuarkCat "Challenge15" None None;
  line QuarkCat "CampaignBonus" None None;
  line QuarkCat "InfiniteAscent" None None;
  line QuarkCat "QuarkHepteract" None None;
  line QuarkCat "Powder" None None;
  line QuarkCat "SingularityCount" None None;
  line QuarkCat "CookieUpgrade3" None None;
  line QuarkCat "CookieUpgrade18" None None;
  line QuarkCat "SingularityMilestones" None None;
  line QuarkCat "OcteractQuarkBonus" None None;
  line QuarkCat "OcteractStarter" None None;
  line QuarkCat "OcteractQuarkGain" None None;
  line QuarkCat "OcteractQuarkGain2" None None;
  line QuarkCat "SingularityPacks" None None;
  line QuarkCat "SingQuarkImprover1" None None;
  line QuarkCat "AmbrosiaQuarkMult" None None;
  line QuarkCat "AmbrosiaTutorial" None None;
  line QuarkCat "AmbrosiaQuarks1" None None;
  line QuarkCat "AmbrosiaCubeQuark1" None None;
  line QuarkCat "AmbrosiaLuckQuark1" None None;
  line QuarkCat "AmbrosiaQuarks2" None None;
  line QuarkCat "CashGrabQuarkBonus" None None;
  line QuarkCat "LimitedTimeChallenge" None None;
  line QuarkCat "SadisticPrequel" None None;
  line QuarkCat "FirstSingularityBonus" (Some "cyan") None;
  line QuarkCat "Event" (Some "lime") None;
  line QuarkCat "PatreonBonus" (Some "gold") (Some 3%nat)
].

(** [allBaseObtainiumStats], [Statistics.ts] lines 1176-1201 *)
Definition allBaseObtainiumStats : list (StatLine Game) := [
  line BaseObtainiumCat "Base" None None;
  line BaseObtainiumCat "Achievement51" None None;
  line BaseObtainiumCat "Research3x13" None None;
  line BaseObtainiumCat "Research3x14" None None;
  line BaseObtainiumCat "FirstSingularity" None None;
  line BaseObtainiumCat "SingularityCount" None None
].

(** [allObtainiumIgnoreDRCapStats], [Statistics.ts] lines 1203-1259 *)
Definition allObtainiumIgnoreDRCapStats : list (StatLine Game) := [
  line ObtainiumIgnoreDRCat "Base" None None;
  line ObtainiumIgnoreDRCat "CubeUpgrade4x2" None None;
  line ObtainiumIgnoreDRCat "CubeUpgrade4x3" None None;
  line ObtainiumIgnoreDRCat "PlatonicALPHA" None None;
  line ObtainiumIgnoreDRCat "PlatonicUpgrade9" None None;
  line ObtainiumIgnoreDRCat "PlatonicBETA" None None;
  line ObtainiumIgnoreDRCat "PlatonicOMEGA" None None;
  line ObtainiumIgnoreDRCat "CubeUpgradeCx5" None None;
  line ObtainiumIgnoreDRCat "CubeUpgradeCx12" (Some "cyan") None;
  line ObtainiumIgnoreDRCat "CubeUpgradeCx21" None None;
  line ObtainiumIgnoreDRCat "EXALTBonus" (Some "cyan") None;
  line ObtainiumIgnoreDRCat "Exalt6Penalty" (Some "red") None;
  line ObtainiumIgnoreDRCat "Event" None None
].

(** [allObtainiumStats], [Statistics.ts] lines 1261-1497 *)
Definition allObtainiumStats : list (StatLine Game) := [
  line ObtainiumCat "Base" None None;
  line ObtainiumCat "TranscendShards" None None;
  line ObtainiumCat "ReincarnationUpgrade9" None None;
  line ObtainiumCat "ReincarnationUpgrade12" None None;
  line ObtainiumCat "ReincarnationUpgrade14" None None;
  line ObtainiumCat "Research3x15" None None;
  line ObtainiumCat "Research4x1" None None;
  line ObtainiumCat "Research4x6" None None;
  line ObtainiumCat "ShopObtainiumAuto" None None;
  line ObtainiumCat "ShopCashGrab" None None;
  line ObtainiumCat "ShopObtainiumEX" None None;
  line ObtainiumCat "Rune5" None None;
  line ObtainiumCat "ChallengeAchievements" None None;
  line ObtainiumCat "Ant10" None None;
  line ObtainiumCat "Achievement53" None None;
  line ObtainiumCat "Achievement128" None None;
  line ObtainiumCat "Achievement129" None None;
  line ObtainiumCat "Achievement188" None None;
  line ObtainiumCat "Achievement250_251" None None;
  line ObtainiumCat "CubeBonus" None None;
  line ObtainiumCat "ConstantUpgrade4" None None;
  line ObtainiumCat "CubeUpgrade1x3" None None;
  line ObtainiumCat "CubeUpgrade4x7" None None;
  line ObtainiumCat "TutorialBonus" None None;
  line ObtainiumCat "CampaignBonus" None None;
  line ObtainiumCat "Challenge12" None None;
  line ObtainiumCat "SpiritPower" None None;
  line ObtainiumCat "Research6x19" None None;
  line ObtainiumCat "PlatonicALPHA" None None;
  line ObtainiumCat "PlatonicUpgrade9" None None;
  line ObtainiumCat "PlatonicBETA" None None;
  line ObtainiumCat "PlatonicOMEGA" None None;
  line ObtainiumCat "CubeUpgrade5x10" None None;
  line ObtainiumCat "StarterPack" None None;
  line ObtainiumCat "SingObtainium1" None None;
  line ObtainiumCat "SingObtainium2" None None;
  line ObtainiumCat "SingObtainium3" None None;
  line ObtainiumCat "SingCitadel" None None;
  line ObtainiumCat "SingCitadel2" None None;
  line ObtainiumCat "CubeUpgradeCx5" None None;
  line ObtainiumCat "CubeUpgradeCx12" (Some "cyan") None;
  line ObtainiumCat "CubeUpgradeCx21" None None;
  line ObtainiumCat "ShopCashGrab2" None None;
  line ObtainiumCat "ShopObtainiumEX2" None None;
  line ObtainiumCat "ShopObtainiumEX3" None None;
  line ObtainiumCat "OcteractBonus" None None;
  line ObtainiumCat "OcteractObtainium1" None None;
  line ObtainiumCat "AmbrosiaObtainium1" None None;
  line ObtainiumCat "EXUltraObtainium" None None;
  line ObtainiumCat "EXALTBonus" (Some "cyan") None;
  line ObtainiumCat "Challenge14" (Some "red") None;
  line ObtainiumCat "SingularityDebuff" (Some "red") None;
  line ObtainiumCat "Exalt6Penalty" (Some "red") None;
  line ObtainiumCat "Event" (Some "lime") None
].

(** [obtainiumDR], [Statistics.ts] lines 1500-1510 *)
Definition obtainiumDR : list (StatLine Game) := [
  line ObtainiumDRCat "ObtainiumDR" (Some "orange") None;
  line ObtainiumDRCat "ImmaculateObtainium" None None
].

(** [antSacrificeRewardStats], [Statistics.ts] lines 1531-1592 *)
Definition antSacrificeRewardStats : list (StatLine Game) := [
  line AntSacrificeCat "AntUpgrade11" None None;
  line AntSacrificeCat "Research103" None None;
  line AntSacrificeCat "Research104" None None;
  line AntSacrificeCat "Achievement132" None None;
  line AntSacrificeCat "Achievement137" None None;
  line AntSacrificeCat "RuneBlessing" None None;
  line AntSacrificeCat "Challenge10" None None;
  line AntSacrificeCat "Research122" None None;
  line AntSacrificeCat "Research133" None None;
  line AntSacrificeCat "Research163" None None;
  line AntSacrificeCat "Research193" None None;
  line AntSacrificeCat "ParticleUpgrade4x4" None None;
  line AntSacrificeCat "AcceleratorBoostUpgrade" None None;
  line AntSacrificeCat "CubeBlessingAres" None None;
  line AntSacrificeCat "Event" None None
].
(** [offeringObtainiumTimeModifiers(time, timeMultCheck)], lines 1513-1529 *)
Definition offeringObtainiumTimeModifiers (time : Q) (timeMultCheck : bool) : list (StatLine Game) := [
  mkStatLine "ThresholdPenalty"
    (fun s => Qmin 1 ((time / resetTimeThreshold s) * (time / resetTimeThreshold s)))
    (Some "red") None;
  mkStatLine "TimeMultiplier"
    (fun s => if timeMultCheck then Qmax 1 (time / resetTimeThreshold s) else 1)
    None None;
  mkStatLine "HalfMind"
    (fun s => if halfMindBonus s then timeAccelerationMult s / 10 else 1)
    None None
].

(** [antSacrificeTimeStats(time, timeMultCheck)], lines 1594-1607 *)
Definition antSacrificeTimeStats (time : Q) (timeMultCheck : bool) : list (StatLine Game) :=
  offeringObtainiumTimeModifiers time timeMultCheck ++ [
  mkStatLine "NoAchievement177"
    (fun s => if decide (achievement177 s = 0%Z)
              then Qmin 1000 (Qmax 1 (antSacrificeTimer s / resetTimeThreshold s))
              else 1)
    None None
].
End Catalogs.
