(* ===== verification/Render.v ===== *)
(** * The aggregation and render engine [loadStatistics]

    [loadStatistics] of [Statistics.ts] (lines 1737-1797), step by step in
    the monad [St Dom]: it fetches the panel, counts the elements that carry
    the panel's marker class, and, when there are none, creates for each
    catalog line a [<p>] with a nested [<span>] (ids [prefix ++ key] and
    [prefix ++ "N" ++ key]) and appends it to the panel; on every call it
    writes the formatted value of each line into its [<span>], then does the
    same for the total row (ids [prefix ++ "T"], [prefix ++ "NT"]) with the
    canonical total formatted to three decimals.  The section is generic in
    the number formatter and in the translation function, the two external
    collaborators of the engine.  The theorems cover the first render (the
    exact document it builds), the later calls (the rewrite of every value
    node with the current values), a value node missing after
    initialisation (the throw and what was written before it), and what a
    first render leaves alone, which [SharedPanels.v] uses. *)

From S2P Require Import Prelude Dom Format Catalog.
From Stdlib Require QArith_base.


(** The localised label lookup [i18next.t]. *)
Class I18n : Type := {
  translate : string -> string
}.

Section Render.
Context {Game : Type} `{!NumberFormat} `{!I18n}.

(** The body of the [for (const obj of statsObj)] loop. *)
Definition render_line (g : Game) (parentDiv statLinePrefix specificClass : string)
           (parent numStatLines : nat) (obj : StatLine Game) : St Dom unit :=
  let key := i18n obj in
  let statHTMLName := statLinePrefix +:+ key in
  let statNumHTMLName := statLinePrefix +:+ "N" +:+ key in
  (if decide (numStatLines = 0%nat) then
     statLine <- createElement "p" ;;
     setId statLine statHTMLName ;;
     setClassName statLine "statPortion" ;;
     classListAdd statLine specificClass ;;
     setStyle statLine "color" (default "white" (color obj)) ;;
     setTextContent statLine (translate ("statistics." +:+ parentDiv +:+ "." +:+ key)) ;;
     statNum <- createElement "span" ;;
     setId statNum statNumHTMLName ;;
     setClassName statNum "statNumber" ;;
     appendChild statLine statNum ;;
     appendChild parent statLine
   else st_ret tt) ;;
  statNumber <- DOMCacheGetOrSet statNumHTMLName ;;
  let accuracy := default 2%nat (acc obj) in
  let num := stat obj g in
  setTextContent statNumber (formatNum (JsNumber num) accuracy true).

(** The total row. *)
Definition render_total (g : Game) (parentDiv statLinePrefix : string) (parent numStatLines : nat)
           (calcTotalFunc : Game -> NumVal) (summativeName : string) : St Dom unit :=
  let statTotalHTMLName := statLinePrefix +:+ "T" in
  let statNumTotalHTMLName := statLinePrefix +:+ "NT" in
  (if decide (numStatLines = 0%nat) then
     statTotal <- createElement "p" ;;
     setId statTotal statTotalHTMLName ;;
     setClassName statTotal "statPortion" ;;
     classListAdd statTotal "statTotal" ;;
     setTextContent statTotal (translate ("statistics." +:+ parentDiv +:+ "." +:+ summativeName)) ;;
     statTotalNum <- createElement "span" ;;
     setId statTotalNum statNumTotalHTMLName ;;
     setClassName statTotalNum "statNumber" ;;
     appendChild statTotal statTotalNum ;;
     appendChild parent statTotal
   else st_ret tt) ;;
  statTotalNumber <- DOMCacheGetOrSet statNumTotalHTMLName ;;
  let total := calcTotalFunc g in
  setTextContent statTotalNumber (formatNum total 3%nat true).

(** [document.getElementsByClassName(c).length], read once. *)
Definition countClass (c : string) : St Dom nat := fun d => Ok (classCount d c, d).

(** [loadStatistics(statsObj, parentDiv, statLinePrefix, specificClass,
    calcTotalFunc, summativeName)], evaluated against the game state [g]. *)
Definition loadStatistics (g : Game) (statsObj : list (StatLine Game))
           (parentDiv statLinePrefix specificClass : string)
           (calcTotalFunc : Game -> NumVal) (summativeName : string) : St Dom unit :=
  parent <- DOMCacheGetOrSet parentDiv ;;
  numStatLines <- countClass specificClass ;;
  forM_ statsObj (render_line g parentDiv statLinePrefix specificClass parent numStatLines) ;;
  render_total g parentDiv statLinePrefix parent numStatLines calcTotalFunc summativeName.
End Render.

(** ** A concrete panel: the end-to-end scenario of the specification

    Two lines whose formulas return 2 and 3, and a canonical total 6, on a
    page holding only the panel [globalCubeMultiplierStats]; the label
    lookup returns its key. *)

Definition scenario_i18n : I18n := {| translate := fun key => key |}.

Definition scenario_catalog : list (StatLine unit) :=
  [mkStatLine "Two" (fun _ => QArith_base.inject_Z 2) None None;
   mkStatLine "Three" (fun _ => QArith_base.inject_Z 3) (Some "gold") None].

Definition scenario_body : Elem := mkElem "body" "" [] ∅ None [1%nat] None true.

Definition scenario_panel : Elem :=
  mkElem "div" "globalCubeMultiplierStats" [] ∅ None [] (Some 0%nat) true.

Definition scenario_dom : Dom := mkDom [scenario_body; scenario_panel] ∅.

Definition scenario_render : St Dom unit :=
  @loadStatistics unit synergism_format scenario_i18n tt scenario_catalog
    "globalCubeMultiplierStats" "statGCM" "GlobalCubeStat" (fun _ => JsNumber (QArith_base.inject_Z 6)) "Total".

(** The page of the scenario once its panel is initialised (a line carries
    the marker class) but the value node of the line [Two] is missing. *)
Definition broken_scenario_dom : Dom :=
  mkDom [scenario_body; mkElem "div" "globalCubeMultiplierStats" [] ∅ None [2%nat] (Some 0%nat) true;
         mkElem "p" "statGCMTwo" ["statPortion"; "GlobalCubeStat"] ∅ (Some "Two") [] (Some 1%nat) true]
        (<["globalCubeMultiplierStats" := 1%nat]> ∅).

(** The initialised page of the scenario where the value node of the
    second line, [Three], is missing. *)
Definition broken_second_dom : Dom :=
  mkDom [scenario_body; mkElem "div" "globalCubeMultiplierStats" [] ∅ None [2%nat; 4%nat] (Some 0%nat) true;
         mkElem "p" "statGCMTwo" ["statPortion"; "GlobalCubeStat"] ∅ (Some "Two") [3%nat] (Some 1%nat) true;
         mkElem "span" "statGCMNTwo" ["statNumber"] ∅ (Some "2.00") [] (Some 2%nat) true;
         mkElem "p" "statGCMThree" ["statPortion"; "GlobalCubeStat"] ∅ (Some "Three") [] (Some 1%nat) true]
        (<["statGCMNTwo" := 3%nat]> (<["globalCubeMultiplierStats" := 1%nat]> ∅)).

(** ** The panel a call renders, and the state the first call builds

    The section fixes the arguments of one call and, for the first call,
    the document it starts from: the heap [heap0], the cache [cache0] and
    the panel element [p] (the element [ep0]). *)

Section Panel.
Context {Game : Type} `{!NumberFormat} `{!I18n}.
Variables (g : Game) (parentDiv prefix cls : string).
Variables (calcTotalFunc : Game -> NumVal) (summativeName : string).
Variables (heap0 : list Elem) (cache0 : gmap string nat) (p : nat) (ep0 : Elem).

Definition line_id (obj : StatLine Game) : string := prefix +:+ i18n obj.
Definition value_id (obj : StatLine Game) : string := prefix +:+ "N" +:+ i18n obj.
Definition total_id : string := prefix +:+ "T".
Definition total_value_id : string := prefix +:+ "NT".

Fixpoint line_ids (objs : list (StatLine Game)) : list string :=
  match objs with
  | [] => []
  | o :: os => line_id o :: value_id o :: line_ids os
  end.

(** Every id the panel's rows use. *)
Definition panel_ids (objs : list (StatLine Game)) : list string :=
  line_ids objs ++ [total_id; total_value_id].

Definition label_text (key : string) : string :=
  translate ("statistics." +:+ parentDiv +:+ "." +:+ key).

Definition value_text (obj : StatLine Game) : string :=
  formatNum (JsNumber (stat obj g)) (default 2%nat (acc obj)) true.

Definition total_text : string := formatNum (calcTotalFunc g) 3%nat true.

(** The value node of [id] is cached, is a leaf and shows [txt]. *)
Definition value_written (d : Dom) (id txt : string) : Prop :=
  exists h e, dom_cache d !! id = Some h /\ heap d !! h = Some e /\
              el_children e = [] /\ el_text e = text_node txt.

(** A panel whose rows exist and show the values of the state [g]. *)
Definition rendered (objs : list (StatLine Game)) (d : Dom) : Prop :=
  (exists pp, dom_cache d !! parentDiv = Some pp) /\ classCount d cls ≠ 0 /\
  (forall obj, obj ∈ objs -> value_written d (value_id obj) (value_text obj)) /\
  value_written d total_value_id total_text.

Definition line_elem (h : nat) (obj : StatLine Game) : Elem :=
  mkElem "p" (line_id obj) ["statPortion"; cls]
         (<["color" := default "white" (color obj)]> ∅)
         (text_node (label_text (i18n obj))) [S h] (Some p) true.

Definition value_elem (h : nat) (obj : StatLine Game) : Elem :=
  mkElem "span" (value_id obj) ["statNumber"] ∅ (text_node (value_text obj)) [] (Some h) true.

Definition total_elem (h : nat) : Elem :=
  mkElem "p" total_id ["statPortion"; "statTotal"] ∅ (text_node (label_text summativeName))
         [S h] (Some p) true.

Definition total_value_elem (h : nat) : Elem :=
  mkElem "span" total_value_id ["statNumber"] ∅ (text_node total_text) [] (Some h) true.

(** The rows created for [objs], the first one at handle [h]. *)
Fixpoint created (h : nat) (objs : list (StatLine Game)) : list Elem :=
  match objs with
  | [] => []
  | o :: os => line_elem h o :: value_elem h o :: created (S (S h)) os
  end.

Fixpoint line_handles (h k : nat) : list nat :=
  match k with
  | O => []
  | S k' => h :: line_handles (S (S h)) k'
  end.

Fixpoint cache_lines (h : nat) (objs : list (StatLine Game)) (c : gmap string nat) : gmap string nat :=
  match objs with
  | [] => c
  | o :: os => cache_lines (S (S h)) os (<[value_id o := S h]> c)
  end.

(** The panel element after [k] rows were appended to it. *)
Definition parent_after (k : nat) : Elem :=
  set_el_children (el_children ep0 ++ line_handles (length heap0) k) ep0.

(** The heap once the rows of [pre] are created. *)
Definition heap_at (pre : list (StatLine Game)) : list Elem :=
  <[p := parent_after (length pre)]> heap0 ++ created (length heap0) pre.

Definition fresh_id (id : string) : Prop :=
  cache0 !! id = None /\ Forall (fun e => ¬ id_match id e) heap0.

(** The document after the first call. *)
Definition first_render_heap (objs : list (StatLine Game)) : list Elem :=
  <[p := parent_after (length objs + 1)]> heap0 ++ created (length heap0) objs ++
  [total_elem (length heap0 + 2 * length objs); total_value_elem (length heap0 + 2 * length objs)].

Definition first_render_cache (objs : list (StatLine Game)) : gmap string nat :=
  <[total_value_id := S (length heap0 + 2 * length objs)]> (cache_lines (length heap0) objs cache0).

Hypothesis Hp0 : heap0 !! p = Some ep0.
Hypothesis Hatt0 : el_attached ep0 = true.
Hypothesis Hcls : cls ≠ "statPortion".

(** The element-creation prefix of a row, common to lines and total. *)
Ltac create_row :=
  cbn [st_bind st_modify st_ret createElement setId setClassName classListAdd setStyle
       setTextContent appendChild heap dom_cache];
  rewrite !dom_alter_last;
  cbn [el_classes set_el_classes set_el_id new_elem];
  rewrite decide_False by (rewrite list_elem_of_singleton; done);
  rewrite setTextContent_last_leaf by done; cbn [heap dom_cache];
  rewrite appendChild_fresh_leaf by (rewrite ?length_app; simpl; lia || done).

Lemma created_app h pre x :
  created h (pre ++ [x]) = created h pre ++ [line_elem (h + 2 * length pre) x; value_elem (h + 2 * length pre) x].
Proof.
  revert h. induction pre as [|o pre IH]; intros h; simpl.
  - by rewrite Nat.add_0_r.
  - rewrite IH. by replace (S (S h) + 2 * length pre)%nat with (h + 2 * S (length pre))%nat by lia.
Qed.

Lemma length_created h objs : length (created h objs) = (2 * length objs)%nat.
Proof. revert h. induction objs as [|o os IH]; intros h; simpl; [done|]. rewrite IH. lia. Qed.

Lemma line_handles_app h k : line_handles h (S k) = line_handles h k ++ [(h + 2 * k)%nat].
Proof.
  revert h. induction k as [|k IH]; intros h; simpl.
  - by rewrite Nat.add_0_r.
  - specialize (IH (S (S h))). simpl in IH. rewrite IH.
    replace (h + S (k + S (k + 0)))%nat with (S (S (h + (k + (k + 0)))))%nat by lia. done.
Qed.

Lemma cache_lines_app h pre x c :
  cache_lines h (pre ++ [x]) c = <[value_id x := S (h + 2 * length pre)]> (cache_lines h pre c).
Proof.
  revert h c. induction pre as [|o pre IH]; intros h c; simpl.
  - by rewrite Nat.add_0_r.
  - rewrite IH. by replace (S (S h) + 2 * length pre)%nat with (h + 2 * S (length pre))%nat by lia.
Qed.

Lemma created_ids h objs e : e ∈ created h objs -> el_id e ∈ line_ids objs.
Proof.
  revert h. induction objs as [|o os IH]; intros h; simpl; [set_solver|].
  rewrite !elem_of_cons. intros [->|[->|He]]; simpl; [left; done|right; left; done|].
  right; right. by apply (IH (S (S h))).
Qed.

Lemma cache_lines_lookup_other h objs c id :
  id ∉ line_ids objs -> cache_lines h objs c !! id = c !! id.
Proof.
  revert h c. induction objs as [|o os IH]; intros h c Hid; simpl in *; [done|].
  rewrite IH by set_solver. rewrite lookup_insert_ne; [done|]. set_solver.
Qed.

Lemma unique_last2 L e1 e2 id n :
  n = length L ->
  Forall (fun e => ¬ id_match id e) L -> ¬ id_match id e1 ->
  forall j e', ((L ++ [e1]) ++ [e2]) !! j = Some e' -> id_match id e' -> j = S n.
Proof.
  intros -> HL H1 j e' Hj Hm. rewrite <- app_assoc in Hj.
  destruct (decide (j < length L)) as [Hlt|Hge].
  - rewrite lookup_app_l in Hj by done. exfalso. eapply (Forall_lookup_1 _ _ _ _ HL Hj). done.
  - rewrite lookup_app_r in Hj by lia.
    destruct (j - length L) as [|[|k]] eqn:E; simpl in Hj; [congruence| lia |done].
Qed.

Lemma heap_at_parent pre : heap_at pre !! p = Some (parent_after (length pre)).
Proof.
  unfold heap_at. rewrite lookup_app_l by (rewrite length_insert; by apply lookup_lt_Some in Hp0).
  apply list_lookup_insert_eq. by apply lookup_lt_Some in Hp0.
Qed.

Lemma length_heap_at pre : length (heap_at pre) = (length heap0 + 2 * length pre)%nat.
Proof. unfold heap_at. rewrite length_app, length_insert, length_created. lia. Qed.

Lemma parent_after_snoc k :
  set_el_children (el_children (parent_after k) ++ [(length heap0 + 2 * k)%nat]) (parent_after k)
  = parent_after (k + 1).
Proof.
  unfold parent_after. rewrite Nat.add_1_r, line_handles_app. destruct ep0. cbn.
  by rewrite app_assoc.
Qed.

Lemma heap_at_snoc pre X L V :
  X = parent_after (length pre + 1) ->
  (<[p := X]> (heap_at pre) ++ [L]) ++ [V] =
  <[p := parent_after (length pre + 1)]> heap0 ++ created (length heap0) pre ++ [L; V].
Proof.
  intros ->. unfold heap_at. rewrite insert_app_l by (rewrite length_insert; by apply lookup_lt_Some in Hp0).
  rewrite list_insert_insert_eq, <- !app_assoc. done.
Qed.

(** Attaching a freshly created row to the panel, looking its value node
    up through the cache, and writing its value. *)
Ltac attach_row pre Hc Hfresh Hne :=
  pose proof (heap_at_parent pre) as Hpp;
  rewrite (appendChild_fresh_line _ _ _ _ p (parent_after (length pre))); try done;
  [|cbn; rewrite length_app; simpl; f_equal; lia];
  erewrite st_bind_Ok;
  [|eapply (DOMCacheGetOrSet_fresh _ _ (S (length (heap_at pre)))); cbn [heap dom_cache];
    [ exact Hc
    | apply lookup_last'; rewrite length_app, length_insert; simpl; lia
    | split; reflexivity
    | apply unique_last2; [by rewrite length_insert| |intros [_ Hid]; apply Hne; exact Hid];
      apply Forall_insert; [done|];
      let Hpa := fresh in
      pose proof (Forall_lookup_1 _ _ _ _ Hfresh Hpp) as Hpa;
      intros Hm; apply Hpa; destruct (parent_after (length pre)); exact Hm ]];
  unfold setTextContent; cbn [st_modify heap dom_cache]; unfold st_modify;
  rewrite setTextContent_last_leaf' by (rewrite ?length_app, ?length_insert; simpl; lia || done);
  rewrite length_app, length_heap_at, parent_after_snoc.


Lemma render_line_first pre x :
  cache_lines (length heap0) pre cache0 !! value_id x = None ->
  Forall (fun e => ¬ id_match (value_id x) e) (heap_at pre) ->
  line_id x ≠ value_id x ->
  render_line g parentDiv prefix cls p 0 x (mkDom (heap_at pre) (cache_lines (length heap0) pre cache0))
  = Ok (tt, mkDom (heap_at (pre ++ [x])) (cache_lines (length heap0) (pre ++ [x]) cache0)).
Proof.
  intros Hc Hfresh Hlv. unfold render_line. rewrite decide_True by done.
  create_row. attach_row pre Hc Hfresh Hlv.
  rewrite heap_at_snoc by reflexivity.
  unfold heap_at. rewrite created_app, cache_lines_app, length_app. simpl length.
  match goal with |- Ok (_, mkDom (_ ++ _ ++ [?L; ?V]) _) = _ =>
    replace L with (line_elem (length heap0 + 2 * length pre) x)
      by (unfold line_elem; cbn; by rewrite Nat.add_1_r);
    replace V with (value_elem (length heap0 + 2 * length pre) x) by reflexivity
  end.
  reflexivity.
Qed.

Lemma parent_after_match id k : id_match id (parent_after k) <-> id_match id ep0.
Proof. unfold parent_after. by destruct ep0. Qed.

Lemma parent_after_match_class c k : class_match c (parent_after k) <-> class_match c ep0.
Proof. unfold parent_after. by destruct ep0. Qed.

Lemma heap_at_fresh pre id :
  fresh_id id -> id ∉ line_ids pre -> Forall (fun e => ¬ id_match id e) (heap_at pre).
Proof.
  intros [_ Hh] Hid. unfold heap_at. apply Forall_app. split.
  - apply Forall_insert; [done|]. rewrite parent_after_match.
    by apply (Forall_lookup_1 _ _ _ _ Hh Hp0).
  - apply Forall_forall. intros e He [_ Hm].
    apply Hid. rewrite <- Hm. by apply (created_ids (length heap0)).
Qed.

Lemma render_lines_first objs :
  NoDup (line_ids objs) -> (forall id, id ∈ line_ids objs -> fresh_id id) ->
  forM_ objs (render_line g parentDiv prefix cls p 0) (mkDom (heap_at []) (cache_lines (length heap0) [] cache0))
  = Ok (tt, mkDom (heap_at objs) (cache_lines (length heap0) objs cache0)).
Proof.
  intros Hnd Hfr.
  cut (forall pre post, objs = pre ++ post ->
         forM_ post (render_line g parentDiv prefix cls p 0)
               (mkDom (heap_at pre) (cache_lines (length heap0) pre cache0))
         = Ok (tt, mkDom (heap_at objs) (cache_lines (length heap0) objs cache0))).
  { intros Hc. by apply Hc. }
  intros pre post. revert pre. induction post as [|x post IH]; intros pre ->.
  - by rewrite app_nil_r.
  - assert (Hsplit : line_ids (pre ++ x :: post) = line_ids pre ++ line_id x :: value_id x :: line_ids post).
    { clear. induction pre as [|o pre IH]; simpl; [done|]. by rewrite IH. }
    rewrite Hsplit in Hnd, Hfr.
    apply NoDup_app in Hnd as (_ & Hout & Hnd2).
    assert (Hv : value_id x ∉ line_ids pre) by (intros Hin; apply (Hout _ Hin); set_solver).
    assert (Hlv : line_id x ≠ value_id x) by (apply NoDup_cons in Hnd2 as [Hn _]; set_solver).
    assert (Hfx : fresh_id (value_id x)) by (apply Hfr; set_solver).
    cbn [forM_]. erewrite st_bind_Ok.
    2:{ apply render_line_first; [|by apply heap_at_fresh|done].
        rewrite cache_lines_lookup_other by done. apply Hfx. }
    rewrite (IH (pre ++ [x])); [done|]. by rewrite <- app_assoc.
Qed.

Lemma render_total_first objs :
  cache_lines (length heap0) objs cache0 !! total_value_id = None ->
  Forall (fun e => ¬ id_match total_value_id e) (heap_at objs) ->
  total_id ≠ total_value_id ->
  render_total g parentDiv prefix p 0 calcTotalFunc summativeName
               (mkDom (heap_at objs) (cache_lines (length heap0) objs cache0))
  = Ok (tt, mkDom (<[p := parent_after (length objs + 1)]> heap0 ++ created (length heap0) objs ++
                   [total_elem (length heap0 + 2 * length objs);
                    total_value_elem (length heap0 + 2 * length objs)])
                  (<[total_value_id := S (length heap0 + 2 * length objs)]>
                     (cache_lines (length heap0) objs cache0))).
Proof.
  intros Hc Hfresh Hne. unfold render_total. rewrite decide_True by done.
  create_row. attach_row objs Hc Hfresh Hne.
  rewrite heap_at_snoc by reflexivity.
  match goal with |- Ok (_, mkDom (_ ++ _ ++ [?L; ?V]) _) = _ =>
    replace L with (total_elem (length heap0 + 2 * length objs))
      by (unfold total_elem; cbn; by rewrite Nat.add_1_r);
    replace V with (total_value_elem (length heap0 + 2 * length objs)) by reflexivity
  end.
  reflexivity.
Qed.

Lemma heap_at_nil : heap_at [] = heap0.
Proof.
  unfold heap_at, parent_after. simpl. rewrite !app_nil_r.
  apply list_insert_id. rewrite Hp0. by destruct ep0.
Qed.

Lemma count_created h objs :
  cls ≠ "statNumber" -> length (filter (class_match cls) (created h objs)) = length objs.
Proof.
  intros Hnum. revert h. induction objs as [|o os IH]; intros h; [done|]. simpl.
  rewrite filter_cons_True by (split; [done|set_solver]).
  rewrite filter_cons_False by (intros [_ Hin]; set_solver). simpl. by rewrite IH.
Qed.

Lemma first_render_heap_length objs :
  length (first_render_heap objs) = (length heap0 + 2 * (length objs + 1))%nat.
Proof. unfold first_render_heap. rewrite !length_app, length_insert, length_created. simpl. lia. Qed.

Lemma first_render_classCount objs c :
  classCount (mkDom heap0 cache0) cls = 0 -> cls ≠ "statNumber" -> cls ≠ "statTotal" ->
  classCount (mkDom (first_render_heap objs) c) cls = length objs.
Proof.
  intros Hcount Hnum Htot. unfold classCount. cbn [heap]. unfold first_render_heap.
  rewrite !filter_app, !length_app.
  rewrite (length_filter_insert_same _ _ _ _ ep0) by (done || apply parent_after_match_class).
  unfold classCount in Hcount. cbn [heap] in Hcount. rewrite Hcount, count_created by done.
  rewrite filter_cons_False by (intros [_ Hin]; set_solver).
  rewrite filter_cons_False by (intros [_ Hin]; set_solver). simpl. lia.
Qed.

Lemma first_render_run d objs :
  DOMCacheGetOrSet parentDiv d = Ok (p, mkDom heap0 cache0) ->
  classCount (mkDom heap0 cache0) cls = 0 ->
  NoDup (panel_ids objs) ->
  (forall id, id ∈ panel_ids objs ->
     cache0 !! id = None /\ getElementById (mkDom heap0 cache0) id = None) ->
  loadStatistics g objs parentDiv prefix cls calcTotalFunc summativeName d
  = Ok (tt, mkDom (first_render_heap objs) (first_render_cache objs)).
Proof.
  intros Hpar Hcount Hnd Hfr.
  assert (Hfr' : forall id, id ∈ panel_ids objs -> fresh_id id).
  { intros id Hid. destruct (Hfr id Hid) as [Hc Hg]. split; [done|].
    by apply getElementById_None in Hg. }
  unfold panel_ids in Hnd, Hfr'. apply NoDup_app in Hnd as (Hnd & Hout & Htot).
  unfold loadStatistics. rewrite (st_bind_Ok _ _ _ _ _ Hpar).
  cbn [st_bind countClass]. rewrite Hcount.
  rewrite <- heap_at_nil at 1. change cache0 with (cache_lines (length heap0) [] cache0) at 1.
  erewrite st_bind_Ok; [|apply render_lines_first; [done|intros; apply Hfr'; set_solver]].
  apply render_total_first.
  - rewrite cache_lines_lookup_other; [apply Hfr'; set_solver|].
    intros Hin. apply (Hout _ Hin). set_solver.
  - apply heap_at_fresh; [apply Hfr'; set_solver|]. intros Hin. apply (Hout _ Hin). set_solver.
  - apply NoDup_cons in Htot as [Hn _]. set_solver.
Qed.

(** C1. The first call on a fresh panel computes exactly the document
    [first_render_heap] / [first_render_cache]: one [<p>]/[<span>] pair per
    catalog line in catalog order, then the total pair, all appended to the
    panel, each value node showing the formatted value of its formula. *)
Theorem loadStatistics_first_render d objs :
  DOMCacheGetOrSet parentDiv d = Ok (p, mkDom heap0 cache0) ->
  classCount (mkDom heap0 cache0) cls = 0 ->
  NoDup (panel_ids objs) ->
  (forall id, id ∈ panel_ids objs ->
     cache0 !! id = None /\ getElementById (mkDom heap0 cache0) id = None) ->
  loadStatistics g objs parentDiv prefix cls calcTotalFunc summativeName d
  = Ok (tt, mkDom (first_render_heap objs) (first_render_cache objs)).
Proof. exact (first_render_run d objs). Qed.
Lemma cache_lines_lookup_index h objs c i obj :
  NoDup (line_ids objs) -> objs !! i = Some obj ->
  cache_lines h objs c !! value_id obj = Some (S (h + 2 * i)).
Proof.
  revert h c i. induction objs as [|o os IH]; intros h c i Hnd Hi; [done|].
  simpl in Hnd. apply NoDup_cons in Hnd as [Hl Hnd]. apply NoDup_cons in Hnd as [Hv Hnd].
  destruct i as [|i]; simpl in Hi |- *.
  - injection Hi as <-. rewrite cache_lines_lookup_other by done.
    rewrite lookup_insert_eq. by rewrite Nat.add_0_r.
  - rewrite (IH _ _ i) by done. do 2 f_equal. lia.
Qed.

Lemma created_lookup h objs i obj :
  objs !! i = Some obj ->
  created h objs !! (2 * i) = Some (line_elem (h + 2 * i) obj) /\
  created h objs !! (S (2 * i)) = Some (value_elem (h + 2 * i) obj).
Proof.
  revert h i. induction objs as [|o os IH]; intros h i Hi; [done|].
  destruct i as [|i]; simpl in Hi.
  - injection Hi as <-. simpl. by rewrite Nat.add_0_r.
  - destruct (IH (S (S h)) i Hi) as [IH1 IH2].
    replace (2 * S i)%nat with (S (S (2 * i))) by lia.
    replace (h + S (S (2 * i)))%nat with (S (S h) + 2 * i)%nat by lia. simpl. done.
Qed.

Lemma render_line_noop d n obj pp :
  n ≠ 0 -> value_written d (value_id obj) (value_text obj) ->
  render_line g parentDiv prefix cls pp n obj d = Ok (tt, d).
Proof.
  intros Hn (h & e & Hc & Hh & Hch & Ht). unfold render_line, value_id in *.
  rewrite decide_False by done. cbn [st_bind st_ret].
  rewrite (st_bind_Ok _ _ _ _ _ (DOMCacheGetOrSet_cached _ _ _ Hc)). unfold setTextContent, st_modify.
  by rewrite (setTextContent_same _ _ e).
Qed.

(** On a panel already rendered with the values of [g], a call changes
    nothing: no element is created and every text is rewritten unchanged. *)
Lemma loadStatistics_noop objs d :
  rendered objs d ->
  loadStatistics g objs parentDiv prefix cls calcTotalFunc summativeName d = Ok (tt, d).
Proof.
  intros ([pp Hpp] & Hcount & Hlines & (h & e & Hc & Hh & Hch & Ht)).
  unfold loadStatistics. rewrite (st_bind_Ok _ _ _ _ _ (DOMCacheGetOrSet_cached _ _ _ Hpp)).
  rewrite (st_bind_Ok _ _ _ (classCount d cls) d) by reflexivity.
  erewrite st_bind_Ok; [|apply forM__noop; intros obj Hobj; apply render_line_noop; auto].
  unfold render_total, total_value_id in *. rewrite decide_False by done. cbn [st_bind st_ret].
  rewrite (st_bind_Ok _ _ _ _ _ (DOMCacheGetOrSet_cached _ _ _ Hc)). unfold setTextContent, st_modify.
  by rewrite (setTextContent_same _ _ e).
Qed.

Lemma first_render_rendered d objs :
  DOMCacheGetOrSet parentDiv d = Ok (p, mkDom heap0 cache0) ->
  objs ≠ [] -> NoDup (panel_ids objs) ->
  (forall id, id ∈ panel_ids objs -> cache0 !! id = None) ->
  rendered objs (mkDom (first_render_heap objs) (first_render_cache objs)).
Proof.
  intros Hpar Hne Hnd Hfr. pose proof (DOMCacheGetOrSet_caches _ _ _ _ Hpar) as Hcp. simpl in Hcp.
  pose proof Hnd as Hnd'. unfold panel_ids in Hnd'. apply NoDup_app in Hnd' as (Hnl & Hout & Htot).
  assert (Hlen : length (<[p := parent_after (length objs + 1)]> heap0) = length heap0)
    by apply length_insert.
  split_and!.
  - exists p. unfold first_render_cache. cbn [dom_cache].
    assert (Hnot : parentDiv ∉ panel_ids objs) by (intros Hin; rewrite Hfr in Hcp; done).
    rewrite lookup_insert_ne by (intros Heq; apply Hnot; unfold panel_ids; set_solver).
    rewrite cache_lines_lookup_other; [done|]. intros Hin. apply Hnot. unfold panel_ids. set_solver.
  - destruct objs as [|o os]; [done|].
    apply (classCount_pos _ _ (length heap0) (line_elem (length heap0) o)); [|split; [done|set_solver]].
    unfold first_render_heap. cbn [heap]. rewrite lookup_app_r by lia. rewrite Hlen, Nat.sub_diag.
    done.
  - intros obj Hobj. apply list_elem_of_lookup in Hobj as [i Hi].
    destruct (created_lookup (length heap0) _ _ _ Hi) as [_ Hv].
    exists (S (length heap0 + 2 * i)), (value_elem (length heap0 + 2 * i) obj).
    split_and!; [|..|done|done].
    + unfold first_render_cache. cbn [dom_cache].
      rewrite lookup_insert_ne.
      * by apply cache_lines_lookup_index.
      * intros Heq. apply (Hout (value_id obj)); [|rewrite Heq; set_solver].
        apply list_elem_of_lookup_2 in Hi. clear -Hi. induction objs as [|o os IH]; [set_solver|].
        apply elem_of_cons in Hi as [->|Hi]; simpl; set_solver.
    + unfold first_render_heap. cbn [heap]. rewrite lookup_app_r by lia. rewrite Hlen.
      replace (S (length heap0 + 2 * i) - length heap0)%nat with (S (2 * i)) by lia.
      rewrite lookup_app_l; [done|]. rewrite length_created.
      apply lookup_lt_Some in Hi. lia.
  - exists (S (length heap0 + 2 * length objs)), (total_value_elem (length heap0 + 2 * length objs)).
    split_and!; [|..|done|done].
    + apply lookup_insert_eq.
    + unfold first_render_heap. cbn [heap]. rewrite lookup_app_r by lia. rewrite Hlen.
      rewrite lookup_app_r by (rewrite length_created; lia). rewrite length_created.
      by replace (S (length heap0 + 2 * length objs) - length heap0 - 2 * length objs)%nat with 1%nat by lia.
Qed.

(** C2. Calling [loadStatistics] twice in a row with the same game state
    leaves the document exactly as one call does: the second call creates
    no element and rewrites every text unchanged. *)
Theorem loadStatistics_idempotent d objs :
  DOMCacheGetOrSet parentDiv d = Ok (p, mkDom heap0 cache0) ->
  classCount (mkDom heap0 cache0) cls = 0 ->
  objs ≠ [] -> NoDup (panel_ids objs) ->
  (forall id, id ∈ panel_ids objs ->
     cache0 !! id = None /\ getElementById (mkDom heap0 cache0) id = None) ->
  exec (loadStatistics g objs parentDiv prefix cls calcTotalFunc summativeName ;;
        loadStatistics g objs parentDiv prefix cls calcTotalFunc summativeName) d
  = exec (loadStatistics g objs parentDiv prefix cls calcTotalFunc summativeName) d.
Proof.
  intros Hpar Hcount Hne Hnd Hfr. unfold exec.
  pose proof (first_render_run d objs Hpar Hcount Hnd Hfr) as Hrun.
  rewrite (st_bind_Ok _ _ _ _ _ Hrun), Hrun.
  rewrite loadStatistics_noop; [done|].
  apply (first_render_rendered d); auto. intros id Hid. by apply Hfr.
Qed.

(** C3. The first call creates exactly one line pair per catalog entry
    plus one total pair, and afterwards exactly the catalog's lines carry
    the panel's marker class. *)
Theorem loadStatistics_first_render_counts d objs :
  DOMCacheGetOrSet parentDiv d = Ok (p, mkDom heap0 cache0) ->
  classCount (mkDom heap0 cache0) cls = 0 ->
  cls ≠ "statNumber" -> cls ≠ "statTotal" ->
  NoDup (panel_ids objs) ->
  (forall id, id ∈ panel_ids objs ->
     cache0 !! id = None /\ getElementById (mkDom heap0 cache0) id = None) ->
  exists d', loadStatistics g objs parentDiv prefix cls calcTotalFunc summativeName d = Ok (tt, d') /\
             length (heap d') = (length heap0 + 2 * (length objs + 1))%nat /\
             classCount d' cls = length objs.
Proof.
  intros Hpar Hcount Hnum Htot Hnd Hfr.
  eexists. split; [by apply first_render_run|].
  split; [apply first_render_heap_length | by apply first_render_classCount].
Qed.

(** C4. Once the panel is initialised (its marker class is present), a
    value node that is neither cached nor in the document is a thrown
    [TypeError] naming the missing id, raised before anything is written
    (the document is left as it was): the renderer fails loudly and does
    not skip the line. *)
Theorem loadStatistics_missing_value_node d pp obj objs :
  dom_cache d !! parentDiv = Some pp -> classCount d cls ≠ 0 ->
  dom_cache d !! value_id obj = None -> getElementById d (value_id obj) = None ->
  loadStatistics g (obj :: objs) parentDiv prefix cls calcTotalFunc summativeName d
  = Throw (TypeError ("Could not find element with id " +:+ value_id obj)) d.
Proof.
  intros Hpp Hcount Hc Hg.
  unfold loadStatistics. rewrite (st_bind_Ok _ _ _ _ _ (DOMCacheGetOrSet_cached _ _ _ Hpp)).
  rewrite (st_bind_Ok _ _ _ (classCount d cls) d) by reflexivity.
  cbn [forM_]. apply st_bind_Throw, st_bind_Throw.
  unfold render_line, value_id in *. rewrite decide_False by done.
  rewrite (st_bind_Ok _ _ _ tt d) by reflexivity.
  by apply st_bind_Throw, DOMCacheGetOrSet_missing.
Qed.

(** The ids a call rewrites on an initialised panel: the value nodes of
    the lines, in order, then the total's. *)
Definition update_ids (objs : list (StatLine Game)) : list string :=
  (value_id <$> objs) ++ [total_value_id].

Lemma update_ids_sublist objs : update_ids objs `sublist_of` panel_ids objs.
Proof using.
  unfold update_ids, panel_ids. apply sublist_app; [|by apply sublist_cons].
  induction objs as [|o os IH]; [done|]. simpl. by apply sublist_cons, sublist_skip.
Qed.

(** On an initialised panel a line is the write of its value node. *)
Lemma render_line_update n pp obj d :
  n ≠ 0 ->
  render_line g parentDiv prefix cls pp n obj d = write_text (value_id obj) (value_text obj) d.
Proof using. intros Hn. unfold render_line. by rewrite decide_False. Qed.

Lemma render_lines_update n pp objs d :
  n ≠ 0 ->
  st_bind (forM_ objs (render_line g parentDiv prefix cls pp n))
          (fun _ => write_text total_value_id total_text) d =
  writes (((fun o => (value_id o, value_text o)) <$> objs) ++ [(total_value_id, total_text)]) d.
Proof using.
  intros Hn. revert d. induction objs as [|o os IH]; intros d; [reflexivity|].
  cbn [forM_]. rewrite fmap_cons, <- app_comm_cons, writes_cons.
  unfold st_bind in *. rewrite render_line_update by done.
  destruct (write_text _ _ d) as [[[] d1]|e d1]; [apply IH|reflexivity].
Qed.

Lemma render_lines_writes n pp objs d :
  n ≠ 0 ->
  forM_ objs (render_line g parentDiv prefix cls pp n) d =
  writes ((fun o => (value_id o, value_text o)) <$> objs) d.
Proof using.
  intros Hn. revert d. induction objs as [|o os IH]; intros d; [reflexivity|].
  cbn [forM_]. rewrite fmap_cons, writes_cons. unfold st_bind. rewrite render_line_update by done.
  destruct (write_text _ _ d) as [[[] d1]|e d1]; [apply IH|reflexivity].
Qed.

(** C5. Every call after the first (the panel's marker class present)
    is the update of the values: on a page where the panel is cached and
    the value nodes of the lines and of the total are cached at nodes of
    their own, a call with any game state returns, creates no element and
    leaves the cache as it is, every line's value node shows
    [format(stat(), acc ?? 2, true)] of the current state, the total's
    [format(calcTotalFunc(), 3, true)], and no other node's text changes. *)
Theorem loadStatistics_update d objs pp hs :
  dom_cache d !! parentDiv = Some pp -> classCount d cls ≠ 0 ->
  NoDup (panel_ids objs) ->
  (forall id, id ∈ update_ids objs -> dom_cache d !! id = Some (hs id) /\ hs id < length (heap d)) ->
  (forall id1 id2, id1 ∈ update_ids objs -> id2 ∈ update_ids objs -> hs id1 = hs id2 -> id1 = id2) ->
  exists d', loadStatistics g objs parentDiv prefix cls calcTotalFunc summativeName d = Ok (tt, d') /\
    same_shape d d' /\
    (forall obj, obj ∈ objs -> text_at d' (hs (value_id obj)) = Some (text_node (value_text obj))) /\
    text_at d' (hs total_value_id) = Some (text_node total_text) /\
    (forall h, (forall id, id ∈ update_ids objs -> hs id ≠ h) -> text_at d' h = text_at d h).
Proof using.
  intros Hpp Hcount Hnd Hc Hinj.
  set (ws := ((fun o => (value_id o, value_text o)) <$> objs) ++ [(total_value_id, total_text)]).
  assert (Hws : ws.*1 = update_ids objs).
  { unfold ws, update_ids. rewrite fmap_app, <- list_fmap_compose. done. }
  destruct (writes_run hs ws d) as (d' & R & S & W & F).
  - rewrite Hws. eapply sublist_NoDup; [exact Hnd|apply update_ids_sublist].
  - intros id s Hin. apply Hc. rewrite <- Hws. by apply (list_elem_of_fmap_2 fst _ (id, s)).
  - rewrite Hws. exact Hinj.
  - exists d'. split_and!; [|done| | |by rewrite Hws in F].
    + unfold loadStatistics. rewrite (st_bind_Ok _ _ _ _ _ (DOMCacheGetOrSet_cached _ _ _ Hpp)).
      rewrite (st_bind_Ok _ _ _ (classCount d cls) d) by reflexivity.
      rewrite <- R. unfold ws. rewrite <- (render_lines_update (classCount d cls) pp) by done.
      unfold st_bind. destruct (forM_ _ _ d) as [[[] d1]|e d1]; [|done].
      unfold render_total. by rewrite decide_False.
    + intros obj Hobj. apply W. unfold ws. apply elem_of_app. left.
      apply list_elem_of_fmap. by exists obj.
    + apply W. unfold ws. apply elem_of_app. right. by apply list_elem_of_singleton.
Qed.

(** ** What a first render leaves alone *)

Lemma first_render_cache_other objs id :
  id ∉ panel_ids objs -> first_render_cache objs !! id = cache0 !! id.
Proof.
  intros Hid. unfold first_render_cache. unfold panel_ids in Hid.
  rewrite lookup_insert_ne by set_solver. apply cache_lines_lookup_other. set_solver.
Qed.

Lemma first_render_heap_parent objs :
  first_render_heap objs !! p = Some (parent_after (length objs + 1)).
Proof.
  unfold first_render_heap. pose proof (lookup_lt_Some _ _ _ Hp0) as Hlt.
  rewrite lookup_app_l by (by rewrite length_insert). by apply list_lookup_insert_eq.
Qed.

Lemma first_render_heap_other objs h e :
  h ≠ p -> heap0 !! h = Some e -> first_render_heap objs !! h = Some e.
Proof.
  intros Hne He. unfold first_render_heap. pose proof (lookup_lt_Some _ _ _ He) as Hlt.
  rewrite lookup_app_l by (by rewrite length_insert). by rewrite list_lookup_insert_ne.
Qed.

Lemma parent_after_attached k : el_attached (parent_after k) = el_attached ep0.
Proof. unfold parent_after. by destruct ep0. Qed.

(** After a first render the panel has children: it is no leaf. *)
Lemma parent_after_children k : el_children (parent_after (S k)) ≠ [].
Proof. unfold parent_after. destruct ep0. cbn. simpl. destruct el_children; discriminate. Qed.

Lemma count_created_other h objs c :
  c ≠ cls -> c ≠ "statPortion" -> c ≠ "statNumber" ->
  length (filter (class_match c) (created h objs)) = 0.
Proof.
  intros H1 H2 H3. revert h. induction objs as [|o os IH]; intros h; [done|]. simpl.
  rewrite !filter_cons_False by (intros [_ Hin]; set_solver). apply IH.
Qed.

(** A class other than the four the call adds keeps its count. *)
Lemma first_render_classCount_other objs c cc :
  c ≠ cls -> c ≠ "statPortion" -> c ≠ "statNumber" -> c ≠ "statTotal" ->
  classCount (mkDom (first_render_heap objs) cc) c = classCount (mkDom heap0 cache0) c.
Proof.
  intros H1 H2 H3 H4. unfold classCount. cbn [heap]. unfold first_render_heap.
  rewrite !filter_app, !length_app.
  rewrite (length_filter_insert_same _ _ _ _ ep0) by (done || apply parent_after_match_class).
  rewrite count_created_other by done.
  rewrite !filter_cons_False by (intros [_ Hin]; set_solver). simpl. lia.
Qed.

(** An id the call does not use is still unknown after it. *)
Lemma first_render_fresh objs id :
  id ∉ panel_ids objs -> cache0 !! id = None -> getElementById (mkDom heap0 cache0) id = None ->
  first_render_cache objs !! id = None /\
  getElementById (mkDom (first_render_heap objs) (first_render_cache objs)) id = None.
Proof.
  intros Hid Hc Hg. split; [by rewrite first_render_cache_other|].
  apply getElementById_None in Hg. apply getElementById_None. cbn [heap] in *.
  unfold first_render_heap. apply Forall_app. split.
  - apply Forall_insert; [done|]. rewrite parent_after_match.
    by apply (Forall_lookup_1 _ _ _ _ Hg Hp0).
  - apply Forall_app. split.
    + apply Forall_forall. intros e He [_ Hm]. apply Hid. unfold panel_ids.
      apply elem_of_app. left. rewrite <- Hm. by apply (created_ids (length heap0)).
    + unfold panel_ids in Hid.
      repeat constructor; intros [_ Hm]; cbn in Hm; apply Hid; rewrite <- Hm; set_solver.
Qed.

(** A rendered panel stays rendered when its cache entries and the leaves
    of the page are kept and its marker class keeps its count. *)
Lemma rendered_frame objs d d' :
  rendered objs d ->
  (forall id, id ∈ parentDiv :: update_ids objs -> dom_cache d' !! id = dom_cache d !! id) ->
  (forall h e, heap d !! h = Some e -> el_children e = [] -> heap d' !! h = Some e) ->
  classCount d' cls = classCount d cls ->
  rendered objs d'.
Proof using.
  intros ([pp Hpp] & Hcount & Hlines & Htot) Hc Hh Hcl.
  assert (Hw : forall id txt, id ∈ update_ids objs -> value_written d id txt -> value_written d' id txt).
  { intros id txt Hid (h & e & Hch & He & Hl & Ht). exists h, e.
    rewrite Hc by (apply elem_of_cons; by right). auto. }
  split_and!.
  - exists pp. rewrite Hc by (apply elem_of_cons; by left). done.
  - by rewrite Hcl.
  - intros obj Hobj. apply Hw; [|by apply Hlines]. unfold update_ids. apply elem_of_app. left.
    apply list_elem_of_fmap. by exists obj.
  - apply Hw; [|done]. unfold update_ids. apply elem_of_app. right. by apply list_elem_of_singleton.
Qed.

(** C29. On an initialised panel, a line whose value node is neither
    cached nor in the document stops the call at that line: the lines
    before it (their value nodes cached at nodes of their own) are
    rewritten with the current values, then [DOMCacheGetOrSet] throws the
    [TypeError] naming the missing id; the lines after it and the total
    are not written, no element is created and no other text changes. *)
Theorem loadStatistics_missing_line d pre obj post pp hs :
  dom_cache d !! parentDiv = Some pp -> classCount d cls ≠ 0 ->
  NoDup (panel_ids (pre ++ obj :: post)) ->
  (forall o, o ∈ pre -> dom_cache d !! value_id o = Some (hs (value_id o)) /\
                        hs (value_id o) < length (heap d)) ->
  (forall o1 o2, o1 ∈ pre -> o2 ∈ pre -> hs (value_id o1) = hs (value_id o2) ->
                 value_id o1 = value_id o2) ->
  dom_cache d !! value_id obj = None -> getElementById d (value_id obj) = None ->
  exists d', loadStatistics g (pre ++ obj :: post) parentDiv prefix cls calcTotalFunc summativeName d
             = Throw (TypeError ("Could not find element with id " +:+ value_id obj)) d' /\
    same_shape d d' /\
    (forall o, o ∈ pre -> text_at d' (hs (value_id o)) = Some (text_node (value_text o))) /\
    (forall h, (forall o, o ∈ pre -> hs (value_id o) ≠ h) -> text_at d' h = text_at d h).
Proof using.
  intros Hpp Hcount Hnd Hc Hinj Hm Hg.
  set (ws := (fun o => (value_id o, value_text o)) <$> pre).
  assert (Hws : ws.*1 = value_id <$> pre) by (unfold ws; rewrite <- list_fmap_compose; done).
  assert (Hin : forall id, id ∈ ws.*1 -> exists o, id = value_id o /\ o ∈ pre)
    by (intros id; rewrite Hws; apply list_elem_of_fmap).
  destruct (writes_run hs ws d) as (d1 & R & [L C] & W & F).
  - rewrite Hws. eapply sublist_NoDup; [exact Hnd|]. etransitivity; [|apply update_ids_sublist].
    unfold update_ids. rewrite fmap_app, <- app_assoc. by apply sublist_inserts_r.
  - intros id s Hid. destruct (Hin id) as (o & -> & Ho); [by apply (list_elem_of_fmap_2 fst _ (id, s))|].
    by apply Hc.
  - intros id1 id2 H1 H2. destruct (Hin id1 H1) as (o1 & -> & Ho1), (Hin id2 H2) as (o2 & -> & Ho2).
    by apply Hinj.
  - exists d1. split_and!; [|split; done| |].
    + unfold loadStatistics. rewrite (st_bind_Ok _ _ _ _ _ (DOMCacheGetOrSet_cached _ _ _ Hpp)).
      rewrite (st_bind_Ok _ _ _ (classCount d cls) d) by reflexivity.
      apply st_bind_Throw. rewrite forM__app.
      rewrite (st_bind_Ok _ _ _ tt d1) by (rewrite render_lines_writes by done; exact R).
      cbn [forM_]. apply st_bind_Throw. rewrite render_line_update by done.
      unfold write_text. apply st_bind_Throw. apply DOMCacheGetOrSet_missing; [by rewrite C|].
      pose proof (writes_no_new_match (value_id obj) ws d) as Hn. rewrite R in Hn.
      exact (no_new_match_getElementById _ _ _ Hn Hg).
    + intros o Ho. apply W. apply list_elem_of_fmap. by exists o.
    + intros h Hh. apply F. intros id Hid. destruct (Hin id Hid) as (o & -> & Ho). by apply Hh.
Qed.

End Panel.

(** ** The scenario, run *)

Example scenario_texts :
  match scenario_render scenario_dom with
  | Ok (_, d) =>
      (el_text <$> heap d !! 3%nat, el_text <$> heap d !! 5%nat, el_text <$> heap d !! 7%nat,
       length (heap d), bool_decide (exec scenario_render d = Some d))
  | Throw _ _ => (None, None, None, 0%nat, false)
  end =
  (Some (Some "2.00"), Some (Some "3.00"), Some (Some "6.000"), 8%nat, true).
Proof. vm_compute. reflexivity. Qed.

Lemma loadStatistics_first_render_witness :
  scenario_render scenario_dom =
  Ok (tt, mkDom
    (@first_render_heap unit synergism_format scenario_i18n tt "globalCubeMultiplierStats" "statGCM"
       "GlobalCubeStat" (fun _ => JsNumber (QArith_base.inject_Z 6)) "Total"
       [scenario_body; scenario_panel] 1%nat scenario_panel scenario_catalog)
    (first_render_cache "statGCM" [scenario_body; scenario_panel]
       (<["globalCubeMultiplierStats" := 1%nat]> ∅) scenario_catalog)).
Proof.
  apply (@loadStatistics_first_render unit synergism_format scenario_i18n tt
           "globalCubeMultiplierStats" "statGCM" "GlobalCubeStat"
           (fun _ => JsNumber (QArith_base.inject_Z 6)) "Total"
           [scenario_body; scenario_panel] (<["globalCubeMultiplierStats" := 1%nat]> ∅)
           1%nat scenario_panel); try reflexivity.
  - discriminate.
  - refine (bool_decide_unpack _ _). vm_compute. exact I.
  - intros id Hid. apply list_elem_of_In in Hid. simpl in Hid.
    intuition subst; split; reflexivity.
Defined.

Lemma loadStatistics_idempotent_witness :
  exec (scenario_render ;; scenario_render) scenario_dom = exec scenario_render scenario_dom.
Proof.
  apply (@loadStatistics_idempotent unit synergism_format scenario_i18n tt
           "globalCubeMultiplierStats" "statGCM" "GlobalCubeStat"
           (fun _ => JsNumber (QArith_base.inject_Z 6)) "Total"
           [scenario_body; scenario_panel] (<["globalCubeMultiplierStats" := 1%nat]> ∅)
           1%nat scenario_panel); try reflexivity.
  - discriminate.
  - discriminate.
  - refine (bool_decide_unpack _ _). vm_compute. exact I.
  - intros id Hid. apply list_elem_of_In in Hid. simpl in Hid.
    intuition subst; split; reflexivity.
Defined.

Lemma loadStatistics_first_render_counts_witness :
  exists d', scenario_render scenario_dom = Ok (tt, d') /\
    length (heap d') = (2 + 2 * (length scenario_catalog + 1))%nat /\
    classCount d' "GlobalCubeStat" = length scenario_catalog.
Proof.
  apply (@loadStatistics_first_render_counts unit synergism_format scenario_i18n tt
           "globalCubeMultiplierStats" "statGCM" "GlobalCubeStat"
           (fun _ => JsNumber (QArith_base.inject_Z 6)) "Total"
           [scenario_body; scenario_panel] (<["globalCubeMultiplierStats" := 1%nat]> ∅)
           1%nat scenario_panel); try reflexivity; try discriminate.
  - refine (bool_decide_unpack _ _). vm_compute. exact I.
  - intros id Hid. apply list_elem_of_In in Hid. simpl in Hid.
    intuition subst; split; reflexivity.
Defined.

Lemma loadStatistics_missing_value_node_witness :
  scenario_render broken_scenario_dom =
  Throw (TypeError ("Could not find element with id " +:+ "statGCMNTwo")) broken_scenario_dom.
Proof.
  apply (@loadStatistics_missing_value_node unit synergism_format scenario_i18n tt
           "globalCubeMultiplierStats" "statGCM" "GlobalCubeStat"
           (fun _ => JsNumber (QArith_base.inject_Z 6)) "Total" broken_scenario_dom 1%nat
           (mkStatLine "Two" (fun _ => QArith_base.inject_Z 2) None None)
           [mkStatLine "Three" (fun _ => QArith_base.inject_Z 3) (Some "gold") None]);
    [reflexivity | vm_compute; discriminate | reflexivity | reflexivity].
Defined.

(** The scenario's page after its first render, and the nodes its cache
    names. *)
Definition scenario_rendered : Dom := res_state (scenario_render scenario_dom).

Definition scenario_handle (id : string) : nat := default 0%nat (dom_cache scenario_rendered !! id).

Section ScenarioUpdate.
#[local] Existing Instances synergism_format scenario_i18n.

Lemma loadStatistics_update_witness :
  exists d', scenario_render scenario_rendered = Ok (tt, d') /\ same_shape scenario_rendered d' /\
    (forall obj, obj ∈ scenario_catalog ->
       text_at d' (scenario_handle (value_id "statGCM" obj)) = Some (text_node (value_text tt obj))) /\
    text_at d' (scenario_handle (total_value_id "statGCM")) =
      Some (text_node (total_text tt (fun _ => JsNumber (QArith_base.inject_Z 6)))) /\
    (forall h, (forall id, id ∈ update_ids "statGCM" scenario_catalog -> scenario_handle id ≠ h) ->
       text_at d' h = text_at scenario_rendered h).
Proof.
  apply (loadStatistics_update tt "globalCubeMultiplierStats" "statGCM" "GlobalCubeStat"
           (fun _ => JsNumber (QArith_base.inject_Z 6)) "Total" scenario_rendered scenario_catalog
           1%nat scenario_handle).
  - reflexivity.
  - vm_compute. discriminate.
  - refine (bool_decide_unpack _ _). vm_compute. exact I.
  - intros id Hid. apply list_elem_of_In in Hid. vm_compute in Hid.
    intuition subst; vm_compute; first [reflexivity|lia].
  - intros id1 id2 H1 H2 Heq. apply list_elem_of_In in H1, H2. vm_compute in H1, H2.
    destruct H1 as [<-|[<-|[<-|[]]]]; destruct H2 as [<-|[<-|[<-|[]]]]; vm_compute in Heq;
      first [reflexivity|discriminate Heq].
Defined.
End ScenarioUpdate.

Lemma loadStatistics_missing_line_witness :
  exists d', scenario_render broken_second_dom =
             Throw (TypeError ("Could not find element with id " +:+ "statGCMNThree")) d' /\
    same_shape broken_second_dom d' /\
    (forall o, o ∈ [@mkStatLine unit "Two" (fun _ => QArith_base.inject_Z 2) None None] ->
       text_at d' 3 = Some (text_node (@value_text unit synergism_format tt o))) /\
    (forall h, (forall o, o ∈ [@mkStatLine unit "Two" (fun _ => QArith_base.inject_Z 2) None None] -> 3 ≠ h) ->
       text_at d' h = text_at broken_second_dom h).
Proof.
  apply (@loadStatistics_missing_line unit synergism_format scenario_i18n tt
           "globalCubeMultiplierStats" "statGCM" "GlobalCubeStat"
           (fun _ => JsNumber (QArith_base.inject_Z 6)) "Total" broken_second_dom
           [mkStatLine "Two" (fun _ => QArith_base.inject_Z 2) None None]
           (mkStatLine "Three" (fun _ => QArith_base.inject_Z 3) (Some "gold") None) [] 1%nat (fun _ => 3%nat)).
  - reflexivity.
  - vm_compute. discriminate.
  - refine (bool_decide_unpack _ _). vm_compute. exact I.
  - intros o Ho. apply list_elem_of_singleton in Ho as ->. split; [reflexivity|cbn; lia].
  - intros o1 o2 H1 H2 _. apply list_elem_of_singleton in H1 as ->. by apply list_elem_of_singleton in H2 as ->.
  - reflexivity.
  - reflexivity.
Defined.
