(* ===== verification/Stages.v ===== *)
(** * The progression classifier: [gameStages] and [synergismStage]

    [interface Stage] (lines 2668-2674), the ladder [gameStages] (lines
    2676-2849), built from the player fields it reads ([StagePlayer]), and
    the classifier [synergismStage] (lines 2854-2866), whose index loop is
    [scan_stages].  The theorems show that the ladder is contiguous with
    non-decreasing tiers for every player, that the loop is [List.find] of
    the code's test (with the first stage as fallback), that the fallback
    is never taken below tier 6 and always taken from tier 6 on, that
    the answer moves forward when [skipTier] grows, and that every stage
    after the first is the answer for some player ([player_at]). *)

From S2P Require Import Prelude.
From Stdlib Require Import QArith Sorted.
Local Close Scope Q_scope.

(** [interface Stage] *)
Record Stage : Type := mkStage {
  stage : nat;
  tier : Z;
  name : string;
  unlocked : bool;
  reset : bool
}.

(** The fields of [player] (and of [G]) that the ladder reads. *)
Record StagePlayer : Type := mkStagePlayer {
  unlocksPrestige : bool;
  unlocksTranscend : bool;
  unlocksReincarnate : bool;
  firstOwnedAnts : Z;
  achievements : nat -> Z;
  ascensionCount : Z;
  cubeUpgrades : nat -> Z;
  platonicUpgrades : nat -> Z;
  challenge15Exponent : Q;
  hepteractsUnlockedRequirement : Q;
  singularityCount : Z;
  runelevels : nat -> Z;
  noSingularityUpgradesCompletions : Z;
  oneMindLevel : Z;
  offeringAutomaticLevel : Z;
  ultimatePenLevel : Z;
  highestSingularityCount : Z
}.

Section Ladder.
Variable pl : StagePlayer.

Definition ach (k : nat) : bool := Z.eqb (achievements pl k) 1.

(** [gameStages()] *)
Definition gameStages : list Stage := [
  mkStage 0 1 "start" true true;
  mkStage 1 1 "start-prestige" (unlocksPrestige pl) (unlocksPrestige pl);
  mkStage 2 2 "prestige-transcend" (unlocksTranscend pl) (unlocksTranscend pl);
  mkStage 3 3 "transcend-reincarnate" (unlocksReincarnate pl) (unlocksReincarnate pl);
  mkStage 4 4 "reincarnate-ant" (negb (Z.eqb (firstOwnedAnts pl) 0)) (unlocksReincarnate pl);
  mkStage 5 4 "ant-sacrifice" (ach 173) (unlocksReincarnate pl);
  mkStage 6 4 "sacrifice-ascension" (ach 183) (unlocksReincarnate pl);
  mkStage 7 5 "ascension-challenge10" (Z.ltb 1 (ascensionCount pl)) (ach 183);
  mkStage 8 5 "challenge10-challenge11" (ach 197) (ach 183);
  mkStage 9 5 "challenge11-challenge12" (ach 204) (ach 183);
  mkStage 10 5 "challenge12-challenge13" (ach 211) (ach 183);
  mkStage 11 5 "challenge13-challenge14" (ach 218) (ach 183);
  mkStage 12 5 "challenge14-w5x10max" (Z.leb 100000 (cubeUpgrades pl 50)) (ach 183);
  mkStage 13 5 "w5x10max-alpha" (Z.ltb 0 (platonicUpgrades pl 5)) (ach 183);
  mkStage 14 5 "alpha-p2x1x10" (Z.leb 10 (platonicUpgrades pl 6)) (ach 183);
  mkStage 15 5 "p2x1x10-p3x1" (Z.ltb 0 (platonicUpgrades pl 11)) (ach 183);
  mkStage 16 5 "p3x1-beta" (Z.ltb 0 (platonicUpgrades pl 10)) (ach 183);
  mkStage 17 5 "beta-1e15-expo"
    (Qle_bool (hepteractsUnlockedRequirement pl) (challenge15Exponent pl)) (ach 183);
  mkStage 18 5 "1e15-expo-omega" (Z.ltb 0 (platonicUpgrades pl 15)) (ach 183);
  mkStage 19 5 "omega-singularity"
    (Z.ltb 0 (singularityCount pl) && Z.ltb 0 (runelevels pl 6)) (ach 183);
  mkStage 20 6 "singularity-exalt1x1"
    (Z.ltb 0 (noSingularityUpgradesCompletions pl)) (Z.ltb 0 (highestSingularityCount pl));
  mkStage 21 6 "exalt1x1-onemind" (Z.ltb 0 (oneMindLevel pl)) (Z.ltb 0 (highestSingularityCount pl));
  mkStage 22 6 "onemind-end" (Z.ltb 0 (offeringAutomaticLevel pl)) (Z.ltb 0 (highestSingularityCount pl));
  mkStage 23 6 "end-pen" (Z.ltb 0 (ultimatePenLevel pl)) (Z.ltb 0 (highestSingularityCount pl));
  mkStage 24 6 "pen" false (Z.ltb 0 (highestSingularityCount pl))
].

(** The default argument [player.singularityCount > 0 ? 5 : 0]. *)
Definition defaultSkipTier : Z := if Z.ltb 0 (singularityCount pl) then 5 else 0.
End Ladder.

(** The test of the loop: [skipTier < stage.tier && (!stage.reset || !stage.unlocked)]. *)
Definition stage_test (skipTier : Z) (st : Stage) : bool :=
  Z.ltb skipTier (tier st) && (negb (reset st) || negb (unlocked st)).

(** [for (let i = i0; i < stages.length; i++) { ... return stage.name }],
    with [n] iterations left. *)
Fixpoint scan_stages (stages : list Stage) (skipTier : Z) (i n : nat) : option string :=
  match n with
  | O => None
  | S n' =>
      match stages !! i with
      | Some st => if stage_test skipTier st then Some (name st) else scan_stages stages skipTier (S i) n'
      | None => None
      end
  end.

(** The classifier on a ladder: the loop, then [stages[0].name]. *)
Definition classify (stages : list Stage) (skipTier : Z) : string :=
  match scan_stages stages skipTier 0 (length stages) with
  | Some nm => nm
  | None => from_option name EmptyString (stages !! 0%nat)
  end.

(** [synergismStage(skipTier)] *)
Definition synergismStage (pl : StagePlayer) (skipTier : Z) : string :=
  classify (gameStages pl) skipTier.

(** The stage the loop settles on, with its index, if it finds one. *)
Definition found_stage (pl : StagePlayer) (skipTier : Z) : option (nat * Stage) :=
  list_find (fun st => stage_test skipTier st = true) (gameStages pl).

(** A fresh game: every counter and flag of [StagePlayer] at zero. *)
Definition fresh_player : StagePlayer :=
  mkStagePlayer false false false 0 (fun _ => 0%Z) 0 (fun _ => 0%Z) (fun _ => 0%Z)
    0%Q 1%Q 0 (fun _ => 0%Z) 0 0 0 0 0.

(** A player who has unlocked exactly the stages [1 .. i - 1] of the
    ladder and cleared every reset stage among them. *)
Definition player_at (i : nat) : StagePlayer :=
  let past k := Nat.ltb k i in
  let flag k := if past k then 1%Z else 0%Z in
  mkStagePlayer (past 1) (past 2) (past 3) (flag 4)
    (fun k => if (Nat.eqb k 173 && past 5) || (Nat.eqb k 183 && past 6) ||
                 (Nat.eqb k 197 && past 8) || (Nat.eqb k 204 && past 9) ||
                 (Nat.eqb k 211 && past 10) || (Nat.eqb k 218 && past 11) then 1%Z else 0%Z)
    (if past 7 then 2%Z else 0%Z)
    (fun _ => if past 12 then 100000%Z else 0%Z)
    (fun k => if (Nat.eqb k 5 && past 13) || (Nat.eqb k 6 && past 14) ||
                 (Nat.eqb k 11 && past 15) || (Nat.eqb k 10 && past 16) ||
                 (Nat.eqb k 15 && past 18) then 10%Z else 0%Z)
    (if past 17 then 1%Q else 0%Q) 1%Q (flag 19) (fun _ => flag 19)
    (flag 20) (flag 21) (flag 22) (flag 23) (flag 19).

(** The two-stage ladder of the contract's example. *)
Definition example_ladder : list Stage :=
  [mkStage 0 0 "first" true true; mkStage 1 1 "second" false true].

(** ** The loop is [list_find] *)

Lemma scan_stages_find stages skipTier n i :
  length stages - i <= n ->
  scan_stages stages skipTier i n =
  (fun p => name p.2) <$> list_find (fun st => stage_test skipTier st = true) (drop i stages).
Proof.
  revert i. induction n as [|n IH]; intros i Hn; simpl.
  - rewrite drop_ge by lia. reflexivity.
  - destruct (stages !! i) as [st|] eqn:Hi.
    + rewrite (drop_S _ _ _ Hi). simpl. case_decide as Ht.
      * rewrite Ht. reflexivity.
      * rewrite (not_true_is_false _ Ht), IH by lia.
        destruct (list_find _ (drop (S i) stages)) as [[]|]; reflexivity.
    + apply lookup_ge_None in Hi. rewrite drop_ge by lia. reflexivity.
Qed.

Lemma classify_find stages skipTier :
  classify stages skipTier =
  match list_find (fun st => stage_test skipTier st = true) stages with
  | Some (_, st) => name st
  | None => from_option name EmptyString (stages !! 0%nat)
  end.
Proof.
  unfold classify. rewrite (scan_stages_find _ _ _ 0) by lia. rewrite drop_0.
  destruct (list_find _ stages) as [[]|]; reflexivity.
Qed.

(** ** Shape of the ladder *)

Lemma gameStages_index pl i st : gameStages pl !! i = Some st -> stage st = i.
Proof.
  intros Hi.
  assert (Hs : (stage <$> gameStages pl) !! i = Some (stage st))
    by (rewrite list_lookup_fmap, Hi; reflexivity).
  change (stage <$> gameStages pl) with (seq 0 25) in Hs.
  apply lookup_seq in Hs. lia.
Qed.

Lemma gameStages_tier_le pl st : st ∈ gameStages pl -> (1 <= tier st <= 6)%Z.
Proof. intros Hst. apply list_elem_of_In in Hst. simpl in Hst. intuition subst; simpl; lia. Qed.

Lemma stage_test_high skipTier st : (tier st <= skipTier)%Z -> stage_test skipTier st = false.
Proof. intros Ht. unfold stage_test. replace (skipTier <? tier st)%Z with false by lia. reflexivity. Qed.

Lemma stage_test_mono s1 s2 st :
  (s1 <= s2)%Z -> stage_test s2 st = true -> stage_test s1 st = true.
Proof.
  unfold stage_test. intros Hle Ht. apply andb_prop in Ht as [Hlt Hr].
  apply Z.ltb_lt in Hlt. rewrite Hr, andb_true_r. apply Z.ltb_lt. lia.
Qed.

Lemma list_find_mono {A} (P1 P2 : A -> Prop) `{!forall x, Decision (P1 x)}
    `{!forall x, Decision (P2 x)} (l : list A) i1 x1 i2 x2 :
  (forall x, P2 x -> P1 x) ->
  list_find P1 l = Some (i1, x1) -> list_find P2 l = Some (i2, x2) -> (i1 <= i2)%nat.
Proof.
  intros Himp (_ & _ & Hmin)%list_find_Some (Hl2 & HP2 & _)%list_find_Some.
  destruct (decide (i1 <= i2)%nat) as [|Hgt]; [done|].
  exfalso. apply (Hmin i2 x2); [done | lia | auto].
Qed.

Lemma classify_fallback stages skipTier :
  (forall st, st ∈ stages -> (tier st <= skipTier)%Z) ->
  classify stages skipTier = from_option name EmptyString (stages !! 0%nat).
Proof.
  intros Hall. rewrite classify_find.
  replace (list_find _ stages) with (@None (nat * Stage)); [reflexivity|].
  symmetry. apply list_find_None, Forall_forall.
  intros st Hst. rewrite stage_test_high by auto. discriminate.
Qed.

(** ** The classifier's contract *)

(** C12. [synergismStage] returns the name of the first stage of the ladder, in
    index order, whose tier exceeds [skipTier] and which is not a cleared
    reset stage; when there is none it returns the first stage's name,
    ["start"]. *)
Theorem synergismStage_first_match pl skipTier :
  synergismStage pl skipTier =
  match found_stage pl skipTier with
  | Some (_, st) => name st
  | None => "start"
  end.
Proof. unfold synergismStage, found_stage. rewrite classify_find. reflexivity. Qed.

(** C13. For every player the ladder has 25 stages numbered by their position
    and its tiers never decrease along it. *)
Theorem gameStages_ladder pl :
  stage <$> gameStages pl = seq 0 (length (gameStages pl)) /\
  length (gameStages pl) = 25%nat /\
  StronglySorted Z.le (tier <$> gameStages pl).
Proof.
  split; [reflexivity|]. split; [reflexivity|].
  change (tier <$> gameStages pl) with
    [1;1;2;3;4;4;4;5;5;5;5;5;5;5;5;5;5;5;5;5;6;6;6;6;6]%Z.
  repeat (constructor; try lia).
Qed.

(** C14. Below tier 6 the loop always finds a stage (the last stage, ["pen"],
    is locked for ever), and never the first one, which is unlocked and a
    reset stage: the fallback of the code is unreachable there. *)
Theorem synergismStage_no_fallback pl skipTier :
  (skipTier < 6)%Z ->
  exists i st, found_stage pl skipTier = Some (i, st) /\ (1 <= i)%nat /\
               synergismStage pl skipTier = name st.
Proof.
  intros Hs. unfold found_stage.
  destruct (list_find_elem_of (fun st => stage_test skipTier st = true) (gameStages pl)
              (mkStage 24 6 "pen" false (Z.ltb 0 (highestSingularityCount pl))))
    as [[i st] Hf].
  - apply list_elem_of_In. do 24 right. left. reflexivity.
  - unfold stage_test. simpl. rewrite orb_true_r, andb_true_r. apply Z.ltb_lt. lia.
  - exists i, st. split; [done|]. split.
    + destruct i; [|lia]. apply list_find_Some in Hf as (Hl & Ht & _).
      simpl in Hl. injection Hl as <-. unfold stage_test in Ht. simpl in Ht.
      rewrite andb_false_r in Ht. discriminate Ht.
    + unfold synergismStage. rewrite classify_find, Hf. reflexivity.
Qed.

(** C15. When [skipTier] is at least every tier (6 or more) no stage
    qualifies and [synergismStage] returns the first stage's name. *)
Theorem synergismStage_fallback pl skipTier :
  (6 <= skipTier)%Z -> synergismStage pl skipTier = "start".
Proof.
  intros Hs. unfold synergismStage. rewrite classify_fallback; [reflexivity|].
  intros st Hst. apply gameStages_tier_le in Hst. lia.
Qed.

(** C16. Raising [skipTier] never moves the classification back: the stage
    found for a larger [skipTier] is at or after the one found for a
    smaller one. *)
Theorem found_stage_monotone pl s1 s2 i1 st1 i2 st2 :
  (s1 <= s2)%Z ->
  found_stage pl s1 = Some (i1, st1) -> found_stage pl s2 = Some (i2, st2) ->
  (stage st1 <= stage st2)%nat.
Proof.
  intros Hle H1 H2.
  pose proof (proj1 (list_find_Some _ _ _ _) H1) as [Hl1 _].
  pose proof (proj1 (list_find_Some _ _ _ _) H2) as [Hl2 _].
  rewrite (gameStages_index _ _ _ Hl1), (gameStages_index _ _ _ Hl2).
  eapply (list_find_mono _ _ (gameStages pl)); [|exact H1|exact H2].
  intros st. apply stage_test_mono. done.
Qed.

(** C33. Every stage of the ladder after the first can be the label of
    the statistics tab, which calls [synergismStage(0)]: for each index
    [i] in [1..24] some player makes the loop stop at stage [i].  No stage
    is shadowed by an earlier one of the same tier that is not a reset
    stage, or by a reset flag that cannot hold when the stage is reached. *)
Theorem every_stage_reachable i :
  (1 <= i <= 24)%nat ->
  exists pl st, found_stage pl 0 = Some (i, st) /\ synergismStage pl 0 = name st.
Proof.
  intros Hi. exists (player_at i).
  assert (Hall : Forall (fun j => exists st, found_stage (player_at j) 0 = Some (j, st) /\
                                             synergismStage (player_at j) 0 = name st) (seq 1 24)).
  { repeat constructor; eexists; split; reflexivity. }
  rewrite Forall_forall in Hall. apply Hall, elem_of_seq. lia.
Qed.

(** The contract's example: on the ladder of an unlocked reset stage of
    tier 0 followed by a locked reset stage of tier 1, [classify 0] returns
    the second stage's name; with [skipTier] above both tiers it returns the
    first's. *)
Example classify_example_ladder :
  classify example_ladder 0 = "second" /\ classify example_ladder 1 = "first".
Proof. split; reflexivity. Qed.

(** On a fresh game the default [skipTier] is 0 and the player is at the
    first prestige stage. *)
Example synergismStage_fresh :
  defaultSkipTier fresh_player = 0%Z /\
  synergismStage fresh_player (defaultSkipTier fresh_player) = "start-prestige".
Proof. split; reflexivity. Qed.

Lemma synergismStage_no_fallback_witness :
  (0 < 6)%Z /\
  exists i st, found_stage fresh_player 0 = Some (i, st) /\ (1 <= i)%nat /\
               synergismStage fresh_player 0 = name st.
Proof. split; [lia|]. apply (synergismStage_no_fallback fresh_player 0). lia. Defined.

Lemma synergismStage_fallback_witness :
  (6 <= 7)%Z /\ synergismStage fresh_player 7 = "start".
Proof. split; [lia|]. apply (synergismStage_fallback fresh_player 7). lia. Defined.

Lemma found_stage_monotone_witness :
  found_stage fresh_player 0 = Some (1%nat, mkStage 1 1 "start-prestige" false false) /\
  found_stage fresh_player 5 = Some (20%nat, mkStage 20 6 "singularity-exalt1x1" false false) /\
  (stage (mkStage 1 1 "start-prestige" false false) <=
   stage (mkStage 20 6 "singularity-exalt1x1" false false))%nat.
Proof.
  split; [reflexivity|]. split; [reflexivity|].
  apply (found_stage_monotone fresh_player 0 5 1 _ 20 _); [lia|reflexivity|reflexivity].
Defined.

Lemma every_stage_reachable_witness :
  (1 <= 8 <= 24)%nat /\
  exists pl st, found_stage pl 0 = Some (8%nat, st) /\ synergismStage pl 0 = name st.
Proof. split; [lia|]. apply (every_stage_reachable 8). lia. Defined.
