(* ===== verification/Loaders.v ===== *)
(** * The catalog loaders: the [loadStatistics] calls of [Statistics.ts]

    The fourteen exported loaders whose body is one or two calls of
    [loadStatistics] (lines 2101-2252), each written as the argument tuple
    of its call ([PanelCall]) and its run.  The totals they pass,
    [calculate*] of [Calculate.ts], and the counters the time modifiers
    read are supplied by [LoaderEnv].  The theorems show that the ids the
    loaders create are pairwise distinct over the whole page, that every
    marker class is distinct from the classes the engine adds, and that a
    second run of a loader with unchanged inputs changes nothing. *)

From S2P Require Import Prelude Dom Format Catalog Render.
From Stdlib Require Import QArith.
Local Close Scope Q_scope.

(** The canonical totals the loaders pass as [calcTotalFunc]. *)
Inductive TotalFn : Type :=
| calculateQuarkMultiplier | calculateAllCubeMultiplier | calculateCubeMultiplier
| calculateTesseractMultiplier | calculateHypercubeMultiplier | calculatePlatonicMultiplier
| calculateHepteractMultiplier | calculateOcteractMultiplier | calculateBaseOfferings
| calculateOfferingsDecimal | calculateOfferings | calculateBaseObtainium
| calculateObtainiumDRIgnoreCap | calculateObtainiumDecimal | calculateObtainium
| calculateAntSacrificeMultipliers.

(** What the loaders read of the game besides the catalogs' formulas. *)
Class LoaderEnv (Game : Type) : Type := {
  calculate : TotalFn -> Game -> NumVal;
  prestigecounter : Game -> Q;
  prestigeCount : Game -> Z;
  reincarnationcounter : Game -> Q;
  reincarnationCount : Game -> Z
}.

(** The arguments of one [loadStatistics] call. *)
Record PanelCall (Game : Type) : Type := mkCall {
  pc_objs : list (StatLine Game);
  pc_parent : string;
  pc_prefix : string;
  pc_class : string;
  pc_total : Game -> NumVal;
  pc_summative : string
}.
Arguments mkCall {Game} _ _ _ _ _ _.
Arguments pc_objs {Game} _.
Arguments pc_parent {Game} _.
Arguments pc_prefix {Game} _.
Arguments pc_class {Game} _.
Arguments pc_total {Game} _ _.
Arguments pc_summative {Game} _.

Section Loaders.
Context {Game : Type} `{!StateProvider Game} `{!LoaderEnv Game} `{!NumberFormat} `{!I18n}.

Definition run_call (g : Game) (c : PanelCall Game) : St Dom unit :=
  loadStatistics g (pc_objs c) (pc_parent c) (pc_prefix c) (pc_class c) (pc_total c) (pc_summative c).

(** The argument tuples, in the order of the source. *)
Definition quark_call : PanelCall Game :=
  mkCall allQuarkStats "globalQuarkMultiplierStats" "sGQM" "quarkStats"
    (calculate calculateQuarkMultiplier) "Total".
Definition cube_call : PanelCall Game :=
  mkCall allCubeStats "globalCubeMultiplierStats" "statGCM" "GlobalCubeStat"
    (calculate calculateAllCubeMultiplier) "Total".
Definition wowcube_call : PanelCall Game :=
  mkCall allWowCubeStats "cubeMultiplierStats" "statCM" "WowCubeStat"
    (calculate calculateCubeMultiplier) "Total".
Definition tesseract_call : PanelCall Game :=
  mkCall allTesseractStats "tesseractMultiplierStats" "statTeM" "TesseractStat"
    (calculate calculateTesseractMultiplier) "Total".
Definition hypercube_call : PanelCall Game :=
  mkCall allHypercubeStats "hypercubeMultiplierStats" "statHyM" "HypercubeStat"
    (calculate calculateHypercubeMultiplier) "Total".
Definition platonic_call : PanelCall Game :=
  mkCall allPlatonicCubeStats "platonicMultiplierStats" "statPlM" "PlatonicStat"
    (calculate calculatePlatonicMultiplier) "Total".
Definition hepteract_call : PanelCall Game :=
  mkCall allHepteractCubeStats "hepteractMultiplierStats" "statHeM" "HepteractCubeStat"
    (calculate calculateHepteractMultiplier) "Total".
Definition octeract_call : PanelCall Game :=
  mkCall allOcteractCubeStats "octeractMultiplierStats" "statOcM" "OcteractCubeStat"
    (calculate calculateOcteractMultiplier) "Total".
Definition offeringBase_call : PanelCall Game :=
  mkCall allBaseOfferingStats "baseOfferingStats" "statOffB" "OfferingBaseStat"
    (calculate calculateBaseOfferings) "Total".
Definition offering_call : PanelCall Game :=
  mkCall allOfferingStats "offeringMultiplierStats" "statOff" "OfferingStat"
    (calculate calculateOfferingsDecimal) "Total".
Definition offeringTime_call (g : Game) : PanelCall Game :=
  mkCall (offeringObtainiumTimeModifiers (prestigecounter g) (Z.ltb 0 (prestigeCount g)))
    "offeringMultiplierStats" "statOff2" "OfferingStat2" (calculate calculateOfferings) "Total2".
Definition obtainiumBase_call : PanelCall Game :=
  mkCall allBaseObtainiumStats "baseObtainiumStats" "statObtB" "ObtainiumBaseStat"
    (calculate calculateBaseObtainium) "Total".
Definition obtainiumIgnoreDR_call : PanelCall Game :=
  mkCall allObtainiumIgnoreDRCapStats "obtainiumIgnoreDRCapStats" "statObtDR" "ObtainiumDRStat"
    (calculate calculateObtainiumDRIgnoreCap) "Total".
Definition obtainium_call : PanelCall Game :=
  mkCall allObtainiumStats "obtainiumMultiplierStats" "statObt" "ObtainiumStat"
    (calculate calculateObtainiumDecimal) "Total".
Definition obtainiumTime_call (g : Game) : PanelCall Game :=
  mkCall (obtainiumDR ++ offeringObtainiumTimeModifiers (reincarnationcounter g)
                          (Z.leb 5 (reincarnationCount g)))
    "obtainiumMultiplierStats" "statObt2" "ObtainiumStat2" (calculate calculateObtainium) "Total2".
Definition antSacrifice_call : PanelCall Game :=
  mkCall antSacrificeRewardStats "antSacrificeMultStats" "statASM" "AntSacrificeStat"
    (calculate calculateAntSacrificeMultipliers) "Total".

(** The exported loaders. *)
Definition loadQuarkMultiplier (g : Game) : St Dom unit := run_call g quark_call.
Definition loadGlobalCubeMultiplierStats (g : Game) : St Dom unit := run_call g cube_call.
Definition loadWowCubeMultiplierStats (g : Game) : St Dom unit := run_call g wowcube_call.
Definition loadTesseractMultiplierStats (g : Game) : St Dom unit := run_call g tesseract_call.
Definition loadHypercubeMultiplierStats (g : Game) : St Dom unit := run_call g hypercube_call.
Definition loadPlatonicMultiplierStats (g : Game) : St Dom unit := run_call g platonic_call.
Definition loadHepteractMultiplierStats (g : Game) : St Dom unit := run_call g hepteract_call.
Definition loadOcteractMultiplierStats (g : Game) : St Dom unit := run_call g octeract_call.
Definition loadStatisticsOfferingBase (g : Game) : St Dom unit := run_call g offeringBase_call.
Definition loadStatisticsOfferingMultipliers (g : Game) : St Dom unit :=
  run_call g offering_call ;; run_call g (offeringTime_call g).
Definition loadStatisticsObtainiumBase (g : Game) : St Dom unit := run_call g obtainiumBase_call.
Definition loadStatisticsObtainiumIgnoreDR (g : Game) : St Dom unit :=
  run_call g obtainiumIgnoreDR_call.
Definition loadStatisticsObtainiumMultipliers (g : Game) : St Dom unit :=
  run_call g obtainium_call ;; run_call g (obtainiumTime_call g).
Definition loadStatisticsAntSacrificeMult (g : Game) : St Dom unit := run_call g antSacrifice_call.

(** Every [loadStatistics] call of the module, in source order. *)
Definition all_calls (g : Game) : list (PanelCall Game) :=
  [quark_call; cube_call; wowcube_call; tesseract_call; hypercube_call; platonic_call;
   hepteract_call; octeract_call; offeringBase_call; offering_call; offeringTime_call g;
   obtainiumBase_call; obtainiumIgnoreDR_call; obtainium_call; obtainiumTime_call g;
   antSacrifice_call].

(** The ids a call's rows use. *)
Definition call_ids (c : PanelCall Game) : list string := panel_ids (pc_prefix c) (pc_objs c).

(** The side conditions of the engine that a call meets by its arguments:
    its ids are distinct, its marker class is none of the classes the
    engine adds, and its catalog is not empty. *)
Definition call_ok (c : PanelCall Game) : bool :=
  bool_decide (NoDup (call_ids c)) &&
  bool_decide (pc_class c ∉ ["statPortion"; "statNumber"; "statTotal"]) &&
  match pc_objs c with [] => false | _ :: _ => true end.
End Loaders.

(** A game of one state whose formulas and totals are all 1, to run the
    loaders on. *)
Definition unit_provider : StateProvider unit :=
  {| catalogFormula := fun _ _ _ => 1%Q; resetTimeThreshold := fun _ => 1%Q;
     halfMindBonus := fun _ => false; timeAccelerationMult := fun _ => 1%Q;
     achievement177 := fun _ => 0%Z; antSacrificeTimer := fun _ => 0%Q |}.

Definition unit_env : LoaderEnv unit :=
  {| calculate := fun _ _ => JsNumber 1%Q; prestigecounter := fun _ => 0%Q;
     prestigeCount := fun _ => 0%Z; reincarnationcounter := fun _ => 0%Q;
     reincarnationCount := fun _ => 0%Z |}.

(** ** The calls' ids and classes *)

Section LoaderFacts.
Context {Game : Type} `{!StateProvider Game} `{!LoaderEnv Game} `{!NumberFormat} `{!I18n}.

Lemma all_calls_ok (g : Game) : Forall (fun c => call_ok c = true) (all_calls g).
Proof. refine (bool_decide_unpack _ _). vm_compute. exact I. Qed.

Lemma call_ok_spec (c : PanelCall Game) :
  call_ok c = true ->
  NoDup (call_ids c) /\ pc_class c ≠ "statPortion" /\ pc_class c ≠ "statNumber" /\
  pc_class c ≠ "statTotal" /\ pc_objs c ≠ [].
Proof.
  unfold call_ok. intros (Hab & Hne)%andb_prop. apply andb_prop in Hab as [Hnd Hcl].
  apply bool_decide_eq_true in Hnd, Hcl. split_and!; [done|set_solver..|].
  by destruct (pc_objs c).
Qed.

(** C7. The ids the loaders' rows use ([prefix ++ key], [prefix ++ "N" ++
    key] and the two total ids, over the sixteen calls) are pairwise
    distinct: no two rows of the page share a cache entry. *)
Theorem loader_ids_distinct (g : Game) : NoDup (all_calls g ≫= call_ids).
Proof. refine (bool_decide_unpack _ _). vm_compute. exact I. Qed.

(** C8. The marker classes of the sixteen calls are pairwise distinct
    (so that the two calls that share the offering and the obtainium
    panels detect their own rows), and none of them is a class the engine
    itself adds ([statPortion], [statNumber], [statTotal]). *)
Theorem loader_classes_distinct (g : Game) :
  NoDup (pc_class <$> all_calls g) /\
  Forall (fun c => pc_class c ∉ ["statPortion"; "statNumber"; "statTotal"]) (all_calls g).
Proof. split; refine (bool_decide_unpack _ _); vm_compute; exact I. Qed.

(** C6. Every [loadStatistics] call of the module, run on a page where
    its panel is an attached element and none of its rows exists yet,
    creates one [<p>]/[<span>] pair per catalog line plus the total pair,
    leaves exactly its catalog's lines marked with its class, and a second
    run with the same game state changes nothing. *)
Theorem loader_call_first_render (g : Game) c d p ep0 heap0 cache0 :
  c ∈ all_calls g -> heap0 !! p = Some ep0 -> el_attached ep0 = true ->
  DOMCacheGetOrSet (pc_parent c) d = Ok (p, mkDom heap0 cache0) ->
  classCount (mkDom heap0 cache0) (pc_class c) = 0 ->
  (forall id, id ∈ call_ids c ->
     cache0 !! id = None /\ getElementById (mkDom heap0 cache0) id = None) ->
  exists d', run_call g c d = Ok (tt, d') /\
    length (heap d') = (length heap0 + 2 * (length (pc_objs c) + 1))%nat /\
    classCount d' (pc_class c) = length (pc_objs c) /\
    run_call g c d' = Ok (tt, d').
Proof.
  intros Hc Hp Hatt Hpar Hcount Hfr.
  destruct (call_ok_spec c) as (Hnd & Hsp & Hnum & Htot & Hne).
  { pose proof (all_calls_ok g) as Hall. rewrite Forall_forall in Hall. by apply Hall. }
  unfold run_call. eexists. split; [eapply first_render_run; eassumption|].
  split_and!.
  - apply first_render_heap_length.
  - eapply first_render_classCount; eassumption.
  - apply loadStatistics_noop. eapply first_render_rendered; try eassumption.
    intros id Hid. by apply Hfr.
Qed.
End LoaderFacts.

Section UnitRun.
#[local] Existing Instances unit_provider unit_env scenario_i18n.

Lemma loader_call_first_render_witness :
  exists d', run_call tt cube_call scenario_dom = Ok (tt, d') /\
    length (heap d') = (2 + 2 * (length (pc_objs (cube_call (Game := unit))) + 1))%nat /\
    classCount d' "GlobalCubeStat" = length (pc_objs (cube_call (Game := unit))) /\
    run_call tt cube_call d' = Ok (tt, d').
Proof.
  apply (loader_call_first_render tt cube_call scenario_dom 1 scenario_panel
           [scenario_body; scenario_panel] (<["globalCubeMultiplierStats" := 1%nat]> ∅));
    try reflexivity.
  - apply list_elem_of_In. simpl. auto.
  - intros id Hid. revert id Hid. apply Forall_forall.
    refine (bool_decide_unpack _ _). vm_compute. exact I.
Defined.
End UnitRun.
