(* ===== verification/SharedPanels.v ===== *)
(** * Two loader calls that share a panel

    [loadStatisticsOfferingMultipliers] and
    [loadStatisticsObtainiumMultipliers] (lines 2206-2216 and 2232-2242)
    each make two [loadStatistics] calls into the same panel, with two
    marker classes.  This file proves that on a fresh panel the pair
    renders both catalogs, each call detecting only its own rows, and that
    a second run of the pair changes nothing. *)

From S2P Require Import Prelude Dom Format Catalog Render Loaders.
From Stdlib Require Import QArith.
Local Close Scope Q_scope.

Section Shared.
Context {Game : Type} `{!StateProvider Game} `{!LoaderEnv Game} `{!NumberFormat} `{!I18n}.

(** Two calls into one panel, with distinct marker classes and ids, run on
    a page where the panel is attached, neither class is present and none
    of their ids exists: both render, each class marks exactly its own
    lines, and the pair run again leaves the page as it is. *)
Lemma two_calls_first_render (g : Game) c1 c2 d p ep0 heap0 cache0 :
  pc_parent c2 = pc_parent c1 -> call_ok c1 = true -> call_ok c2 = true ->
  pc_class c1 ≠ pc_class c2 -> NoDup (call_ids c1 ++ call_ids c2) ->
  heap0 !! p = Some ep0 -> el_attached ep0 = true ->
  DOMCacheGetOrSet (pc_parent c1) d = Ok (p, mkDom heap0 cache0) ->
  classCount (mkDom heap0 cache0) (pc_class c1) = 0 ->
  classCount (mkDom heap0 cache0) (pc_class c2) = 0 ->
  (forall id, id ∈ call_ids c1 ++ call_ids c2 ->
     cache0 !! id = None /\ getElementById (mkDom heap0 cache0) id = None) ->
  exists d', (run_call g c1 ;; run_call g c2) d = Ok (tt, d') /\
    classCount d' (pc_class c1) = length (pc_objs c1) /\
    classCount d' (pc_class c2) = length (pc_objs c2) /\
    (run_call g c1 ;; run_call g c2) d' = Ok (tt, d').
Proof.
  intros Hpar12 Hok1 Hok2 Hcl Hnd Hp Hatt Hpar Hc1 Hc2 Hfr.
  destruct (call_ok_spec c1 Hok1) as (Hnd1 & Hsp1 & Hnum1 & Htot1 & Hne1).
  destruct (call_ok_spec c2 Hok2) as (Hnd2 & Hsp2 & Hnum2 & Htot2 & Hne2).
  destruct c1 as [o1 P pre1 cl1 tot1 sum1], c2 as [o2 P2 pre2 cl2 tot2 sum2].
  unfold call_ids in *. simpl in *. subst P2.
  apply NoDup_app in Hnd as (_ & Hdisj & _).
  pose proof (DOMCacheGetOrSet_caches _ _ _ _ Hpar) as Hcp. simpl in Hcp.
  assert (HP : P ∉ panel_ids pre1 o1 ++ panel_ids pre2 o2).
  { intros Hin. destruct (Hfr P Hin) as [Hn _]. congruence. }
  set (H1 := first_render_heap g P pre1 cl1 tot1 sum1 heap0 p ep0 o1).
  set (C1 := first_render_cache pre1 heap0 cache0 o1).
  set (ep1 := parent_after heap0 ep0 (length o1 + 1)).
  assert (R1 : run_call g (mkCall o1 P pre1 cl1 tot1 sum1) d = Ok (tt, mkDom H1 C1)).
  { apply (first_render_run g P pre1 cl1 tot1 sum1 heap0 cache0 p ep0 Hp Hatt Hsp1 d o1);
      [done..|intros id Hid; apply Hfr; set_solver]. }
  assert (Hp1 : H1 !! p = Some ep1) by apply (first_render_heap_parent _ _ _ _ _ _ _ _ _ Hp).
  assert (Hatt1 : el_attached ep1 = true) by (unfold ep1; by rewrite (parent_after_attached _ _ _ Hp Hatt)).
  assert (Hpar2 : DOMCacheGetOrSet P (mkDom H1 C1) = Ok (p, mkDom H1 C1)).
  { apply DOMCacheGetOrSet_cached. cbn [dom_cache]. unfold C1.
    rewrite (first_render_cache_other g pre1 cl1 tot1 heap0 cache0 p ep0 Hp Hatt Hsp1); [done|set_solver]. }
  assert (Hcnt2 : classCount (mkDom H1 C1) cl2 = 0).
  { unfold H1. rewrite (first_render_classCount_other g P pre1 cl1 tot1 sum1 heap0 cache0 p ep0 Hp Hatt Hsp1);
      [done|congruence|done..]. }
  assert (Hfr2 : forall id, id ∈ panel_ids pre2 o2 -> C1 !! id = None /\ getElementById (mkDom H1 C1) id = None).
  { intros id Hid. destruct (Hfr id) as [Hn Hg]; [set_solver|].
    apply (first_render_fresh g P pre1 cl1 tot1 sum1 heap0 cache0 p ep0 Hp Hatt Hsp1);
      [|done|done]. intros Hin. exact (Hdisj id Hin Hid). }
  set (H2 := first_render_heap g P pre2 cl2 tot2 sum2 H1 p ep1 o2).
  set (C2 := first_render_cache pre2 H1 C1 o2).
  assert (R2 : run_call g (mkCall o2 P pre2 cl2 tot2 sum2) (mkDom H1 C1) = Ok (tt, mkDom H2 C2))
    by exact (first_render_run g P pre2 cl2 tot2 sum2 H1 C1 p ep1 Hp1 Hatt1 Hsp2 _ o2 Hpar2 Hcnt2 Hnd2 Hfr2).
  assert (Hcnt1 : classCount (mkDom H2 C2) cl1 = length o1).
  { unfold H2. rewrite (first_render_classCount_other g P pre2 cl2 tot2 sum2 H1 C1 p ep1 Hp1 Hatt1 Hsp2);
      [|congruence|done..].
    exact (first_render_classCount g P pre1 cl1 tot1 sum1 heap0 cache0 p ep0 Hp Hatt Hsp1 o1 C1 Hc1 Hnum1 Htot1). }
  exists (mkDom H2 C2). split; [by rewrite (st_bind_Ok _ _ _ _ _ R1)|]. split_and!.
  - exact Hcnt1.
  - exact (first_render_classCount g P pre2 cl2 tot2 sum2 H1 C1 p ep1 Hp1 Hatt1 Hsp2 o2 C2 Hcnt2 Hnum2 Htot2).
  - assert (Hr2 : rendered g P pre2 cl2 tot2 o2 (mkDom H2 C2))
      by (apply (first_render_rendered g P pre2 cl2 tot2 sum2 H1 C1 p ep1 Hp1 Hatt1 Hsp2 _ o2 Hpar2 Hne2 Hnd2);
          intros id Hid; by apply Hfr2).
    assert (Hr1 : rendered g P pre1 cl1 tot1 o1 (mkDom H2 C2)).
    { apply (rendered_frame _ _ _ _ _ _ (mkDom H1 C1)).
      - apply (first_render_rendered g P pre1 cl1 tot1 sum1 heap0 cache0 p ep0 Hp Hatt Hsp1 d o1 Hpar Hne1 Hnd1).
        intros id Hid. apply Hfr. set_solver.
      - intros id Hid. cbn [dom_cache]. unfold C2.
        apply (first_render_cache_other g pre2 cl2 tot2 H1 C1 p ep1 Hp1 Hatt1 Hsp2).
        intros Hin. apply elem_of_cons in Hid as [->|Hid]; [set_solver|].
        apply (Hdisj id); [|done]. by eapply elem_of_sublist; [|apply update_ids_sublist].
      - intros h e He Hleaf. cbn [heap] in *. apply (first_render_heap_other _ _ _ _ _ _ _ _ _ _ _ _); [|done].
        intros ->. rewrite Hp1 in He. injection He as <-.
        apply (parent_after_children _ _ _ Hp Hatt (length o1)). unfold ep1 in Hleaf.
        by rewrite Nat.add_1_r in Hleaf.
      - unfold H2. rewrite (first_render_classCount_other g P pre2 cl2 tot2 sum2 H1 C1 p ep1 Hp1 Hatt1 Hsp2);
          [done|congruence|done..]. }
    unfold run_call. simpl.
    rewrite (st_bind_Ok _ _ _ _ _ (loadStatistics_noop g P pre1 cl1 tot1 sum1 o1 _ Hr1)).
    exact (loadStatistics_noop g P pre2 cl2 tot2 sum2 o2 _ Hr2).
Qed.


(** C36. The offering and the obtainium panels each receive two
    [loadStatistics] calls: on a page where the panel is attached and
    neither call's marker class nor any of their ids is present, the
    loader renders both catalogs into the panel, each marker class ends on
    exactly its own call's lines (the second call does not mistake the
    first call's rows for its own), and running the loader again leaves
    the page as it is. *)
Theorem shared_panel_loaders (g : Game) L c1 c2 d p ep0 heap0 cache0 :
  (L, c1, c2) ∈ [(loadStatisticsOfferingMultipliers g, offering_call, offeringTime_call g);
                 (loadStatisticsObtainiumMultipliers g, obtainium_call, obtainiumTime_call g)] ->
  heap0 !! p = Some ep0 -> el_attached ep0 = true ->
  DOMCacheGetOrSet (pc_parent c1) d = Ok (p, mkDom heap0 cache0) ->
  classCount (mkDom heap0 cache0) (pc_class c1) = 0 ->
  classCount (mkDom heap0 cache0) (pc_class c2) = 0 ->
  (forall id, id ∈ call_ids c1 ++ call_ids c2 ->
     cache0 !! id = None /\ getElementById (mkDom heap0 cache0) id = None) ->
  exists d', L d = Ok (tt, d') /\
    classCount d' (pc_class c1) = length (pc_objs c1) /\
    classCount d' (pc_class c2) = length (pc_objs c2) /\
    L d' = Ok (tt, d').
Proof.
  intros Hin Hp Hatt Hpar Hc1 Hc2 Hfr.
  apply elem_of_cons in Hin as [Heq|Hin]; [|apply list_elem_of_singleton in Hin as Heq];
    injection Heq as -> -> ->;
    (apply (two_calls_first_render g _ _ d p ep0 heap0 cache0); try assumption;
     [reflexivity | vm_compute; reflexivity | vm_compute; reflexivity
     | vm_compute; intros Heq; discriminate Heq
     | refine (bool_decide_unpack _ _); vm_compute; exact I]).
Qed.

End Shared.

(** An attached, empty offering panel. *)
Definition offering_dom : Dom :=
  mkDom [scenario_body; mkElem "div" "offeringMultiplierStats" [] ∅ None [] (Some 0%nat) true] ∅.

Section UnitShared.
#[local] Existing Instances unit_provider unit_env scenario_i18n.

Lemma shared_panel_loaders_witness :
  exists d', loadStatisticsOfferingMultipliers tt offering_dom = Ok (tt, d') /\
    classCount d' (pc_class (offering_call (Game := unit))) = length (pc_objs (offering_call (Game := unit))) /\
    classCount d' (pc_class (offeringTime_call tt)) = length (pc_objs (offeringTime_call tt)) /\
    loadStatisticsOfferingMultipliers tt d' = Ok (tt, d').
Proof.
  apply (shared_panel_loaders tt _ offering_call (offeringTime_call tt) offering_dom 1
           (mkElem "div" "offeringMultiplierStats" [] ∅ None [] (Some 0%nat) true)
           (heap offering_dom) (<["offeringMultiplierStats" := 1%nat]> ∅)).
  - apply elem_of_cons. left. reflexivity.
  - reflexivity.
  - reflexivity.
  - reflexivity.
  - vm_compute. reflexivity.
  - vm_compute. reflexivity.
  - intros id Hid. revert id Hid. apply Forall_forall.
    refine (bool_decide_unpack _ _). vm_compute. exact I.
Defined.
End UnitShared.
