(* ===== verification/Breakdown.v ===== *)
(** * The variable-length breakdown renderers

    [loadPowderMultiplier] (lines 2254-2283),
    [loadStatisticsAscensionSpeedMultipliers] (2285-2324),
    [loadStatisticsGoldenQuarkMultipliers] (2326-2358),
    [loadStatisticsAmbrosiaLuck] (2500-2542),
    [loadStatisticsAmbrosiaGeneration] (2544-2573) and
    [loadGlobalSpeedMultiplier] (2105-2142).  Each takes an array of factors
    from a [calculate*] function and a descriptor table keyed by 1-based
    index ([Record<number, {acc, desc, color?}>], a [gmap nat Descr]), and
    for every index writes the descriptor's label into the leading text of
    the row [<line><i>] and the formatted factor into the value node
    [<num><i>], both found through [DOMCacheGetOrSet]; then it writes the
    total.  Reading [map[i + 1].desc] past the table is a [TypeError]
    ([undefined_desc]).  The theorems show that with a table covering the
    array every row is written with the descriptor of its own index, that
    an array longer than the table always ends in a [TypeError], that
    the rows written before the throw stay written, and that a row
    colours its line only when its descriptor has a colour ([gold] for
    the PseudoCoin line of the golden quark breakdown). *)

From S2P Require Import Prelude Dom Format.
From Stdlib Require Import QArith Qround.
Local Close Scope Q_scope.

(** [{ acc: number; desc: string; color?: string }] *)
Record Descr : Type := mkDescr {
  d_acc : nat;
  d_desc : string;
  d_color : option string
}.

(** Where the row body reads [map[i + 1].color], if it does. *)
Inductive ColorStep : Type := NoColor | ColorBeforeLabel | ColorAfterLabel.

#[export] Instance ColorStep_eq_dec : EqDecision ColorStep.
Proof. solve_decision. Defined.

(** The exception of [map[i + 1].desc] when [map[i + 1]] is undefined. *)
Definition undefined_desc : JsError :=
  TypeError "Cannot read properties of undefined (reading 'desc')".

(** The exception of [map[i + 1].color], read first where the colour is
    set before the label. *)
Definition undefined_color : JsError :=
  TypeError "Cannot read properties of undefined (reading 'color')".

(** The first read of the undefined descriptor in the row body. *)
Definition undefined_row (cs : ColorStep) : JsError :=
  if decide (cs = ColorBeforeLabel) then undefined_color else undefined_desc.

(** [`${i + 1}`] *)
Definition index_text (n : nat) : string := int_digits (N.of_nat n).

(** What the renderers read of the game: the factor arrays and totals. *)
Class BreakdownEnv (Game : Type) : Type := {
  calculatePowderConversion : Game -> list NumVal * NumVal;
  calculateAscensionSpeedMultiplier : Game -> list NumVal * NumVal;
  calculateGoldenQuarkMultiplier : Game -> list NumVal * NumVal;
  (** [stats.array], as its elements but the last and its last element
      (the array is never empty), and [stats.value] *)
  calculateAmbrosiaLuck : Game -> (list NumVal * NumVal) * Q;
  calculateAmbrosiaGenerationSpeed : Game -> list NumVal * Q;
  (** [preList], [drList], [postList] and [mult] *)
  calculateTimeAcceleration : Game -> (list NumVal * list NumVal * list NumVal) * NumVal
}.

Section Rows.
Context `{!NumberFormat}.

(** [if (map[i + 1].color) { el.style.color = map[i + 1].color ?? 'white' }] *)
Definition set_row_color (line : nat) (dsc : Descr) : St Dom unit :=
  match d_color dsc with
  | Some c => if decide (c = "") then st_ret tt else setStyle line "color" c
  | None => st_ret tt
  end.

(** The value text of a row whose factor is shown after the fixed sign
    [sign] (["x"] or ["+"]), whatever the index. *)
Definition sign_deco (sign : string) : nat -> string -> string := fun _ s => sign +:+ s.

(** The body of the loop, for the index [i] and the factor [v]; [deco i]
    turns the formatted factor into the value text. *)
Definition breakdown_row (cs : ColorStep) (lineP numP : string) (deco : nat -> string -> string)
    (descrs : gmap nat Descr) (i : nat) (v : NumVal) : St Dom unit :=
  line <- DOMCacheGetOrSet (lineP +:+ index_text (S i)) ;;
  match descrs !! S i with
  | None => st_throw (undefined_row cs)
  | Some dsc =>
      (if decide (cs = ColorBeforeLabel) then set_row_color line dsc else st_ret tt) ;;
      setFirstChildText line (d_desc dsc) ;;
      (if decide (cs = ColorAfterLabel) then set_row_color line dsc else st_ret tt) ;;
      num <- DOMCacheGetOrSet (numP +:+ index_text (S i)) ;;
      setTextContent num (deco i (formatNum v (d_acc dsc) true))
  end.

(** [for (let i = i0; i < arr.length; i++) { ... }] *)
Fixpoint breakdown_rows (cs : ColorStep) (lineP numP : string) (deco : nat -> string -> string)
    (descrs : gmap nat Descr) (i : nat) (arr : list NumVal) : St Dom unit :=
  match arr with
  | [] => st_ret tt
  | v :: vs => breakdown_row cs lineP numP deco descrs i v ;;
               breakdown_rows cs lineP numP deco descrs (S i) vs
  end.

(** The loops of [loadGlobalSpeedMultiplier], which have no labels. *)
Fixpoint speed_rows (numP : string) (i : nat) (arr : list NumVal) : St Dom unit :=
  match arr with
  | [] => st_ret tt
  | v :: vs => write_text (numP +:+ index_text (S i)) ("x" +:+ formatNum v 3 true) ;;
               speed_rows numP (S i) vs
  end.
End Rows.

(** The descriptor tables of the source. *)
Definition descr_table (l : list (nat * Descr)) : gmap nat Descr := list_to_map l.

Definition descr (acc : nat) (desc : string) : Descr := mkDescr acc desc None.

Definition map0 : gmap nat Descr := descr_table [
  (1, descr 2 "Base:"); (2, descr 2 "Challenge 15 Bonus:"); (3, descr 2 "Powder EX:");
  (4, descr 2 "Achievement 256:"); (5, descr 2 "Achievement 257:");
  (6, descr 2 "Platonic Upgrade 16 [4x1]:"); (7, descr 2 "Event:")].

Definition map7 : gmap nat Descr := descr_table [
  (1, descr 2 "Chronometer:"); (2, descr 2 "Chronometer 2:"); (3, descr 2 "Chronometer 3:");
  (4, descr 2 "Chronos Hepteract:"); (5, descr 2 "Achievement 262 Bonus:");
  (6, descr 2 "Achievement 263 Bonus:"); (7, descr 2 "Platonic Omega:");
  (8, descr 2 "Challenge 15 Reward:"); (9, descr 2 "Cookie Upgrade 9:");
  (10, descr 2 "Intermediate Pack:"); (11, descr 2 "Chronometer Z:");
  (12, descr 2 "Abstract Photokinetics:"); (13, descr 2 "Abstract Exokinetics:");
  (14, descr 2 "Event:"); (15, descr 2 "Ascension Speedup 2 [GQ]:"); (16, descr 2 "Chronometer INF:");
  (17, descr 2 "Limited Ascensions Penalty:"); (18, descr 2 "Limited Ascensions Reward:");
  (19, descr 2 "Ascension Speedup [GQ]:"); (20, descr 2 "Singularity Penalty:");
  (21, descr 2 "EXALT 6: The Great Singularity Speedrun:"); (22, descr 2 "Shop Chronometer S:")].

Definition gqMap : gmap nat Descr := descr_table [
  (1, mkDescr 2 "PseudoCoin Bonus:" (Some "gold")); (2, descr 3 "Campaign: Golden Quark Bonus:");
  (3, descr 2 "Challenge 15 Exponent:"); (4, descr 2 "Patreon Bonus:"); (5, descr 2 "Golden Quarks I:");
  (6, descr 2 "Cookie Upgrade 19:"); (7, descr 2 "No Singularity Upgrades:"); (8, descr 2 "Event:");
  (9, descr 2 "Singularity Fast Forwards:"); (10, descr 2 "Golden Revolution II:");
  (11, descr 2 "Immaculate Alchemy:"); (12, descr 2 "Total Quarks Coefficient:")].

Definition luckMap : gmap nat Descr := descr_table [
  (1, descr 0 "Base Value"); (2, mkDescr 0 "PseudoCoin Upgrade" (Some "gold"));
  (3, descr 2 "Campaign Bonus: Ambrosia Luck"); (4, descr 0 "Irish Ants Singularity Perk");
  (5, descr 1 "Shop Upgrade Bonus"); (6, descr 0 "Singularity Ambrosia Luck Upgrades");
  (7, descr 0 "Octeract Ambrosia Luck Upgrades"); (8, descr 0 "Ambrosia Luck Module I");
  (9, descr 1 "Ambrosia Luck Module II"); (10, descr 2 "Ambrosia Cube-Luck Hybrid Module I");
  (11, descr 2 "Ambrosia Quark-Luck Hybrid Module I"); (12, descr 0 "Primal Power: One Hundred Thirty One!");
  (13, descr 0 "Primal Power: Two Hundred Sixty Nine!"); (14, descr 0 "Shop: Octeract-Based Ambrosia Luck");
  (15, descr 0 "No Ambrosia Upgrades EXALT"); (16, descr 0 "Cube Upgrade Cx27");
  (17, descr 0 "Red Bar Fills with Cx29"); (18, descr 0 "ULTRA Upgrade: Ambrosia Exalter")].

Definition genMap : gmap nat Descr := descr_table [
  (1, descr 4 "Visited Ambrosia Subtab"); (2, mkDescr 4 "PseudoCoin Upgrade" (Some "gold"));
  (3, descr 4 "Campaign Bonus: Ambrosia Generation"); (4, descr 4 "Number of Blueberries");
  (5, descr 4 "Shop Upgrade Bonus"); (6, descr 4 "Singularity Ambrosia Generation Upgrades");
  (7, descr 4 "Octeract Ambrosia Generation Upgrades"); (8, descr 4 "Patreon Bonus");
  (9, descr 4 "One Ascension Challenge EXALT"); (10, descr 4 "No Ambrosia Upgrades EXALT");
  (11, descr 4 "Cube Upgrade Cx26"); (12, descr 4 "Cash-Grab ULTIMATE"); (13, descr 4 "Event Bonus")].

Section Renderers.
Context {Game : Type} `{!NumberFormat} `{!BreakdownEnv Game}.

(** [loadPowderMultiplier()] *)
Definition loadPowderMultiplier (g : Game) : St Dom unit :=
  breakdown_rows NoColor "statPoM" "sPoM" (sign_deco "x") map0 0 (calculatePowderConversion g).1 ;;
  write_text "sPoMT" ("x" +:+ formatNum (calculatePowderConversion g).2 3 false).

(** [loadStatisticsAscensionSpeedMultipliers()] *)
Definition loadStatisticsAscensionSpeedMultipliers (g : Game) : St Dom unit :=
  let arr := calculateAscensionSpeedMultiplier g in
  breakdown_rows NoColor "statASM" "sASM" (sign_deco "x") map7 0 arr.1 ;;
  write_text "sASMT" ("x" +:+ formatNum arr.2 3 false).

(** [loadStatisticsGoldenQuarkMultipliers()] *)
Definition loadStatisticsGoldenQuarkMultipliers (g : Game) : St Dom unit :=
  let arr := calculateGoldenQuarkMultiplier g in
  breakdown_rows ColorBeforeLabel "statGQMS" "sGQMS" (sign_deco "x") gqMap 0 arr.1 ;;
  write_text "sGQMST" ("x" +:+ formatNum arr.2 3 false).

(** [loadStatisticsAmbrosiaLuck()]: the loop stops before the last element
    of the array, which is the multiplier. *)
Definition loadStatisticsAmbrosiaLuck (g : Game) : St Dom unit :=
  let '((arr, lastv), value) := calculateAmbrosiaLuck g in
  breakdown_rows ColorAfterLabel "statALuckM" "sALuckM" (sign_deco "+") luckMap 0 arr ;;
  write_text "sALuckMult" ("x" +:+ formatNum lastv 3 true) ;;
  write_text "sALuckMT" ("&#9752 " +:+ formatNum (JsNumber (inject_Z (Qfloor value))) 0 false).

(** [loadStatisticsAmbrosiaGeneration()] *)
Definition loadStatisticsAmbrosiaGeneration (g : Game) : St Dom unit :=
  let '(arr, value) := calculateAmbrosiaGenerationSpeed g in
  breakdown_rows ColorAfterLabel "statAGenM" "sAGenM" (sign_deco "x") genMap 0 arr ;;
  write_text "sAGenMT" (formatNum (JsNumber value) 3 true).

(** [loadGlobalSpeedMultiplier()] *)
Definition loadGlobalSpeedMultiplier (g : Game) : St Dom unit :=
  let '((preDRlist, drList, postDRlist), mult) := calculateTimeAcceleration g in
  speed_rows "sGSMa" 0 preDRlist ;;
  speed_rows "sGSMb" 0 drList ;;
  speed_rows "sGSMc" 0 postDRlist ;;
  write_text "sGSMT" (formatNum mult 3 false).
End Renderers.

(** ** What a page must hold for the rows to be written *)

(** Row [k] (1-based) is on the page: its line and value ids are cached,
    at [hl] and [hn], the line has a leading text node, and [hn] is an
    element. *)
Definition row_ready (lineP numP : string) (d : Dom) (k hl hn : nat) : Prop :=
  dom_cache d !! (lineP +:+ index_text k) = Some hl /\
  dom_cache d !! (numP +:+ index_text k) = Some hn /\
  (exists t, text_at d hl = Some (Some t)) /\ hn < length (heap d).

(** Rows [i + 1] to [i + n] are on the page at pairwise distinct handles. *)
Definition rows_ready (lineP numP : string) (i n : nat) (hl hn : nat -> nat) (d : Dom) : Prop :=
  (forall k, k < n -> row_ready lineP numP d (S (i + k)) (hl (S (i + k))) (hn (S (i + k)))) /\
  (forall j k, j < n -> k < n ->
     hl (S (i + j)) ≠ hn (S (i + k)) /\
     (j ≠ k -> hl (S (i + j)) ≠ hl (S (i + k)) /\ hn (S (i + j)) ≠ hn (S (i + k)))).

(** The table has a descriptor for each of the indices [i + 1] to [i + n]. *)
Definition covers (descrs : gmap nat Descr) (i n : nat) : Prop :=
  forall k, k < n -> is_Some (descrs !! S (i + k)).

(** ** Pages and games to run the renderers on *)

(** Rows [k..k+n-1] of a breakdown panel: the line of row [j], with a
    leading text node, then its value node. *)
Fixpoint page_rows (lineP numP : string) (k n : nat) : list Elem :=
  match n with
  | O => []
  | S n' => [mkElem "p" (lineP +:+ index_text k) [] ∅ (Some "label") [] None true;
             mkElem "span" (numP +:+ index_text k) [] ∅ None [] None true]
            ++ page_rows lineP numP (S k) n'
  end.

Fixpoint page_cache (lineP numP : string) (k n : nat) : gmap string nat :=
  match n with
  | O => ∅
  | S n' => <[lineP +:+ index_text k := 2 * k]> (<[numP +:+ index_text k := S (2 * k)]>
              (page_cache lineP numP (S k) n'))
  end.

(** A page whose total node is handle 0 and whose row [k] has its line at
    handle [2 * k] and its value node at [2 * k + 1], all already cached. *)
Definition breakdown_page (lineP numP totalId : string) (n : nat) : Dom :=
  mkDom ([mkElem "span" totalId [] ∅ None [] None true; mkElem "div" "" [] ∅ None [] None true]
         ++ page_rows lineP numP 1 n)
        (<[totalId := 0]> (page_cache lineP numP 1 n)).

Definition factors (n : nat) : list NumVal := repeat (JsNumber (3 # 2)) n.

(** A game whose ascension speed breakdown has two factors. *)
Definition short_breakdown : BreakdownEnv unit :=
  {| calculatePowderConversion := fun _ => (factors 2, JsNumber 3);
     calculateAscensionSpeedMultiplier := fun _ => ([JsNumber 2; JsNumber (3 # 2)], JsNumber 3);
     calculateGoldenQuarkMultiplier := fun _ => (factors 2, JsNumber 3);
     calculateAmbrosiaLuck := fun _ => ((factors 2, JsNumber 2), 150%Q);
     calculateAmbrosiaGenerationSpeed := fun _ => (factors 2, 3%Q);
     calculateTimeAcceleration := fun _ => ((factors 1, factors 1, factors 1), JsNumber 2) |}.

(** A game whose breakdown arrays are all longer than their tables. *)
Definition long_breakdown : BreakdownEnv unit :=
  {| calculatePowderConversion := fun _ => (factors 23, JsNumber 3);
     calculateAscensionSpeedMultiplier := fun _ => (factors 23, JsNumber 3);
     calculateGoldenQuarkMultiplier := fun _ => (factors 23, JsNumber 3);
     calculateAmbrosiaLuck := fun _ => ((factors 23, JsNumber 2), 150%Q);
     calculateAmbrosiaGenerationSpeed := fun _ => (factors 23, 3%Q);
     calculateTimeAcceleration := fun _ => ((factors 1, factors 1, factors 1), JsNumber 2) |}.

(** ** One row *)

Section RowProofs.
Context `{!NumberFormat}.

Lemma color_step_ok (P : Prop) `{!Decision P} line dsc d :
  exists d', (if decide P then set_row_color line dsc else st_ret tt) d = Ok (tt, d') /\
             same_shape d d' /\ forall h, text_at d' h = text_at d h.
Proof.
  destruct (decide P); [|exists d; done].
  unfold set_row_color. destruct (d_color dsc) as [c|]; [case_decide|]; try (exists d; done).
  eexists. split; [reflexivity|]. split; [apply shape_same_shape, dom_alter_shape|].
  intros h. by apply dom_alter_text_keep.
Qed.

Lemma setFirstChildText_at h s d t :
  text_at d h = Some (Some t) ->
  setFirstChildText h s d = Ok (tt, dom_alter h (set_el_text (Some s)) d).
Proof.
  unfold text_at. destruct (heap d !! h) as [e|] eqn:He; [|done]. intros [= Ht].
  apply (setFirstChildText_text _ _ _ e); [done|congruence].
Qed.

Lemma breakdown_row_ok cs lp np sg descrs i v dsc d hl hn :
  descrs !! S i = Some dsc -> row_ready lp np d (S i) hl hn -> hl ≠ hn ->
  exists d', breakdown_row cs lp np sg descrs i v d = Ok (tt, d') /\ same_shape d d' /\
    text_at d' hl = Some (Some (d_desc dsc)) /\
    text_at d' hn = Some (text_node (sg i (formatNum v (d_acc dsc) true))) /\
    forall h, h ≠ hl -> h ≠ hn -> text_at d' h = text_at d h.
Proof.
  intros Hdsc (Hl & Hn & [t Ht] & Hlt) Hne. unfold breakdown_row.
  rewrite (st_bind_Ok _ _ _ _ _ (DOMCacheGetOrSet_cached _ _ _ Hl)), Hdsc.
  destruct (color_step_ok (cs = ColorBeforeLabel) hl dsc d) as (d1 & R1 & S1 & T1).
  rewrite (st_bind_Ok _ _ _ _ _ R1).
  rewrite (st_bind_Ok _ _ _ _ _
             (setFirstChildText_at hl (d_desc dsc) d1 t ltac:(rewrite T1; exact Ht))).
  set (d2 := dom_alter hl (set_el_text (Some (d_desc dsc))) d1).
  assert (S2 : same_shape d d2) by (eapply same_shape_trans; [exact S1|apply shape_same_shape, dom_alter_shape]).
  destruct (color_step_ok (cs = ColorAfterLabel) hl dsc d2) as (d3 & R3 & S3 & T3).
  rewrite (st_bind_Ok _ _ _ _ _ R3).
  assert (S23 : same_shape d d3) by (eapply same_shape_trans; eassumption).
  rewrite (st_bind_Ok _ _ _ _ _
             (DOMCacheGetOrSet_cached d3 _ hn ltac:(destruct S23 as [_ ->]; exact Hn))).
  eexists. split; [reflexivity|]. split_and!.
  - eapply same_shape_trans; [exact S23|apply shape_same_shape, setTextContent_dom_shape].
  - rewrite setTextContent_dom_text by congruence. rewrite T3. unfold d2.
    rewrite dom_alter_text_at, decide_True by done. pose proof (T1 hl) as E. rewrite Ht in E.
    unfold text_at in E. destruct (heap d1 !! hl); [done|discriminate].
  - apply setTextContent_dom_text_at. destruct S23 as [-> _]. exact Hlt.
  - intros h H1 H2. rewrite setTextContent_dom_text by congruence. rewrite T3. unfold d2.
    rewrite dom_alter_text_at, decide_False by done. apply T1.
Qed.
End RowProofs.

(** ** The loop *)

Lemma rows_ready_first lp np i n hl hn d :
  rows_ready lp np i (S n) hl hn d ->
  row_ready lp np d (S i) (hl (S i)) (hn (S i)) /\ hl (S i) ≠ hn (S i) /\
  forall k, k < n ->
    hl (S i) ≠ hl (S (S i + k)) /\ hl (S i) ≠ hn (S (S i + k)) /\
    hn (S i) ≠ hl (S (S i + k)) /\ hn (S i) ≠ hn (S (S i + k)).
Proof.
  intros [Hr Hd]. pose proof (Hr 0 ltac:(lia)) as H0. rewrite Nat.add_0_r in H0.
  split; [done|]. split; [pose proof (Hd 0 0 ltac:(lia) ltac:(lia)) as [H _]; by rewrite Nat.add_0_r in H|].
  intros k Hk. destruct (Hd 0 (S k) ltac:(lia) ltac:(lia)) as [Hx Hyz].
  destruct (Hyz ltac:(lia)) as [Hy Hz].
  destruct (Hd (S k) 0 ltac:(lia) ltac:(lia)) as [Hw _].
  rewrite Nat.add_0_r, Nat.add_succ_r in *. simpl. split_and!; congruence.
Qed.

Lemma rows_ready_tail lp np i n hl hn d d' :
  rows_ready lp np i (S n) hl hn d -> same_shape d d' ->
  (forall h, h ≠ hl (S i) -> h ≠ hn (S i) -> text_at d' h = text_at d h) ->
  rows_ready lp np (S i) n hl hn d'.
Proof.
  intros Hr [HL HC] Hf. destruct (rows_ready_first _ _ _ _ _ _ _ Hr) as (_ & _ & Hfirst).
  destruct Hr as [Hr Hd]. split.
  - intros k Hk. destruct (Hr (S k) ltac:(lia)) as (Hl & Hn & [t Ht] & Hlt).
    rewrite Nat.add_succ_r in Hl, Hn, Ht, Hlt. destruct (Hfirst k Hk) as (H1 & _ & H3 & _).
    split_and!; [by rewrite HC|by rewrite HC| |by rewrite HL].
    exists t. rewrite Hf; auto.
  - intros j k Hj Hk. pose proof (Hd (S j) (S k) ltac:(lia) ltac:(lia)) as [H1 H2].
    rewrite !Nat.add_succ_r in H1, H2. split; [done|]. intros Hne. apply H2. lia.
Qed.

Section Loop.
Context `{!NumberFormat}.

Lemma breakdown_rows_ok cs lp np sg descrs arr :
  forall i d hl hn, covers descrs i (length arr) -> rows_ready lp np i (length arr) hl hn d ->
  exists d', breakdown_rows cs lp np sg descrs i arr d = Ok (tt, d') /\ same_shape d d' /\
    (forall k v dsc, arr !! k = Some v -> descrs !! S (i + k) = Some dsc ->
       text_at d' (hl (S (i + k))) = Some (Some (d_desc dsc)) /\
       text_at d' (hn (S (i + k))) = Some (text_node (sg (i + k) (formatNum v (d_acc dsc) true)))) /\
    (forall h, (forall k, k < length arr -> h ≠ hl (S (i + k)) /\ h ≠ hn (S (i + k))) ->
       text_at d' h = text_at d h).
Proof.
  induction arr as [|v vs IH]; intros i d hl hn Hcov Hr.
  { exists d. split_and!; [done|done|by intros ? ? ? ?|done]. }
  destruct (Hcov 0 ltac:(simpl; lia)) as [dsc Hdsc]. rewrite Nat.add_0_r in Hdsc.
  destruct (rows_ready_first _ _ _ _ _ _ _ Hr) as (Hr0 & Hne & Hfirst).
  destruct (breakdown_row_ok cs lp np sg descrs i v dsc d _ _ Hdsc Hr0 Hne)
    as (d1 & R1 & S1 & L1 & N1 & F1).
  destruct (IH (S i) d1 hl hn) as (d2 & R2 & S2 & W2 & F2).
  { intros k Hk. specialize (Hcov (S k)). rewrite Nat.add_succ_r in Hcov. apply Hcov. simpl. lia. }
  { by apply (rows_ready_tail _ _ _ _ _ _ d). }
  exists d2. simpl. rewrite (st_bind_Ok _ _ _ _ _ R1). split_and!; [done|by eapply same_shape_trans| |].
  - intros [|k] v' dsc' Hk Hd'; simpl in Hk; rewrite ?Nat.add_0_r, ?Nat.add_succ_r in Hd' |- *.
    + injection Hk as <-. rewrite Hdsc in Hd'. injection Hd' as <-.
      rewrite !F2; [done|intros k Hk; destruct (Hfirst k Hk) as (? & ? & ? & ?); auto..].
    + exact (W2 k v' dsc' Hk Hd').
  - intros h Hh. pose proof (Hh 0 ltac:(simpl; lia)) as [Ha Hb]. rewrite Nat.add_0_r in Ha, Hb.
    rewrite F2, F1; [done..|]. intros k Hk. specialize (Hh (S k)). rewrite Nat.add_succ_r in Hh. apply Hh. simpl. lia.
Qed.
(** A row loop from index 0 followed by a block of writes to other nodes. *)
Lemma rows_then_writes cs lp np deco descrs arr ws (hs : string -> nat) d hl hn :
  covers descrs 0 (length arr) -> rows_ready lp np 0 (length arr) hl hn d ->
  NoDup ws.*1 -> ids_ready d hs ws ->
  (forall id k, id ∈ ws.*1 -> k < length arr -> hs id ≠ hl (S k) /\ hs id ≠ hn (S k)) ->
  exists d', st_bind (breakdown_rows cs lp np deco descrs 0 arr) (fun _ => writes ws) d = Ok (tt, d') /\
    same_shape d d' /\
    (forall k v dsc, arr !! k = Some v -> descrs !! S k = Some dsc ->
       text_at d' (hl (S k)) = Some (Some (d_desc dsc)) /\
       text_at d' (hn (S k)) = Some (text_node (deco k (formatNum v (d_acc dsc) true)))) /\
    (forall id s, (id, s) ∈ ws -> text_at d' (hs id) = Some (text_node s)).
Proof.
  intros Hcov Hr Hnd [Hc Hinj] Hsep.
  destruct (breakdown_rows_ok cs lp np deco descrs arr 0 d hl hn Hcov Hr) as (d1 & R1 & [L1 C1] & W1 & _).
  destruct (writes_run hs ws d1 Hnd) as (d2 & R2 & [L2 C2] & W2 & F2).
  { intros id s Hin. rewrite C1, L1. by apply (Hc id s). }
  { done. }
  exists d2. rewrite (st_bind_Ok _ _ _ _ _ R1). split; [done|]. split; [split; congruence|]. split; [|done].
  intros k v dsc Hk Hd. destruct (W1 k v dsc Hk Hd) as [E1 E2]. cbn [Nat.add] in E1, E2.
  pose proof (lookup_lt_Some _ _ _ Hk) as Hlt.
  rewrite !F2; [done| |]; intros id Hid; by destruct (Hsep id k Hid Hlt).
Qed.
End Loop.

(** ** Tables, totals and overflow *)

Lemma covers_seq descrs n m :
  Forall (fun k => is_Some (descrs !! k)) (seq 1 n) -> m <= n -> covers descrs 0 m.
Proof.
  intros Hall Hm k Hk. rewrite Forall_forall in Hall. apply Hall.
  apply elem_of_seq. lia.
Qed.

Lemma text_node_app sg s : sg ≠ "" -> text_node (sg +:+ s) = Some (sg +:+ s).
Proof.
  intros Hsg. unfold text_node. rewrite decide_False; [done|]. intros H.
  apply (f_equal String.length) in H. rewrite string_length_app in H.
  destruct sg; [done|]. simpl in H. lia.
Qed.

Lemma breakdown_rows_app `{!NumberFormat} cs lp np sg descrs i l1 l2 d :
  breakdown_rows cs lp np sg descrs i (l1 ++ l2) d =
  st_bind (breakdown_rows cs lp np sg descrs i l1)
          (fun _ => breakdown_rows cs lp np sg descrs (i + length l1) l2) d.
Proof.
  revert i d. induction l1 as [|v l1 IH]; intros i d; simpl.
  - by rewrite Nat.add_0_r.
  - unfold st_bind at 1. destruct (breakdown_row _ _ _ _ _ _ _ d) as [[[] d1]|e d1] eqn:E.
    + rewrite IH, Nat.add_succ_r. unfold st_bind. rewrite E. done.
    + unfold st_bind. by rewrite E.
Qed.

Lemma breakdown_row_undefined `{!NumberFormat} cs lp np sg descrs i v d :
  descrs !! S i = None ->
  exists e d', breakdown_row cs lp np sg descrs i v d = Throw e d'.
Proof.
  intros Hn. unfold breakdown_row.
  destruct (DOMCacheGetOrSet (lp +:+ index_text (S i)) d) as [[h d1]|e d1] eqn:E.
  - rewrite (st_bind_Ok _ _ _ _ _ E), Hn. eexists _, _. reflexivity.
  - rewrite (st_bind_Throw _ _ _ _ _ E). eauto.
Qed.

Lemma breakdown_rows_throw `{!NumberFormat} cs lp np sg descrs arr :
  forall i d k, k < length arr -> descrs !! S (i + k) = None ->
  exists e d', breakdown_rows cs lp np sg descrs i arr d = Throw e d'.
Proof.
  induction arr as [|v vs IH]; intros i d k Hk Hn; simpl in Hk; [lia|]. simpl.
  destruct (breakdown_row cs lp np sg descrs i v d) as [[[] d1]|e d1] eqn:E.
  - destruct k as [|k]; [rewrite Nat.add_0_r in Hn; destruct (breakdown_row_undefined cs lp np sg descrs i v d Hn) as (? & ? & E'); congruence|].
    rewrite (st_bind_Ok _ _ _ _ _ E). apply (IH (S i) d1 k); [lia|]. by rewrite <- Nat.add_succ_r.
  - rewrite (st_bind_Throw _ _ _ _ _ E). eauto.
Qed.

Lemma throw_then {A B} (m : St Dom A) (k : A -> St Dom B) d :
  (exists e d', m d = Throw e d') -> exists e d', st_bind m k d = Throw e d'.
Proof. intros (e & d' & E). exists e, d'. by apply st_bind_Throw. Qed.

Lemma map7_covers : Forall (fun k => is_Some (map7 !! k)) (seq 1 22).
Proof. refine (bool_decide_unpack _ _). vm_compute. exact I. Qed.

Lemma map7_23 : map7 !! 23 = None.
Proof. reflexivity. Qed.

(** ** Row colours *)

(** What [set_row_color] does to the style of the line. *)
Definition color_style (dsc : Descr) (st : gmap string string) : gmap string string :=
  match d_color dsc with
  | Some c => if decide (c = "") then st else <["color" := c]> st
  | None => st
  end.

Lemma set_row_color_styles line dsc d d' :
  set_row_color line dsc d = Ok (tt, d') ->
  style_at d' line = color_style dsc <$> style_at d line /\
  forall h, h ≠ line -> style_at d' h = style_at d h.
Proof.
  unfold set_row_color, color_style.
  destruct (d_color dsc) as [c|]; [case_decide|]; intros [= <-];
    try (split; [by destruct (style_at d line)|done]).
  split.
  - rewrite dom_alter_style_at. unfold style_at. by destruct (heap d !! line).
  - intros h Hh. unfold style_at, dom_alter. simpl. by rewrite list_lookup_alter_ne.
Qed.

Lemma color_step_styles (P : Prop) `{!Decision P} line dsc d d' :
  (if decide P then set_row_color line dsc else st_ret tt) d = Ok (tt, d') ->
  style_at d' line = (if decide P then color_style dsc else id) <$> style_at d line /\
  forall h, h ≠ line -> style_at d' h = style_at d h.
Proof.
  destruct (decide P); [apply set_row_color_styles|]. intros [= <-].
  split; [by destruct (style_at d line)|done].
Qed.

Lemma setFirstChildText_same_styles h s d d' : setFirstChildText h s d = Ok (tt, d') -> same_styles d d'.
Proof.
  unfold setFirstChildText. repeat case_match; intros; simplify_eq;
    [apply dom_alter_same_styles; by intros []|apply setTextContent_dom_same_styles].
Qed.

Lemma st_bind_Ok_inv {A B} (m : St Dom A) (k : A -> St Dom B) d b d' :
  st_bind m k d = Ok (b, d') -> exists a d1, m d = Ok (a, d1) /\ k a d1 = Ok (b, d').
Proof. unfold st_bind. destruct (m d) as [[a d1]|]; [eauto|done]. Qed.

(** A row colours its line by its descriptor, unless the renderer has no
    colour step, and changes no other style. *)
Lemma breakdown_row_styles `{!NumberFormat} cs lp np sg descrs i v dsc d d' hl :
  descrs !! S i = Some dsc -> dom_cache d !! (lp +:+ index_text (S i)) = Some hl ->
  breakdown_row cs lp np sg descrs i v d = Ok (tt, d') ->
  style_at d' hl = (if decide (cs = NoColor) then id else color_style dsc) <$> style_at d hl /\
  forall h, h ≠ hl -> style_at d' h = style_at d h.
Proof.
  intros Hdsc Hl R. unfold breakdown_row in R.
  rewrite (st_bind_Ok _ _ _ _ _ (DOMCacheGetOrSet_cached _ _ _ Hl)), Hdsc in R.
  apply st_bind_Ok_inv in R as ([] & d1 & R1 & R). apply st_bind_Ok_inv in R as ([] & d2 & R2 & R).
  apply st_bind_Ok_inv in R as ([] & d3 & R3 & R). apply st_bind_Ok_inv in R as (hn & d4 & R4 & R).
  apply color_step_styles in R1 as [A1 F1], R3 as [A3 F3].
  apply setFirstChildText_same_styles in R2. apply DOMCacheGetOrSet_same_styles in R4.
  unfold setTextContent, st_modify in R. injection R as <-.
  pose proof (setTextContent_dom_same_styles hn (sg i (formatNum v (d_acc dsc) true)) d4) as R5.
  split.
  - rewrite R5, R4, A3, R2, A1. destruct cs; simpl; by destruct (style_at d hl).
  - intros h Hh. rewrite R5, R4, F3, R2, F1 by done. done.
Qed.

Lemma breakdown_rows_styles `{!NumberFormat} cs lp np sg descrs arr :
  forall i d d' hl hn, covers descrs i (length arr) -> rows_ready lp np i (length arr) hl hn d ->
  breakdown_rows cs lp np sg descrs i arr d = Ok (tt, d') ->
  (forall k dsc, k < length arr -> descrs !! S (i + k) = Some dsc ->
     style_at d' (hl (S (i + k))) =
       (if decide (cs = NoColor) then id else color_style dsc) <$> style_at d (hl (S (i + k)))) /\
  (forall h, (forall k, k < length arr -> h ≠ hl (S (i + k))) -> style_at d' h = style_at d h).
Proof.
  induction arr as [|v vs IH]; intros i d d' hl hn Hcov Hr R.
  { injection R as <-. split; [intros k dsc Hk; simpl in Hk; lia|done]. }
  destruct (Hcov 0 ltac:(simpl; lia)) as [dsc Hdsc]. rewrite Nat.add_0_r in Hdsc.
  destruct (rows_ready_first _ _ _ _ _ _ _ Hr) as (Hr0 & Hne & Hfirst).
  destruct (breakdown_row_ok cs lp np sg descrs i v dsc d _ _ Hdsc Hr0 Hne) as (d1 & R1 & S1 & _ & _ & T1).
  simpl in R. rewrite (st_bind_Ok _ _ _ _ _ R1) in R.
  destruct (breakdown_row_styles cs lp np sg descrs i v dsc d d1 (hl (S i)) Hdsc (proj1 Hr0) R1) as [A1 F1].
  destruct (IH (S i) d1 d' hl hn) as [A2 F2]; [|by apply (rows_ready_tail _ _ _ _ _ _ d)|done|].
  { intros k Hk. specialize (Hcov (S k)). rewrite Nat.add_succ_r in Hcov. apply Hcov. simpl. lia. }
  cbn [Nat.add] in A2, F2.
  split.
  - intros [|k] dsc' Hk Hd'; rewrite ?Nat.add_0_r, ?Nat.add_succ_r in Hd' |- *.
    + rewrite Hdsc in Hd'. injection Hd' as <-. rewrite F2; [done|].
      intros k Hk'. destruct (Hfirst k Hk') as (Hx & _). cbn [Nat.add] in Hx. done.
    + simpl in Hk. rewrite (A2 k dsc') by (done || lia). rewrite F1; [done|].
      destruct (Hfirst k ltac:(change (k < length vs); lia)) as (Hx & _). cbn [Nat.add] in Hx. congruence.
  - intros h Hh. rewrite F2, F1; [done| |].
    + pose proof (Hh 0 ltac:(simpl; lia)) as H0. by rewrite Nat.add_0_r in H0.
    + intros k Hk. specialize (Hh (S k)). rewrite Nat.add_succ_r in Hh. apply Hh. simpl. lia.
Qed.

Lemma gqMap_colors : map_Forall (fun n dsc => n = 1%nat \/ d_color dsc = None) gqMap.
Proof. refine (bool_decide_unpack _ _). vm_compute. exact I. Qed.

Lemma gqMap_covers : Forall (fun k => is_Some (gqMap !! k)) (seq 1 12).
Proof. refine (bool_decide_unpack _ _). vm_compute. exact I. Qed.

(** ** The renderers' contracts *)

Section Contracts.
Context {Game : Type} `{!NumberFormat} `{!BreakdownEnv Game}.

(** C9. With an array of at most 22 factors and a page holding rows
    [1..L] and the total node at distinct handles,
    [loadStatisticsAscensionSpeedMultipliers] writes exactly [L] rows: row
    [k + 1] shows the label of [map7[k + 1]] and the [k]-th factor with that
    descriptor's accuracy, the total node shows the multiplier to three
    places, and no other text of the page changes. *)
Theorem loadStatisticsAscensionSpeedMultipliers_rows (g : Game) arr mult d hl hn ht :
  calculateAscensionSpeedMultiplier g = (arr, mult) -> length arr <= 22 ->
  rows_ready "statASM" "sASM" 0 (length arr) hl hn d ->
  dom_cache d !! "sASMT" = Some ht -> ht < length (heap d) ->
  (forall k, k < length arr -> ht ≠ hl (S k) /\ ht ≠ hn (S k)) ->
  exists d', loadStatisticsAscensionSpeedMultipliers g d = Ok (tt, d') /\
    (forall k v dsc, arr !! k = Some v -> map7 !! S k = Some dsc ->
       text_at d' (hl (S k)) = Some (Some (d_desc dsc)) /\
       text_at d' (hn (S k)) = Some (Some ("x" +:+ formatNum v (d_acc dsc) true))) /\
    text_at d' ht = Some (Some ("x" +:+ formatNum mult 3 false)) /\
    (forall h, h ≠ ht -> (forall k, k < length arr -> h ≠ hl (S k) /\ h ≠ hn (S k)) ->
       text_at d' h = text_at d h).
Proof.
  intros Hcalc Hlen Hr Hc Hlt Hdist.
  unfold loadStatisticsAscensionSpeedMultipliers. rewrite Hcalc. cbn [fst snd].
  destruct (breakdown_rows_ok NoColor "statASM" "sASM" (sign_deco "x") map7 arr 0 d hl hn) as (d1 & R1 & [L1 C1] & W1 & F1);
    [by eapply covers_seq; [apply map7_covers|] | done |].
  rewrite (st_bind_Ok _ _ _ _ _ R1), (write_text_cached _ _ _ ht) by (rewrite C1; exact Hc).
  eexists. split; [reflexivity|]. split_and!.
  - intros k v dsc Hk Hd. destruct (W1 k v dsc Hk Hd) as [E1 E2]. cbn [Nat.add] in E1, E2. unfold sign_deco in E2.
    destruct (Hdist k) as [Hd1 Hd2]; [by eapply lookup_lt_Some|].
    rewrite !setTextContent_dom_text by congruence. rewrite E2, text_node_app by discriminate. done.
  - rewrite setTextContent_dom_text_at by lia. by rewrite text_node_app by discriminate.
  - intros h Hh Hrows. rewrite setTextContent_dom_text by congruence. apply F1, Hrows.
Qed.

(** C30. The golden quark breakdown colours its lines as its table says:
    with an array of at most 12 factors and a page holding rows [1..L]
    and the total node at distinct handles, the renderer writes row
    [k + 1] with the label of [gqMap[k + 1]] and [x] and the factor at
    that descriptor's accuracy, the total to three places, sets the colour
    of the first line (the PseudoCoin bonus) to [gold], and leaves the
    inline style of every other element of the page as it was. *)
Theorem loadStatisticsGoldenQuarkMultipliers_rows (g : Game) arr mult d hl hn ht :
  calculateGoldenQuarkMultiplier g = (arr, mult) -> length arr <= 12 ->
  rows_ready "statGQMS" "sGQMS" 0 (length arr) hl hn d ->
  dom_cache d !! "sGQMST" = Some ht -> ht < length (heap d) ->
  (forall k, k < length arr -> ht ≠ hl (S k) /\ ht ≠ hn (S k)) ->
  exists d', loadStatisticsGoldenQuarkMultipliers g d = Ok (tt, d') /\
    (forall k v dsc, arr !! k = Some v -> gqMap !! S k = Some dsc ->
       text_at d' (hl (S k)) = Some (Some (d_desc dsc)) /\
       text_at d' (hn (S k)) = Some (Some ("x" +:+ formatNum v (d_acc dsc) true))) /\
    text_at d' ht = Some (Some ("x" +:+ formatNum mult 3 false)) /\
    (0 < length arr -> style_at d' (hl 1) = <["color" := "gold"]> <$> style_at d (hl 1)) /\
    (forall h, h ≠ hl 1 -> style_at d' h = style_at d h).
Proof.
  intros Hcalc Hlen Hr Hc Hlt Hdist.
  assert (Hcov : covers gqMap 0 (length arr)) by (eapply covers_seq; [apply gqMap_covers|done]).
  unfold loadStatisticsGoldenQuarkMultipliers. rewrite Hcalc. cbn [fst snd].
  destruct (breakdown_rows_ok ColorBeforeLabel "statGQMS" "sGQMS" (sign_deco "x") gqMap arr 0 d hl hn Hcov Hr)
    as (d1 & R1 & [L1 C1] & W1 & F1).
  destruct (breakdown_rows_styles ColorBeforeLabel "statGQMS" "sGQMS" (sign_deco "x") gqMap arr 0 d d1 hl hn Hcov Hr R1)
    as [A1 G1]. cbn [Nat.add] in A1, G1.
  rewrite (st_bind_Ok _ _ _ _ _ R1), (write_text_cached _ _ _ ht) by (rewrite C1; exact Hc).
  eexists. split; [reflexivity|]. split_and!.
  - intros k v dsc Hk Hd. destruct (W1 k v dsc Hk Hd) as [E1 E2]. cbn [Nat.add] in E1, E2. unfold sign_deco in E2.
    destruct (Hdist k) as [Hd1 Hd2]; [by eapply lookup_lt_Some|].
    rewrite !setTextContent_dom_text by congruence. rewrite E2, text_node_app by discriminate. done.
  - rewrite setTextContent_dom_text_at by lia. by rewrite text_node_app by discriminate.
  - intros Hpos. rewrite (setTextContent_dom_same_styles ht _ d1 (hl 1)).
    rewrite (A1 0 (mkDescr 2 "PseudoCoin Bonus:" (Some "gold")) Hpos) by reflexivity.
    cbn. by destruct (style_at d (hl 1)).
  - intros h Hh. rewrite (setTextContent_dom_same_styles ht _ d1 h).
    destruct (decide (Exists (fun k => h = hl (S k)) (seq 0 (length arr)))) as [Hx|Hx].
    + apply Exists_exists in Hx as (k & Hk & ->). apply elem_of_seq in Hk.
      destruct (Hcov k ltac:(lia)) as [dsc Hdsc]. cbn [Nat.add] in Hdsc.
      rewrite (A1 k dsc) by (done || lia).
      destruct (gqMap_colors (S k) dsc Hdsc) as [Hk1|Hnone]; [injection Hk1 as ->; done|].
      unfold color_style. rewrite Hnone. cbn. by destruct (style_at d (hl (S k))).
    + apply G1. intros k Hk ->. apply Hx, Exists_exists. exists k. split; [apply elem_of_seq; lia|done].
Qed.

(** C10. A factor array longer than its descriptor table always ends in a
    thrown [TypeError], whatever the page holds: the table is read at an
    index it does not define ([map[i + 1].desc] of [undefined]). *)
Theorem breakdown_too_long_throws (g : Game) d :
  (7 < length (calculatePowderConversion g).1 ->
   exists e d', loadPowderMultiplier g d = Throw e d') /\
  (22 < length (calculateAscensionSpeedMultiplier g).1 ->
   exists e d', loadStatisticsAscensionSpeedMultipliers g d = Throw e d') /\
  (12 < length (calculateGoldenQuarkMultiplier g).1 ->
   exists e d', loadStatisticsGoldenQuarkMultipliers g d = Throw e d') /\
  (18 < length (calculateAmbrosiaLuck g).1.1 ->
   exists e d', loadStatisticsAmbrosiaLuck g d = Throw e d') /\
  (13 < length (calculateAmbrosiaGenerationSpeed g).1 ->
   exists e d', loadStatisticsAmbrosiaGeneration g d = Throw e d').
Proof.
  unfold loadPowderMultiplier, loadStatisticsAscensionSpeedMultipliers,
    loadStatisticsGoldenQuarkMultipliers, loadStatisticsAmbrosiaLuck, loadStatisticsAmbrosiaGeneration.
  destruct (calculateAmbrosiaLuck g) as [[arr lastv] value].
  destruct (calculateAmbrosiaGenerationSpeed g) as [arr' value'].
  split_and!; intros Hlen; apply throw_then; eapply breakdown_rows_throw; (exact Hlen || reflexivity).
Qed.

(** C11. Past the end of [map7] the renderer throws after the rows it has
    written: on a page holding rows 1 to 23, an array of more than 22
    factors leaves rows 1 to 22 written with their descriptors and then
    throws the [TypeError] of [map7[23].desc]; the exception does not undo
    the rows already written, and the total is never written. *)
Theorem loadStatisticsAscensionSpeedMultipliers_partial (g : Game) arr mult d hl hn h23 :
  calculateAscensionSpeedMultiplier g = (arr, mult) -> 22 < length arr ->
  rows_ready "statASM" "sASM" 0 22 hl hn d ->
  dom_cache d !! ("statASM" +:+ index_text 23) = Some h23 ->
  exists d', loadStatisticsAscensionSpeedMultipliers g d = Throw undefined_desc d' /\
    forall k v dsc, k < 22 -> arr !! k = Some v -> map7 !! S k = Some dsc ->
      text_at d' (hl (S k)) = Some (Some (d_desc dsc)) /\
      text_at d' (hn (S k)) = Some (Some ("x" +:+ formatNum v (d_acc dsc) true)).
Proof.
  intros Hcalc Hlen Hr H23.
  assert (Htake : length (take 22 arr) = 22) by (rewrite length_take; lia).
  destruct (breakdown_rows_ok NoColor "statASM" "sASM" (sign_deco "x") map7 (take 22 arr) 0 d hl hn)
    as (d1 & R1 & [L1 C1] & W1 & F1);
    [rewrite Htake; by eapply covers_seq; [apply map7_covers|] | by rewrite Htake |].
  destruct (drop 22 arr) as [|v rest] eqn:Hdrop.
  { apply (f_equal length) in Hdrop. rewrite length_drop in Hdrop. simpl in Hdrop. lia. }
  exists d1. split.
  - unfold loadStatisticsAscensionSpeedMultipliers. rewrite Hcalc. cbn [fst snd].
    apply st_bind_Throw. rewrite <- (take_drop 22 arr), breakdown_rows_app, Htake, Hdrop.
    rewrite (st_bind_Ok _ _ _ _ _ R1). cbn [breakdown_rows Nat.add]. apply st_bind_Throw. unfold breakdown_row.
    rewrite (st_bind_Ok _ _ _ _ _ (DOMCacheGetOrSet_cached d1 _ h23 ltac:(rewrite C1; exact H23))).
    rewrite map7_23. reflexivity.
  - intros k v' dsc Hk Hv Hd. rewrite <- (lookup_take_lt _ 22) in Hv by lia.
    destruct (W1 k v' dsc Hv Hd) as [E1 E2]. cbn [Nat.add] in E1, E2. unfold sign_deco in E2.
    rewrite E2, text_node_app by discriminate. done.
Qed.
End Contracts.

Ltac solve_row_ready :=
  split_and!; [vm_compute; reflexivity | vm_compute; reflexivity
              | eexists; vm_compute; reflexivity | vm_compute; lia].

Section ShortRun.
#[local] Existing Instances synergism_format short_breakdown.

Lemma loadStatisticsAscensionSpeedMultipliers_rows_witness :
  exists d', loadStatisticsAscensionSpeedMultipliers tt (breakdown_page "statASM" "sASM" "sASMT" 2)
             = Ok (tt, d') /\
    (forall k v dsc, [JsNumber 2; JsNumber (3 # 2)] !! k = Some v -> map7 !! S k = Some dsc ->
       text_at d' (2 * S k) = Some (Some (d_desc dsc)) /\
       text_at d' (S (2 * S k)) = Some (Some ("x" +:+ formatNum v (d_acc dsc) true))) /\
    text_at d' 0 = Some (Some ("x" +:+ formatNum (JsNumber 3) 3 false)) /\
    (forall h, h ≠ 0 -> (forall k, k < 2 -> h ≠ 2 * S k /\ h ≠ S (2 * S k)) ->
       text_at d' h = text_at (breakdown_page "statASM" "sASM" "sASMT" 2) h).
Proof.
  apply (loadStatisticsAscensionSpeedMultipliers_rows tt [JsNumber 2; JsNumber (3 # 2)] (JsNumber 3)
           _ (fun k => 2 * k) (fun k => S (2 * k)) 0); [reflexivity | simpl; lia | | reflexivity | simpl; lia | intros; lia].
  split.
  - intros k Hk. simpl in Hk. destruct k as [|[|k]]; [solve_row_ready..|lia].
  - intros j k Hj Hk. split; [lia|]. intros Hne. split; lia.
Defined.
Lemma loadStatisticsGoldenQuarkMultipliers_rows_witness :
  exists d', loadStatisticsGoldenQuarkMultipliers tt (breakdown_page "statGQMS" "sGQMS" "sGQMST" 2)
             = Ok (tt, d') /\
    (forall k v dsc, factors 2 !! k = Some v -> gqMap !! S k = Some dsc ->
       text_at d' (2 * S k) = Some (Some (d_desc dsc)) /\
       text_at d' (S (2 * S k)) = Some (Some ("x" +:+ formatNum v (d_acc dsc) true))) /\
    text_at d' 0 = Some (Some ("x" +:+ formatNum (JsNumber 3) 3 false)) /\
    (0 < length (factors 2) ->
       style_at d' (2 * 1) = <["color" := "gold"]> <$> style_at (breakdown_page "statGQMS" "sGQMS" "sGQMST" 2) (2 * 1)) /\
    (forall h, h ≠ 2 * 1 -> style_at d' h = style_at (breakdown_page "statGQMS" "sGQMS" "sGQMST" 2) h).
Proof.
  apply (loadStatisticsGoldenQuarkMultipliers_rows tt (factors 2) (JsNumber 3)
           _ (fun k => 2 * k) (fun k => S (2 * k)) 0); [reflexivity | simpl; lia | | reflexivity | simpl; lia | intros; lia].
  split.
  - intros k Hk. simpl in Hk. destruct k as [|[|k]]; [solve_row_ready..|lia].
  - intros j k Hj Hk. split; [lia|]. intros Hne. split; lia.
Defined.
End ShortRun.

Section LongRun.
#[local] Existing Instances synergism_format long_breakdown.

Lemma breakdown_too_long_throws_witness :
  (exists e d', loadPowderMultiplier tt (mkDom [] ∅) = Throw e d') /\
  (exists e d', loadStatisticsAscensionSpeedMultipliers tt (mkDom [] ∅) = Throw e d') /\
  (exists e d', loadStatisticsGoldenQuarkMultipliers tt (mkDom [] ∅) = Throw e d') /\
  (exists e d', loadStatisticsAmbrosiaLuck tt (mkDom [] ∅) = Throw e d') /\
  (exists e d', loadStatisticsAmbrosiaGeneration tt (mkDom [] ∅) = Throw e d').
Proof.
  destruct (breakdown_too_long_throws tt (mkDom [] ∅)) as (H1 & H2 & H3 & H4 & H5).
  split_and!; [apply H1|apply H2|apply H3|apply H4|apply H5]; vm_compute; lia.
Defined.

Lemma loadStatisticsAscensionSpeedMultipliers_partial_witness :
  exists d', loadStatisticsAscensionSpeedMultipliers tt (breakdown_page "statASM" "sASM" "sASMT" 23)
             = Throw undefined_desc d' /\
    forall k v dsc, k < 22 -> factors 23 !! k = Some v -> map7 !! S k = Some dsc ->
      text_at d' (2 * S k) = Some (Some (d_desc dsc)) /\
      text_at d' (S (2 * S k)) = Some (Some ("x" +:+ formatNum v (d_acc dsc) true)).
Proof.
  apply (loadStatisticsAscensionSpeedMultipliers_partial tt (factors 23) (JsNumber 3) _
           (fun k => 2 * k) (fun k => S (2 * k)) 46); [reflexivity | vm_compute; lia | | vm_compute; reflexivity].
  split.
  - intros k Hk. do 22 (destruct k as [|k]; [solve_row_ready|]). lia.
  - intros j k Hj Hk. split; [lia|]. intros Hne. split; lia.
Defined.
End LongRun.
