(* ===== verification/FormulaPanels.v ===== *)
(** * The formula panels: [loadStatisticsAccelerator] and [loadStatisticsMultiplier]

    [loadStatisticsAccelerator] (lines 1866-1975) and
    [loadStatisticsMultiplier] (lines 1977-2099) are straight-line blocks
    of [DOMCacheGetOrSet(id).textContent = ...] assignments, twelve and
    thirteen of them, each writing one formula over [player] and [G].  The
    model keeps every formula as the code writes it, over the fields it
    reads ([FormulaEnv]); [Math.floor] and [Math.min] are [Qfloor] and
    [Qmin], [Math.pow] (a floating-point operation, called with the
    non-integer exponent [1.1] and with integer exponents) and
    [calculateSigmoidExponential] are read from the environment.  Each
    panel is the list of its assignments, in order, run by [writes]. *)

From S2P Require Import Prelude Dom Format.
From Stdlib Require Import QArith Qround Qminmax.
Local Close Scope Q_scope.

(** What the two panels read of [player] and [G]; array reads take the
    index the code writes. *)
Class FormulaEnv (Game : Type) : Type := {
  freeUpgradeAccelerator : Game -> Q;
  totalAcceleratorBoost : Game -> Q;
  researches : Game -> nat -> Q;
  cubeBonusMultiplier : Game -> nat -> Q;
  rune1level : Game -> Q;
  rune2level : Game -> Q;
  effectiveLevelMult : Game -> Q;
  upgrades : Game -> nat -> Q;
  achievements : Game -> nat -> Q;
  (** [player.currentChallenge.transcension] and [.reincarnation] *)
  transcensionChallenge : Game -> Q;
  reincarnationChallenge : Game -> Q;
  platonicUpgrades : Game -> nat -> Q;
  (** [G.viscosityPower[player.corruptions.used.viscosity]] *)
  viscosityPower : Game -> Q;
  freeAccelerator : Game -> Q;
  freeUpgradeMultiplier : Game -> Q;
  freeMultiplier : Game -> Q;
  (** [player.antUpgrades[4]!] and [G.bonusant5] *)
  antUpgrade4 : Game -> Q;
  bonusant5 : Game -> Q;
  Math_pow : Q -> Q -> Q;
  calculateSigmoidExponential : Q -> Q -> Q
}.

Section Formulas.
Context {Game : Type} `{!FormulaEnv Game} `{!NumberFormat}.

Definition fmt (q : Q) (acc : nat) (long : bool) : string := formatNum (JsNumber q) acc long.

(** [Math.floor(x)], as a number *)
Definition floorQ (q : Q) : Q := inject_Z (Qfloor q).

(** [(player.currentChallenge.transcension !== 0
      || player.currentChallenge.reincarnation !== 0)
     && player.upgrades[50] > 0.5 ? 1.25 : 1], written in both panels *)
Definition challenge_bonus (g : Game) : Q :=
  if (negb (Qeq_bool (transcensionChallenge g) 0) || negb (Qeq_bool (reincarnationChallenge g) 0))
     && negb (Qle_bool (upgrades g 50) (1 # 2))
  then 5 # 4 else 1.

(** [Math.min(1, (1 + player.platonicUpgrades[6] / 30)
     * G.viscosityPower[player.corruptions.used.viscosity])], written in
    both panels *)
Definition viscosity_exponent (g : Game) : Q :=
  Qmin 1 ((1 + platonicUpgrades g 6 / 30) * viscosityPower g).

(** The sum [player.upgrades[21] + ... + player.upgrades[25]] *)
Definition upgrades21_25 (g : Game) : Q :=
  upgrades g 21 + upgrades g 22 + upgrades g 23 + upgrades g 24 + upgrades g 25.

(** [sM2]: [Math.floor((Math.floor((G.rune2level / 10) * G.effectiveLevelMult)
     * Math.floor(10 + (G.rune2level / 10) * G.effectiveLevelMult)) / 2) * 100 / 100] *)
Definition rune2_free_multipliers (g : Game) : Q :=
  floorQ ((floorQ (rune2level g / 10 * effectiveLevelMult g) *
           floorQ (10 + rune2level g / 10 * effectiveLevelMult g)) / 2) * 100 / 100.

(** The assignments of [loadStatisticsAccelerator], in order. *)
Definition accelerator_lines (g : Game) : list (string * string) := [
  ("sA1", "+" +:+ fmt (freeUpgradeAccelerator g) 0 false);
  ("sA2", "+" +:+ fmt (totalAcceleratorBoost g *
                       (4 + 2 * researches g 18 + 2 * researches g 19 + 3 * researches g 20
                        + cubeBonusMultiplier g 1)) 0 false);
  ("sA3", "+" +:+ fmt (floorQ (Math_pow (rune1level g * effectiveLevelMult g / 10) (11 # 10))) 0 true);
  ("sA4", "x" +:+ fmt (1 + rune1level g * 1 / 200 * effectiveLevelMult g) 3 true);
  ("sA5", "x" +:+ fmt (Math_pow (101 # 100) (upgrades21_25 g)) 3 true);
  ("sA6", "x" +:+ fmt (Math_pow (101 # 100)
                         (achievements g 60 + achievements g 61 + achievements g 62)) 3 true);
  ("sA7", "x" +:+ fmt (1 + 1 / 5 * researches g 1) 3 true);
  ("sA8", "x" +:+ fmt (1 + 1 / 20 * researches g 6 + 1 / 25 * researches g 7
                       + 1 / 40 * researches g 8 + 3 / 200 * researches g 9
                       + 1 / 200 * researches g 10) 3 true);
  ("sA9", "x" +:+ fmt (1 + 1 / 20 * researches g 86) 3 true);
  ("sA10", "x" +:+ fmt (challenge_bonus g) 3 true);
  ("sA11", "^" +:+ fmt (viscosity_exponent g) 3 true);
  ("sA12", fmt (freeAccelerator g) 0 true)].

(** [loadStatisticsAccelerator()] *)
Definition loadStatisticsAccelerator (g : Game) : St Dom unit := writes (accelerator_lines g).

(** The assignments of [loadStatisticsMultiplier], in order. *)
Definition multiplier_lines (g : Game) : list (string * string) := [
  ("sM1", "+" +:+ fmt (freeUpgradeMultiplier g) 0 true);
  ("sM2", "+" +:+ fmt (rune2_free_multipliers g) 0 true);
  ("sM3", "x" +:+ fmt (1 + rune2level g / 200 * effectiveLevelMult g) 3 true);
  ("sM4", "x" +:+ fmt (Math_pow (101 # 100) (upgrades21_25 g)
                       * (1 + upgrades g 34 * 3 / 100) * (1 + upgrades g 34 * (2 / 103))) 3 true);
  ("sM5", "x" +:+ fmt (Math_pow (101 # 100)
                         (achievements g 57 + achievements g 58 + achievements g 59)) 3 true);
  ("sM6", "x" +:+ fmt (1 + 1 / 5 * researches g 2) 3 true);
  ("sM7", "x" +:+ fmt (1 + 1 / 20 * researches g 11 + 1 / 25 * researches g 12
                       + 1 / 40 * researches g 13 + 3 / 200 * researches g 14
                       + 1 / 200 * researches g 15) 3 true);
  ("sM8", "x" +:+ fmt (1 + 1 / 20 * researches g 87) 3 true);
  ("sM9", "x" +:+ fmt (calculateSigmoidExponential 40
                         ((antUpgrade4 g + bonusant5 g) / 1000 * 40 / 39)) 2 true);
  ("sM10", "x" +:+ fmt (cubeBonusMultiplier g 2) 3 true);
  ("sM11", "x" +:+ fmt (challenge_bonus g) 3 true);
  ("sM12", "^" +:+ fmt (viscosity_exponent g) 3 true);
  ("sM13", fmt (freeMultiplier g) 3 true)].

(** [loadStatisticsMultiplier()] *)
Definition loadStatisticsMultiplier (g : Game) : St Dom unit := writes (multiplier_lines g).
End Formulas.

(** A page holding one cached [<span>] per id of [ids], in order, and the
    handle of each id on it. *)
Definition ids_dom (ids : list string) : Dom :=
  mkDom ((fun id => mkElem "span" id [] ∅ None [] None true) <$> ids)
        (list_to_map (zip ids (seq 0 (length ids)))).

Definition ids_handle (ids : list string) (id : string) : nat :=
  default 0%nat (dom_cache (ids_dom ids) !! id).

(** A game whose every read is 0, with [Math.pow] and the sigmoid 1. *)
Definition unit_formulas : FormulaEnv unit :=
  {| freeUpgradeAccelerator := fun _ => 0%Q; totalAcceleratorBoost := fun _ => 0%Q;
     researches := fun _ _ => 0%Q; cubeBonusMultiplier := fun _ _ => 1%Q;
     rune1level := fun _ => 0%Q; rune2level := fun _ => 0%Q; effectiveLevelMult := fun _ => 1%Q;
     upgrades := fun _ _ => 0%Q; achievements := fun _ _ => 0%Q;
     transcensionChallenge := fun _ => 0%Q; reincarnationChallenge := fun _ => 0%Q;
     platonicUpgrades := fun _ _ => 0%Q; viscosityPower := fun _ => 1%Q;
     freeAccelerator := fun _ => 0%Q; freeUpgradeMultiplier := fun _ => 0%Q;
     freeMultiplier := fun _ => 0%Q; antUpgrade4 := fun _ => 0%Q; bonusant5 := fun _ => 0%Q;
     Math_pow := fun _ _ => 1%Q; calculateSigmoidExponential := fun _ _ => 1%Q |}.

