(* ===== verification/CubeFormulas.v ===== *)
(** * The closures of the cube catalogs

    The [stat] closure of every line of [allCubeStats], [allWowCubeStats],
    [allTesseractStats], [allHypercubeStats], [allPlatonicCubeStats],
    [allHepteractCubeStats] and [allOcteractCubeStats] ([Statistics.ts]
    lines 78-767), translated expression by expression.  A closure reads
    [player], [G] and the values of other modules; the reads shared with
    the formula panels go through [FormulaEnv], the others through
    [CatalogEnv], by the path the code writes ([field g
    "player.shopUpgrades.seasonPassY"]) or by the call expression
    ([calc g "calculateAllCubeMultiplier()"]).  Each catalog is the list of
    its [(i18n, stat)] pairs in source order.  The closures written in
    several catalogs are shared definitions, and the file ends with the
    bounds their [Math.min] caps give (C37). *)

From S2P Require Import Prelude FormulaPanels.
From Stdlib Require Import QArith Qround Qminmax Lqa.
Local Close Scope Q_scope.

(** What the catalog closures read, beyond [FormulaEnv]. *)
Class CatalogEnv (Game : Type) : Type := {
  (** a numeric field of [player], [G] or another module, by its path *)
  field : Game -> string -> Q;
  (** an element of a numeric array of [player] or [G] *)
  field_at : Game -> string -> nat -> Q;
  (** a whole numeric array, for [sumContents] and [slice] *)
  field_arr : Game -> string -> list Q;
  (** a field or a call read as a condition *)
  flag : Game -> string -> bool;
  (** a call without argument of another module, by its call expression *)
  calc : Game -> string -> Q;
  (** [CalcECC(kind, completions)] of [Challenges.ts] *)
  CalcECC : string -> Q -> Q;
  (** [calculateExalt6Penalty(completions, time)] of [Calculate.ts] *)
  calculateExalt6Penalty : Q -> Q -> Q;
  (** [Math.log10], [Math.log], [Decimal.log(x, base)], [Decimal.pow] *)
  Math_log10 : Q -> Q;
  Math_log : Q -> Q;
  Decimal_log : Q -> Q -> Q;
  Decimal_pow : Q -> Q -> Q
}.

(** [+b] of a boolean *)
Definition b2q (b : bool) : Q := if b then 1%Q else 0%Q.

(** The comparisons of the code, as booleans. *)
Definition gtQ (a b : Q) : bool := negb (Qle_bool a b).
Definition geQ (a b : Q) : bool := Qle_bool b a.

(** [sumContents(array)] of [Utility.ts]: the sum of the elements. *)
Definition sumContents (l : list Q) : Q := foldl Qplus 0%Q l.

(** A catalog: its [(i18n, stat)] pairs in source order. *)
Definition Formulas (Game : Type) : Type := list (string * (Game -> Q)).

Section Readers.
Context {Game : Type} `{!FormulaEnv Game} `{!CatalogEnv Game}.
Local Open Scope Q_scope.

Definition achievement (g : Game) (n : nat) : Q := achievements g n.
Definition cube_upg (g : Game) (n : nat) : Q := field_at g "player.cubeUpgrades" n.
Definition ccomp (g : Game) (n : nat) : Q := field_at g "player.challengecompletions" n.
(** [+player.singularityUpgrades.<u>.getEffect().bonus] *)
Definition sing_bonus (g : Game) (u : string) : Q :=
  field g ("player.singularityUpgrades." +:+ u +:+ ".getEffect().bonus").
(** [+player.octeractUpgrades.<u>.getEffect().bonus] *)
Definition oct_bonus (g : Game) (u : string) : Q :=
  field g ("player.octeractUpgrades." +:+ u +:+ ".getEffect().bonus").
(** [+player.blueberryUpgrades.<u>.bonus.<k>] *)
Definition berry_bonus (g : Game) (u k : string) : Q :=
  field g ("player.blueberryUpgrades." +:+ u +:+ ".bonus." +:+ k).
Definition ascension_score (g : Game) : Q := calc g "calculateAscensionScore().effectiveScore".
Definition ascension_count (g : Game) : Q := field g "player.ascensionCount".
(** [Decimal.log(player.ascendShards.add(1), b)] *)
Definition shard_log (g : Game) (b : Q) : Q := Decimal_log (field g "player.ascendShards" + 1) b.
Definition total_levels (g : Game) : Q := field g "player.corruptions.used.totalLevels".

(** [1 + Math.min(0.15, (0.6 / 100) * Math.log10(calculateAscensionScore()
    .effectiveScore + 1)) * player.achievements[n]], one line in each of
    the wow, tesseract, hypercube, platonic and hepteract catalogs *)
Definition score_achievement (g : Game) (n : nat) : Q :=
  1 + Qmin 0.15 ((0.6 / 100) * Math_log10 (ascension_score g + 1)) * achievement g n.

(** [1 + player.achievements[n] * Math.min(cap, player.ascensionCount / k)] *)
Definition count_achievement (g : Game) (n : nat) (cap k : Q) : Q :=
  1 + achievement g n * Qmin cap (ascension_count g / k).

(** [1 + (4 / 100) * (a[n] + a[n + 1] + a[n + 2]) + (3 / 100) * a[n + 3]] *)
Definition achievement_quad (g : Game) (n : nat) : Q :=
  1 + (4 / 100) * (achievement g n + achievement g (n + 1) + achievement g (n + 2)) + (3 / 100) * achievement g (n + 3).

(** [Math.pow(1 + Math.max(0, score - base) / div, e)] *)
Definition score_power (g : Game) (base div e : Q) : Q :=
  Math_pow (1 + Qmax 0 (ascension_score g - base) / div) e.

(** The [Exalt6] closure of [allCubeStats]: the penalty applies only while
    the challenge is enabled. *)
Definition exalt6_penalty (g : Game) : Q :=
  if flag g "player.singularityChallenges.limitedTime.enabled"
  then calculateExalt6Penalty (field g "player.singularityChallenges.limitedTime.completions")
                              (field g "player.singChallengeTimer")
  else 1.

(** The [Delta] / [PlatonicDelta] closure, written in two catalogs *)
Definition platonic_delta (g : Game) : Q :=
  1 + sing_bonus g "platonicDelta" *
      Qmin 9 (if gtQ (field g "player.shopUpgrades.shopSingularitySpeedup") 0
              then field g "player.singularityCounter" * 50 / (3600 * 24)
              else field g "player.singularityCounter" / (3600 * 24)).

(** The [SpeedAchievement] closure of [allCubeStats] *)
Definition speed_achievement (g : Game) : Q :=
  1 + achievement g 240 * Qmin 0.5 (Qmax 0.1 ((1 / 20) * Math_log10 (calc g "calculateTimeAcceleration().mult" + 0.01))).

(** [allCubeStats], lines 78-270 *)
Definition allCubeStats_stats : Formulas Game := [
  ("PseudoCoins", fun g => field g "PCoinUpgradeEffects.CUBE_BUFF");
  ("AscensionTime", fun g =>
     Math_pow (Qmin 1 (field g "player.ascensionCounter" / calc g "resetTimeThreshold()")) 2
     * (1 + ((1 / 4) * achievement g 204 + (1 / 4) * achievement g 211 + (1 / 2) * achievement g 218)
            * Qmax 0 (field g "player.ascensionCounter" / calc g "resetTimeThreshold()" - 1)));
  ("CampaignTutorial", fun g => field g "player.campaigns.tutorialBonus.cubeBonus");
  ("Campaign", fun g => field g "player.campaigns.cubeBonus");
  ("SunMoon", fun g => 1 + (6 / 100) * achievement g 250 + (10 / 100) * achievement g 251);
  ("SpeedAchievement", speed_achievement);
  ("Challenge15", fun g =>
     field g "G.challenge15Rewards.cube1.value" * field g "G.challenge15Rewards.cube2.value"
     * field g "G.challenge15Rewards.cube3.value" * field g "G.challenge15Rewards.cube4.value"
     * field g "G.challenge15Rewards.cube5.value");
  ("InfiniteAscent", fun g => 1 + (1 / 100) * calc g "calculateEffectiveIALevel()");
  ("Beta", fun g => 1 + platonicUpgrades g 10);
  ("Omega", fun g => Math_pow 1.01 (platonicUpgrades g 15 * ccomp g 9));
  ("Powder", fun g => calc g "calculateCubeMultFromPowder()");
  ("SingDebuff", fun g => 1 / calc g "calculateSingularityDebuff('Cubes')");
  ("PassY", fun g => 1 + (0.75 * field g "player.shopUpgrades.seasonPassY") / 100);
  ("PassZ", fun g => 1 + (field g "player.shopUpgrades.seasonPassZ" * field g "player.singularityCount") / 100);
  ("PassINF", fun g => Math_pow 1.02 (field g "player.shopUpgrades.seasonPassInfinity"));
  ("CashGrabUltra", fun g => calc g "calculateCashGrabCubeBonus()");
  ("EXUltra", fun g => calc g "calculateEXUltraCubeBonus()");
  ("StarterPack", fun g => 1 + 4 * (if flag g "player.singularityUpgrades.starterPack.getEffect().bonus" then 1 else 0));
  ("SingCubes1", fun g => sing_bonus g "singCubes1");
  ("SingCubes2", fun g => sing_bonus g "singCubes2");
  ("SingCubes3", fun g => sing_bonus g "singCubes3");
  ("SingCitadel", fun g => sing_bonus g "singCitadel");
  ("SingCitadel2", fun g => sing_bonus g "singCitadel2");
  ("Delta", platonic_delta);
  ("CookieUpgrade8", fun g => 1 + 0.25 * b2q (flag g "G.isEvent") * cube_upg g 58);
  ("CookieUpgrade16", fun g => 1 + 1 * cube_upg g 66 * (1 - platonicUpgrades g 15));
  ("WowOcteract", fun g => calc g "calculateTotalOcteractCubeBonus()");
  ("NoSing", fun g => field g "player.singularityChallenges.noSingularityUpgrades.rewards.cubes");
  ("TwentyAscensions", fun g => calc g "calculateEXALTBonusMult()");
  ("Ambrosia", fun g => calc g "calculateAmbrosiaCubeMult()");
  ("ModuleTutorial", fun g => berry_bonus g "ambrosiaTutorial" "cubes");
  ("ModuleCubes1", fun g => berry_bonus g "ambrosiaCubes1" "cubes");
  ("ModuleLuckCube1", fun g => berry_bonus g "ambrosiaLuckCube1" "cubes");
  ("ModuleQuarkCube1", fun g => berry_bonus g "ambrosiaQuarkCube1" "cubes");
  ("ModuleCubes2", fun g => berry_bonus g "ambrosiaCubes2" "cubes");
  ("ModuleHyperflux", fun g => berry_bonus g "ambrosiaHyperflux" "hyperFlux");
  ("Exalt6", exalt6_penalty);
  ("Event", fun g => 1 + calc g "calculateEventBuff(BuffType.Cubes)")
].

(** [allWowCubeStats], lines 272-378 *)
Definition allWowCubeStats_stats : Formulas Game := [
  ("AscensionScore", fun g => Math_pow (ascension_score g) (1 / 4.1));
  ("GlobalCube", fun g => calc g "calculateAllCubeMultiplier()");
  ("SeasonPass1", fun g => 1 + (2.25 * field g "player.shopUpgrades.seasonPass") / 100);
  ("Researches", fun g =>
     (1 + researches g 119 / 400) * (1 + researches g 120 / 400) * (1 + researches g 137 / 100)
     * (1 + (0.9 * researches g 152) / 100) * (1 + (0.8 * researches g 167) / 100)
     * (1 + (0.7 * researches g 182) / 100)
     * (1 + (0.03 / 100) * researches g 192 * field_at g "player.antUpgrades" (12 - 1))
     * (1 + (0.6 * researches g 197) / 100));
  ("Research8x25", fun g => 1 + (0.004 / 100) * researches g 200);
  ("CubeUpgrades", fun g => (1 + cube_upg g 1 / 6) * (1 + cube_upg g 11 / 11) * (1 + 0.4 * cube_upg g 30));
  ("ConstantUpgrade10", fun g =>
     1 + 0.01 * shard_log g 4 * Qmin 1 (field_at g "player.constantUpgrades" 10));
  ("Achievement189", fun g => count_achievement g 189 2 2.5e8);
  ("Achievement193", fun g => 1 + (achievement g 193 * shard_log g 10) / 400);
  ("Achievement195", fun g => 1 + Qmin 250 ((achievement g 195 * shard_log g 10) / 400));
  ("Achievement198-201", fun g => achievement_quad g 198);
  ("Achievement254", fun g => score_achievement g 254);
  ("SpiritPower", fun g =>
     1 + field g "player.corruptions.used.totalCorruptionDifficultyMultiplier"
         * field_at g "G.effectiveRuneSpiritPower" 2);
  ("PlatonicOpening", fun g => 1 + field_at g "G.platonicBonusMultiplier" 0);
  ("Platonic1x1", fun g => 1 + 0.00009 * total_levels g * platonicUpgrades g 1);
  ("CookieUpgrade13", fun g =>
     1 + Math_pow 1.03 (Math_log10 (Qmax 1 (field g "player.wowAbyssals"))) * cube_upg g 63 - cube_upg g 63)
].

(** [allTesseractStats], lines 380-443 *)
Definition allTesseractStats_stats : Formulas Game := [
  ("AscensionScore", fun g => score_power g 1e5 1e4 0.35);
  ("GlobalCube", fun g => calc g "calculateAllCubeMultiplier()");
  ("SeasonPass1", fun g => 1 + (2.25 * field g "player.shopUpgrades.seasonPass") / 100);
  ("ConstantUpgrade10", fun g =>
     1 + 0.01 * shard_log g 4 * Qmin 1 (field_at g "player.constantUpgrades" 10));
  ("CubeUpgrade3x10", fun g => 1 + 0.4 * cube_upg g 30);
  ("CubeUpgrade4x8", fun g => 1 + (1 / 200) * cube_upg g 38 * total_levels g);
  ("Achievement195", fun g => 1 + Qmin 250 ((achievement g 195 * shard_log g 10) / 400));
  ("Achievement202", fun g => count_achievement g 202 2 5e8);
  ("Achievement205-208", fun g => achievement_quad g 205);
  ("Achievement255", fun g => score_achievement g 255);
  ("PlatonicCube", fun g => field_at g "G.platonicBonusMultiplier" 1);
  ("Platonic1x2", fun g => 1 + 0.00018 * total_levels g * platonicUpgrades g 2)
].

(** [allHypercubeStats], lines 445-500 *)
Definition allHypercubeStats_stats : Formulas Game := [
  ("AscensionScore", fun g => score_power g 1e9 1e8 0.5);
  ("GlobalCube", fun g => calc g "calculateAllCubeMultiplier()");
  ("SeasonPass2", fun g => 1 + (1.5 * field g "player.shopUpgrades.seasonPass2") / 100);
  ("Achievement212-215", fun g => achievement_quad g 212);
  ("Achievement216", fun g => count_achievement g 216 2 1e9);
  ("Achievement253", fun g => 1 + (1 / 10) * achievement g 253);
  ("Achievement256", fun g => score_achievement g 256);
  ("Achievement265", fun g => 1 + Qmin 2 (ascension_count g / 2.5e10) * achievement g 265);
  ("PlatonicCube", fun g => field_at g "G.platonicBonusMultiplier" 2);
  ("Platonic1x3", fun g => 1 + 0.00054 * total_levels g * platonicUpgrades g 3);
  ("HyperrealHepteract", fun g => 1 + (0.6 / 1000) * calc g "hepteractEffective('hyperrealism')")
].

(** [allPlatonicCubeStats], lines 502-553 *)
Definition allPlatonicCubeStats_stats : Formulas Game := [
  ("AscensionScore", fun g => score_power g 2.666e12 2.666e11 0.75);
  ("GlobalCube", fun g => calc g "calculateAllCubeMultiplier()");
  ("SeasonPass2", fun g => 1 + (1.5 * field g "player.shopUpgrades.seasonPass2") / 100);
  ("Achievement196", fun g => 1 + Qmin 20 (((achievement g 196 * 1) / 5000) * shard_log g 10));
  ("Achievement219-222", fun g => achievement_quad g 219);
  ("Achievement223", fun g => count_achievement g 223 2 1.337e9);
  ("Achievement257", fun g => score_achievement g 257);
  ("PlatonicCube", fun g => field_at g "G.platonicBonusMultiplier" 3);
  ("Platonic1x4", fun g => 1 + (1.2 * platonicUpgrades g 4) / 50)
].

(** [allHepteractCubeStats], lines 555-592 *)
Definition allHepteractCubeStats_stats : Formulas Game := [
  ("AscensionScore", fun g => score_power g 1.666e16 3.33e16 0.85);
  ("GlobalCube", fun g => calc g "calculateAllCubeMultiplier()");
  ("SeasonPass3", fun g => 1 + (1.5 * field g "player.shopUpgrades.seasonPass3") / 100);
  ("Achievement258", fun g => score_achievement g 258);
  ("Achievement264", fun g => 1 + Qmin 0.4 (ascension_count g / 2e13) * achievement g 264);
  ("Achievement265", fun g => 1 + Qmin 0.2 (ascension_count g / 8e14) * achievement g 265);
  ("Achievement270", fun g => Qmin 2 (1 + (1 / 1000000) * shard_log g 10 * achievement g 270))
].

(** The [AscensionScore] closure of [allOcteractCubeStats] *)
Definition octeract_score (g : Game) : Q :=
  let SCOREREQ := 1e23 in
  let currentScore := ascension_score g in
  if geQ currentScore SCOREREQ then currentScore / SCOREREQ else 0.

(** The [AscensionSpeed] closure of [allOcteractCubeStats] *)
Definition octeract_ascension_speed (g : Game) : Q :=
  if flag g "player.singularityUpgrades.oneMind.getEffect().bonus"
  then Math_pow 10 (1 / 2) * Math_pow (calc g "calculateAscensionAcceleration()" / 10)
                                       (oct_bonus g "octeractOneMindImprover")
  else Math_pow (calc g "calculateAscensionAcceleration()") (1 / 2).

(** [allOcteractCubeStats], lines 594-767 *)
Definition allOcteractCubeStats_stats : Formulas Game := [
  ("BasePerSecond", fun _ => 1 / (24 * 3600 * 365 * 1e15));
  ("AscensionScore", octeract_score);
  ("PseudoCoins", fun g => field g "PCoinUpgradeEffects.CUBE_BUFF");
  ("Campaign", fun g => field g "player.campaigns.octeractBonus");
  ("SeasonPass3", fun g => 1 + (1.5 * field g "player.shopUpgrades.seasonPass3") / 100);
  ("SeasonPassY", fun g => 1 + (0.75 * field g "player.shopUpgrades.seasonPassY") / 100);
  ("SeasonPassZ", fun g => 1 + (field g "player.shopUpgrades.seasonPassZ" * field g "player.singularityCount") / 100);
  ("SeasonPassLost", fun g => 1 + field g "player.shopUpgrades.seasonPassLost" / 1000);
  ("CookieUpgrade20", fun g => 1 + (b2q (geQ (total_levels g) (14 * 8)) * cube_upg g 70) / 10000);
  ("DivinePack", fun g => 1 + total_levels g * sing_bonus g "divinePack");
  ("SingCubes1", fun g => sing_bonus g "singCubes1");
  ("SingCubes2", fun g => sing_bonus g "singCubes2");
  ("SingCubes3", fun g => sing_bonus g "singCubes3");
  ("SingOcteractGain", fun g => sing_bonus g "singOcteractGain");
  ("SingOcteractGain2", fun g => sing_bonus g "singOcteractGain2");
  ("SingOcteractGain3", fun g => sing_bonus g "singOcteractGain3");
  ("SingOcteractGain4", fun g => sing_bonus g "singOcteractGain4");
  ("SingOcteractGain5", fun g => sing_bonus g "singOcteractGain5");
  ("PatreonBonus", fun g => 1 + (calc g "getQuarkBonus()" / 100) * sing_bonus g "singOcteractPatreonBonus");
  ("OcteractStarter", fun g => 1 + 0.2 * oct_bonus g "octeractStarter");
  ("OcteractGain", fun g => oct_bonus g "octeractGain");
  ("OcteractGain2", fun g => oct_bonus g "octeractGain2");
  ("DerpsmithCornucopia", fun g => calc g "derpsmithCornucopiaBonus()");
  ("DigitalOcteractAccumulator", fun g =>
     Math_pow (1 + oct_bonus g "octeractAscensionsOcteractGain")
              (1 + floorQ (Math_log10 (1 + ascension_count g))));
  ("Event", fun g => 1 + calc g "calculateEventBuff(BuffType.Octeract)");
  ("PlatonicDelta", platonic_delta);
  ("NoSingUpgrades", fun g => field g "player.singularityChallenges.noSingularityUpgrades.rewards.cubes");
  ("PassINF", fun g => Math_pow 1.02 (field g "player.shopUpgrades.seasonPassInfinity"));
  ("Ambrosia", fun g => calc g "calculateAmbrosiaCubeMult()");
  ("ModuleTutorial", fun g => berry_bonus g "ambrosiaTutorial" "cubes");
  ("ModuleCubes1", fun g => berry_bonus g "ambrosiaCubes1" "cubes");
  ("ModuleLuckCube1", fun g => berry_bonus g "ambrosiaLuckCube1" "cubes");
  ("ModuleQuarkCube1", fun g => berry_bonus g "ambrosiaQuarkCube1" "cubes");
  ("ModuleCubes2", fun g => berry_bonus g "ambrosiaCubes2" "cubes");
  ("CashGrabUltra", fun g => calc g "calculateCashGrabCubeBonus()");
  ("EXUltra", fun g => calc g "calculateEXUltraCubeBonus()");
  ("AscensionSpeed", octeract_ascension_speed)
].
End Readers.

(** A game state of type [unit] whose reads are all zero. *)
Definition unit_catalog : CatalogEnv unit :=
  {| field := fun _ _ => 0%Q; field_at := fun _ _ _ => 0%Q; field_arr := fun _ _ => [];
     flag := fun _ _ => false; calc := fun _ _ => 1%Q; CalcECC := fun _ _ => 0%Q;
     calculateExalt6Penalty := fun _ _ => 1%Q; Math_log10 := fun _ => 0%Q; Math_log := fun _ => 0%Q;
     Decimal_log := fun _ _ => 0%Q; Decimal_pow := fun _ _ => 0%Q |}.

(** ** The caps of the achievement lines *)

(** [m * a] for a multiplier [m] capped at [c >= 0] and a flag [a] in [[0, 1]]. *)
Lemma capped_mult (m c a : Q) : (m <= c -> 0 <= c -> 0 <= a <= 1 -> m * a <= c)%Q.
Proof. intros Hm Hc [Ha0 Ha1]. nra. Qed.

Section Caps.
Context {Game : Type} `{!FormulaEnv Game} `{!CatalogEnv Game}.
Local Open Scope Q_scope.

(** C37. With the achievements the closures read being flags in [[0, 1]],
    the capped achievement lines stay under their caps: every
    [Math.min(0.15, ...)] score line is at most 1.15, every four-achievement
    line at most 1.15, every [Math.min(cap, ascensionCount / k)] line at most
    [1 + cap], and [SpeedAchievement] lies between [1 + a / 10] and
    [1 + a / 2] for [a = player.achievements[240]]. *)
Theorem achievement_caps (g : Game) :
  (forall n, 0 <= achievement g n <= 1) ->
  (forall n, score_achievement g n <= 1.15) /\
  (forall n, achievement_quad g n <= 1.15) /\
  (forall n cap k, 0 <= cap -> count_achievement g n cap k <= 1 + cap) /\
  1 + achievement g 240 / 10 <= speed_achievement g <= 1 + achievement g 240 / 2.
Proof.
  intros Hach. split; [|split; [|split]].
  - intros n. unfold score_achievement. set (y := _ * Math_log10 _).
    pose proof (capped_mult _ 0.15 _ (Q.le_min_l 0.15 y) ltac:(lra) (Hach n)). lra.
  - intros n. unfold achievement_quad.
    pose proof (Hach n). pose proof (Hach (n + 1)%nat). pose proof (Hach (n + 2)%nat).
    pose proof (Hach (n + 3)%nat). change (4 / 100) with (4 # 100). change (3 / 100) with (3 # 100). lra.
  - intros n cap k Hcap. unfold count_achievement. rewrite Qmult_comm.
    pose proof (capped_mult _ cap _ (Q.le_min_l cap (ascension_count g / k)) Hcap (Hach n)). lra.
  - unfold speed_achievement. set (x := Qmax 0.1 _). pose proof (Hach 240%nat).
    assert (0.1 <= Qmin 0.5 x <= 0.5) by (split; [apply Q.min_glb; [lra|apply Q.le_max_l]|apply Q.le_min_l]).
    change (achievement g 240 / 10) with (achievement g 240 * (1 # 10)). change (achievement g 240 / 2) with (achievement g 240 * (1 # 2)).
    split; nra.
Qed.
End Caps.

Section UnitCatalog.
#[local] Existing Instances unit_formulas unit_catalog.

Lemma achievement_caps_witness :
  (forall n, 0 <= achievement tt n <= 1)%Q /\ (forall n, score_achievement tt n <= 1.15)%Q.
Proof.
  assert (H : forall n, (0 <= achievement tt n <= 1)%Q) by (intros n; vm_compute; split; discriminate).
  split; [exact H|]. apply (achievement_caps tt H).
Defined.
End UnitCatalog.
