(* ===== verification/ResourceFormulas.v ===== *)
(** * The closures of the offering, quark, obtainium and ant catalogs

    The [stat] closure of every line of [allBaseOfferingStats],
    [allOfferingStats], [allQuarkStats], [allBaseObtainiumStats],
    [allObtainiumIgnoreDRCapStats], [allObtainiumStats], [obtainiumDR] and
    [antSacrificeRewardStats] ([Statistics.ts] lines 769-1592), over the
    readers of [CubeFormulas.v].  A ternary [c ? a : b] is an [if] on the
    boolean comparison the code writes ([gtQ], [geQ], [Qeq_bool] for
    [===]). *)

From S2P Require Import Prelude FormulaPanels CubeFormulas.
From Stdlib Require Import QArith Qround Qminmax.
Local Close Scope Q_scope.

Section Resources.
Context {Game : Type} `{!FormulaEnv Game} `{!CatalogEnv Game}.
Local Open Scope Q_scope.

(** [player.upgrades[n] > 0 ? a : b] and the like: a reward gated by a
    positive count. *)
Definition if_pos (x a b : Q) : Q := if gtQ x 0 then a else b.

(** [(player.cubeUpgrades[62] > 0 && player.currentChallenge.ascension === 15) ? 8 : 1],
    written in three catalogs *)
Definition cube_cx12 (g : Game) : Q :=
  if gtQ (cube_upg g 62) 0 && Qeq_bool (field g "player.currentChallenge.ascension") 15 then 8 else 1.

(** [Math.pow(1.04, player.cubeUpgrades[n] * sumContents(player.talismanRarity))] *)
Definition talisman_power (g : Game) (n : nat) : Q :=
  Math_pow 1.04 (cube_upg g n * sumContents (field_arr g "player.talismanRarity")).

(** [calculateExalt6Penalty(player.singularityChallenges.limitedTime.completions,
     player.singChallengeTimer)], unconditionally, in three catalogs *)
Definition exalt6_called (g : Game) : Q :=
  calculateExalt6Penalty (field g "player.singularityChallenges.limitedTime.completions")
                         (field g "player.singChallengeTimer").

(** [1 + 5 * (player.singularityUpgrades.starterPack.getEffect().bonus ? 1 : 0)] *)
Definition starter_pack5 (g : Game) : Q :=
  1 + 5 * (if flag g "player.singularityUpgrades.starterPack.getEffect().bonus" then 1 else 0).

(** [allBaseOfferingStats], lines 769-814 *)
Definition allBaseOfferingStats_stats : Formulas Game := [
  ("Base", fun _ => 6);
  ("Prestige", fun g => if_pos (field g "player.prestigeCount") 1 0);
  ("Transcend", fun g => if_pos (field g "player.transcendCount") 3 0);
  ("Reincarnate", fun g => if_pos (field g "player.reincarnationCount") 5 0);
  ("Achievements", fun g =>
     Qmin (field g "player.prestigecounter" / 1800) 1
     * (if_pos (achievement g 37) 15 0 + if_pos (achievement g 44) 15 0 + if_pos (achievement g 52) 25 0));
  ("Challenge1", fun g => if_pos (ccomp g 2) 2 0);
  ("ReincarnationUpgrade2", fun g =>
     if_pos (upgrades g 62) (Qmin 50 ((1 / 50) * sumContents (field_arr g "player.challengecompletions"))) 0);
  ("Research1x24", fun g => 0.4 * researches g 24);
  ("Research1x25", fun g => 0.6 * researches g 25);
  ("Research4x20", fun g => if_pos (researches g 95) 15 0)
].

(** [allOfferingStats], lines 816-1020 *)
Definition allOfferingStats_stats : Formulas Game := [
  ("Base", fun g => calc g "calculateBaseOfferings()");
  ("PrestigeShards", fun g =>
     1 + Math_pow (Decimal_log (field g "player.prestigeShards" + 1) 10) (1 / 2) / 5);
  ("SuperiorIntellect", fun g =>
     1 + (1 / 2000) * field g "G.rune5level" * effectiveLevelMult g * (1 + researches g 85 / 200));
  ("ReincarnationChallenge", fun g =>
     1 + 1 / 50 * CalcECC "reincarnation" (ccomp g 6)
     + 1 / 25 * CalcECC "reincarnation" (ccomp g 8)
     + 1 / 25 * CalcECC "reincarnation" (ccomp g 10));
  ("AlchemyAchievement5", fun g => 1 + (10 * achievement g 33) / 100);
  ("AlchemyAchievement6", fun g => 1 + (15 * achievement g 34) / 100);
  ("AlchemyAchievement7", fun g => 1 + (25 * achievement g 35) / 100);
  ("DiamondUpgrade4x3", fun g => 1 + (20 * upgrades g 38) / 100);
  ("ParticleUpgrade3x5", fun g =>
     1 + upgrades g 75 * 2 * Qmin 1 (Math_pow (field g "player.maxobtainium" / 30000000) 0.5));
  ("AutoOfferingShop", fun g => 1 + (1 / 50) * field g "player.shopUpgrades.offeringAuto");
  ("OfferingEXShop", fun g => 1 + (1 / 25) * field g "player.shopUpgrades.offeringEX");
  ("CashGrab", fun g => 1 + (1 / 100) * field g "player.shopUpgrades.cashGrab");
  ("Research4x10", fun g =>
     1 + (1 / 10000) * sumContents (field_arr g "player.challengecompletions") * researches g 85);
  ("AntUpgrade", fun g => 1 + Math_pow (field_at g "player.antUpgrades" (6 - 1) + field g "G.bonusant6") 0.66);
  ("Brutus", fun g => cubeBonusMultiplier g 3);
  ("ConstantUpgrade3", fun g => 1 + 0.02 * field_at g "player.constantUpgrades" 3);
  ("ResearchTalismans", fun g =>
     1 + 0.0003 * field_at g "player.talismanLevels" (3 - 1) * researches g 149
     + 0.0004 * field_at g "player.talismanLevels" (3 - 1) * researches g 179);
  ("TutorialBonus", fun g => field g "player.campaigns.tutorialBonus.offeringBonus");
  ("CampaignBonus", fun g => field g "player.campaigns.offeringBonus");
  ("Challenge12", fun g => 1 + 0.12 * CalcECC "ascension" (ccomp g 12));
  ("Research8x25", fun g => 1 + (0.01 / 100) * researches g 200);
  ("AscensionAchievement", fun g => 1 + Qmin 1 (ascension_count g / 1e6) * achievement g 187);
  ("SunMoonAchievements", fun g => 1 + 0.6 * achievement g 250 + 1 * achievement g 251);
  ("CubeUpgrade5x6", fun g => 1 + 0.05 * cube_upg g 46);
  ("CubeUpgrade5x10", fun g => 1 + (0.02 / 100) * cube_upg g 50);
  ("PlatonicALPHA", fun g => 1 + platonicUpgrades g 5);
  ("PlatonicBETA", fun g => 1 + 2.5 * platonicUpgrades g 10);
  ("PlatonicOMEGA", fun g => 1 + 5 * platonicUpgrades g 15);
  ("Challenge15", fun g => field g "G.challenge15Rewards.offering.value");
  ("SingularityDebuff", fun g => 1 / calc g "calculateSingularityDebuff('Offering')");
  ("StarterPack", starter_pack5);
  ("OfferingCharge", fun g => sing_bonus g "singOfferings1");
  ("OfferingStorm", fun g => sing_bonus g "singOfferings2");
  ("OfferingTempest", fun g => sing_bonus g "singOfferings3");
  ("Citadel", fun g => sing_bonus g "singCitadel");
  ("Citadel2", fun g => sing_bonus g "singCitadel2");
  ("CubeUpgradeCx4", fun g => 1 + cube_upg g 54 / 100);
  ("CubeUpgradeCx12", cube_cx12);
  ("OcteractElectrolosis", fun g => oct_bonus g "octeractOfferings1");
  ("OcteractBonus", fun g => calc g "calculateTotalOcteractOfferingBonus()");
  ("Ambrosia", fun g => 1 + 0.001 * berry_bonus g "ambrosiaOffering1" "offeringMult");
  ("CubeUpgradeCx22", fun g => talisman_power g 72);
  ("EXALTBonus", fun g => calc g "calculateEXALTBonusMult()");
  ("CashGrab2", fun g => 1 + (1 / 200) * field g "player.shopUpgrades.cashGrab2");
  ("OfferingEX2", fun g => 1 + (1 / 100) * field g "player.shopUpgrades.offeringEX2" * field g "player.singularityCount");
  ("OfferingINF", fun g => Math_pow 1.02 (field g "player.shopUpgrades.offeringEX3"));
  ("EXUltra", fun g => calc g "calculateEXUltraOfferingBonus()");
  ("Event", fun g => 1 + calc g "calculateEventBuff(BuffType.Offering)");
  ("Exalt6Penalty", exalt6_called)
].

(** [allQuarkStats], lines 1022-1174 *)
Definition allQuarkStats_stats : Formulas Game := [
  ("AchievementPoints", fun g => 1 + field g "player.achievementPoints" / 50000);
  ("Achievement250", fun g => if_pos (achievement g 250) 1.05 1);
  ("Achievement251", fun g => if_pos (achievement g 251) 1.05 1);
  ("Achievement266", fun g => if_pos (achievement g 266) (1 + Qmin 0.1 (ascension_count g / 1e16)) 1);
  ("PlatonicALPHA", fun g => if_pos (platonicUpgrades g 5) 1.05 1);
  ("PlatonicBETA", fun g => if_pos (platonicUpgrades g 10) 1.1 1);
  ("PlatonicOMEGA", fun g => if_pos (platonicUpgrades g 15) 1.15 1);
  ("Challenge15", fun g =>
     if geQ (field g "player.challenge15Exponent") (field g "G.challenge15Rewards.quarks.requirement")
     then field g "G.challenge15Rewards.quarks.value" else 1);
  ("CampaignBonus", fun g => field g "player.campaigns.quarkBonus");
  ("InfiniteAscent", fun g =>
     if flag g "isIARuneUnlocked()" then 1.1 + (5 / 1300) * calc g "calculateEffectiveIALevel()" else 1);
  ("QuarkHepteract", fun g =>
     if geQ (field g "player.challenge15Exponent") (field g "G.challenge15Rewards.hepteractsUnlocked.requirement")
     then 1 + 5 / 10000 * calc g "hepteractEffective('quark')" else 1);
  ("Powder", fun g => calc g "calculateQuarkMultFromPowder()");
  ("SingularityCount", fun g => 1 + field g "player.singularityCount" / 10);
  ("CookieUpgrade3", fun g => 1 + 0.001 * cube_upg g 53);
  ("CookieUpgrade18", fun g => 1 + (1 / 10000) * cube_upg g 68 + 0.05 * floorQ (cube_upg g 68 / 1000));
  ("SingularityMilestones", fun g => calc g "calculateSingularityQuarkMilestoneMultiplier()");
  ("OcteractQuarkBonus", fun g => calc g "calculateTotalOcteractQuarkBonus()");
  ("OcteractStarter", fun g => oct_bonus g "octeractStarter");
  ("OcteractQuarkGain", fun g => oct_bonus g "octeractQuarkGain");
  ("OcteractQuarkGain2", fun g =>
     1 + (1 / 10000) * floorQ (field g "player.octeractUpgrades.octeractQuarkGain.level" / 111)
         * field g "player.octeractUpgrades.octeractQuarkGain2.level"
         * floorQ (1 + Math_log10 (Qmax 1 (field g "player.hepteractCrafts.quark.BAL"))));
  ("SingularityPacks", fun g =>
     1 + 0.02 * field g "player.singularityUpgrades.intermediatePack.level"
     + 0.04 * field g "player.singularityUpgrades.advancedPack.level"
     + 0.06 * field g "player.singularityUpgrades.expertPack.level"
     + 0.08 * field g "player.singularityUpgrades.masterPack.level"
     + 0.1 * field g "player.singularityUpgrades.divinePack.level");
  ("SingQuarkImprover1", fun g => sing_bonus g "singQuarkImprover1");
  ("AmbrosiaQuarkMult", fun g => calc g "calculateAmbrosiaQuarkMult()");
  ("AmbrosiaTutorial", fun g => berry_bonus g "ambrosiaTutorial" "quarks");
  ("AmbrosiaQuarks1", fun g => berry_bonus g "ambrosiaQuarks1" "quarks");
  ("AmbrosiaCubeQuark1", fun g => berry_bonus g "ambrosiaCubeQuark1" "quarks");
  ("AmbrosiaLuckQuark1", fun g => berry_bonus g "ambrosiaLuckQuark1" "quarks");
  ("AmbrosiaQuarks2", fun g => berry_bonus g "ambrosiaQuarks2" "quarks");
  ("CashGrabQuarkBonus", fun g => calc g "calculateCashGrabQuarkBonus()");
  ("LimitedTimeChallenge", fun g => field g "player.singularityChallenges.limitedTime.rewards.quarkMult");
  ("SadisticPrequel", fun g => field g "player.singularityChallenges.sadisticPrequel.rewards.quarkMult");
  ("FirstSingularityBonus", fun g => if Qeq_bool (field g "player.highestSingularityCount") 0 then 1.25 else 1);
  ("Event", fun g =>
     if flag g "G.isEvent"
     then 1 + calc g "calculateEventBuff(BuffType.Quark)" + calc g "calculateEventBuff(BuffType.OneMind)"
     else 1);
  ("PatreonBonus", fun g => 1 + calc g "getQuarkBonus()" / 100)
].

(** [allBaseObtainiumStats], lines 1176-1201 *)
Definition allBaseObtainiumStats_stats : Formulas Game := [
  ("Base", fun _ => 1);
  ("Achievement51", fun g => if_pos (achievement g 51) 4 0);
  ("Research3x13", fun g => researches g 63);
  ("Research3x14", fun g => 2 * researches g 64);
  ("FirstSingularity", fun g => if_pos (field g "player.highestSingularityCount") 3 0);
  ("SingularityCount", fun g => floorQ (field g "player.singularityCount" / 10))
].

(** [allObtainiumIgnoreDRCapStats], lines 1203-1259 *)
Definition allObtainiumIgnoreDRCapStats_stats : Formulas Game := [
  ("Base", fun g => calc g "calculateBaseObtainium()");
  ("CubeUpgrade4x2", fun g => 1 + (4 / 100) * cube_upg g 42);
  ("CubeUpgrade4x3", fun g => 1 + (3 / 100) * cube_upg g 43);
  ("PlatonicALPHA", fun g => 1 + platonicUpgrades g 5);
  ("PlatonicUpgrade9", fun g => 1 + 1.5 * platonicUpgrades g 9);
  ("PlatonicBETA", fun g => 1 + 2.5 * platonicUpgrades g 10);
  ("PlatonicOMEGA", fun g => 1 + 5 * platonicUpgrades g 15);
  ("CubeUpgradeCx5", fun g => 1 + cube_upg g 55 / 100);
  ("CubeUpgradeCx12", cube_cx12);
  ("CubeUpgradeCx21", fun g => talisman_power g 71);
  ("EXALTBonus", fun g => calc g "calculateEXALTBonusMult()");
  ("Exalt6Penalty", exalt6_called);
  ("Event", fun g => 1 + calc g "calculateEventBuff(BuffType.Obtainium)")
].

(** The [ReincarnationUpgrade12] closure: [slice(6, 11)] is the five
    completions of challenges 6 to 10. *)
Definition reincarnation_upgrade12 (g : Game) : Q :=
  if_pos (upgrades g 72)
    (Qmin 50 (1 + 2 * sumContents (take (11 - 6) (drop 6 (field_arr g "player.challengecompletions"))))) 1.

(** [allObtainiumStats], lines 1261-1497 *)
Definition allObtainiumStats_stats : Formulas Game := [
  ("Base", fun g => calc g "calculateBaseObtainium()");
  ("TranscendShards", fun g => Math_pow (Decimal_log (field g "player.transcendShards" + 1) 10 / 300) 2);
  ("ReincarnationUpgrade9", fun g =>
     if_pos (upgrades g 69)
       (Qmin 10 (Decimal_pow (Decimal_log (field g "G.reincarnationPointGain" + 10) 10) 0.5)) 1);
  ("ReincarnationUpgrade12", reincarnation_upgrade12);
  ("ReincarnationUpgrade14", fun g =>
     if_pos (upgrades g 74) (1 + 4 * Qmin 1 (Math_pow (field g "player.maxofferings" / 100000) 0.5)) 1);
  ("Research3x15", fun g => 1 + researches g 65 / 5);
  ("Research4x1", fun g => 1 + researches g 76 / 10);
  ("Research4x6", fun g => 1 + researches g 81 / 10);
  ("ShopObtainiumAuto", fun g => 1 + field g "player.shopUpgrades.obtainiumAuto" / 50);
  ("ShopCashGrab", fun g => 1 + field g "player.shopUpgrades.cashGrab" / 100);
  ("ShopObtainiumEX", fun g => 1 + field g "player.shopUpgrades.obtainiumEX" / 25);
  ("Rune5", fun g =>
     1 + (field g "G.rune5level" / 200) * effectiveLevelMult g
         * (1 + (researches g 84 / 200)
                * (1 + field_at g "G.effectiveRuneSpiritPower" 5
                       * field g "player.corruptions.used.totalCorruptionDifficultyMultiplier")));
  ("ChallengeAchievements", fun g =>
     1 + 0.01 * achievement g 84 + 0.03 * achievement g 91 + 0.05 * achievement g 98
     + 0.07 * achievement g 105 + 0.09 * achievement g 112 + 0.11 * achievement g 119
     + 0.13 * achievement g 126 + 0.15 * achievement g 133 + 0.17 * achievement g 140
     + 0.19 * achievement g 147);
  ("Ant10", fun g => 1 + 2 * Math_pow ((field_at g "player.antUpgrades" (10 - 1) + field g "G.bonusant10") / 50) (2 / 3));
  ("Achievement53", fun g => if_pos (achievement g 53) (1 + field g "G.runeSum" / 800) 1);
  ("Achievement128", fun g => if_pos (achievement g 128) 1.5 1);
  ("Achievement129", fun g => if_pos (achievement g 129) 1.25 1);
  ("Achievement188", fun g => if_pos (achievement g 188) (1 + Qmin 2 (ascension_count g / 5e6)) 1);
  ("Achievement250_251", fun g => 1 + 0.6 * achievement g 250 + achievement g 251);
  ("CubeBonus", fun g => cubeBonusMultiplier g 5);
  ("ConstantUpgrade4", fun g => 1 + 0.04 * field_at g "player.constantUpgrades" 4);
  ("CubeUpgrade1x3", fun g => 1 + 0.1 * cube_upg g 3);
  ("CubeUpgrade4x7", fun g => 1 + 0.1 * cube_upg g 47);
  ("TutorialBonus", fun g => field g "player.campaigns.tutorialBonus.obtainiumBonus");
  ("CampaignBonus", fun g => field g "player.campaigns.obtainiumBonus");
  ("Challenge12", fun g => 1 + 0.5 * CalcECC "ascension" (ccomp g 12));
  ("SpiritPower", fun g =>
     1 + field g "player.corruptions.used.totalCorruptionDifficultyMultiplier"
         * field_at g "G.effectiveRuneSpiritPower" 4);
  ("Research6x19", fun g =>
     1 + ((0.03 * Math_log (field g "player.uncommonFragments" + 1)) / Math_log 4) * researches g 144);
  ("PlatonicALPHA", fun g => 1 + platonicUpgrades g 5);
  ("PlatonicUpgrade9", fun g => 1 + 1.5 * platonicUpgrades g 9);
  ("PlatonicBETA", fun g => 1 + 2.5 * platonicUpgrades g 10);
  ("PlatonicOMEGA", fun g => 1 + 5 * platonicUpgrades g 15);
  ("CubeUpgrade5x10", fun g => 1 + 0.0002 * cube_upg g 50);
  ("StarterPack", starter_pack5);
  ("SingObtainium1", fun g => sing_bonus g "singObtainium1");
  ("SingObtainium2", fun g => sing_bonus g "singObtainium2");
  ("SingObtainium3", fun g => sing_bonus g "singObtainium3");
  ("SingCitadel", fun g => sing_bonus g "singCitadel");
  ("SingCitadel2", fun g => sing_bonus g "singCitadel2");
  ("CubeUpgradeCx5", fun g => 1 + cube_upg g 55 / 100);
  ("CubeUpgradeCx12", cube_cx12);
  ("CubeUpgradeCx21", fun g => talisman_power g 71);
  ("ShopCashGrab2", fun g => 1 + (1 / 200) * field g "player.shopUpgrades.cashGrab2");
  ("ShopObtainiumEX2", fun g =>
     1 + (1 / 100) * field g "player.shopUpgrades.obtainiumEX2" * field g "player.singularityCount");
  ("ShopObtainiumEX3", fun g => Math_pow 1.02 (field g "player.shopUpgrades.obtainiumEX3"));
  ("OcteractBonus", fun g => calc g "calculateTotalOcteractObtainiumBonus()");
  ("OcteractObtainium1", fun g => oct_bonus g "octeractObtainium1");
  ("AmbrosiaObtainium1", fun g => 1 + 0.001 * berry_bonus g "ambrosiaObtainium1" "obtainiumMult");
  ("EXUltraObtainium", fun g => calc g "calculateEXUltraObtainiumBonus()");
  ("EXALTBonus", fun g => calc g "calculateEXALTBonusMult()");
  ("Challenge14", fun g => if Qeq_bool (field g "player.currentChallenge.ascension") 14 then 0 else 1);
  ("SingularityDebuff", fun g => 1 / calc g "calculateSingularityDebuff('Obtainium')");
  ("Exalt6Penalty", exalt6_called);
  ("Event", fun g => 1 + calc g "calculateEventBuff(BuffType.Obtainium)")
].

(** [obtainiumDR], lines 1500-1510 *)
Definition obtainiumDR_stats : Formulas Game := [
  ("ObtainiumDR", fun g => calc g "player.corruptions.used.corruptionEffects('illiteracy')");
  ("ImmaculateObtainium", fun g => calc g "calculateObtainiumDRIgnoreCap()")
].

(** [antSacrificeRewardStats], lines 1531-1592 *)
Definition antSacrificeRewardStats_stats : Formulas Game := [
  ("AntUpgrade11", fun g =>
     1 + 2 * (1 - Math_pow 2 (- (field_at g "player.antUpgrades" (11 - 1) + field g "G.bonusant11") / 125)));
  ("Research103", fun g => 1 + researches g 103 / 20);
  ("Research104", fun g => 1 + researches g 104 / 20);
  ("Achievement132", fun g => if Qeq_bool (achievement g 132) 1 then 1.25 else 1);
  ("Achievement137", fun g => if Qeq_bool (achievement g 137) 1 then 1.25 else 1);
  ("RuneBlessing", fun g => 1 + (20 / 3) * field_at g "G.effectiveRuneBlessingPower" 3);
  ("Challenge10", fun g => 1 + (1 / 50) * CalcECC "reincarnation" (ccomp g 10));
  ("Research122", fun g => 1 + (1 / 50) * researches g 122);
  ("Research133", fun g => 1 + (3 / 100) * researches g 133);
  ("Research163", fun g => 1 + (2 / 100) * researches g 163);
  ("Research193", fun g => 1 + (1 / 100) * researches g 193);
  ("ParticleUpgrade4x4", fun g => 1 + (1 / 10) * upgrades g 79);
  ("AcceleratorBoostUpgrade", fun g => 1 + (1 / 4) * upgrades g 40);
  ("CubeBlessingAres", fun g => cubeBonusMultiplier g 7);
  ("Event", fun g => 1 + calc g "calculateEventBuff(BuffType.AntSacrifice)")
].

End Resources.
