(* ===== verification/CatalogProvider.v ===== *)
(** * The catalogs with their closures

    [Catalog.v] keeps each catalog line's key, colour and accuracy and
    reads its formula from the class [StateProvider]; [CubeFormulas.v] and
    [ResourceFormulas.v] translate the closures.  This file builds the
    provider of those closures, [catalog_provider], the lookup [stat_of]
    of a closure by its key, and the lemmas that match the lines of a
    catalog with the table of its closures, which [CatalogPage.v] uses. *)

From S2P Require Import Prelude Catalog FormulaPanels CubeFormulas ResourceFormulas.
From Stdlib Require Import QArith Qround Qminmax.
Local Close Scope Q_scope.

(** The arrays of [Statistics.ts], by the constructor that names them. *)
Definition catalog_lines {Game} `{!StateProvider Game} (c : CatalogId) : list (StatLine Game) :=
  match c with
  | CubeCat => allCubeStats | WowCubeCat => allWowCubeStats
  | TesseractCat => allTesseractStats | HypercubeCat => allHypercubeStats
  | PlatonicCat => allPlatonicCubeStats | HepteractCat => allHepteractCubeStats
  | OcteractCat => allOcteractCubeStats | BaseOfferingCat => allBaseOfferingStats
  | OfferingCat => allOfferingStats | QuarkCat => allQuarkStats
  | BaseObtainiumCat => allBaseObtainiumStats
  | ObtainiumIgnoreDRCat => allObtainiumIgnoreDRCapStats
  | ObtainiumCat => allObtainiumStats | ObtainiumDRCat => obtainiumDR
  | AntSacrificeCat => antSacrificeRewardStats
  end.

Section Provider.
Context {Game : Type} `{!FormulaEnv Game} `{!CatalogEnv Game}.
Local Open Scope Q_scope.

(** The translated closures of each array. *)
Definition catalog_stats (c : CatalogId) : Formulas Game :=
  match c with
  | CubeCat => allCubeStats_stats | WowCubeCat => allWowCubeStats_stats
  | TesseractCat => allTesseractStats_stats | HypercubeCat => allHypercubeStats_stats
  | PlatonicCat => allPlatonicCubeStats_stats | HepteractCat => allHepteractCubeStats_stats
  | OcteractCat => allOcteractCubeStats_stats | BaseOfferingCat => allBaseOfferingStats_stats
  | OfferingCat => allOfferingStats_stats | QuarkCat => allQuarkStats_stats
  | BaseObtainiumCat => allBaseObtainiumStats_stats
  | ObtainiumIgnoreDRCat => allObtainiumIgnoreDRCapStats_stats
  | ObtainiumCat => allObtainiumStats_stats | ObtainiumDRCat => obtainiumDR_stats
  | AntSacrificeCat => antSacrificeRewardStats_stats
  end.

(** The closure of the line [key] of a table (the first line with that key). *)
Fixpoint stat_of (key : string) (fs : Formulas Game) : Game -> Q :=
  match fs with
  | [] => fun _ => 0
  | (k, f) :: fs' => if decide (k = key) then f else stat_of key fs'
  end.

(** The provider of the closures, and of the reads of the time modifiers:
    [resetTimeThreshold()], [halfMind.getEffect().bonus],
    [calculateTimeAcceleration().mult], [player.achievements[177] === 0]
    and [player.antSacrificeTimer]. *)
Definition catalog_provider : StateProvider Game := {|
  catalogFormula c key := stat_of key (catalog_stats c);
  Catalog.resetTimeThreshold g := calc g "resetTimeThreshold()";
  halfMindBonus g := flag g "player.singularityUpgrades.halfMind.getEffect().bonus";
  timeAccelerationMult g := calc g "calculateTimeAcceleration().mult";
  achievement177 g := if Qeq_bool (achievement g 177) 0 then 0%Z else 1%Z;
  antSacrificeTimer g := field g "player.antSacrificeTimer"
|}.

End Provider.

(** ** Lemmas *)

Section Tables.
Context {Game : Type}.

(** In a table whose keys are distinct, [stat_of] finds each line's closure. *)
Lemma stat_of_in `{!FormulaEnv Game} `{!CatalogEnv Game} (fs : Formulas Game) k f :
  NoDup fs.*1 -> (k, f) ∈ fs -> stat_of k fs = f.
Proof.
  induction fs as [|[k' f'] fs IH]; simpl; [set_solver|].
  intros Hnd Hin. apply NoDup_cons in Hnd as [Hk Hnd].
  apply elem_of_cons in Hin as [Heq|Hin].
  - simplify_eq. by rewrite decide_True.
  - rewrite decide_False; [by apply IH|]. intros ->. apply Hk.
    apply list_elem_of_fmap. by exists (k, f).
Qed.

(** Lines that read their formula from [F] by key, against a table with
    the same keys in the same order, whose closures [F] returns. *)
Lemma lines_match_table (lines : list (StatLine Game)) (fs : list (string * (Game -> Q)))
    (F : string -> Game -> Q) g :
  Forall (fun l => stat l = F (i18n l)) lines -> map i18n lines = fs.*1 ->
  (forall k f, (k, f) ∈ fs -> F k = f) ->
  map (fun l : StatLine Game => (i18n l, stat l g)) lines = map (fun p : string * (Game -> Q) => (p.1, p.2 g)) fs.
Proof.
  revert fs. induction lines as [|l lines IH]; intros [|[k f] fs]; simpl; try discriminate; [done|].
  intros Hall Hkeys HF. apply Forall_cons in Hall as [Hl Hall]. injection Hkeys as Hk Hkeys.
  rewrite Hl, Hk, (HF k f) by set_solver. f_equal. apply IH; [done|done|].
  intros k' f' Hin. apply HF. set_solver.
Qed.

(** Every catalog line is [line c key colour accuracy]: its formula is the
    provider's formula of its key. *)
Lemma catalog_lines_read `{!StateProvider Game} c :
  Forall (fun l => stat l = catalogFormula c (i18n l)) (catalog_lines c).
Proof. destruct c; repeat constructor. Qed.

End Tables.

