(* ===== verification/CatalogPage.v ===== *)
(** * The catalog panels on the page

    The composition of [CatalogProvider.v] with [Loaders.v] and
    [Render.v]: which loader of [Statistics.ts] (lines 2101-2252) renders
    which catalog array, and that on the first render each value node of a
    catalog panel shows the formatted value of the closure written under
    that key in the source array. *)

From S2P Require Import Prelude Dom Format Catalog Render Loaders FormulaPanels CubeFormulas ResourceFormulas CatalogProvider.
From Stdlib Require Import QArith.
Local Close Scope Q_scope.

Section Calls.
Context {Game : Type} `{!StateProvider Game} `{!LoaderEnv Game} `{!NumberFormat} `{!I18n}.

(** The [loadStatistics] call that renders each catalog array: the array
    [obtainiumDR] is the head of the second call of
    [loadStatisticsObtainiumMultipliers]. *)
Definition catalog_call (g : Game) (cat : CatalogId) : PanelCall Game :=
  match cat with
  | CubeCat => cube_call | WowCubeCat => wowcube_call
  | TesseractCat => tesseract_call | HypercubeCat => hypercube_call
  | PlatonicCat => platonic_call | HepteractCat => hepteract_call
  | OcteractCat => octeract_call | BaseOfferingCat => offeringBase_call
  | OfferingCat => offering_call | QuarkCat => quark_call
  | BaseObtainiumCat => obtainiumBase_call
  | ObtainiumIgnoreDRCat => obtainiumIgnoreDR_call
  | ObtainiumCat => obtainium_call | ObtainiumDRCat => obtainiumTime_call g
  | AntSacrificeCat => antSacrifice_call
  end.

(** The call of a catalog is one of the module's calls. *)
Lemma catalog_call_in (g : Game) cat : catalog_call g cat ∈ all_calls g.
Proof.
  destruct cat; simpl; unfold all_calls;
    repeat first [apply list_elem_of_here | apply list_elem_of_further].
Qed.

End Calls.

(** Stdlib's [map] looked up at an index. *)
Lemma map_lookup {A B} (h : A -> B) (l : list A) i : map h l !! i = h <$> l !! i.
Proof. revert i. induction l as [|x l IH]; intros [|i]; simpl; auto. Qed.

Section Page.
Context {Game : Type} `{!FormulaEnv Game} `{!CatalogEnv Game} `{!LoaderEnv Game}
  `{!NumberFormat} `{!I18n}.
#[local] Existing Instance catalog_provider.

(** C17. Under [catalog_provider], the loader call of a catalog array, run
    on a page where its panel is attached and none of its rows exists yet,
    succeeds, and for every position [i] of the array, the value node
    [prefix ++ "N" ++ key] of the key [key] written at [i] in the source
    shows [format(f(), accuracy, true)], where [f] is the closure written
    at [i] under [key] and [accuracy] the line's: the page shows, line by
    line, the source's closures evaluated on the current game state. *)
Theorem catalog_page_values (g : Game) cat d p ep0 heap0 cache0 :
  heap0 !! p = Some ep0 -> el_attached ep0 = true ->
  DOMCacheGetOrSet (pc_parent (catalog_call g cat)) d = Ok (p, mkDom heap0 cache0) ->
  classCount (mkDom heap0 cache0) (pc_class (catalog_call g cat)) = 0 ->
  (forall id, id ∈ call_ids (catalog_call g cat) ->
     cache0 !! id = None /\ getElementById (mkDom heap0 cache0) id = None) ->
  exists d', run_call g (catalog_call g cat) d = Ok (tt, d') /\
    forall i l key f, catalog_lines cat !! i = Some l -> catalog_stats cat !! i = Some (key, f) ->
      value_written d' (pc_prefix (catalog_call g cat) +:+ "N" +:+ key)
                    (formatNum (JsNumber (f g)) (default 2%nat (acc l)) true).
Proof.
  intros Hp Hatt Hpar Hcount Hfr.
  assert (Hpre : exists rest, pc_objs (catalog_call g cat) = catalog_lines cat ++ rest)
    by (destruct cat; simpl; first [exists []; by rewrite app_nil_r | eexists; reflexivity]).
  assert (Hk : map i18n (catalog_lines cat) = (catalog_stats cat).*1)
    by (destruct cat; vm_compute; reflexivity).
  assert (Hnd : NoDup (catalog_stats cat).*1)
    by (destruct cat; refine (bool_decide_unpack _ _); vm_compute; exact I).
  pose proof (lines_match_table (catalog_lines cat) (catalog_stats cat)
    (fun k => stat_of k (catalog_stats cat)) g (catalog_lines_read cat) Hk
    (fun k f Hin => stat_of_in _ k f Hnd Hin)) as Htab.
  destruct (call_ok_spec (catalog_call g cat)) as (Hndc & Hsp & _ & _ & Hne).
  { pose proof (all_calls_ok g) as Hall. rewrite Forall_forall in Hall.
    apply Hall, catalog_call_in. }
  eexists. split; [unfold run_call; eapply first_render_run; eassumption|].
  destruct (first_render_rendered g _ _ _ (pc_total (catalog_call g cat))
    (pc_summative (catalog_call g cat)) _ _ _ _ Hp Hatt Hsp d _ Hpar Hne Hndc)
    as (_ & _ & Hvals & _); [intros id Hid; by apply Hfr|].
  intros i l key f Hl Hf.
  assert (Hi : (i18n l, stat l g) = (key, f g)).
  { apply (f_equal (.!! i)) in Htab. rewrite !map_lookup in Htab. unfold Formulas in Hf. rewrite Hl, Hf in Htab.
    by injection Htab as -> ->. }
  injection Hi as <- Hs. destruct Hpre as [rest Hrest].
  specialize (Hvals l). unfold value_id, value_text in Hvals. rewrite Hs in Hvals.
  apply Hvals. rewrite Hrest. apply elem_of_app. left. by eapply list_elem_of_lookup_2.
Qed.

End Page.

Section UnitPage.
#[local] Existing Instances unit_formulas unit_catalog unit_env scenario_i18n catalog_provider.

Lemma catalog_page_values_witness :
  exists d', run_call tt (catalog_call tt CubeCat) scenario_dom = Ok (tt, d') /\
    forall i l key f, catalog_lines CubeCat !! i = Some l ->
      catalog_stats CubeCat !! i = Some (key, f) ->
      value_written d' ("statGCM" +:+ "N" +:+ key)
                    (formatNum (JsNumber (f tt)) (default 2%nat (acc l)) true).
Proof.
  apply (catalog_page_values tt CubeCat scenario_dom 1 scenario_panel
           [scenario_body; scenario_panel] (<["globalCubeMultiplierStats" := 1%nat]> ∅));
    try reflexivity.
  intros id Hid. revert id Hid. apply Forall_forall.
  refine (bool_decide_unpack _ _). vm_compute. exact I.
Defined.
End UnitPage.
