(* ===== verification/AddCode.v ===== *)
(** * The add-code panel: [loadAddCodeModifiersAndEffects]

    [loadAddCodeModifiersAndEffects] (lines 2360-2498) reads four values of
    the add-code module ([addCodeInterval], [addCodeMaxUses],
    [addCodeAvailableUses], [addCodeTimeToNextUse]) and renders three
    parts, which the model keeps apart:
    - the interval breakdown (lines 2366-2413): [intervalStats.list[0]] is
      divided by 1000 in place (milliseconds to seconds), then an index
      loop over [intervalMap] writes each row, the first with the suffix
      [" sec"] and the others with the prefix ["x"]; then the total, and
      the [s+next] line, emptied when every use is available;
    - the capacity breakdown (lines 2415-2448): an index loop over
      [capacityMap] that sets the row's colour before its label and
      prefixes the value with [""] (first row), ["x"] (rows 6 and 8) or
      ["+"]; then the [available / total] line;
    - the effects (lines 2450-2497): four labelled lines, the first a range
      [min ~ max] when the two quark bounds differ by at least 0.5.
    The row loops are [breakdown_rows] of [Breakdown.v] with their own
    value text; the interval array is never empty ([intervalStats.list[0]]
    is read unconditionally), which the environment's type records. *)

From S2P Require Import Prelude Dom Format Breakdown FormulaPanels.
From Stdlib Require Import QArith Qabs.
Local Close Scope Q_scope.

(** [addCodeBonuses()], the fields the panel reads *)
Record AddEffects : Type := mkAddEffects {
  minQuarks : Q;
  maxQuarks : Q;
  quarks : Q;
  ascensionTimer : Q;
  gqTimer : Q;
  octeractTime : Q
}.

Class AddCodeEnv (Game : Type) : Type := {
  (** [addCodeInterval()]: [list] (its first element, in milliseconds, and
      the rest) and [time] *)
  addCodeInterval : Game -> (Q * list Q) * Q;
  (** [addCodeMaxUses()]: [list] and [total] *)
  addCodeMaxUses : Game -> list Q * Q;
  addCodeAvailableUses : Game -> Q;
  addCodeTimeToNextUse : Game -> Q;
  addCodeBonuses : Game -> AddEffects;
  (** [player.worlds.applyBonus(x)] *)
  applyBonus : Game -> Q -> Q
}.

(** [intervalMap] *)
Definition intervalMap : gmap nat Descr := descr_table [
  (1, descr 0 "Base:"); (2, descr 2 "PL-AT δ calculator:"); (3, descr 2 "PL-AT Σ sing perk:");
  (4, descr 2 "Ascension of Ant God:"); (5, descr 2 "Singularity factor:")].

(** [capacityMap] *)
Definition capacityMap : gmap nat Descr := descr_table [
  (1, descr 0 "Base:"); (2, descr 0 "PL-AT X:"); (3, descr 0 "PL-AT δ:"); (4, descr 0 "PL-AT Γ:");
  (5, descr 0 "PL-AT _:"); (6, descr 0 "PL-AT ΩΩ"); (7, descr 3 "Singularity factor:");
  (8, mkDescr 0 "Plat-P:" (Some "gold"))].

(** The value text of interval row [i]: [`${...} sec`] for [i === 0],
    [`x${...}`] otherwise. *)
Definition interval_deco (i : nat) (s : string) : string :=
  if decide (i = 0%nat) then s +:+ " sec" else "x" +:+ s.

(** [const prefix = i === 0 ? '' : (i === 5 || i === 7) ? 'x' : '+'] *)
Definition capacity_prefix (i : nat) : string :=
  if decide (i = 0%nat) then "" else if decide (i = 5%nat \/ i = 7%nat) then "x" else "+".

Definition capacity_deco (i : nat) (s : string) : string := capacity_prefix i +:+ s.

(** [intervalStats.list[0] /= 1000] *)
Definition interval_seconds (l : Q * list Q) : list Q := (l.1 / 1000)%Q :: l.2.

Section Panel.
Context {Game : Type} `{!AddCodeEnv Game} `{!NumberFormat}.

(** The text of [s+next]: [`+1 in ${format(timeToNext, 1)} sec`] while a
    use is missing, [''] when [availableCount === capacityStats.total]. *)
Definition next_use_text (g : Game) : string :=
  if negb (Qeq_bool (addCodeAvailableUses g) (addCodeMaxUses g).2)
  then "+1 in " +:+ fmt (addCodeTimeToNextUse g) 1 false +:+ " sec"
  else "".

(** Lines 2361-2413: the interval rows, their total and [s+next]. *)
Definition interval_part (g : Game) : St Dom unit :=
  let '(l, time) := addCodeInterval g in
  breakdown_rows NoColor "stat+time" "s+time" interval_deco intervalMap 0
    (JsNumber <$> interval_seconds l) ;;
  writes [("s+timeT", fmt (time / 1000) 1 false +:+ " sec"); ("s+next", next_use_text g)].

(** Lines 2416-2448: the capacity rows and [s+capT]. *)
Definition capacity_part (g : Game) : St Dom unit :=
  let '(l, total) := addCodeMaxUses g in
  breakdown_rows ColorBeforeLabel "stat+cap" "s+cap" capacity_deco capacityMap 0 (JsNumber <$> l) ;;
  write_text "s+capT" (fmt (addCodeAvailableUses g) 0 false +:+ " / " +:+ fmt total 0 false).

(** [DOMCacheGetOrSet(id).childNodes[0].textContent = s] *)
Definition write_label (id s : string) : St Dom unit :=
  h <- DOMCacheGetOrSet id ;; setFirstChildText h s.

(** The text of [s+eff1]: a range when the bounds differ by at least 0.5. *)
Definition quark_effect_text (g : Game) : string :=
  let e := addCodeBonuses g in
  let qbr := applyBonus g 1 in
  if Qle_bool (1 # 2) (Qabs (maxQuarks e - minQuarks e))
  then "+" +:+ fmt (qbr * minQuarks e) 3 false +:+ " ~ " +:+ fmt (qbr * maxQuarks e) 3 false
  else "+" +:+ fmt (qbr * quarks e) 3 false.

(** Lines 2450-2497: the four effect lines. *)
Definition effects_part (g : Game) : St Dom unit :=
  let e := addCodeBonuses g in
  write_label "stat+eff1" "Quarks: " ;;
  write_text "s+eff1" (quark_effect_text g) ;;
  write_label "stat+eff2" "PL-AT X - bonus ascension time: " ;;
  write_text "s+eff2" ("+" +:+ fmt (ascensionTimer e) 2 false +:+ " sec") ;;
  write_label "stat+eff3" "PL-AT Γ - bonus GQ export time: " ;;
  write_text "s+eff3" ("+" +:+ fmt (gqTimer e) 2 false +:+ " sec") ;;
  write_label "stat+eff4" "PL-AT _ - bonus octeract time: " ;;
  write_text "s+eff4" ("+" +:+ fmt (octeractTime e) 2 false +:+ " sec").

(** [loadAddCodeModifiersAndEffects()] *)
Definition loadAddCodeModifiersAndEffects (g : Game) : St Dom unit :=
  interval_part g ;; capacity_part g ;; effects_part g.
End Panel.

(** A page with two interval rows (lines at handles 2 and 4, values at 3
    and 5), [s+timeT] at handle 0 and [s+next] at handle 1. *)
Definition addcode_page : Dom :=
  let p := breakdown_page "stat+time" "s+time" "s+timeT" 2 in
  mkDom (heap p) (<["s+next" := 1%nat]> (dom_cache p)).

Definition zero_effects : AddEffects := mkAddEffects 0 0 0 0 0 0.

(** Every use available: a 5 s base interval and one factor. *)
Definition full_addcode : AddCodeEnv unit :=
  {| addCodeInterval := fun _ => ((5000, [3 # 2]), 7500)%Q; addCodeMaxUses := fun _ => ([1; 1], 2)%Q;
     addCodeAvailableUses := fun _ => 2%Q; addCodeTimeToNextUse := fun _ => 30%Q;
     addCodeBonuses := fun _ => zero_effects; applyBonus := fun _ q => q |}.

(** Six interval factors and nine capacity factors. *)
Definition long_addcode : AddCodeEnv unit :=
  {| addCodeInterval := fun _ => ((5000, repeat 1 5), 7500)%Q; addCodeMaxUses := fun _ => (repeat 1 9, 9)%Q;
     addCodeAvailableUses := fun _ => 2%Q; addCodeTimeToNextUse := fun _ => 30%Q;
     addCodeBonuses := fun _ => zero_effects; applyBonus := fun _ q => q |}.

(** ** Lemmas *)

Lemma intervalMap_covers : Forall (fun k => is_Some (intervalMap !! k)) (seq 1 5).
Proof. refine (bool_decide_unpack _ _). vm_compute. exact I. Qed.

Lemma capacityMap_covers : Forall (fun k => is_Some (capacityMap !! k)) (seq 1 8).
Proof. refine (bool_decide_unpack _ _). vm_compute. exact I. Qed.

(** Two fixed ids at distinct nodes, off the rows. *)
Lemma two_ids_ready d a b ha hb sa sb :
  a ≠ b -> dom_cache d !! a = Some ha -> dom_cache d !! b = Some hb -> ha ≠ hb ->
  ha < length (heap d) -> hb < length (heap d) ->
  ids_ready d (fun id => if String.eqb id a then ha else hb) [(a, sa); (b, sb)].
Proof.
  intros Hab Ha Hb Hne La Lb. apply ids_ready_check.
  - repeat constructor; simpl; rewrite ?String.eqb_refl; try (rewrite (proj2 (String.eqb_neq b a)) by congruence); auto.
  - simpl. rewrite String.eqb_refl, (proj2 (String.eqb_neq b a)) by congruence.
    repeat constructor; set_solver.
Qed.

Lemma text_node_sec s : text_node (s +:+ " sec") = Some (s +:+ " sec").
Proof.
  unfold text_node. rewrite decide_False; [done|]. intros H.
  apply (f_equal String.length) in H. rewrite string_length_app in H. simpl in H. lia.
Qed.

Section Proofs.
Context {Game : Type} `{!AddCodeEnv Game} `{!NumberFormat}.

(** C31. On a page holding the interval rows and the [s+timeT] and
    [s+next] nodes, the interval part of the add-code panel returns; the
    first row shows the base interval converted from milliseconds to
    seconds ([list[0] / 1000], zero decimals, suffix [" sec"]), every
    later row shows its factor with the prefix ["x"] and its descriptor's
    accuracy, and [s+next] is left without text exactly when every use is
    available. *)
Theorem interval_part_rows (g : Game) h0 rest time d hl hn hT hN :
  addCodeInterval g = ((h0, rest), time) -> length rest < 5 ->
  rows_ready "stat+time" "s+time" 0 (S (length rest)) hl hn d ->
  dom_cache d !! "s+timeT" = Some hT -> dom_cache d !! "s+next" = Some hN -> hT ≠ hN ->
  hT < length (heap d) -> hN < length (heap d) ->
  (forall k, k <= length rest -> hT ≠ hl (S k) /\ hT ≠ hn (S k) /\ hN ≠ hl (S k) /\ hN ≠ hn (S k)) ->
  exists d', interval_part g d = Ok (tt, d') /\
    text_at d' (hn 1) = Some (Some (fmt (h0 / 1000) 0 true +:+ " sec")) /\
    (forall k v dsc, rest !! k = Some v -> intervalMap !! S (S k) = Some dsc ->
       text_at d' (hn (S (S k))) = Some (text_node ("x" +:+ fmt v (d_acc dsc) true))) /\
    text_at d' hN = Some (if Qeq_bool (addCodeAvailableUses g) (addCodeMaxUses g).2 then None
                          else Some ("+1 in " +:+ fmt (addCodeTimeToNextUse g) 1 false +:+ " sec")).
Proof.
  intros Hcalc Hlen Hr HT HN Hne LT LN Hsep. unfold interval_part. rewrite Hcalc.
  set (ws := [("s+timeT", fmt (time / 1000) 1 false +:+ " sec"); ("s+next", next_use_text g)]).
  destruct (rows_then_writes NoColor "stat+time" "s+time" interval_deco intervalMap
              (JsNumber <$> interval_seconds (h0, rest)) ws
              (fun id => if String.eqb id "s+timeT" then hT else hN) d hl hn)
    as (d' & R & _ & W & Ww); rewrite ?length_fmap; simpl length.
  - eapply covers_seq; [apply intervalMap_covers|lia].
  - done.
  - refine (bool_decide_unpack _ _). vm_compute. exact I.
  - by apply two_ids_ready.
  - intros id k Hid Hk. unfold ws in Hid. simpl in Hid.
    apply elem_of_cons in Hid as [->|Hid]; [|apply list_elem_of_singleton in Hid as ->];
      simpl; destruct (Hsep k ltac:(lia)) as (? & ? & ? & ?); auto.
  - exists d'. split; [done|]. split_and!.
    + destruct (W 0 (JsNumber (h0 / 1000)) (descr 0 "Base:")) as [_ E]; [done..|]. rewrite E.
      unfold interval_deco. simpl. by rewrite text_node_sec.
    + intros k v dsc Hk Hd. destruct (W (S k) (JsNumber v) dsc) as [_ E]; [by rewrite list_lookup_fmap; simpl; rewrite Hk|done|].
      rewrite E. unfold interval_deco. by rewrite decide_False.
    + pose proof (Ww "s+next" (next_use_text g) ltac:(unfold ws; set_solver)) as E. simpl in E.
      rewrite E. unfold next_use_text. destruct (Qeq_bool _ _); simpl; [done|].
      unfold text_node. rewrite decide_False; [done|]. discriminate.
Qed.

(** C32. The two row loops index their descriptor tables without a bound:
    an interval array longer than [intervalMap] (5 entries) or a capacity
    array longer than [capacityMap] (8 entries) ends its part in a thrown
    [TypeError], whatever the page holds, and a too long interval array
    makes the whole panel throw before the capacity part runs. *)
Theorem addCode_too_long_throws (g : Game) d :
  (5 < S (length (addCodeInterval g).1.2) ->
   (exists e d', interval_part g d = Throw e d') /\
   (exists e d', loadAddCodeModifiersAndEffects g d = Throw e d')) /\
  (8 < length (addCodeMaxUses g).1 -> exists e d', capacity_part g d = Throw e d').
Proof.
  unfold loadAddCodeModifiersAndEffects, interval_part, capacity_part.
  destruct (addCodeInterval g) as [[h0 rest] time], (addCodeMaxUses g) as [l total]. simpl.
  split.
  - intros Hlen.
    destruct (breakdown_rows_throw NoColor "stat+time" "s+time" interval_deco intervalMap
                (JsNumber <$> interval_seconds (h0, rest)) 0 d 5) as (e & d' & E);
      [rewrite length_fmap; simpl; lia | reflexivity |].
    split; exists e, d'; [apply st_bind_Throw, E | apply st_bind_Throw, st_bind_Throw, E].
  - intros Hlen. apply throw_then. eapply (breakdown_rows_throw _ _ _ _ _ _ 0 d 8); [|reflexivity].
    rewrite length_fmap. lia.
Qed.
End Proofs.

Section FullRun.
#[local] Existing Instances synergism_format full_addcode.

Lemma interval_part_rows_witness :
  exists d', interval_part tt addcode_page = Ok (tt, d') /\
    text_at d' 3 = Some (Some (fmt (5000 / 1000)%Q 0 true +:+ " sec")) /\
    (forall k v dsc, [(3 # 2)%Q] !! k = Some v -> intervalMap !! S (S k) = Some dsc ->
       text_at d' (S (2 * S (S k))) = Some (text_node ("x" +:+ fmt v (d_acc dsc) true))) /\
    text_at d' 1 = Some (if Qeq_bool (addCodeAvailableUses tt) (addCodeMaxUses tt).2 then None
                         else Some ("+1 in " +:+ fmt (addCodeTimeToNextUse tt) 1 false +:+ " sec")).
Proof.
  apply (interval_part_rows tt 5000%Q [(3 # 2)%Q] 7500%Q addcode_page (fun k => 2 * k) (fun k => S (2 * k)) 0 1);
    [reflexivity | simpl; lia | | reflexivity | reflexivity | lia | vm_compute; lia | vm_compute; lia | intros; lia].
  split.
  - intros k Hk. simpl in Hk. destruct k as [|[|k]]; [solve_row_ready..|lia].
  - intros j k Hj Hk. split; [lia|]. intros Hne. split; lia.
Defined.
End FullRun.

Section LongRun.
#[local] Existing Instances synergism_format long_addcode.

Lemma addCode_too_long_throws_witness :
  ((exists e d', interval_part tt addcode_page = Throw e d') /\
   (exists e d', loadAddCodeModifiersAndEffects tt addcode_page = Throw e d')) /\
  (exists e d', capacity_part tt addcode_page = Throw e d').
Proof.
  destruct (addCode_too_long_throws tt addcode_page) as [H1 H2].
  split; [apply H1|apply H2]; vm_compute; lia.
Defined.
End LongRun.
