(* ===== verification/Dispatch.v ===== *)
(** * The tab switcher and the dispatcher

    [associated] (lines 1613-1638), the table from a tab button's id to its
    panel's id; [displayStats] (lines 1640-1653), which shows the panel of
    the clicked tab and hides the others; [loadStatisticsUpdate] (lines
    1655-1735), which runs the loader of every panel carrying the class
    [activeStats]; and [loadStatisticsMiscellaneous] (lines 1799-1864), the
    fixed-id panel whose last line is [synergismStage(0)].  The switch of
    [loadStatisticsUpdate] is [panel_of_id] onto the closed enumeration
    [Panel]; the loaders of the formula panels and of the add-code panel
    come from [FormulaPanels.v] and [AddCode.v].  The
    collection [document.getElementsByClassName('activeStats')] is read
    once: no loader adds or removes that class or attaches an element that
    carries it. *)

From S2P Require Import Prelude Dom Format Catalog Render Stages Loaders Breakdown FormulaPanels AddCode.
From Stdlib Require Import QArith.
Local Close Scope Q_scope.

(** The panels of the switch of [loadStatisticsUpdate]. *)
Inductive Panel : Type :=
| MiscStats | AcceleratorStats | MultiplierStats | BaseOfferingStats
| OfferingMultiplierStats | BaseObtainiumStats | ObtainiumIgnoreDRCapStats
| ObtainiumMultiplierStats | GlobalQuarkMultiplierStats | GlobalSpeedMultiplierStats
| AntSacrificeMultStats | PowderMultiplierStats | AscensionSpeedMultiplierStats
| GoldenQuarkMultiplierStats | AddCodeStats | AmbrosiaLuckStats | AmbrosiaGenerationStats
| GlobalCubeMultiplierStats | CubeMultiplierStats | TesseractMultiplierStats
| HypercubeMultiplierStats | PlatonicMultiplierStats | HepteractMultiplierStats
| OcteractMultiplierStats.

#[export] Instance Panel_eq_dec : EqDecision Panel.
Proof. solve_decision. Defined.

(** The [case] labels of the switch. *)
Definition panel_of_id (id : string) : option Panel :=
  match id with
  | "miscStats" => Some MiscStats
  | "acceleratorStats" => Some AcceleratorStats
  | "multiplierStats" => Some MultiplierStats
  | "baseOfferingStats" => Some BaseOfferingStats
  | "offeringMultiplierStats" => Some OfferingMultiplierStats
  | "baseObtainiumStats" => Some BaseObtainiumStats
  | "obtainiumIgnoreDRCapStats" => Some ObtainiumIgnoreDRCapStats
  | "obtainiumMultiplierStats" => Some ObtainiumMultiplierStats
  | "globalQuarkMultiplierStats" => Some GlobalQuarkMultiplierStats
  | "globalSpeedMultiplierStats" => Some GlobalSpeedMultiplierStats
  | "antSacrificeMultStats" => Some AntSacrificeMultStats
  | "powderMultiplierStats" => Some PowderMultiplierStats
  | "ascensionSpeedMultiplierStats" => Some AscensionSpeedMultiplierStats
  | "goldenQuarkMultiplierStats" => Some GoldenQuarkMultiplierStats
  | "addCodeStats" => Some AddCodeStats
  | "ambrosiaLuckStats" => Some AmbrosiaLuckStats
  | "ambrosiaGenerationStats" => Some AmbrosiaGenerationStats
  | "globalCubeMultiplierStats" => Some GlobalCubeMultiplierStats
  | "cubeMultiplierStats" => Some CubeMultiplierStats
  | "tesseractMultiplierStats" => Some TesseractMultiplierStats
  | "hypercubeMultiplierStats" => Some HypercubeMultiplierStats
  | "platonicMultiplierStats" => Some PlatonicMultiplierStats
  | "hepteractMultiplierStats" => Some HepteractMultiplierStats
  | "octeractMultiplierStats" => Some OcteractMultiplierStats
  | _ => None
  end.

(** [const associated = new Map<string, string>([...])] *)
Definition associated : list (string * string) := [
  ("kMisc", "miscStats"); ("kFreeAccel", "acceleratorStats");
  ("kFreeMult", "multiplierStats"); ("kBaseOffering", "baseOfferingStats");
  ("kOfferingMult", "offeringMultiplierStats"); ("kBaseObtainium", "baseObtainiumStats");
  ("kObtIgnoreDR", "obtainiumIgnoreDRCapStats"); ("kObtMult", "obtainiumMultiplierStats");
  ("kGlobalCubeMult", "globalCubeMultiplierStats"); ("kAntSacrificeMult", "antSacrificeMultStats");
  ("kQuarkMult", "globalQuarkMultiplierStats"); ("kGSpeedMult", "globalSpeedMultiplierStats");
  ("kCubeMult", "cubeMultiplierStats"); ("kTessMult", "tesseractMultiplierStats");
  ("kHypercubeMult", "hypercubeMultiplierStats"); ("kPlatMult", "platonicMultiplierStats");
  ("kHeptMult", "hepteractMultiplierStats"); ("kOrbPowderMult", "powderMultiplierStats");
  ("kOctMult", "octeractMultiplierStats"); ("kASCMult", "ascensionSpeedMultiplierStats");
  ("kGQMult", "goldenQuarkMultiplierStats"); ("kAddStats", "addCodeStats");
  ("kAmbrosiaLuck", "ambrosiaLuckStats"); ("kAmbrosiaGenMult", "ambrosiaGenerationStats")].

(** [associated.get(k)]: the first entry with key [k]. *)
Definition associated_get (k : string) : option string :=
  (fun p : nat * (string * string) => p.2.2) <$> list_find (fun kv => kv.1 = k) associated.

(** What [loadStatisticsMiscellaneous] reads of the game. *)
Class MiscEnv (Game : Type) : Type := {
  fastestprestige : Game -> Q;
  maxofferings : Game -> Q;
  runeSum : Game -> Q;
  transcendCount : Game -> Q;
  fastesttranscend : Game -> Q;
  fastestreincarnate : Game -> Q;
  maxobtainium : Game -> Q;
  maxobtainiumpersecond : Game -> Q;
  obtainiumpersecond : Game -> Q;
  ascensionCountQ : Game -> Q;
  quarksThisSingularity : Game -> Q;
  totalQuarksEver : Game -> Q;
  quarkstimer : Game -> Q;
  research195 : Game -> Q;
  formatTimeShort : Q -> string;
  stage_player : Game -> StagePlayer
}.

Section Dispatch.
Context {Game : Type} `{!NumberFormat} `{!I18n} `{!StateProvider Game} `{!LoaderEnv Game}
        `{!BreakdownEnv Game} `{!MiscEnv Game} `{!FormulaEnv Game} `{!AddCodeEnv Game}.

(** [format(x)], with the defaults of the formatter's signature. *)
Definition format0 (q : Q) : string := formatNum (JsNumber q) 0 false.

(** [loadStatisticsMiscellaneous()] *)
Definition loadStatisticsMiscellaneous (g : Game) : St Dom unit :=
  write_text "sMisc1" (formatNum (JsNumber (inject_Z (prestigeCount g))) 0 true) ;;
  write_text "sMisc2" (format0 (1000 * fastestprestige g) +:+ "ms") ;;
  write_text "sMisc3" (format0 (maxofferings g)) ;;
  write_text "sMisc4" (format0 (runeSum g)) ;;
  write_text "sMisc5" (formatNum (JsNumber (transcendCount g)) 0 true) ;;
  write_text "sMisc6" (format0 (1000 * fastesttranscend g) +:+ "ms") ;;
  write_text "sMisc7" (formatNum (JsNumber (inject_Z (reincarnationCount g))) 0 true) ;;
  write_text "sMisc8" (format0 (1000 * fastestreincarnate g) +:+ "ms") ;;
  write_text "sMisc9" (format0 (maxobtainium g)) ;;
  write_text "sMisc10" (formatNum (JsNumber (maxobtainiumpersecond g)) 2 true) ;;
  write_text "sMisc11" (formatNum (JsNumber (obtainiumpersecond g)) 2 true) ;;
  write_text "sMisc12" (formatNum (JsNumber (ascensionCountQ g)) 0 true) ;;
  write_text "sMisc13" (formatNum (JsNumber (quarksThisSingularity g)) 0 true) ;;
  write_text "sMisc14" (formatNum (JsNumber (totalQuarksEver g + quarksThisSingularity g)) 0 true) ;;
  write_text "sMisc15" (formatTimeShort (quarkstimer g) +:+ " / " +:+
                        formatTimeShort (90000 + 18000 * research195 g)) ;;
  write_text "sMisc16" (synergismStage (stage_player g) 0).

(** The body of the [switch]: the loader of a panel. *)
Definition load_panel (g : Game) (p : Panel) : St Dom unit :=
  match p with
  | MiscStats => loadStatisticsMiscellaneous g
  | AcceleratorStats => loadStatisticsAccelerator g
  | MultiplierStats => loadStatisticsMultiplier g
  | BaseOfferingStats => loadStatisticsOfferingBase g
  | OfferingMultiplierStats => loadStatisticsOfferingMultipliers g
  | BaseObtainiumStats => loadStatisticsObtainiumBase g
  | ObtainiumIgnoreDRCapStats => loadStatisticsObtainiumIgnoreDR g
  | ObtainiumMultiplierStats => loadStatisticsObtainiumMultipliers g
  | GlobalQuarkMultiplierStats => loadQuarkMultiplier g
  | GlobalSpeedMultiplierStats => loadGlobalSpeedMultiplier g
  | AntSacrificeMultStats => loadStatisticsAntSacrificeMult g
  | PowderMultiplierStats => loadPowderMultiplier g
  | AscensionSpeedMultiplierStats => loadStatisticsAscensionSpeedMultipliers g
  | GoldenQuarkMultiplierStats => loadStatisticsGoldenQuarkMultipliers g
  | AddCodeStats => loadAddCodeModifiersAndEffects g
  | AmbrosiaLuckStats => loadStatisticsAmbrosiaLuck g
  | AmbrosiaGenerationStats => loadStatisticsAmbrosiaGeneration g
  | GlobalCubeMultiplierStats => loadGlobalCubeMultiplierStats g
  | CubeMultiplierStats => loadWowCubeMultiplierStats g
  | TesseractMultiplierStats => loadTesseractMultiplierStats g
  | HypercubeMultiplierStats => loadHypercubeMultiplierStats g
  | PlatonicMultiplierStats => loadPlatonicMultiplierStats g
  | HepteractMultiplierStats => loadHepteractMultiplierStats g
  | OcteractMultiplierStats => loadOcteractMultiplierStats g
  end.

(** [document.getElementsByClassName('activeStats')]: the attached
    elements carrying the class, in document order. *)
Definition active_stats (d : Dom) : list nat :=
  (fun p => p.1) <$> filter (fun p => class_match "activeStats" p.2) (imap pair (heap d)).

(** The body of the loop of [displayStats] for the child [c] of the tab
    bar, [btnId] being the clicked tab's id. *)
Definition displayStats_one (btnId : string) (c : nat) : St Dom unit :=
  fun d =>
    match heap d !! c with
    | Some e =>
        (statsEl <- DOMCacheGetOrSet (default "undefined" (associated_get (el_id e))) ;;
         if decide (el_id e ≠ btnId) then
           setStyle c "backgroundColor" "" ;;
           setStyle statsEl "display" "none" ;;
           classListRemove statsEl "activeStats"
         else
           setStyle c "backgroundColor" "crimson" ;;
           setStyle statsEl "display" "block" ;;
           classListAdd statsEl "activeStats") d
    | None => Throw (TypeError "Cannot read properties of undefined (reading 'id')") d
    end.

(** [displayStats(btn)]: [Array.from(btn.parentElement!.children)] is a
    copy of the child list taken before the loop. *)
Definition displayStats (btn : nat) : St Dom unit :=
  fun d =>
    match heap d !! btn with
    | Some eb =>
        match el_parent eb with
        | Some p =>
            match heap d !! p with
            | Some ep => forM_ (el_children ep) (displayStats_one (el_id eb)) d
            | None => Throw (TypeError "Cannot read properties of null (reading 'children')") d
            end
        | None => Throw (TypeError "Cannot read properties of null (reading 'children')") d
        end
    | None => Throw (TypeError "Cannot read properties of undefined (reading 'parentElement')") d
    end.

(** [d'] keeps the id and the attachment of every element of [d], and the
    classes of every element outside [P]. *)
Definition keeps_except (P : nat -> Prop) (d d' : Dom) : Prop :=
  forall h, ((fun e => (el_id e, el_attached e)) <$> heap d' !! h) =
            ((fun e => (el_id e, el_attached e)) <$> heap d !! h) /\
            (~ P h -> el_classes <$> heap d' !! h = el_classes <$> heap d !! h).

(** The panel at [h] is shown and marked active, or hidden and unmarked. *)
Definition panel_state (d : Dom) (h : nat) (active : bool) : Prop :=
  exists e, heap d !! h = Some e /\ ("activeStats" ∈ el_classes e <-> active = true) /\
            el_style e !! "display" = Some (if active then "block" else "none").

(** [switch (activeStats[i].id) { case ...: load...(); break }] *)
Definition dispatch_one (g : Game) (h : nat) : St Dom unit :=
  fun d => match heap d !! h with
           | Some e => match panel_of_id (el_id e) with
                       | Some p => load_panel g p d
                       | None => Ok (tt, d)
                       end
           | None => Ok (tt, d)
           end.

(** [loadStatisticsUpdate()] *)
Definition loadStatisticsUpdate (g : Game) : St Dom unit :=
  fun d => forM_ (active_stats d) (dispatch_one g) d.
End Dispatch.

(** The tab bar's children [cs] are distinct elements whose ids
    [associated] maps to cached panels, at handles [ph c], distinct for
    distinct tabs and none of them a tab. *)
Definition tabs_ready (d : Dom) (cs : list nat) (ph : nat -> nat) : Prop :=
  NoDup cs /\
  (forall c, c ∈ cs -> exists ec pid, heap d !! c = Some ec /\ associated_get (el_id ec) = Some pid /\
     dom_cache d !! pid = Some (ph c) /\ ph c < length (heap d) /\ ph c ∉ cs) /\
  (forall c1 c2, c1 ∈ cs -> c2 ∈ cs -> ph c1 = ph c2 -> c1 = c2).

(** A tab bar with the tabs [kMisc] and [kFreeAccel] and their panels. *)
Definition tabs_dom : Dom :=
  mkDom [mkElem "div" "" [] ∅ None [1%nat; 2%nat] None true;
         mkElem "button" "kMisc" [] ∅ None [] (Some 0%nat) true;
         mkElem "button" "kFreeAccel" [] ∅ None [] (Some 0%nat) true;
         mkElem "div" "miscStats" ["activeStats"] ∅ None [] None true;
         mkElem "div" "acceleratorStats" [] ∅ None [] None true]
        (<["miscStats" := 3%nat]> (<["acceleratorStats" := 4%nat]> ∅)).

(** A game with every collaborator instantiated, to run the dispatcher. *)
Definition unit_misc : MiscEnv unit :=
  {| fastestprestige := fun _ => 0%Q; maxofferings := fun _ => 0%Q; runeSum := fun _ => 0%Q;
     transcendCount := fun _ => 0%Q; fastesttranscend := fun _ => 0%Q;
     fastestreincarnate := fun _ => 0%Q; maxobtainium := fun _ => 0%Q;
     maxobtainiumpersecond := fun _ => 0%Q; obtainiumpersecond := fun _ => 0%Q;
     ascensionCountQ := fun _ => 0%Q; quarksThisSingularity := fun _ => 0%Q;
     totalQuarksEver := fun _ => 0%Q; quarkstimer := fun _ => 0%Q; research195 := fun _ => 0%Q;
     formatTimeShort := fun _ => "0s"; stage_player := fun _ => fresh_player |}.

(** A page whose only active panel is the global cube panel. *)
Definition cube_active_dom : Dom :=
  mkDom [mkElem "div" "globalCubeMultiplierStats" ["activeStats"] ∅ None [] None true] ∅.

(** A tab bar whose first child is a button that [associated] does not
    know, before a known tab. *)
Definition unknown_tab_dom : Dom :=
  mkDom [mkElem "div" "" [] ∅ None [1%nat; 2%nat] None true;
         mkElem "button" "kUnknown" [] ∅ None [] (Some 0%nat) true;
         mkElem "button" "kMisc" [] ∅ None [] (Some 0%nat) true;
         mkElem "div" "miscStats" [] ∅ None [] None true]
        (<["miscStats" := 3%nat]> ∅).

(** The ids [loadStatisticsMiscellaneous] writes, in order. *)
Definition misc_ids : list string :=
  ["sMisc1"; "sMisc2"; "sMisc3"; "sMisc4"; "sMisc5"; "sMisc6"; "sMisc7"; "sMisc8";
   "sMisc9"; "sMisc10"; "sMisc11"; "sMisc12"; "sMisc13"; "sMisc14"; "sMisc15"; "sMisc16"].

(** The miscellaneous panel's sixteen value nodes, cached in order. *)
Definition misc_dom : Dom := ids_dom misc_ids.

(** ** The tab switcher *)

Lemma dom_alter_lookup_ne h h' f d : h ≠ h' -> heap (dom_alter h f d) !! h' = heap d !! h'.
Proof. intros Hne. unfold dom_alter. simpl. by rewrite list_lookup_alter_ne. Qed.

Lemma dom_alter_lookup_eq h f d e : heap d !! h = Some e -> heap (dom_alter h f d) !! h = Some (f e).
Proof. intros He. unfold dom_alter. simpl. by rewrite list_lookup_alter_eq, He. Qed.

Lemma displayStats_one_run bid c d ec pid hp :
  heap d !! c = Some ec -> associated_get (el_id ec) = Some pid ->
  dom_cache d !! pid = Some hp -> hp ≠ c -> hp < length (heap d) ->
  exists d1, displayStats_one bid c d = Ok (tt, d1) /\ same_shape d d1 /\
    panel_state d1 hp (bool_decide (el_id ec = bid)) /\
    forall h, h ≠ c -> h ≠ hp -> heap d1 !! h = heap d !! h.
Proof.
  intros Hc Hget Hpid Hne Hlt. unfold displayStats_one. rewrite Hc, Hget. simpl.
  rewrite (st_bind_Ok _ _ _ _ _ (DOMCacheGetOrSet_cached _ _ _ Hpid)).
  destruct (lookup_lt_is_Some_2 _ _ Hlt) as [ep Hep].
  destruct (decide (el_id ec ≠ bid)) as [Hid|Hid]; cbn [st_bind setStyle classListRemove classListAdd st_modify].
  - eexists. split; [reflexivity|]. split_and!.
    + eapply same_shape_trans; [|apply shape_same_shape, dom_alter_shape].
      eapply same_shape_trans; [|apply shape_same_shape, dom_alter_shape].
      apply shape_same_shape, dom_alter_shape.
    + rewrite bool_decide_false by done. eexists. split.
      * apply dom_alter_lookup_eq, dom_alter_lookup_eq. by rewrite dom_alter_lookup_ne.
      * simpl. split; [|by rewrite lookup_insert_eq]. split; [|done].
        intros Hin. apply list_elem_of_filter in Hin as [Hx _]. done.
    + intros h H1 H2. rewrite !dom_alter_lookup_ne; auto.
  - apply dec_stable in Hid. eexists. split; [reflexivity|]. split_and!.
    + eapply same_shape_trans; [|apply shape_same_shape, dom_alter_shape].
      eapply same_shape_trans; [|apply shape_same_shape, dom_alter_shape].
      apply shape_same_shape, dom_alter_shape.
    + rewrite bool_decide_true by done. eexists. split.
      * apply dom_alter_lookup_eq, dom_alter_lookup_eq. by rewrite dom_alter_lookup_ne.
      * simpl. case_decide; simpl;
          (split; [split; [intros _; reflexivity|intros _; set_solver] | by rewrite lookup_insert_eq]).
    + intros h H1 H2. rewrite !dom_alter_lookup_ne; auto.
Qed.

Lemma panel_state_transfer d d' h b :
  heap d' !! h = heap d !! h -> panel_state d h b -> panel_state d' h b.
Proof. intros E (e & He & Hc & Hs). exists e. by rewrite E. Qed.

Lemma displayStats_loop bid ph cs : forall d,
  tabs_ready d cs ph ->
  exists d', forM_ cs (displayStats_one bid) d = Ok (tt, d') /\ same_shape d d' /\
    (forall c ec, c ∈ cs -> heap d !! c = Some ec -> panel_state d' (ph c) (bool_decide (el_id ec = bid))) /\
    (forall h, h ∉ cs -> (forall c, c ∈ cs -> h ≠ ph c) -> heap d' !! h = heap d !! h).
Proof.
  induction cs as [|c cs IH]; intros d (Hnd & Hr & Hinj); simpl.
  { exists d. split_and!; [done|split; done|intros ? ? Hin; set_solver|done]. }
  apply NoDup_cons in Hnd as [Hc Hnd].
  destruct (Hr c) as (ec & pid & Hec & Hget & Hpid & Hlt & Hout); [set_solver|].
  destruct (displayStats_one_run bid c d ec pid (ph c)) as (d1 & R1 & [L1 C1] & P1 & F1);
    [done..|set_solver|done|].
  destruct (IH d1) as (d2 & R2 & S2 & P2 & F2).
  { split_and!; [done| |by intros; apply Hinj; set_solver].
    intros c' Hc'. destruct (Hr c') as (ec' & pid' & H1 & H2 & H3 & H4 & H5); [set_solver|].
    exists ec', pid'. rewrite F1, C1, L1 by set_solver. split_and!; [done..|set_solver]. }
  exists d2. rewrite (st_bind_Ok _ _ _ _ _ R1). split_and!; [done|by eapply same_shape_trans| |].
  - intros c' ec' [->|Hc']%elem_of_cons Hec'.
    + rewrite Hec in Hec'. injection Hec' as <-. apply (panel_state_transfer d1); [|done].
      apply F2; [set_solver|]. intros c'' Hc'' Heq. apply Hc. rewrite (Hinj c c''); set_solver.
    + apply P2; [done|]. rewrite F1; [done|set_solver|]. intros ->. set_solver.
  - intros h Hh Hph. rewrite F2, F1; [done|set_solver|apply Hph; set_solver|set_solver|].
    intros c' Hc'. apply Hph. set_solver.
Qed.

(** ** What the tab switch leaves alone *)

#[export] Instance keeps_except_preorder P : PreOrder (keeps_except P).
Proof.
  split; [intros d h; done|].
  intros d1 d2 d3 H12 H23 h. destruct (H12 h) as [A1 B1], (H23 h) as [A2 B2].
  split; [congruence|]. intros Hp. rewrite B2, B1; done.
Qed.

Lemma keeps_except_weaken (P Q : nat -> Prop) d d' :
  (forall h, P h -> Q h) -> keeps_except P d d' -> keeps_except Q d d'.
Proof. intros HPQ H h. destruct (H h) as [A B]. split; [done|]. intros Hq. apply B. auto. Qed.

Lemma dom_alter_keeps (P : nat -> Prop) h f d :
  (forall e, el_id (f e) = el_id e /\ el_attached (f e) = el_attached e) ->
  (~ P h -> forall e, el_classes (f e) = el_classes e) ->
  keeps_except P d (dom_alter h f d).
Proof.
  intros Hf Hc h'. unfold dom_alter. simpl. destruct (decide (h = h')) as [<-|Hne].
  - rewrite list_lookup_alter_eq. destruct (heap d !! h) as [e|]; simpl; [|done].
    destruct (Hf e) as [-> ->]. split; [done|]. intros Hp. by rewrite Hc.
  - by rewrite list_lookup_alter_ne.
Qed.

Lemma displayStats_one_keeps (P : nat -> Prop) bid c d d1 ec pid hp :
  heap d !! c = Some ec -> associated_get (el_id ec) = Some pid -> dom_cache d !! pid = Some hp ->
  P hp -> displayStats_one bid c d = Ok (tt, d1) -> keeps_except P d d1.
Proof.
  intros Hc Hget Hpid Hp. unfold displayStats_one. rewrite Hc, Hget. simpl.
  rewrite (st_bind_Ok _ _ _ _ _ (DOMCacheGetOrSet_cached _ _ _ Hpid)).
  destruct (decide _); cbn [st_bind setStyle classListRemove classListAdd st_modify]; intros [= <-];
    repeat match goal with
    | |- keeps_except _ ?d0 (dom_alter ?h ?f ?d') =>
        transitivity d'; [|apply dom_alter_keeps; [intros []; simpl; try case_decide; done|];
                           first [intros _ []; done | intros Hn; exfalso; by apply Hn]]
    end; reflexivity.
Qed.

Lemma displayStats_loop_keeps bid ph cs : forall d d',
  tabs_ready d cs ph -> forM_ cs (displayStats_one bid) d = Ok (tt, d') ->
  keeps_except (fun h => exists c, c ∈ cs /\ h = ph c) d d'.
Proof.
  induction cs as [|c cs IH]; intros d d' Hr R; simpl in R.
  { injection R as <-. reflexivity. }
  pose proof Hr as (Hnd & Hall & Hinj). apply NoDup_cons in Hnd as [Hc Hnd].
  destruct (Hall c) as (ec & pid & Hec & Hget & Hpid & Hlt & Hout); [set_solver|].
  destruct (displayStats_one_run bid c d ec pid (ph c)) as (d1 & R1 & [L1 C1] & _ & F1);
    [done..|set_solver|done|].
  rewrite (st_bind_Ok _ _ _ _ _ R1) in R. etransitivity.
  - apply (displayStats_one_keeps _ bid c d d1 ec pid (ph c)); [done..| |done]. by exists c; split; [set_solver|].
  - eapply keeps_except_weaken; [|apply (IH d1 d'); [|done]].
    + intros h (c' & Hc' & ->). exists c'. split; [set_solver|done].
    + split_and!; [done| |by intros; apply Hinj; set_solver].
      intros c' Hc'. destruct (Hall c') as (ec' & pid' & H1 & H2 & H3 & H4 & H5); [set_solver|].
      exists ec', pid'. rewrite F1, C1, L1 by set_solver. split_and!; [done..|set_solver].
Qed.

(** ** The active panels as an index list *)

Lemma filter_imap_none (P : Elem -> Prop) `{!forall e, Decision (P e)} (l : list Elem) : forall k,
  (forall i a, l !! i = Some a -> ~ P a) ->
  filter (fun p => P p.2) (imap (fun i a => (k + i, a)) l) = [].
Proof.
  induction l as [|a l IH]; intros k Hn; [done|]. rewrite imap_cons. simpl.
  rewrite filter_cons_False by (apply (Hn 0); done).
  rewrite (imap_ext _ (fun i a => (S k + i, a))) by (intros; simpl; f_equal; lia).
  apply IH. intros i b Hb. apply (Hn (S i) b Hb).
Qed.

Lemma filter_imap_single (P : Elem -> Prop) `{!forall e, Decision (P e)} (l : list Elem) : forall k x,
  (forall i a, l !! i = Some a -> (P a <-> i = x)) -> x < length l ->
  (fun p => p.1) <$> filter (fun p => P p.2) (imap (fun i a => (k + i, a)) l) = [k + x].
Proof.
  induction l as [|a l IH]; intros k x Hiff Hx; simpl in Hx; [lia|]. rewrite imap_cons. simpl.
  rewrite (imap_ext _ (fun i a => (S k + i, a))) by (intros; simpl; f_equal; lia).
  destruct x as [|x].
  - rewrite filter_cons_True by (apply (Hiff 0); done). rewrite filter_imap_none.
    + done.
    + intros i b Hb Hp. apply (Hiff (S i) b Hb) in Hp. discriminate.
  - rewrite filter_cons_False by (rewrite (Hiff 0 a); [discriminate|done]).
    rewrite (IH (S k) x); [f_equal; lia| |lia]. intros i b Hb. rewrite (Hiff (S i) b Hb). lia.
Qed.

Lemma active_stats_single d x :
  (forall h e, heap d !! h = Some e -> (class_match "activeStats" e <-> h = x)) -> x < length (heap d) ->
  active_stats d = [x].
Proof.
  intros Hiff Hx. unfold active_stats.
  rewrite (imap_ext _ (fun i a => (0 + i, a))) by done.
  exact (filter_imap_single (class_match "activeStats") (heap d) 0 x Hiff Hx).
Qed.

(** C21. Clicking a tab shows the panel of every tab of the bar whose id
    is the clicked tab's id, marked [activeStats], and hides and unmarks
    the panel of every other tab; it creates no element and does not touch
    the cache.  With distinct tab ids, exactly the clicked tab's panel is
    active afterwards. *)
Theorem displayStats_exclusive btn eb p ep ph d :
  heap d !! btn = Some eb -> el_parent eb = Some p -> heap d !! p = Some ep ->
  tabs_ready d (el_children ep) ph ->
  exists d', displayStats btn d = Ok (tt, d') /\ same_shape d d' /\
    forall c ec, c ∈ el_children ep -> heap d !! c = Some ec ->
      panel_state d' (ph c) (bool_decide (el_id ec = el_id eb)).
Proof.
  intros Hb Hp Hep Hready. unfold displayStats. rewrite Hb, Hp, Hep.
  destruct (displayStats_loop (el_id eb) ph (el_children ep) d Hready) as (d' & R & S & P & _).
  by exists d'.
Qed.

Lemma displayStats_exclusive_witness :
  exists d', displayStats 2 tabs_dom = Ok (tt, d') /\ same_shape tabs_dom d' /\
    forall c ec, c ∈ [1%nat; 2%nat] -> heap tabs_dom !! c = Some ec ->
      panel_state d' (c + 2) (bool_decide (el_id ec = "kFreeAccel")).
Proof.
  apply (displayStats_exclusive 2 (mkElem "button" "kFreeAccel" [] ∅ None [] (Some 0%nat) true) 0
           (mkElem "div" "" [] ∅ None [1%nat; 2%nat] None true) (fun c => c + 2)); try reflexivity.
  split_and!.
  - repeat constructor; set_solver.
  - intros c Hc. apply list_elem_of_In in Hc. simpl in Hc.
    intuition subst; (eexists _, _; split_and!; [reflexivity..|simpl; lia|set_solver]).
  - intros c1 c2 _ _. lia.
Defined.

(** C27. A child of the tab bar whose id is not a key of [associated]
    makes [associated.get] return [undefined], and [DOMCacheGetOrSet]
    then looks up the id ["undefined"]: on a page without such an element,
    clicking any tab of a bar whose first child is unknown throws that
    lookup's [TypeError] before any style or class is changed. *)
Theorem displayStats_unknown_tab btn eb p ep c ec rest d :
  heap d !! btn = Some eb -> el_parent eb = Some p -> heap d !! p = Some ep ->
  el_children ep = c :: rest -> heap d !! c = Some ec -> associated_get (el_id ec) = None ->
  dom_cache d !! "undefined" = None -> getElementById d "undefined" = None ->
  displayStats btn d = Throw (TypeError "Could not find element with id undefined") d.
Proof.
  intros Hb Hp Hep Hch Hc Hget Hu Hg. unfold displayStats. rewrite Hb, Hp, Hep, Hch. simpl.
  apply st_bind_Throw. unfold displayStats_one. rewrite Hc, Hget. simpl.
  apply st_bind_Throw. by apply DOMCacheGetOrSet_missing.
Qed.

Lemma displayStats_unknown_tab_witness :
  displayStats 2 unknown_tab_dom = Throw (TypeError "Could not find element with id undefined") unknown_tab_dom.
Proof.
  apply (displayStats_unknown_tab 2 (mkElem "button" "kMisc" [] ∅ None [] (Some 0%nat) true) 0
           (mkElem "div" "" [] ∅ None [1%nat; 2%nat] None true) 1
           (mkElem "button" "kUnknown" [] ∅ None [] (Some 0%nat) true) [2%nat]); vm_compute; reflexivity.
Defined.

(** ** The dispatcher *)

(** C22. The tab table and the switch agree: [associated] has 24 entries
    with distinct tab ids and distinct panel ids, every panel id is a case
    of the switch, and distinct panel ids select distinct loaders. *)
Theorem associated_dispatch :
  length associated = 24%nat /\ NoDup (fst <$> associated) /\ NoDup (snd <$> associated) /\
  Forall (fun kv => is_Some (panel_of_id kv.2)) associated /\
  NoDup (omap (fun kv => panel_of_id kv.2) associated).
Proof. split; [reflexivity|]. split_and!; refine (bool_decide_unpack _ _); vm_compute; exact I. Qed.


(** The switch in full: a bar whose tab ids are distinct, whose panels are
    attached and carry the ids [associated] names, on a page where only
    panels of the bar may be active. *)
Definition bar_ready (d : Dom) (btn : nat) (cs : list nat) (ph : nat -> nat) : Prop :=
  tabs_ready d cs ph /\ btn ∈ cs /\
  (forall c ec eb, c ∈ cs -> heap d !! c = Some ec -> heap d !! btn = Some eb ->
     el_id ec = el_id eb -> c = btn) /\
  (forall c ec e, c ∈ cs -> heap d !! c = Some ec -> heap d !! ph c = Some e ->
     el_attached e = true /\ associated_get (el_id ec) = Some (el_id e)) /\
  (forall h e, heap d !! h = Some e -> class_match "activeStats" e -> exists c, c ∈ cs /\ h = ph c).

(** After the tab switch, the clicked tab's panel is the only active element. *)
Lemma active_after_switch btn eb cs ph d d1 :
  heap d !! btn = Some eb -> bar_ready d btn cs ph ->
  forM_ cs (displayStats_one (el_id eb)) d = Ok (tt, d1) -> same_shape d d1 ->
  (forall c ec, c ∈ cs -> heap d !! c = Some ec -> panel_state d1 (ph c) (bool_decide (el_id ec = el_id eb))) ->
  active_stats d1 = [ph btn].
Proof.
  intros Hb (Hr & Hbtn & Huniq & Hpan & Hact) R [L C] Pst.
  pose proof (displayStats_loop_keeps _ _ _ d d1 Hr R) as K.
  destruct Hr as (Hnd & Hall & Hinj).
  apply active_stats_single; [|destruct (Hall btn Hbtn) as (? & ? & _ & _ & _ & Hlt & _); lia].
  intros h e He. destruct (K h) as [Kid Kcl].
  destruct (heap d !! h) as [e0|] eqn:He0; rewrite He in Kid, Kcl; simpl in Kid; [|discriminate].
  injection Kid as Eid Eatt.
  destruct (decide (Exists (fun c => h = ph c) cs)) as [Hx|Hx].
  - apply Exists_exists in Hx as (c & Hc & ->).
    destruct (Hall c Hc) as (ec & pid & Hec & _ & _ & _ & _).
    destruct (Pst c ec Hc Hec) as (e' & He' & Hcls & _). rewrite He in He'. injection He' as <-.
    destruct (Hpan c ec e0 Hc Hec He0) as [Hatt _].
    unfold class_match. rewrite Eatt, Hatt, Hcls. split.
    + intros [_ Hb']. apply bool_decide_eq_true in Hb'. f_equal. by apply (Huniq c ec eb).
    + intros Heq. split; [done|]. apply bool_decide_eq_true. apply Hinj in Heq; [|done..]. subst c.
      rewrite Hb in Hec. by injection Hec as ->.
  - assert (Hnp : ~ exists c, c ∈ cs /\ h = ph c)
      by (intros (c & Hc & ->); apply Hx, Exists_exists; eauto).
    injection (Kcl Hnp) as Ecl. unfold class_match. rewrite Eatt, Ecl. split.
    + intros Hm. exfalso. apply Hnp, (Hact h e0 He0 Hm).
    + intros ->. exfalso. apply Hnp. eauto.
Qed.

Section DispatchProofs.
Context {Game : Type} `{!NumberFormat} `{!I18n} `{!StateProvider Game} `{!LoaderEnv Game}
        `{!BreakdownEnv Game} `{!MiscEnv Game} `{!FormulaEnv Game} `{!AddCodeEnv Game}.

(** [forM_] over one or two calls. *)
Lemma forM__one {S A} (x : A) (f : A -> St S unit) s : forM_ [x] f s = f x s.
Proof. apply st_bind_ret_unit. Qed.

Lemma forM__two {S A} (x y : A) (f : A -> St S unit) s :
  forM_ [x; y] f s = st_bind (f x) (fun _ => f y) s.
Proof. simpl. unfold st_bind at 1 3. destruct (f x s) as [[[] s1]|e s1]; [apply st_bind_ret_unit|done]. Qed.

(** One case of the switch against the filtered calls: the case label is
    computed from the call's [parentDiv], the filter decided call by call
    on the computed ids. *)
Ltac calls_case :=
  match goal with |- context [panel_of_id (pc_parent ?c)] =>
    let s := eval vm_compute in (pc_parent c) in change (pc_parent c) with s end;
  cbv beta iota delta [panel_of_id load_panel];
  repeat first [rewrite filter_cons_True by reflexivity
               | rewrite filter_cons_False by (vm_compute; intros ?; discriminate)];
  rewrite filter_nil;
  unfold loadQuarkMultiplier, loadGlobalCubeMultiplierStats, loadWowCubeMultiplierStats,
    loadTesseractMultiplierStats, loadHypercubeMultiplierStats, loadPlatonicMultiplierStats,
    loadHepteractMultiplierStats, loadOcteractMultiplierStats, loadStatisticsOfferingBase,
    loadStatisticsOfferingMultipliers, loadStatisticsObtainiumBase, loadStatisticsObtainiumIgnoreDR,
    loadStatisticsObtainiumMultipliers, loadStatisticsAntSacrificeMult;
  first [rewrite forM__one | rewrite forM__two]; reflexivity.

(** C23. The switch of [loadStatisticsUpdate] and the loaders agree on
    where each catalog panel is drawn: when the only active element is a
    panel into which some [loadStatistics] call of the loaders renders
    (its id is that call's [parentDiv]), the update runs exactly the
    calls of the module whose [parentDiv] is that id, in source order
    (one call, or the two calls of the offering and the obtainium
    panels). *)
Theorem update_runs_panel_calls (g : Game) d h e :
  active_stats d = [h] -> heap d !! h = Some e -> el_id e ∈ pc_parent <$> all_calls g ->
  loadStatisticsUpdate g d =
    forM_ (filter (fun c => pc_parent c = el_id e) (all_calls g)) (run_call g) d.
Proof.
  intros Hact He Hin. unfold loadStatisticsUpdate. rewrite Hact. simpl.
  rewrite st_bind_ret_unit. unfold dispatch_one. rewrite He.
  apply list_elem_of_fmap in Hin as (c & Hid & Hc). rewrite Hid.
  unfold all_calls in Hc |- *. apply list_elem_of_In in Hc. simpl in Hc.
  intuition subst; calls_case.
Qed.

Ltac run_writes d0 :=
  repeat (erewrite (write_text_bind _ _ _ _ d0); [cbv beta | by autorewrite with stats | eassumption]).

(** C28. On a page where its sixteen value nodes are cached, the
    miscellaneous panel returns without creating an element, and the last
    node, [sMisc16], shows [synergismStage(0)]: the stage label of the
    statistics tab is always computed with [skipTier = 0], never with the
    classifier's default [skipTier], whatever the other writes did to the
    page (even if cached ids share a node, the last write wins). *)
Theorem loadStatisticsMiscellaneous_stage (g : Game) d h16 :
  Forall (fun id => is_Some (dom_cache d !! id)) misc_ids ->
  dom_cache d !! "sMisc16" = Some h16 -> h16 < length (heap d) ->
  exists d', loadStatisticsMiscellaneous g d = Ok (tt, d') /\ same_shape d d' /\
    text_at d' h16 = Some (text_node (synergismStage (stage_player g) 0)).
Proof.
  intros Hall H16 Hlt. unfold misc_ids in Hall.
  repeat (rewrite Forall_cons in Hall; destruct Hall as [[?h ?E] Hall]).
  unfold loadStatisticsMiscellaneous. run_writes d.
  rewrite (write_text_cached _ _ _ h16) by (autorewrite with stats; done).
  eexists. split; [reflexivity|]. split.
  - split; by autorewrite with stats.
  - apply setTextContent_dom_text_at. by autorewrite with stats.
Qed.

(** C35. A click followed by the next update tick refreshes the clicked
    panel: on a page whose tab bar is ready, [displayStats(btn)] returns,
    leaves the clicked tab's panel as the only element carrying
    [activeStats], and the next [loadStatisticsUpdate] runs exactly the
    loader of that panel. *)
Theorem click_then_update (g : Game) btn eb p ep ph d pid P :
  heap d !! btn = Some eb -> el_parent eb = Some p -> heap d !! p = Some ep ->
  bar_ready d btn (el_children ep) ph ->
  associated_get (el_id eb) = Some pid -> panel_of_id pid = Some P ->
  exists d1, displayStats btn d = Ok (tt, d1) /\ active_stats d1 = [ph btn] /\
    loadStatisticsUpdate g d1 = load_panel g P d1.
Proof.
  intros Hb Hp Hep Hbar Hget HP. pose proof Hbar as (Hr & Hbtn & _ & Hpan & _).
  destruct (displayStats_loop (el_id eb) ph (el_children ep) d Hr) as (d1 & R & S & Pst & _).
  assert (Hact : active_stats d1 = [ph btn]) by (eapply active_after_switch; eauto).
  exists d1. split; [unfold displayStats; by rewrite Hb, Hp, Hep|]. split; [done|].
  unfold loadStatisticsUpdate. rewrite Hact. simpl. rewrite st_bind_ret_unit. unfold dispatch_one.
  pose proof (displayStats_loop_keeps _ _ _ d d1 Hr R (ph btn)) as [Kid _].
  destruct Hr as (_ & Hall & _). destruct (Hall btn Hbtn) as (ec & pid' & Hec & _ & _ & Hlt & _).
  rewrite Hb in Hec. injection Hec as <-.
  destruct (lookup_lt_is_Some_2 _ _ Hlt) as [e0 He0].
  destruct (Hpan btn eb e0 Hbtn Hb He0) as [_ Hid]. rewrite Hget in Hid. injection Hid as Hpid.
  rewrite He0 in Kid. destruct (heap d1 !! ph btn) as [e1|]; [|discriminate].
  injection Kid as Eid _. by rewrite Eid, <- Hpid, HP.
Qed.
End DispatchProofs.

Section UnitDispatch.
#[local] Existing Instances synergism_format scenario_i18n unit_provider unit_env short_breakdown
  unit_misc unit_formulas full_addcode.

Lemma update_runs_panel_calls_witness :
  loadStatisticsUpdate tt cube_active_dom =
    forM_ (filter (fun c => pc_parent c = "globalCubeMultiplierStats") (all_calls tt)) (run_call tt)
          cube_active_dom.
Proof.
  apply (update_runs_panel_calls tt cube_active_dom 0
           (mkElem "div" "globalCubeMultiplierStats" ["activeStats"] ∅ None [] None true));
    [reflexivity|reflexivity|].
  refine (bool_decide_unpack _ _). vm_compute. exact I.
Defined.

Lemma loadStatisticsMiscellaneous_stage_witness :
  exists d', loadStatisticsMiscellaneous tt misc_dom = Ok (tt, d') /\ same_shape misc_dom d' /\
    text_at d' 15 = Some (text_node (synergismStage (stage_player tt) 0)).
Proof.
  apply (loadStatisticsMiscellaneous_stage tt misc_dom 15); [refine (bool_decide_unpack _ _)|..];
    vm_compute; [exact I|reflexivity|lia].
Defined.
Lemma click_then_update_witness :
  exists d1, displayStats 2 tabs_dom = Ok (tt, d1) /\ active_stats d1 = [4%nat] /\
    loadStatisticsUpdate tt d1 = load_panel tt AcceleratorStats d1.
Proof.
  apply (click_then_update tt 2 (mkElem "button" "kFreeAccel" [] ∅ None [] (Some 0%nat) true) 0
           (mkElem "div" "" [] ∅ None [1%nat; 2%nat] None true) (fun c => c + 2) tabs_dom
           "acceleratorStats" AcceleratorStats); try reflexivity.
  split_and!.
  - split_and!; [repeat constructor; set_solver| |intros c1 c2 _ _; lia].
    intros c Hc. apply list_elem_of_In in Hc. simpl in Hc.
    intuition subst; (eexists _, _; split_and!; [reflexivity..|simpl; lia|set_solver]).
  - set_solver.
  - intros c ec eb Hc Hec Heb Hid. apply list_elem_of_In in Hc. simpl in Hc.
    intuition subst; vm_compute in Hec, Heb; injection Hec as <-; injection Heb as <-;
      first [discriminate|reflexivity].
  - intros c ec e Hc Hec He. apply list_elem_of_In in Hc. simpl in Hc.
    intuition subst; vm_compute in Hec, He; injection Hec as <-; injection He as <-; split; reflexivity.
  - intros h e He [_ Hm].
    destruct h as [|[|[|[|[|h]]]]]; vm_compute in He; try discriminate; injection He as <-; simpl in Hm;
      try (apply list_elem_of_In in Hm; simpl in Hm; intuition discriminate).
    exists 1%nat. split; [set_solver|reflexivity].
Defined.
End UnitDispatch.
