(* ===== verification/Session.v ===== *)
(** * A page session: tab clicks and periodic updates

    The page runs two handlers on one document: the click handler of the
    tab buttons, [displayStats(btn)], and the periodic
    [loadStatisticsUpdate()], which runs the loader of every element that
    carries the class [activeStats].  This file models a session as the
    step relation [session] over documents (one constructor per handler,
    a step taking the document the handler leaves, whether it returns or
    throws) and proves by rule induction on the reachable documents that
    at most one element carries [activeStats], and that it is the panel
    of a tab.  The update half rests on a frame fact: no loader gives any
    element the class [activeStats] ([no_activation]).  The last theorem
    shows what the invariant needs of the bar: a child that is not a tab
    of [associated] makes a click throw halfway, leaving an earlier active
    panel active beside the clicked one. *)

From stdpp Require Import relations.
From S2P Require Import Prelude Dom Format Catalog Render Stages Loaders Breakdown FormulaPanels AddCode Dispatch.
From Stdlib Require Import QArith.
Local Close Scope Q_scope.

(** Two documents whose elements have the same classes. *)
Definition same_classes (d d' : Dom) : Prop :=
  forall h, el_classes <$> heap d' !! h = el_classes <$> heap d !! h.

(** No element of [d'] carries [activeStats] unless it carried it in [d]. *)
Definition no_activation (d d' : Dom) : Prop :=
  forall h e', heap d' !! h = Some e' -> "activeStats" ∈ el_classes e' ->
  exists e, heap d !! h = Some e /\ "activeStats" ∈ el_classes e.

(** The elements that carry [activeStats], attached or not. *)
Definition carriers (d : Dom) : list nat :=
  (fun p => p.1) <$> filter (fun p => "activeStats" ∈ el_classes p.2) (imap pair (heap d)).

Section SessionDefs.
Context {Game : Type} `{!NumberFormat} `{!I18n} `{!StateProvider Game} `{!LoaderEnv Game}
        `{!BreakdownEnv Game} `{!MiscEnv Game} `{!FormulaEnv Game} `{!AddCodeEnv Game}.

(** The tab bar of the page: the clicked button [btn] is one of the
    children [cs] of its parent, tabs with the same id as [btn] are [btn]
    itself, and every tab [c] shows the cached panel at [ph c]. *)
Definition tab_bar (d : Dom) (btn : nat) (cs : list nat) (ph : nat -> nat) : Prop :=
  exists eb p ep, heap d !! btn = Some eb /\ el_parent eb = Some p /\ heap d !! p = Some ep /\
    el_children ep = cs /\ tabs_ready d cs ph /\ btn ∈ cs /\
    (forall c ec, c ∈ cs -> heap d !! c = Some ec -> el_id ec = el_id eb -> c = btn).

(** At most one element carries [activeStats], and it is the panel of a tab. *)
Definition one_active (cs : list nat) (ph : nat -> nat) (d : Dom) : Prop :=
  carriers d = [] \/ exists c, c ∈ cs /\ carriers d = [ph c].

(** The handlers of the page, each step taking the document the handler
    leaves: a click on a tab of the bar, or a periodic update against any
    game state. *)
Inductive session (cs : list nat) (ph : nat -> nat) : Dom -> Dom -> Prop :=
| session_click btn d : tab_bar d btn cs ph -> session cs ph d (res_state (displayStats btn d))
| session_tick (g : Game) d : session cs ph d (res_state (loadStatisticsUpdate g d)).
End SessionDefs.

Section UnitSessionDefs.
#[local] Existing Instances synergism_format scenario_i18n unit_provider unit_env short_breakdown
  unit_misc unit_formulas full_addcode.

(** A tab bar whose middle child [kSettings] is not a key of
    [associated], with [miscStats] active. *)
Definition bad_bar_dom : Dom :=
  mkDom [mkElem "div" "" [] ∅ None [2%nat; 5%nat; 1%nat] None true;
         mkElem "button" "kMisc" [] ∅ None [] (Some 0%nat) true;
         mkElem "button" "kFreeAccel" [] ∅ None [] (Some 0%nat) true;
         mkElem "div" "miscStats" ["activeStats"] ∅ None [] None true;
         mkElem "div" "acceleratorStats" [] ∅ None [] None true;
         mkElem "button" "kSettings" [] ∅ None [] (Some 0%nat) true]
        (<["miscStats" := 3%nat]> (<["acceleratorStats" := 4%nat]> ∅)).

(** The session: a click on [kFreeAccel], then an update. *)
Definition tabs_session : Dom :=
  res_state (loadStatisticsUpdate tt (res_state (displayStats 2 tabs_dom))).
End UnitSessionDefs.

(** ** Frame lemmas on classes *)

#[export] Instance same_classes_preorder : PreOrder same_classes.
Proof. split; [intros d h; done|intros d1 d2 d3 H12 H23 h; by rewrite H23, H12]. Qed.

#[export] Instance no_activation_preorder : PreOrder no_activation.
Proof.
  split; [intros d h e' He' Hc; by exists e'|].
  intros d1 d2 d3 H12 H23 h e3 He3 Hc. destruct (H23 h e3 He3 Hc) as (e2 & He2 & Hc2). eauto.
Qed.

Lemma same_classes_no_activation d d' : same_classes d d' -> no_activation d d'.
Proof.
  intros Hs h e' He' Hc. pose proof (Hs h) as E. rewrite He' in E.
  destruct (heap d !! h) as [e|]; simpl in E; [|discriminate]. injection E as E. exists e. by rewrite <- E.
Qed.

Lemma dom_alter_classes h f d :
  (forall e, el_classes (f e) = el_classes e) -> same_classes d (dom_alter h f d).
Proof.
  intros Hf h'. unfold dom_alter. simpl. destruct (decide (h = h')) as [->|Hne].
  - rewrite list_lookup_alter_eq. destruct (heap d !! h'); simpl; [by rewrite Hf|done].
  - by rewrite list_lookup_alter_ne.
Qed.

Lemma dom_alter_no_activation h f d :
  (forall e, "activeStats" ∈ el_classes (f e) -> "activeStats" ∈ el_classes e) ->
  no_activation d (dom_alter h f d).
Proof.
  intros Hf h' e' He' Hc. unfold dom_alter in He'. simpl in He'. destruct (decide (h = h')) as [->|Hne].
  - rewrite list_lookup_alter_eq in He'. destruct (heap d !! h') as [e|]; simpl in He'; [|done].
    injection He' as <-. eauto.
  - rewrite list_lookup_alter_ne in He' by done. eauto.
Qed.

Lemma foldl_classes {A} (g : Dom -> A -> Dom) (l : list A) d :
  (forall d' a, same_classes d' (g d' a)) -> same_classes d (foldl g d l).
Proof.
  intros Hg. revert d. induction l as [|a l IH]; intros d; simpl; [reflexivity|].
  etransitivity; [apply Hg|apply IH].
Qed.

Lemma mark_subtree_classes fuel b h d : same_classes d (mark_subtree fuel b h d).
Proof.
  revert h d. induction fuel as [|fuel IH]; intros h d; simpl; [reflexivity|].
  destruct (heap d !! h) as [e|]; [|reflexivity].
  transitivity (dom_alter h (set_el_attached b) d); [apply dom_alter_classes; by intros []|].
  apply foldl_classes. intros d' c. apply IH.
Qed.

Lemma detach_classes c d : same_classes d (detach_from_parent c d).
Proof.
  unfold detach_from_parent. destruct (heap d !! c) as [ec|]; [|reflexivity].
  destruct (el_parent ec); [apply dom_alter_classes; by intros []|reflexivity].
Qed.

Lemma appendChild_dom_classes p c d : same_classes d (appendChild_dom p c d).
Proof.
  unfold appendChild_dom.
  set (d2 := dom_alter p _ (dom_alter c (set_el_parent (Some p)) (detach_from_parent c d))).
  transitivity d2.
  - transitivity (detach_from_parent c d); [apply detach_classes|].
    transitivity (dom_alter c (set_el_parent (Some p)) (detach_from_parent c d));
      apply dom_alter_classes; by intros [].
  - destruct (heap d2 !! p); [apply mark_subtree_classes|reflexivity].
Qed.

Lemma setTextContent_dom_classes h s d : same_classes d (setTextContent_dom h s d).
Proof.
  unfold setTextContent_dom. destruct (heap d !! h) as [e|]; [|reflexivity].
  etransitivity; [|apply dom_alter_classes; by intros []].
  apply foldl_classes. intros d' c. etransitivity; [|apply mark_subtree_classes].
  apply dom_alter_classes. by intros [].
Qed.

(** ** Every primitive but the addition of [activeStats] *)

Ltac gain_prim :=
  intros ?; cbv [createElement DOMCacheGetOrSet setFirstChildText appendChild setId
    setClassName classListAdd classListRemove setStyle setTextContent st_modify res_state];
  repeat case_match; simplify_eq/=; try reflexivity.

Lemma createElement_gain tag : always no_activation (createElement tag).
Proof.
  intros d h e' He' Hc. simpl in He'. destruct (decide (h < length (heap d))) as [Hlt|Hge].
  - rewrite lookup_app_l in He' by done. eauto.
  - rewrite lookup_app_r in He' by lia. apply list_lookup_singleton_Some in He' as [_ <-].
    simpl in Hc. set_solver.
Qed.

Lemma DOMCacheGetOrSet_gain id : always no_activation (DOMCacheGetOrSet id).
Proof. gain_prim; apply same_classes_no_activation; intros h; done. Qed.

Lemma setFirstChildText_gain h s : always no_activation (setFirstChildText h s).
Proof.
  gain_prim; apply same_classes_no_activation;
    first [apply dom_alter_classes; by intros [] | apply setTextContent_dom_classes].
Qed.

Lemma appendChild_gain p c : always no_activation (appendChild p c).
Proof. gain_prim. apply same_classes_no_activation, appendChild_dom_classes. Qed.

Lemma setId_gain h s : always no_activation (setId h s).
Proof. gain_prim. apply same_classes_no_activation, dom_alter_classes. by intros []. Qed.

Lemma setStyle_gain h k v : always no_activation (setStyle h k v).
Proof. gain_prim. apply same_classes_no_activation, dom_alter_classes. by intros []. Qed.

Lemma setTextContent_gain h s : always no_activation (setTextContent h s).
Proof. gain_prim. apply same_classes_no_activation, setTextContent_dom_classes. Qed.

Lemma classListRemove_gain h c : always no_activation (classListRemove h c).
Proof. gain_prim. apply dom_alter_no_activation. intros e. simpl. rewrite list_elem_of_filter. tauto. Qed.

Lemma classListAdd_gain h c : c ≠ "activeStats" -> always no_activation (classListAdd h c).
Proof.
  intros Hc. gain_prim. apply dom_alter_no_activation. intros e. case_decide; [done|].
  simpl. rewrite elem_of_app, list_elem_of_singleton. intros [?|?]; [done|congruence].
Qed.

Lemma setClassName_gain h s : s ≠ "activeStats" -> always no_activation (setClassName h s).
Proof.
  intros Hs. gain_prim. apply dom_alter_no_activation. intros e. simpl.
  rewrite list_elem_of_singleton. congruence.
Qed.

Lemma st_throw_gain {A} e : always no_activation (@st_throw Dom A e).
Proof. intros d. simpl. reflexivity. Qed.

Lemma countClass_gain c : always no_activation (countClass c).
Proof. intros d. simpl. reflexivity. Qed.

Create HintDb gain.
#[export] Hint Resolve createElement_gain DOMCacheGetOrSet_gain setFirstChildText_gain
  appendChild_gain setId_gain setStyle_gain setTextContent_gain classListRemove_gain
  classListAdd_gain setClassName_gain st_throw_gain countClass_gain : gain.
#[export] Hint Extern 1 (_ ≠ _) => discriminate : gain.

(** Solve [always no_activation m] for a handler [m] built from the
    primitives, loops, conditionals and matches. *)
Ltac solve_gain :=
  repeat first
    [ progress intros
    | apply always_bind; try (apply _)
    | apply always_forM_; try (apply _)
    | apply always_if; try (apply _)
    | match goal with |- always _ (if ?c then _ else _) => destruct c end
    | match goal with |- always _ (match ?x with _ => _ end) => destruct x end
    | apply always_ret; try (apply _)
    | solve [eauto with gain] ].

(** ** No loader activates a panel *)

Section Loaders.
Context {Game : Type} `{!NumberFormat} `{!I18n} `{!StateProvider Game} `{!LoaderEnv Game}
        `{!BreakdownEnv Game} `{!MiscEnv Game} `{!FormulaEnv Game} `{!AddCodeEnv Game}.

Lemma write_text_gain id s : always no_activation (write_text id s).
Proof. unfold write_text. solve_gain. Qed.

Lemma write_label_gain id s : always no_activation (write_label id s).
Proof. unfold write_label. solve_gain. Qed.

Lemma writes_gain ws : always no_activation (writes ws).
Proof.
  induction ws as [|[id s] ws IH]; [apply always_ret; apply _|].
  destruct ws; [apply write_text_gain|]. apply always_bind; [apply _|apply write_text_gain|done].
Qed.

Lemma loadStatistics_gain (g : Game) objs parentDiv prefix cls tot name :
  cls ≠ "activeStats" -> always no_activation (loadStatistics g objs parentDiv prefix cls tot name).
Proof. intros Hc. unfold loadStatistics, render_line, render_total. solve_gain. Qed.

Lemma run_call_gain (g : Game) c : pc_class c ≠ "activeStats" -> always no_activation (run_call g c).
Proof. apply loadStatistics_gain. Qed.

Lemma breakdown_rows_gain cs lineP numP deco descrs i arr :
  always no_activation (breakdown_rows cs lineP numP deco descrs i arr).
Proof.
  revert i. induction arr as [|v arr IH]; intros i; simpl; [apply always_ret; apply _|].
  apply always_bind; [apply _| |done]. unfold breakdown_row, set_row_color. solve_gain.
Qed.

Lemma speed_rows_gain numP i arr : always no_activation (speed_rows numP i arr).
Proof.
  revert i. induction arr as [|v arr IH]; intros i; simpl; [apply always_ret; apply _|].
  apply always_bind; [apply _|apply write_text_gain|done].
Qed.

#[local] Hint Resolve write_text_gain write_label_gain writes_gain run_call_gain
  breakdown_rows_gain speed_rows_gain : gain.
#[local] Hint Extern 1 (pc_class _ ≠ _) => cbn; discriminate : gain.

Lemma catalog_loaders_gain (g : Game) :
  Forall (fun m => always no_activation m)
    [loadQuarkMultiplier g; loadGlobalCubeMultiplierStats g; loadWowCubeMultiplierStats g;
     loadTesseractMultiplierStats g; loadHypercubeMultiplierStats g; loadPlatonicMultiplierStats g;
     loadHepteractMultiplierStats g; loadOcteractMultiplierStats g; loadStatisticsOfferingBase g;
     loadStatisticsOfferingMultipliers g; loadStatisticsObtainiumBase g;
     loadStatisticsObtainiumIgnoreDR g; loadStatisticsObtainiumMultipliers g;
     loadStatisticsAntSacrificeMult g].
Proof.
  repeat apply Forall_cons_2; [..|apply Forall_nil_2]; unfold loadQuarkMultiplier, loadGlobalCubeMultiplierStats,
    loadWowCubeMultiplierStats, loadTesseractMultiplierStats, loadHypercubeMultiplierStats,
    loadPlatonicMultiplierStats, loadHepteractMultiplierStats, loadOcteractMultiplierStats,
    loadStatisticsOfferingBase, loadStatisticsOfferingMultipliers, loadStatisticsObtainiumBase,
    loadStatisticsObtainiumIgnoreDR, loadStatisticsObtainiumMultipliers, loadStatisticsAntSacrificeMult;
    first [ apply run_call_gain; cbn; discriminate
          | apply always_bind; [apply _| |intros]; apply run_call_gain; cbn; discriminate ].
Qed.

Lemma breakdown_loaders_gain (g : Game) :
  Forall (fun m => always no_activation m)
    [loadPowderMultiplier g; loadStatisticsAscensionSpeedMultipliers g;
     loadStatisticsGoldenQuarkMultipliers g; loadStatisticsAmbrosiaLuck g;
     loadStatisticsAmbrosiaGeneration g; loadGlobalSpeedMultiplier g].
Proof.
  repeat apply Forall_cons_2; [..|apply Forall_nil_2]; unfold loadPowderMultiplier, loadStatisticsAscensionSpeedMultipliers,
    loadStatisticsGoldenQuarkMultipliers, loadStatisticsAmbrosiaLuck,
    loadStatisticsAmbrosiaGeneration, loadGlobalSpeedMultiplier; solve_gain.
Qed.

Lemma panel_loaders_gain (g : Game) :
  Forall (fun m => always no_activation m)
    [loadStatisticsMiscellaneous g; loadStatisticsAccelerator g; loadStatisticsMultiplier g;
     loadAddCodeModifiersAndEffects g].
Proof.
  repeat apply Forall_cons_2; [..|apply Forall_nil_2].
  - unfold loadStatisticsMiscellaneous. solve_gain.
  - apply writes_gain.
  - apply writes_gain.
  - unfold loadAddCodeModifiersAndEffects, interval_part, capacity_part, effects_part. solve_gain.
Qed.

Lemma load_panel_gain (g : Game) P : always no_activation (load_panel g P).
Proof.
  pose proof (catalog_loaders_gain g) as H1. pose proof (breakdown_loaders_gain g) as H2.
  pose proof (panel_loaders_gain g) as H3. rewrite Forall_forall in H1, H2, H3.
  destruct P; cbn [load_panel];
    first [ solve [apply H1; repeat first [apply list_elem_of_here|apply list_elem_of_further]]
          | solve [apply H2; repeat first [apply list_elem_of_here|apply list_elem_of_further]]
          | solve [apply H3; repeat first [apply list_elem_of_here|apply list_elem_of_further]] ].
Qed.

(** A periodic update, whether it returns or throws, gives no element the
    class [activeStats]. *)
Lemma loadStatisticsUpdate_gain (g : Game) : always no_activation (loadStatisticsUpdate g).
Proof.
  intros d. unfold loadStatisticsUpdate. apply (always_forM_ _ (active_stats d)).
  intros h d'. unfold dispatch_one.
  destruct (heap d' !! h) as [e|]; [|reflexivity]. destruct (panel_of_id (el_id e)) as [P|]; [|reflexivity].
  apply load_panel_gain.
Qed.
End Loaders.

(** ** The elements carrying a class *)

Lemma indices_elem_of (Q : nat * Elem -> Prop) `{!forall p, Decision (Q p)} (l : list Elem) h :
  h ∈ (fun p => p.1) <$> filter Q (imap pair l) <-> exists e, l !! h = Some e /\ Q (h, e).
Proof.
  rewrite list_elem_of_fmap. split.
  - intros ([i e] & -> & Hin). apply list_elem_of_filter in Hin as [HP Hin].
    apply elem_of_lookup_imap_1 in Hin as (k & a & Hk & Ha). simplify_eq/=. eauto.
  - intros (e & He & HP). exists (h, e). split; [done|]. apply list_elem_of_filter.
    split; [done|]. by apply elem_of_lookup_imap_2.
Qed.

Lemma indices_NoDup (Q : nat * Elem -> Prop) `{!forall p, Decision (Q p)} (l : list Elem) :
  NoDup ((fun p => p.1) <$> filter Q (imap pair l)).
Proof.
  apply NoDup_fmap_2_strong.
  - intros [i a] [j b] Hx Hy Heq. simpl in Heq. subst j. apply list_elem_of_filter in Hx as [_ Hx], Hy as [_ Hy].
    apply elem_of_lookup_imap_1 in Hx as (k & a' & Hk & Ha), Hy as (k' & b' & Hk' & Hb).
    simplify_eq/=. congruence.
  - apply NoDup_filter. apply (NoDup_fmap_1 fst). rewrite fmap_imap.
    rewrite (imap_ext _ (fun n _ => n)) by done. rewrite imap_seq_0, list_fmap_id. apply NoDup_seq.
Qed.

Lemma carriers_spec d h : h ∈ carriers d <-> exists e, heap d !! h = Some e /\ "activeStats" ∈ el_classes e.
Proof. apply indices_elem_of. Qed.

Lemma carriers_single d x :
  (forall h e, heap d !! h = Some e -> ("activeStats" ∈ el_classes e <-> h = x)) -> x < length (heap d) ->
  carriers d = [x].
Proof.
  intros Hiff Hx. unfold carriers.
  rewrite (imap_ext _ (fun i a => (0 + i, a))) by done.
  exact (filter_imap_single (fun e => "activeStats" ∈ el_classes e) (heap d) 0 x Hiff Hx).
Qed.

(** A list without duplicates whose elements all equal [x]. *)
Lemma NoDup_sub_single (l : list nat) x : NoDup l -> (forall y, y ∈ l -> y = x) -> l = [] \/ l = [x].
Proof.
  intros Hnd Hall. destruct l as [|y [|z l]]; [by left| |].
  - right. f_equal. apply Hall. set_solver.
  - apply NoDup_cons in Hnd as [Hy _]. exfalso. apply Hy.
    rewrite (Hall y), (Hall z) by set_solver. set_solver.
Qed.

Lemma active_stats_carriers d h : h ∈ active_stats d -> h ∈ carriers d.
Proof.
  intros Hh. unfold active_stats in Hh. apply (proj1 (indices_elem_of _ _ _)) in Hh as (e & He & _ & Hc).
  apply carriers_spec. eauto.
Qed.

Lemma no_activation_carriers d d' h : no_activation d d' -> h ∈ carriers d' -> h ∈ carriers d.
Proof. rewrite !carriers_spec. intros Hn (e' & He' & Hc). by apply (Hn h e'). Qed.

(** ** The session *)

Section Session.
Context {Game : Type} `{!NumberFormat} `{!I18n} `{!StateProvider Game} `{!LoaderEnv Game}
        `{!BreakdownEnv Game} `{!MiscEnv Game} `{!FormulaEnv Game} `{!AddCodeEnv Game}.


Lemma tick_one_active cs ph (g : Game) d :
  one_active cs ph d -> one_active cs ph (res_state (loadStatisticsUpdate g d)).
Proof.
  pose proof (loadStatisticsUpdate_gain g d) as Hn. set (d' := res_state _) in *.
  assert (Hsub : forall h, h ∈ carriers d' -> h ∈ carriers d) by (intros h; by apply no_activation_carriers).
  intros [Hnil|(c & Hc & Hone)].
  - left. destruct (carriers d') as [|h l] eqn:E; [done|]. exfalso.
    specialize (Hsub h). rewrite Hnil in Hsub. set_solver.
  - destruct (NoDup_sub_single (carriers d') (ph c)) as [?|?]; [apply indices_NoDup| |by left|by right; eauto].
    intros y Hy. specialize (Hsub y Hy). rewrite Hone in Hsub. set_solver.
Qed.

Lemma click_one_active cs ph btn d :
  tab_bar d btn cs ph -> one_active cs ph d ->
  exists d', displayStats btn d = Ok (tt, d') /\ carriers d' = [ph btn].
Proof.
  intros (eb & p & ep & Hb & Hp & Hep & <- & Hr & Hbtn & Huniq) Hone.
  destruct (displayStats_loop (el_id eb) ph (el_children ep) d Hr) as (d' & R & [L _] & Pst & _).
  pose proof (displayStats_loop_keeps _ _ _ d d' Hr R) as K.
  exists d'. split; [unfold displayStats; by rewrite Hb, Hp, Hep|].
  pose proof Hr as (_ & Hall & Hinj).
  destruct (Hall btn Hbtn) as (eb' & _ & Heb' & _ & _ & Hlt & _). rewrite Hb in Heb'. injection Heb' as <-.
  apply carriers_single; [|lia]. intros h e He.
  destruct (decide (Exists (fun c => h = ph c) (el_children ep))) as [Hx|Hx].
  - apply Exists_exists in Hx as (c & Hc & ->).
    destruct (Hall c Hc) as (ec & _ & Hec & _). destruct (Pst c ec Hc Hec) as (e1 & He1 & Hcl & _).
    rewrite He in He1. injection He1 as <-. rewrite Hcl, bool_decide_eq_true.
    split; [intros Hid; by rewrite (Huniq c ec Hc Hec Hid)|].
    intros Hph. rewrite <- (Hinj c btn Hc Hbtn Hph) in Hb. congruence.
  - destruct (K h) as [_ Kcl]. rewrite He in Kcl.
    specialize (Kcl ltac:(intros (c & Hc & ->); apply Hx, Exists_exists; eauto)).
    split.
    + intros Hcl. exfalso. assert (Hcar : h ∈ carriers d).
      { apply carriers_spec. destruct (heap d !! h) as [e0|] eqn:E0; simpl in Kcl; [|discriminate].
        injection Kcl as Ecl. exists e0. split; [done|]. by rewrite <- Ecl. }
      destruct Hone as [Hnil|(c & Hc & Hc1)]; rewrite ?Hnil, ?Hc1 in Hcar; [set_solver|].
      apply Hx, Exists_exists. exists c. split; [done|]. set_solver.
    + intros ->. exfalso. apply Hx, Exists_exists. eauto.
Qed.

(** Every document a session reaches from a page with one active panel
    has one active panel: rule induction on the steps. *)
Lemma reachable_one_active cs ph d0 d :
  one_active cs ph d0 -> rtc (session cs ph) d0 d -> one_active cs ph d.
Proof.
  intros Hd0 Hr. induction Hr as [d|d1 d2 d3 Hs _ IH]; [done|]. apply IH.
  destruct Hs as [btn d Hbar|g d]; [|by apply tick_one_active].
  destruct (click_one_active cs ph btn d Hbar Hd0) as (d' & R & Hc). rewrite R. simpl.
  right. exists btn. split; [|done]. by destruct Hbar as (? & ? & ? & _ & _ & _ & <- & _ & Hbtn & _).
Qed.

(** C38. Along any session (clicks on the tabs of the bar and periodic
    updates against any game state, in any order, each step keeping the
    document its handler leaves even when the handler throws), if at
    most one element carries [activeStats] at the start and it is the
    panel of a tab, the same holds of every document reached: the
    switcher marks exactly the clicked tab's panel, and no loader of the
    update ever adds the class. *)
Theorem session_one_active cs ph d0 d :
  one_active cs ph d0 -> rtc (session cs ph) d0 d ->
  carriers d = [] \/ exists c, c ∈ cs /\ carriers d = [ph c].
Proof. apply reachable_one_active. Qed.

(** C39. On every document a session reaches from a page with one active
    panel, the periodic update runs at most one loader: either no element
    is active and the update does nothing, or it is exactly the dispatch
    of the panel of one tab. *)
Theorem session_update_single cs ph d0 d (g : Game) :
  one_active cs ph d0 -> rtc (session cs ph) d0 d ->
  loadStatisticsUpdate g d = Ok (tt, d) \/
  exists c, c ∈ cs /\ loadStatisticsUpdate g d = dispatch_one g (ph c) d.
Proof.
  intros Hd0 Hr. pose proof (reachable_one_active cs ph d0 d Hd0 Hr) as Hone.
  assert (Hsub : forall h, h ∈ active_stats d -> h ∈ carriers d) by apply active_stats_carriers.
  unfold loadStatisticsUpdate.
  destruct Hone as [Hnil|(c & Hc & Hone)].
  - left. destruct (active_stats d) as [|h l] eqn:E; [done|]. exfalso.
    specialize (Hsub h). rewrite Hnil in Hsub. set_solver.
  - destruct (NoDup_sub_single (active_stats d) (ph c)) as [E|E]; [apply indices_NoDup| |..].
    + intros y Hy. specialize (Hsub y Hy). rewrite Hone in Hsub. set_solver.
    + left. by rewrite E.
    + right. exists c. split; [done|]. rewrite E. simpl. apply st_bind_ret_unit.
Qed.
End Session.

Section UnitSession.
#[local] Existing Instances synergism_format scenario_i18n unit_provider unit_env short_breakdown
  unit_misc unit_formulas full_addcode.

(** The tab bar of [tabs_dom]: tabs 1 and 2 under the bar 0, panels 3 and 4. *)
Lemma tabs_dom_bar btn : btn ∈ [1%nat; 2%nat] -> tab_bar tabs_dom btn [1%nat; 2%nat] (fun c => c + 2).
Proof.
  intros Hbtn. apply list_elem_of_In in Hbtn. simpl in Hbtn.
  destruct Hbtn as [<-|[<-|[]]]; (eexists _, 0%nat, _; split_and!; [reflexivity..| | |]);
    [| |intros c ec Hc Hec Hid; apply list_elem_of_In in Hc; simpl in Hc;
        intuition subst; vm_compute in Hec; injection Hec as <-; first [reflexivity|discriminate]
      | | |intros c ec Hc Hec Hid; apply list_elem_of_In in Hc; simpl in Hc;
        intuition subst; vm_compute in Hec; injection Hec as <-; first [reflexivity|discriminate]];
    try set_solver;
    (split_and!; [repeat constructor; set_solver| |intros c1 c2 _ _; lia];
     intros c Hc; apply list_elem_of_In in Hc; simpl in Hc;
     intuition subst; (eexists _, _; split_and!; [reflexivity..|simpl; lia|set_solver])).
Qed.

Lemma tabs_dom_one_active : one_active [1%nat; 2%nat] (fun c => c + 2) tabs_dom.
Proof. right. exists 1%nat. split; [set_solver|reflexivity]. Qed.



Lemma tabs_session_steps : rtc (session [1%nat; 2%nat] (fun c => c + 2)) tabs_dom tabs_session.
Proof.
  apply (rtc_l _ _ (res_state (displayStats 2 tabs_dom))).
  - constructor. apply tabs_dom_bar. set_solver.
  - apply rtc_once. constructor.
Qed.

Lemma session_one_active_witness :
  one_active [1%nat; 2%nat] (fun c => c + 2) tabs_dom /\
  (carriers tabs_session = [] \/ exists c, c ∈ [1%nat; 2%nat] /\ carriers tabs_session = [c + 2]).
Proof.
  split; [apply tabs_dom_one_active|].
  apply (session_one_active _ _ tabs_dom); [apply tabs_dom_one_active|apply tabs_session_steps].
Defined.

Lemma session_update_single_witness :
  loadStatisticsUpdate tt tabs_session = Ok (tt, tabs_session) \/
  exists c, c ∈ [1%nat; 2%nat] /\ loadStatisticsUpdate tt tabs_session = dispatch_one tt (c + 2) tabs_session.
Proof.
  apply (session_update_single _ _ tabs_dom); [apply tabs_dom_one_active|apply tabs_session_steps].
Defined.

End UnitSession.

(** ** A click on a bar with an unregistered child *)

(** Ids and attachment decide [getElementById]. *)
Lemma keeps_getElementById_None (P : nat -> Prop) d d' id :
  keeps_except P d d' -> getElementById d id = None -> getElementById d' id = None.
Proof.
  intros K. rewrite !getElementById_None, !Forall_lookup. intros Hall h e' He' [Ha Hi].
  destruct (K h) as [Kid _]. rewrite He' in Kid.
  destruct (heap d !! h) as [e|] eqn:He; simpl in Kid; [|discriminate].
  injection Kid as Eid Eatt. apply (Hall h e He). unfold id_match. by rewrite <- Eid, <- Eatt.
Qed.

(** C40. The tab switch assumes that every child of the tab bar is a key
    of [associated]: when the children are [cs1 ++ c :: cs2], the tabs of
    [cs1] registered and [c] not, a click on a tab of [cs1] processes the
    tabs of [cs1] (the clicked tab's panel shown and marked [activeStats],
    the others hidden), then [DOMCacheGetOrSet(associated.get(c.id)!)]
    throws on [c] (on a page without an element of id ["undefined"]),
    and every element outside [cs1] and its panels is as before.  So a
    panel that was active before the click and is not the panel of a tab
    of [cs1] stays active beside the clicked tab's panel. *)
Theorem click_unregistered_tab btn eb p ep ph d cs1 c ec cs2 :
  heap d !! btn = Some eb -> el_parent eb = Some p -> heap d !! p = Some ep ->
  el_children ep = cs1 ++ c :: cs2 -> tabs_ready d cs1 ph -> btn ∈ cs1 ->
  heap d !! c = Some ec -> associated_get (el_id ec) = None ->
  dom_cache d !! "undefined" = None -> getElementById d "undefined" = None ->
  exists d1, displayStats btn d = Throw (TypeError "Could not find element with id undefined") d1 /\
    same_shape d d1 /\
    (forall c0 ec0, c0 ∈ cs1 -> heap d !! c0 = Some ec0 ->
       panel_state d1 (ph c0) (bool_decide (el_id ec0 = el_id eb))) /\
    (forall h e, h ∉ cs1 -> (forall c0, c0 ∈ cs1 -> h ≠ ph c0) ->
       heap d !! h = Some e -> "activeStats" ∈ el_classes e ->
       h ∈ carriers d1 /\ ph btn ∈ carriers d1).
Proof.
  intros Hb Hp Hep Hch Hr Hbtn Hc Hget Hu Hg.
  destruct (displayStats_loop (el_id eb) ph cs1 d Hr) as (d1 & R & [L C] & Pst & F).
  pose proof (displayStats_loop_keeps _ _ _ d d1 Hr R) as K.
  exists d1. split_and!; [|done..|].
  - unfold displayStats. rewrite Hb, Hp, Hep, Hch, forM__app, (st_bind_Ok _ _ _ _ _ R). simpl.
    apply st_bind_Throw. unfold displayStats_one.
    destruct (K c) as [Kid _]. rewrite Hc in Kid.
    destruct (heap d1 !! c) as [ec1|] eqn:Hc1; simpl in Kid; [|discriminate].
    injection Kid as Eid _. rewrite Eid, Hget. simpl. apply st_bind_Throw.
    apply DOMCacheGetOrSet_missing; [by rewrite C|by eapply keeps_getElementById_None].
  - intros h e Hh Hph He Ha. split; apply carriers_spec.
    + exists e. by rewrite F.
    + destruct (Pst btn eb Hbtn Hb) as (e1 & He1 & Hcl & _). exists e1. split; [done|].
      apply Hcl. by apply bool_decide_eq_true.
Qed.

Lemma click_unregistered_tab_witness :
  exists d1, displayStats 2 bad_bar_dom = Throw (TypeError "Could not find element with id undefined") d1 /\
    same_shape bad_bar_dom d1 /\
    (forall c0 ec0, c0 ∈ [2%nat] -> heap bad_bar_dom !! c0 = Some ec0 ->
       panel_state d1 (c0 + 2) (bool_decide (el_id ec0 = "kFreeAccel"))) /\
    (forall h e, h ∉ [2%nat] -> (forall c0, c0 ∈ [2%nat] -> h ≠ c0 + 2) ->
       heap bad_bar_dom !! h = Some e -> "activeStats" ∈ el_classes e ->
       h ∈ carriers d1 /\ 4%nat ∈ carriers d1).
Proof.
  apply (click_unregistered_tab 2 (mkElem "button" "kFreeAccel" [] ∅ None [] (Some 0%nat) true) 0
           (mkElem "div" "" [] ∅ None [2%nat; 5%nat; 1%nat] None true) (fun c => c + 2)
           bad_bar_dom [2%nat] 5 (mkElem "button" "kSettings" [] ∅ None [] (Some 0%nat) true) [1%nat]);
    try reflexivity; [|set_solver].
  split_and!; [repeat constructor; set_solver| |intros c1 c2 _ _; lia].
  intros c Hc. apply list_elem_of_In in Hc. simpl in Hc.
  intuition subst; (eexists _, _; split_and!; [reflexivity..|simpl; lia|set_solver]).
Defined.
