(* ===== verification/C15.v ===== *)
(** * The Challenge 15 rewards: [c15RewardUpdate] and [updateDisplayC15Rewards]

    [c15RewardUpdate] (lines 2575-2606) recomputes every entry of
    [G.challenge15Rewards] from the exponent [e = player.challenge15Exponent]
    (reset to [baseValue], then [c15RewardFormulae[key](e)] when
    [e >= requirement]), unlocks the five hepteracts whose reward is
    positive, and calls [updateDisplayC15Rewards] (lines 2608-2666), which
    creates the reward paragraphs the first time (guarded by the module flag
    [LOADED_STATS_HTMLS.challenge15]), shows the rewards earned, hides the
    others, and reports the lowest exponent still missing.

    The rewards object is an association list in [Object.entries] order;
    the world of the handler ([C15World]) holds it with the flag, the
    [unlock] calls issued so far (the crafts are external) and the
    document.  The theorems show that the refresh makes every value a
    function of the exponent alone (so it is idempotent and forgets stale
    values), which hepteracts are unlocked, that the loop's
    [lowestMissingExponent] is the least requirement not met, and that the
    paragraphs are created on the first display only. *)

From S2P Require Import Prelude Dom Format.
From Stdlib Require Import QArith Qminmax.
Local Close Scope Q_scope.

(** A reward value: a number, or a boolean for the unlock rewards. *)
Inductive RVal : Type :=
| RNum (q : Q)
| RBool (b : bool).

(** An entry of [G.challenge15Rewards]. *)
Record Reward : Type := mkReward {
  r_key : string;
  r_value : RVal;
  r_baseValue : RVal;
  r_requirement : Q;
  r_HTMLColor : option string
}.

Definition set_value (x : RVal) (v : Reward) : Reward :=
  mkReward (r_key v) x (r_baseValue v) (r_requirement v) (r_HTMLColor v).

(** The collaborators: the reward formulas of [G.c15RewardFormulae], the
    parametrised [i18next.t], [formatAsPercentIncrease], and
    [Decimal.pow(10, e / challenge15ScoreMultiplier())]. *)
Class C15Env : Type := {
  c15RewardFormulae : string -> Q -> RVal;
  translateWith : string -> list (string * string) -> string;
  formatAsPercentIncrease : Q -> nat -> string;
  requiredCoins : Q -> NumVal
}.

(** What the handler reads and writes. *)
Record C15World : Type := mkWorld {
  c15_rewards : list Reward;
  c15_loaded : bool;
  c15_unlocks : list string;
  c15_dom : Dom
}.

Definition set_rewards (rs : list Reward) (w : C15World) : C15World :=
  mkWorld rs (c15_loaded w) (c15_unlocks w) (c15_dom w).
Definition set_loaded (b : bool) (w : C15World) : C15World :=
  mkWorld (c15_rewards w) b (c15_unlocks w) (c15_dom w).
Definition add_unlock (s : string) (w : C15World) : C15World :=
  mkWorld (c15_rewards w) (c15_loaded w) (c15_unlocks w ++ [s]) (c15_dom w).
Definition set_dom (d : Dom) (w : C15World) : C15World :=
  mkWorld (c15_rewards w) (c15_loaded w) (c15_unlocks w) d.

(** A DOM step run inside the world. *)
Definition on_dom {A} (m : St Dom A) : St C15World A :=
  fun w => match m (c15_dom w) with
           | Ok (a, d') => Ok (a, set_dom d' w)
           | Throw e d' => Throw e (set_dom d' w)
           end.

(** [Number.MAX_VALUE], exactly: [2 ^ 1024 - 2 ^ 971]. *)
Definition MAX_VALUE : Q := inject_Z (2 ^ 1024 - 2 ^ 971).

(** [a >= b] and [a < b] on numbers. *)
Definition Qge_bool (a b : Q) : bool := Qle_bool b a.
Definition Qlt_bool (a b : Q) : bool := negb (Qle_bool b a).

(** [x > 0] for a reward value ([true > 0] holds in JavaScript). *)
Definition rval_pos (x : RVal) : bool :=
  match x with RNum q => Qlt_bool 0 q | RBool b => b end.

Section Update.
Context `{!C15Env}.

(** The body of the loop of [c15RewardUpdate] on one entry. *)
Definition refresh_reward (e : Q) (v : Reward) : Reward :=
  let v := set_value (r_baseValue v) v in
  if Qge_bool e (r_requirement v) then set_value (c15RewardFormulae (r_key v) e) v else v.

(** [G.challenge15Rewards.<key>]: the entry, or the [TypeError] of reading
    [.value] of [undefined]. *)
Definition reward_value (key : string) : St C15World RVal :=
  fun w => match list_find (fun v => r_key v = key) (c15_rewards w) with
           | Some (_, v) => Ok (r_value v, w)
           | None => Throw (TypeError "Cannot read properties of undefined (reading 'value')") w
           end.

(** [if (G.challenge15Rewards.<key>.value > 0) { void player.hepteractCrafts.<craft>.unlock(name) }] *)
Definition unlock_if (key name : string) : St C15World unit :=
  x <- reward_value key ;;
  if rval_pos x then st_modify (add_unlock name) else st_ret tt.

(** The five hepteracts, in the order of the source. *)
Definition hepteract_unlocks : list (string * string) := [
  ("challengeHepteractUnlocked", "the Hepteract of Challenge");
  ("abyssHepteractUnlocked", "the Hepteract of the Abyss");
  ("acceleratorHepteractUnlocked", "the Hepteract of Way Too Many Accelerators");
  ("acceleratorBoostHepteractUnlocked", "the Hepteract of Way Too Many Accelerator Boosts");
  ("multiplierHepteractUnlocked", "the Hepteract of Way Too Many Multipliers")].
End Update.

Section Display.
Context `{!C15Env} `{!NumberFormat}.

Definition c15_key (k : string) : string := "wowCubes.platonicUpgrades.c15Rewards." +:+ k.

(** [if (!LOADED_STATS_HTMLS.challenge15) { ... rewardDiv.appendChild(elm) }] *)
Definition create_reward_elem (rewardDiv : nat) (v : Reward) : St Dom unit :=
  elm <- createElement "p" ;;
  setId elm ("c15Reward" +:+ r_key v) ;;
  setClassName elm "challengePortion" ;;
  (match r_HTMLColor v with Some c => setStyle elm "color" c | None => st_ret tt end) ;;
  appendChild rewardDiv elm.

(** The body of the display loop; [lowest] is [lowestMissingExponent]. *)
Definition display_reward (e : Q) (rewardDiv : nat) (lowest : Q) (v : Reward) : St C15World Q :=
  let value := r_value v in
  let requirement := r_requirement v in
  w <- st_get ;;
  (if c15_loaded w then st_ret tt else on_dom (create_reward_elem rewardDiv v)) ;;
  elm <- on_dom (DOMCacheGetOrSet ("c15Reward" +:+ r_key v)) ;;
  if Qge_bool e requirement then
    on_dom (setStyle elm "display" (if Qge_bool e requirement then "block" else "none")) ;;
    on_dom (match value with
            | RNum q => setTextContent elm
                          (translateWith (c15_key (r_key v)) [("amount", formatAsPercentIncrease q 2)])
            | RBool _ => setTextContent elm (translateWith (c15_key (r_key v)) [])
            end) ;;
    st_ret lowest
  else
    on_dom (setStyle elm "display" "none") ;;
    st_ret (if Qlt_bool requirement lowest then requirement else lowest).

(** [for (const [k, v] of Object.entries(G.challenge15Rewards))] *)
Fixpoint display_rewards (e : Q) (rewardDiv : nat) (lowest : Q) (vs : list Reward) : St C15World Q :=
  match vs with
  | [] => st_ret lowest
  | v :: vs' => lo <- display_reward e rewardDiv lowest v ;; display_rewards e rewardDiv lo vs'
  end.

(** [updateDisplayC15Rewards()] *)
Definition updateDisplayC15Rewards (e : Q) : St C15World unit :=
  on_dom (write_text "c15Reward0"
            (translateWith (c15_key "0") [("exponent", formatNum (JsNumber e) 3 true)])) ;;
  on_dom (write_text "c15RequiredExponent"
            (translateWith (c15_key "requiredExponent") [("coins", formatNum (requiredCoins e) 0 true)])) ;;
  rewardDiv <- on_dom (DOMCacheGetOrSet "c15Rewards") ;;
  w <- st_get ;;
  lowestMissingExponent <- display_rewards e rewardDiv MAX_VALUE (c15_rewards w) ;;
  (if Qlt_bool lowestMissingExponent MAX_VALUE then
     on_dom (write_text "c15NextReward"
               (translateWith (c15_key "nextReward")
                  [("exponent", formatNum (JsNumber lowestMissingExponent) 0 true)]))
   else on_dom (write_text "c15NextReward" (translateWith (c15_key "allUnlocked") []))) ;;
  st_modify (set_loaded true).

(** The reward loop and the hepteract unlocks of [c15RewardUpdate]. *)
Definition c15_refresh (e : Q) : St C15World unit :=
  w <- st_get ;;
  st_modify (set_rewards (map (refresh_reward e) (c15_rewards w))) ;;
  forM_ hepteract_unlocks (fun kn => unlock_if kn.1 kn.2).

(** [c15RewardUpdate()], with [e = player.challenge15Exponent]. *)
Definition c15RewardUpdate (e : Q) : St C15World unit :=
  c15_refresh e ;; updateDisplayC15Rewards e.
End Display.

(** The value of the entry [key], as [G.challenge15Rewards.<key>.value] reads it. *)
Definition lookup_reward (rs : list Reward) (key : string) : option Reward :=
  snd <$> list_find (fun v => r_key v = key) rs.

(** The crafts [c15RewardUpdate] unlocks for the rewards [rs]. *)
Definition craft_unlocked (rs : list Reward) (kn : string * string) : bool :=
  match lookup_reward rs kn.1 with Some v => rval_pos (r_value v) | None => false end.

Definition unlocked_crafts (rs : list Reward) : list string :=
  (fun kn => kn.2) <$> filter (fun kn => craft_unlocked rs kn = true) hepteract_unlocks.

(** The parts of the world the display never touches. *)
Definition same_records (w w' : C15World) : Prop :=
  c15_rewards w' = c15_rewards w /\ c15_unlocks w' = c15_unlocks w.

#[export] Instance same_records_preorder : PreOrder same_records.
Proof.
  split; [intros w; split; done|].
  intros w1 w2 w3 [H1 H2] [H3 H4]. split; congruence.
Qed.

(** [lowestMissingExponent] after one entry, and after the loop. *)
Definition lowest_step (e lo : Q) (v : Reward) : Q :=
  if Qge_bool e (r_requirement v) then lo
  else if Qlt_bool (r_requirement v) lo then r_requirement v else lo.

Definition fold_lowest (e lo : Q) (vs : list Reward) : Q := foldl (lowest_step e) lo vs.

(** The reference for [lowestMissingExponent]: the least requirement not
    met by [e], or [lo] when every requirement is met. *)
Definition missing_requirements (e : Q) (vs : list Reward) : list Q :=
  r_requirement <$> filter (fun v => Qge_bool e (r_requirement v) = false) vs.

Definition min_missing (e lo : Q) (vs : list Reward) : Q := foldr Qmin lo (missing_requirements e vs).

(** A step that only rewrites the document, without creating elements. *)
Definition world_quiet (w w' : C15World) : Prop :=
  c15_rewards w' = c15_rewards w /\ c15_loaded w' = c15_loaded w /\
  c15_unlocks w' = c15_unlocks w /\ same_shape (c15_dom w) (c15_dom w').

(** The static ids the display writes, cached, and the reward paragraphs. *)
Definition c15_page_ready (rs : list Reward) (d : Dom) : Prop :=
  (forall id, id ∈ ["c15Reward0"; "c15RequiredExponent"; "c15Rewards"] -> is_Some (dom_cache d !! id)) /\
  (forall v, v ∈ rs -> is_Some (dom_cache d !! ("c15Reward" +:+ r_key v))).

(** ** A sample game and page *)

(** Formulas that return the exponent, labels that are their keys. *)
Definition sample_env : C15Env :=
  {| c15RewardFormulae := fun _ e => RNum e; translateWith := fun k _ => k;
     formatAsPercentIncrease := fun _ _ => "+1%"; requiredCoins := fun e => JsNumber e |}.

Definition sample_rewards : list Reward := [
  mkReward "cube1" (RNum 7) (RNum 1) 750 None;
  mkReward "challengeHepteractUnlocked" (RBool false) (RBool false) 2000 None;
  mkReward "abyssHepteractUnlocked" (RBool false) (RBool false) 4000 None;
  mkReward "acceleratorHepteractUnlocked" (RBool false) (RBool false) 5000 None;
  mkReward "acceleratorBoostHepteractUnlocked" (RBool false) (RBool false) 6000 None;
  mkReward "multiplierHepteractUnlocked" (RBool false) (RBool false) 7000 (Some "gold")].

Definition sample_ids : list string :=
  ["c15Reward0"; "c15RequiredExponent"; "c15Rewards"; "c15NextReward"] ++
  ((fun v => "c15Reward" +:+ r_key v) <$> sample_rewards).

(** A page on which the paragraphs exist and every id is cached. *)
Definition sample_dom : Dom :=
  mkDom (repeat (mkElem "p" "" [] ∅ (Some "text") [] None true) (length sample_ids))
        (list_to_map (zip sample_ids (seq 0 (length sample_ids)))).

Definition sample_world : C15World := mkWorld sample_rewards true [] sample_dom.

(** A page without the [c15NextReward] node, before the first display. *)
Definition broken_world : C15World :=
  mkWorld sample_rewards false []
    (mkDom [mkElem "p" "c15Reward0" [] ∅ None [] None true;
            mkElem "p" "c15RequiredExponent" [] ∅ None [] None true;
            mkElem "div" "c15Rewards" [] ∅ None [] None true] ∅).

#[export] Instance world_quiet_preorder : PreOrder world_quiet.
Proof.
  split; [intros w; split_and!; done|].
  intros w1 w2 w3 (R1 & L1 & U1 & S1) (R2 & L2 & U2 & S2).
  split_and!; [congruence..|by eapply same_shape_trans].
Qed.

(** ** The refresh *)

Section UpdateProofs.
Context `{!C15Env}.

Lemma refresh_key e v : r_key (refresh_reward e v) = r_key v.
Proof. unfold refresh_reward. by destruct (Qge_bool _ _). Qed.

Lemma lookup_reward_map e rs k :
  lookup_reward (map (refresh_reward e) rs) k = refresh_reward e <$> lookup_reward rs k.
Proof.
  unfold lookup_reward. induction rs as [|v rs IH]; [done|]. simpl.
  rewrite refresh_key. case_decide; [done|].
  destruct (list_find _ (map _ rs)) as [[i v1]|], (list_find _ rs) as [[j v2]|];
    simpl in *; congruence.
Qed.

Lemma reward_value_found w k v :
  lookup_reward (c15_rewards w) k = Some v -> reward_value k w = Ok (r_value v, w).
Proof.
  unfold lookup_reward, reward_value. destruct (list_find _ _) as [[i v']|]; [|done].
  by intros [= ->].
Qed.

Lemma unlock_if_found w k n v :
  lookup_reward (c15_rewards w) k = Some v ->
  unlock_if k n w = Ok (tt, if rval_pos (r_value v) then add_unlock n w else w).
Proof.
  intros Hv. unfold unlock_if. rewrite (st_bind_Ok _ _ _ _ _ (reward_value_found _ _ _ Hv)).
  by destruct (rval_pos (r_value v)).
Qed.

Lemma unlock_loop_run l rs ld un dm :
  (forall kn, kn ∈ l -> is_Some (lookup_reward rs kn.1)) ->
  forM_ l (fun kn => unlock_if kn.1 kn.2) (mkWorld rs ld un dm) =
  Ok (tt, mkWorld rs ld (un ++ ((fun kn => kn.2) <$> filter (fun kn => craft_unlocked rs kn = true) l)) dm).
Proof.
  revert un. induction l as [|[k n] l IH]; intros un Hl; simpl; [by rewrite app_nil_r|].
  destruct (Hl (k, n)) as [v Hv]; [set_solver|]. simpl in Hv.
  rewrite (st_bind_Ok _ _ _ _ _ (unlock_if_found (mkWorld rs ld un dm) k n v Hv)).
  assert (Hc : craft_unlocked rs (k, n) = rval_pos (r_value v))
    by (unfold craft_unlocked; simpl; by rewrite Hv).
  destruct (rval_pos (r_value v)).
  - rewrite filter_cons_True by done.
    change (add_unlock n (mkWorld rs ld un dm)) with (mkWorld rs ld (un ++ [n]) dm).
    rewrite IH by (intros; apply Hl; set_solver). simpl. by rewrite <- app_assoc.
  - rewrite filter_cons_False by (rewrite Hc; discriminate). apply IH. intros; apply Hl; set_solver.
Qed.

Lemma c15_refresh_run e w :
  (forall kn, kn ∈ hepteract_unlocks -> is_Some (lookup_reward (c15_rewards w) kn.1)) ->
  c15_refresh e w =
  Ok (tt, mkWorld (map (refresh_reward e) (c15_rewards w)) (c15_loaded w)
            (c15_unlocks w ++ unlocked_crafts (map (refresh_reward e) (c15_rewards w))) (c15_dom w)).
Proof.
  intros Hk. unfold c15_refresh. destruct w as [rs ld un dm]. cbn [c15_rewards] in Hk.
  rewrite (st_bind_Ok _ _ _ (mkWorld rs ld un dm) (mkWorld rs ld un dm)) by reflexivity.
  rewrite (st_bind_Ok _ _ _ tt (mkWorld (map (refresh_reward e) rs) ld un dm)) by reflexivity.
  apply unlock_loop_run. intros kn Hkn. cbn [c15_rewards]. rewrite lookup_reward_map.
  destruct (Hk kn Hkn) as [v ->]. by eexists.
Qed.
End UpdateProofs.

(** ** The display never changes the rewards or the unlocks *)

Lemma on_dom_same {A} (m : St Dom A) : always same_records (on_dom m).
Proof. intros w. unfold on_dom. by destruct (m (c15_dom w)) as [[a d]|e d]. Qed.

Lemma set_loaded_same b : always same_records (st_modify (set_loaded b)).
Proof. intros w. done. Qed.

Ltac solve_same :=
  repeat first
    [ progress intros
    | apply always_bind; try (apply _)
    | apply always_if; try (apply _)
    | apply always_ret; try (apply _)
    | apply always_get; try (apply _)
    | apply on_dom_same
    | apply set_loaded_same ].

Section DisplayProofs.
Context `{!C15Env} `{!NumberFormat}.

Lemma display_rewards_same e rdiv vs : forall lo, always same_records (display_rewards e rdiv lo vs).
Proof.
  induction vs as [|v vs IH]; simpl; intros lo; [apply always_ret; apply _|].
  apply always_bind; [apply _| |done]. unfold display_reward. solve_same.
Qed.

Lemma updateDisplay_same e : always same_records (updateDisplayC15Rewards e).
Proof. unfold updateDisplayC15Rewards. solve_same. apply display_rewards_same. Qed.
End DisplayProofs.

(** ** The lowest missing exponent *)

Lemma fold_lowest_spec e vs : forall lo,
  (fold_lowest e lo vs = lo /\
   forall v, v ∈ vs -> Qge_bool e (r_requirement v) = false -> (lo <= r_requirement v)%Q) \/
  (exists v, v ∈ vs /\ Qge_bool e (r_requirement v) = false /\ fold_lowest e lo vs = r_requirement v /\
     (r_requirement v < lo)%Q /\
     forall v', v' ∈ vs -> Qge_bool e (r_requirement v') = false -> (r_requirement v <= r_requirement v')%Q).
Proof.
  unfold fold_lowest. induction vs as [|v vs IH]; intros lo; simpl.
  { left. split; [done|]. intros v Hv. set_solver. }
  destruct (Qge_bool e (r_requirement v)) eqn:Hm.
  - replace (lowest_step e lo v) with lo by (unfold lowest_step; by rewrite Hm).
    destruct (IH lo) as [[H1 H2]|(v' & Hv' & Hu & H1 & H2 & H3)].
    + left. split; [done|]. intros x [->|Hx]%elem_of_cons; [congruence|auto].
    + right. exists v'. split_and!; [set_solver|done..|].
      intros x [->|Hx]%elem_of_cons; [congruence|auto].
  - destruct (Qle_bool lo (r_requirement v)) eqn:Hlo.
    + replace (lowest_step e lo v) with lo by (unfold lowest_step, Qlt_bool; by rewrite Hm, Hlo).
      apply Qle_bool_iff in Hlo. destruct (IH lo) as [[H1 H2]|(v' & Hv' & Hu & H1 & H2 & H3)].
      * left. split; [done|]. intros x [->|Hx]%elem_of_cons; auto.
      * right. exists v'. split_and!; [set_solver|done..|].
        intros x [->|Hx]%elem_of_cons; [intros _|auto]. apply Qlt_le_weak. eapply Qlt_le_trans; [exact H2|exact Hlo].
    + replace (lowest_step e lo v) with (r_requirement v)
        by (unfold lowest_step, Qlt_bool; by rewrite Hm, Hlo).
      assert (Hlt : (r_requirement v < lo)%Q)
        by (apply Qnot_le_lt; intros Hle; apply Qle_bool_iff in Hle; congruence).
      right. destruct (IH (r_requirement v)) as [[H1 H2]|(v' & Hv' & Hu & H1 & H2 & H3)].
      * exists v. split_and!; [set_solver|done..|]. intros x [->|Hx]%elem_of_cons; [intros _; apply Qle_refl|auto].
      * exists v'. split_and!; [set_solver|done|done|eapply Qlt_trans; [exact H2|exact Hlt]|].
        intros x [->|Hx]%elem_of_cons; [intros _; by apply Qlt_le_weak|auto].
Qed.

(** ** The display on a page where the paragraphs exist *)

Lemma on_dom_run {A} (m : St Dom A) w a d :
  m (c15_dom w) = Ok (a, d) -> on_dom m w = Ok (a, set_dom d w).
Proof. intros H. unfold on_dom. by rewrite H. Qed.

Lemma set_dom_quiet w d : same_shape (c15_dom w) d -> world_quiet w (set_dom d w).
Proof. intros Hs. by split_and!. Qed.

Lemma on_dom_modify f w :
  shape_preserving f ->
  on_dom (st_modify f) w = Ok (tt, set_dom (f (c15_dom w)) w) /\
  world_quiet w (set_dom (f (c15_dom w)) w).
Proof. intros Hf. split; [reflexivity|]. by apply set_dom_quiet, shape_same_shape. Qed.

Lemma on_dom_cached w id h :
  dom_cache (c15_dom w) !! id = Some h ->
  on_dom (DOMCacheGetOrSet id) w = Ok (h, set_dom (c15_dom w) w) /\ world_quiet w (set_dom (c15_dom w) w).
Proof.
  intros Hc. split; [by apply on_dom_run, DOMCacheGetOrSet_cached|].
  apply set_dom_quiet. split; done.
Qed.

Lemma on_dom_write_text w id s h :
  dom_cache (c15_dom w) !! id = Some h ->
  on_dom (write_text id s) w = Ok (tt, set_dom (setTextContent_dom h s (c15_dom w)) w) /\
  world_quiet w (set_dom (setTextContent_dom h s (c15_dom w)) w).
Proof.
  intros Hc. split; [by apply on_dom_run, write_text_cached|].
  apply set_dom_quiet, shape_same_shape, setTextContent_dom_shape.
Qed.

Section DisplayLoaded.
Context `{!C15Env} `{!NumberFormat}.

Lemma display_reward_loaded e rdiv lo v w :
  c15_loaded w = true -> is_Some (dom_cache (c15_dom w) !! ("c15Reward" +:+ r_key v)) ->
  exists w', display_reward e rdiv lo v w = Ok (lowest_step e lo v, w') /\ world_quiet w w'.
Proof.
  intros Hl [h Hh]. unfold display_reward.
  rewrite (st_bind_Ok _ _ _ w w), Hl by reflexivity.
  rewrite (st_bind_Ok _ _ _ tt w) by reflexivity.
  destruct (on_dom_cached w _ h Hh) as [R0 Q0]. rewrite (st_bind_Ok _ _ _ _ _ R0).
  set (w0 := set_dom (c15_dom w) w) in *. unfold lowest_step.
  destruct (Qge_bool e (r_requirement v)).
  - destruct (on_dom_modify (dom_alter h (set_el_style "display" "block")) w0) as [R1 Q1];
      [apply dom_alter_shape|].
    unfold setStyle. rewrite (st_bind_Ok _ _ _ _ _ R1).
    unfold setTextContent.
    destruct (r_value v) as [q|b];
      match goal with |- exists _, st_bind (on_dom (st_modify ?f)) _ ?w1 = _ /\ _ =>
        destruct (on_dom_modify f w1) as [R2 Q2]; [apply setTextContent_dom_shape|] end;
      rewrite (st_bind_Ok _ _ _ _ _ R2); eexists; (split; [reflexivity|]);
      exact (transitivity Q0 (transitivity Q1 Q2)).
  - destruct (on_dom_modify (dom_alter h (set_el_style "display" "none")) w0) as [R1 Q1];
      [apply dom_alter_shape|].
    unfold setStyle. rewrite (st_bind_Ok _ _ _ _ _ R1).
    eexists. split; [reflexivity|]. etransitivity; [exact Q0|exact Q1].
Qed.

Lemma display_rewards_loaded e rdiv vs : forall lo w,
  c15_loaded w = true ->
  (forall v, v ∈ vs -> is_Some (dom_cache (c15_dom w) !! ("c15Reward" +:+ r_key v))) ->
  exists w', display_rewards e rdiv lo vs w = Ok (fold_lowest e lo vs, w') /\ world_quiet w w'.
Proof.
  induction vs as [|v vs IH]; intros lo w Hl Hc; simpl.
  { exists w. split; [done|reflexivity]. }
  destruct (display_reward_loaded e rdiv lo v w) as (w1 & R1 & Q1); [done|apply Hc; set_solver|].
  rewrite (st_bind_Ok _ _ _ _ _ R1).
  pose proof Q1 as (E1 & L1 & U1 & [SL1 SC1]).
  destruct (IH (lowest_step e lo v) w1) as (w2 & R2 & Q2).
  - congruence.
  - intros x Hx. rewrite SC1. apply Hc. set_solver.
  - exists w2. split; [exact R2|]. etransitivity; [exact Q1|exact Q2].
Qed.
End DisplayLoaded.

Lemma quiet_cache w w' : world_quiet w w' -> dom_cache (c15_dom w') = dom_cache (c15_dom w).
Proof. by intros (_ & _ & _ & _ & ->). Qed.

Lemma quiet_length w w' : world_quiet w w' -> length (heap (c15_dom w')) = length (heap (c15_dom w)).
Proof. by intros (_ & _ & _ & -> & _). Qed.

Lemma next_reward_write w id s h :
  dom_cache (c15_dom w) !! id = Some h -> h < length (heap (c15_dom w)) ->
  exists w', st_bind (on_dom (write_text id s)) (fun _ => st_modify (set_loaded true)) w = Ok (tt, w') /\
    c15_loaded w' = true /\ c15_rewards w' = c15_rewards w /\
    length (heap (c15_dom w')) = length (heap (c15_dom w)) /\
    text_at (c15_dom w') h = Some (text_node s).
Proof.
  intros Hc Hlt. destruct (on_dom_write_text w id s h Hc) as [R Q].
  rewrite (st_bind_Ok _ _ _ _ _ R). eexists. split; [reflexivity|]. simpl.
  split_and!; [done|done|apply setTextContent_dom_shape|by apply setTextContent_dom_text_at].
Qed.

Section DisplayPrefix.
Context `{!C15Env} `{!NumberFormat}.

Lemma display_prefix_loaded e w :
  c15_loaded w = true -> c15_page_ready (c15_rewards w) (c15_dom w) ->
  exists w4, world_quiet w w4 /\
    updateDisplayC15Rewards e w =
    st_bind (if Qlt_bool (fold_lowest e MAX_VALUE (c15_rewards w)) MAX_VALUE
             then on_dom (write_text "c15NextReward" (translateWith (c15_key "nextReward")
                    [("exponent", formatNum (JsNumber (fold_lowest e MAX_VALUE (c15_rewards w))) 0 true)]))
             else on_dom (write_text "c15NextReward" (translateWith (c15_key "allUnlocked") [])))
            (fun _ => st_modify (set_loaded true)) w4.
Proof.
  intros Hl [Hs Hr].
  destruct (Hs "c15Reward0") as [h0 Hc0]; [set_solver|].
  destruct (Hs "c15RequiredExponent") as [h1 Hc1]; [set_solver|].
  destruct (Hs "c15Rewards") as [h2 Hc2]; [set_solver|].
  unfold updateDisplayC15Rewards.
  destruct (on_dom_write_text w _ (translateWith (c15_key "0") [("exponent", formatNum (JsNumber e) 3 true)]) h0 Hc0) as [R1 Q1].
  rewrite (st_bind_Ok _ _ _ _ _ R1). set (w1 := set_dom _ w) in *.
  destruct (on_dom_write_text w1 "c15RequiredExponent"
              (translateWith (c15_key "requiredExponent") [("coins", formatNum (requiredCoins e) 0 true)]) h1)
    as [R2 Q2]; [by rewrite (quiet_cache _ _ Q1)|].
  rewrite (st_bind_Ok _ _ _ _ _ R2). set (w2 := set_dom _ w1) in *.
  assert (Q12 : world_quiet w w2) by (etransitivity; eassumption).
  destruct (on_dom_cached w2 "c15Rewards" h2) as [R3 Q3]; [by rewrite (quiet_cache _ _ Q12)|].
  rewrite (st_bind_Ok _ _ _ _ _ R3). set (w3 := set_dom _ w2) in *.
  assert (Q13 : world_quiet w w3) by (etransitivity; eassumption).
  rewrite (st_bind_Ok _ _ _ w3 w3) by reflexivity.
  pose proof Q13 as (E3 & L3 & U3 & [SL3 SC3]).
  destruct (display_rewards_loaded e h2 (c15_rewards w3) MAX_VALUE w3) as (w4 & R4 & Q4).
  { congruence. }
  { intros v Hv. rewrite SC3. apply Hr. congruence. }
  rewrite (st_bind_Ok _ _ _ _ _ R4), E3. exists w4. split; [|reflexivity].
  etransitivity; [exact Q13|exact Q4].
Qed.
End DisplayPrefix.

(** ** The handler's contract *)

Section Contract.
Context `{!C15Env} `{!NumberFormat}.

Lemma lowest_step_min e lo v :
  Qge_bool e (r_requirement v) = false -> (lowest_step e lo v == Qmin (r_requirement v) lo)%Q.
Proof.
  intros Hm. unfold lowest_step, Qlt_bool. rewrite Hm. simpl.
  destruct (Qle_bool lo (r_requirement v)) eqn:Hle; simpl.
  - symmetry. apply Q.min_r. by apply Qle_bool_iff.
  - symmetry. apply Q.min_l. apply Qlt_le_weak, Qnot_le_lt. intros Hq. apply Qle_bool_iff in Hq. congruence.
Qed.

Lemma foldr_Qmin_compat lo lo' l : (lo == lo')%Q -> (foldr Qmin lo l == foldr Qmin lo' l)%Q.
Proof. intros E. induction l as [|a l IH]; simpl; [done|]. by rewrite IH. Qed.

Lemma foldr_Qmin_init r lo l : (foldr Qmin (Qmin r lo) l == Qmin r (foldr Qmin lo l))%Q.
Proof.
  induction l as [|a l IH]; simpl; [reflexivity|]. rewrite IH.
  rewrite !Q.min_assoc, (Q.min_comm a r). reflexivity.
Qed.

Lemma fold_lowest_min e vs : forall lo, (fold_lowest e lo vs == min_missing e lo vs)%Q.
Proof.
  unfold fold_lowest, min_missing, missing_requirements.
  induction vs as [|v vs IH]; intros lo; simpl; [reflexivity|].
  destruct (Qge_bool e (r_requirement v)) eqn:Hm.
  - rewrite filter_cons_False by congruence.
    replace (lowest_step e lo v) with lo by (unfold lowest_step; by rewrite Hm). apply IH.
  - rewrite filter_cons_True by done. rewrite fmap_cons. simpl. rewrite IH.
    rewrite (foldr_Qmin_compat _ _ _ (lowest_step_min e lo v Hm)). apply foldr_Qmin_init.
Qed.

(** C18. The refresh of one reward resets it before recomputing it: the new
    value is [c15RewardFormulae[key](e)] when [e >= requirement] and
    [baseValue] otherwise, whatever value the entry held before, so a
    stale value (from a higher exponent) is forgotten and refreshing twice
    is refreshing once. *)
Theorem refresh_reward_forgets e v x :
  r_value (refresh_reward e v) =
    (if Qge_bool e (r_requirement v) then c15RewardFormulae (r_key v) e else r_baseValue v) /\
  refresh_reward e (set_value x v) = refresh_reward e v /\
  refresh_reward e (refresh_reward e v) = refresh_reward e v.
Proof.
  unfold refresh_reward, set_value. destruct v as [k val base req col]. cbn.
  destruct (Qge_bool e req) eqn:Hq; cbn; rewrite ?Hq; cbn; split_and!; reflexivity.
Qed.

(** C19. Whatever the display does (it may throw on a missing node), after
    [c15RewardUpdate e] every reward holds its refreshed value and the
    hepteracts whose refreshed reward is positive have been unlocked, once
    each and in the order of the source, provided the five hepteract
    rewards exist. *)
Theorem c15RewardUpdate_records e w :
  (forall kn, kn ∈ hepteract_unlocks -> is_Some (lookup_reward (c15_rewards w) kn.1)) ->
  c15_rewards (res_state (c15RewardUpdate e w)) = map (refresh_reward e) (c15_rewards w) /\
  c15_unlocks (res_state (c15RewardUpdate e w)) =
    c15_unlocks w ++ unlocked_crafts (map (refresh_reward e) (c15_rewards w)).
Proof.
  intros Hk. unfold c15RewardUpdate. rewrite (st_bind_Ok _ _ _ _ _ (c15_refresh_run e w Hk)).
  match goal with |- context [updateDisplayC15Rewards e ?w1] =>
    destruct (updateDisplay_same e w1) as [-> ->] end.
  done.
Qed.

(** C20. On a page where the reward paragraphs exist (the flag is set and
    every id is cached), the display returns, creates no element, and the
    next-reward line names the least requirement not yet met, or says that
    every reward is unlocked when none is missing. *)
Theorem updateDisplayC15Rewards_loaded e w hnext :
  c15_loaded w = true -> c15_page_ready (c15_rewards w) (c15_dom w) ->
  dom_cache (c15_dom w) !! "c15NextReward" = Some hnext -> hnext < length (heap (c15_dom w)) ->
  (forall v, v ∈ c15_rewards w -> (r_requirement v < MAX_VALUE)%Q) ->
  exists w', updateDisplayC15Rewards e w = Ok (tt, w') /\ c15_loaded w' = true /\
    c15_rewards w' = c15_rewards w /\ length (heap (c15_dom w')) = length (heap (c15_dom w)) /\
    ((forall v, v ∈ c15_rewards w -> Qge_bool e (r_requirement v) = true) /\
       text_at (c15_dom w') hnext = Some (text_node (translateWith (c15_key "allUnlocked") [])) \/
     exists v, v ∈ c15_rewards w /\ Qge_bool e (r_requirement v) = false /\
       (forall v', v' ∈ c15_rewards w -> Qge_bool e (r_requirement v') = false ->
          (r_requirement v <= r_requirement v')%Q) /\
       text_at (c15_dom w') hnext = Some (text_node (translateWith (c15_key "nextReward")
         [("exponent", formatNum (JsNumber (r_requirement v)) 0 true)]))).
Proof.
  intros Hl Hready Hn Hlt Hmax.
  destruct (display_prefix_loaded e w Hl Hready) as (w4 & Q4 & ->).
  pose proof Q4 as (E4 & _ & _ & [SL4 SC4]).
  destruct (fold_lowest_spec e (c15_rewards w) MAX_VALUE) as [[Hf Hall]|(v & Hv & Hu & Hf & Hvlt & Hmin)];
    rewrite Hf.
  - replace (Qlt_bool MAX_VALUE MAX_VALUE) with false
      by (unfold Qlt_bool; by rewrite (proj2 (Qle_bool_iff _ _) (Qle_refl _))).
    destruct (next_reward_write w4 "c15NextReward" (translateWith (c15_key "allUnlocked") []) hnext)
      as (w5 & R5 & L5 & E5 & N5 & T5); [by rewrite SC4|lia|].
    exists w5. split_and!; [exact R5|done|congruence|lia|]. left. split; [|done].
    intros v Hv. destruct (Qge_bool e (r_requirement v)) eqn:Hm; [done|].
    specialize (Hall v Hv Hm). specialize (Hmax v Hv). exfalso. by apply (Qlt_not_le _ _ Hmax).
  - replace (Qlt_bool (r_requirement v) MAX_VALUE) with true
      by (unfold Qlt_bool; destruct (Qle_bool MAX_VALUE (r_requirement v)) eqn:Hle; [|done];
          apply Qle_bool_iff in Hle; exfalso; by apply (Qlt_not_le _ _ Hvlt)).
    edestruct (next_reward_write w4 "c15NextReward") as (w5 & R5 & L5 & E5 & N5 & T5);
      [by rewrite SC4|lia|].
    exists w5. split_and!; [exact R5|done|congruence|lia|]. right. exists v. by split_and!.
Qed.

(** C34. The display loop computes [lowestMissingExponent] as the
    minimum of the requirements the exponent does not meet: on an
    initialised page the loop returns, only rewrites the document, and its
    accumulator (started at [Number.MAX_VALUE] and lowered by each unmet
    requirement below it) equals [min_missing], the least unmet
    requirement, or [MAX_VALUE] when none is unmet. *)
Theorem display_rewards_min e rdiv w :
  c15_loaded w = true ->
  (forall v, v ∈ c15_rewards w -> is_Some (dom_cache (c15_dom w) !! ("c15Reward" +:+ r_key v))) ->
  exists lo w', display_rewards e rdiv MAX_VALUE (c15_rewards w) w = Ok (lo, w') /\
    (lo == min_missing e MAX_VALUE (c15_rewards w))%Q /\ world_quiet w w'.
Proof.
  intros Hl Hc. destruct (display_rewards_loaded e rdiv (c15_rewards w) MAX_VALUE w Hl Hc) as (w' & R & Q).
  exists (fold_lowest e MAX_VALUE (c15_rewards w)), w'. split_and!; [done|apply fold_lowest_min|done].
Qed.
End Contract.

Section SampleRun.
#[local] Existing Instances sample_env synergism_format.

Lemma c15RewardUpdate_records_witness :
  c15_rewards (res_state (c15RewardUpdate 4500 sample_world)) =
    map (refresh_reward 4500) sample_rewards /\
  c15_unlocks (res_state (c15RewardUpdate 4500 sample_world)) =
    [] ++ unlocked_crafts (map (refresh_reward 4500) sample_rewards).
Proof.
  apply (c15RewardUpdate_records 4500 sample_world).
  intros kn Hkn. apply list_elem_of_In in Hkn. simpl in Hkn.
  intuition subst; eexists; reflexivity.
Defined.

Lemma updateDisplayC15Rewards_loaded_witness :
  exists w', updateDisplayC15Rewards 4500 sample_world = Ok (tt, w') /\ c15_loaded w' = true /\
    c15_rewards w' = sample_rewards /\ length (heap (c15_dom w')) = length (heap sample_dom) /\
    ((forall v, v ∈ sample_rewards -> Qge_bool 4500 (r_requirement v) = true) /\
       text_at (c15_dom w') 3 = Some (text_node (translateWith (c15_key "allUnlocked") [])) \/
     exists v, v ∈ sample_rewards /\ Qge_bool 4500 (r_requirement v) = false /\
       (forall v', v' ∈ sample_rewards -> Qge_bool 4500 (r_requirement v') = false ->
          (r_requirement v <= r_requirement v')%Q) /\
       text_at (c15_dom w') 3 = Some (text_node (translateWith (c15_key "nextReward")
         [("exponent", formatNum (JsNumber (r_requirement v)) 0 true)]))).
Proof.
  apply (updateDisplayC15Rewards_loaded 4500 sample_world 3); [reflexivity| |reflexivity|vm_compute; lia|].
  - split; intros x Hx; apply list_elem_of_In in Hx; simpl in Hx;
      intuition subst; eexists; vm_compute; reflexivity.
  - intros v Hv. apply list_elem_of_In in Hv. simpl in Hv. intuition subst; vm_compute; reflexivity.
Defined.

(** With the sample rewards at exponent 4500, the first two hepteracts are
    unlocked and the next reward is the one at 5000. *)
Example c15_sample_update :
  c15_unlocks (res_state (c15RewardUpdate 4500 sample_world)) =
    ["the Hepteract of Challenge"; "the Hepteract of the Abyss"] /\
  text_at (c15_dom (res_state (c15RewardUpdate 4500 sample_world))) 3 =
    Some (Some (c15_key "nextReward")).
Proof. split; vm_compute; reflexivity. Qed.

(** The flag [LOADED_STATS_HTMLS.challenge15] is set only after the last
    write: on a page without [c15NextReward] every call throws after
    appending a full set of reward paragraphs, and the next call appends
    another one. *)
Example c15_paragraphs_duplicated :
  let w1 := res_state (updateDisplayC15Rewards 4500 broken_world) in
  let w2 := res_state (updateDisplayC15Rewards 4500 w1) in
  (c15_loaded w2, length (heap (c15_dom w1)), length (heap (c15_dom w2))) = (false, 9%nat, 15%nat).
Proof. vm_compute. reflexivity. Qed.
Lemma display_rewards_min_witness :
  exists lo w', display_rewards 4500 2 MAX_VALUE (c15_rewards sample_world) sample_world = Ok (lo, w') /\
    (lo == min_missing 4500 MAX_VALUE (c15_rewards sample_world))%Q /\ world_quiet sample_world w'.
Proof.
  apply display_rewards_min; [reflexivity|].
  intros v Hv. apply list_elem_of_In in Hv. simpl in Hv. intuition subst; eexists; vm_compute; reflexivity.
Defined.
End SampleRun.
