(* ===== verification/PageIds.v ===== *)
(** * The page's id namespace

    Every renderer of [Statistics.ts] reaches its nodes through
    [DOMCacheGetOrSet] by id, and the cache keeps the element it first
    found for an id for the lifetime of the page.  The ids the catalog
    loaders create ([prefix ++ key], [prefix ++ "N" ++ key], [prefix ++ "T"],
    [prefix ++ "NT"]) share their prefixes with ids other renderers read:
    ["statASM"] is both the ant-sacrifice prefix of [loadStatistics] and
    the row prefix of [loadStatisticsAscensionSpeedMultipliers], and the
    quark prefix ["sGQM"] is a prefix of the golden-quark rows ["sGQMS"].
    This file lists the id templates the other renderers read (an indexed
    template [`${P}${i + 1}`], a fixed id, or the open template
    [`c15Reward${key}`]) and proves that no id a loader creates matches any
    of them, for every index and every key. *)

From S2P Require Import Prelude Dom Format Catalog Render Loaders Breakdown Dispatch.

(** [s] with the prefix [p] removed, when [p] is a prefix of [s]. *)
Fixpoint strip_prefix (p s : string) : option string :=
  match p, s with
  | EmptyString, _ => Some s
  | String a p', String b s' => if Ascii.eqb a b then strip_prefix p' s' else None
  | String _ _, EmptyString => None
  end.

(** [s] is [P] followed by a non-empty run of decimal digits. *)
Definition indexed_form (P s : string) : bool :=
  match strip_prefix P s with
  | Some r => bool_decide (r ≠ "") && digits_only r
  | None => false
  end.

(** The row templates [`${P}${i + 1}`] of the six breakdown renderers:
    line and value ids of [loadPowderMultiplier],
    [loadStatisticsAscensionSpeedMultipliers],
    [loadStatisticsGoldenQuarkMultipliers], [loadStatisticsAmbrosiaLuck],
    [loadStatisticsAmbrosiaGeneration], and the three value lists of
    [loadGlobalSpeedMultiplier]. *)
Definition breakdown_templates : list string :=
  ["statPoM"; "sPoM"; "statASM"; "sASM"; "statGQMS"; "sGQMS"; "statALuckM"; "sALuckM";
   "statAGenM"; "sAGenM"; "sGSMa"; "sGSMb"; "sGSMc"].

(** The fixed total ids of the breakdown renderers. *)
Definition breakdown_fixed_ids : list string :=
  ["sPoMT"; "sASMT"; "sGQMST"; "sALuckMult"; "sALuckMT"; "sAGenMT"; "sGSMT"].

(** The ids [sMisc1] to [sMisc16] of [loadStatisticsMiscellaneous]. *)
Definition misc_template : string := "sMisc".

(** The fixed ids of [updateDisplayC15Rewards], and the template of its
    reward paragraphs. *)
Definition c15_fixed_ids : list string :=
  ["c15Reward0"; "c15RequiredExponent"; "c15Rewards"; "c15NextReward"].

Definition c15_reward_template : string := "c15Reward".

(** The indexed ids of the formula panels ([sA1]..[sA12], [sM1]..[sM13]). *)
Definition formula_templates : list string := ["sA"; "sM"].

(** The row templates of the add-code panel. *)
Definition addcode_templates : list string := ["stat+time"; "s+time"; "stat+cap"; "s+cap"].

Definition panel_templates : list string := formula_templates ++ addcode_templates.

(** The fixed ids of the add-code panel. *)
Definition addcode_fixed_ids : list string :=
  ["s+timeT"; "s+next"; "s+capT"; "stat+eff1"; "s+eff1"; "stat+eff2"; "s+eff2";
   "stat+eff3"; "s+eff3"; "stat+eff4"; "s+eff4"].

(** Every indexed template of the page. *)
Definition indexed_templates : list string :=
  misc_template :: breakdown_templates ++ panel_templates.

(** Every fixed id of the page that no loader creates: the renderers'
    fixed ids and the panels of [associated]. *)
Definition page_fixed_ids : list string :=
  breakdown_fixed_ids ++ addcode_fixed_ids ++ c15_fixed_ids ++ (snd <$> associated).

(** The ids the sixteen [loadStatistics] calls create. *)
Definition loader_ids `{!StateProvider Game} `{!LoaderEnv Game} (g : Game) : list string :=
  all_calls g ≫= call_ids.

(** ** Lemmas *)

Lemma strip_prefix_app P r : strip_prefix P (P +:+ r) = Some r.
Proof. induction P as [|a P IH]; simpl; [done|]. by rewrite Ascii.eqb_refl. Qed.

Lemma indexed_form_index P n : indexed_form P (P +:+ index_text n) = true.
Proof.
  unfold indexed_form. rewrite strip_prefix_app. apply andb_true_intro. split.
  - apply bool_decide_eq_true, int_digits_nonempty.
  - apply int_digits_only.
Qed.

(** An id of a form that no id of a list has is not in the list. *)
Lemma not_elem_of_form (f : string -> bool) (ids : list string) x :
  Forall (fun y => f y = false) ids -> f x = true -> x ∉ ids.
Proof. intros Hall Hx Hin. rewrite Forall_forall in Hall. rewrite (Hall x Hin) in Hx. discriminate. Qed.

#[export] Hint Resolve indexed_form_index : stats.

(** ** The loaders' ids against the templates *)

Section Namespace.
Context {Game : Type} `{!StateProvider Game} `{!LoaderEnv Game} `{!NumberFormat} `{!I18n}.

Lemma loader_ids_not_indexed (g : Game) :
  Forall (fun P => Forall (fun y => indexed_form P y = false) (loader_ids g)) indexed_templates.
Proof. refine (bool_decide_unpack _ _). vm_compute. exact I. Qed.

Lemma loader_ids_not_c15 (g : Game) :
  Forall (fun y => bool_decide (is_Some (strip_prefix c15_reward_template y)) = false) (loader_ids g).
Proof. refine (bool_decide_unpack _ _). vm_compute. exact I. Qed.

(** C26. No element a catalog loader creates has an id that another
    renderer of the page reads: not [`${P}${i}`] for any row template [P]
    of the breakdown, formula, add-code or miscellaneous panels and any
    index [i], not
    [`c15Reward${key}`] for any key, and none of the fixed total ids,
    add-code ids, C15 ids or panel ids.  The prefixes the code shares ([statASM], [sGQM])
    never make a catalog row shadow a node of another panel in the id
    cache. *)
Theorem loader_ids_disjoint (g : Game) :
  (forall P n, P ∈ indexed_templates -> P +:+ index_text n ∉ loader_ids g) /\
  (forall key, c15_reward_template +:+ key ∉ loader_ids g) /\
  Forall (fun x => x ∉ loader_ids g) page_fixed_ids.
Proof.
  split_and!.
  - intros P n HP. pose proof (loader_ids_not_indexed g) as Hall. rewrite Forall_forall in Hall.
    apply (not_elem_of_form (indexed_form P)); [by apply Hall|apply indexed_form_index].
  - intros key. apply (not_elem_of_form (fun y => bool_decide (is_Some (strip_prefix c15_reward_template y))));
      [apply loader_ids_not_c15|]. rewrite strip_prefix_app. by apply bool_decide_eq_true.
  - refine (bool_decide_unpack _ _). vm_compute. exact I.
Qed.
End Namespace.

Section UnitPage.
#[local] Existing Instances synergism_format scenario_i18n unit_provider unit_env.

Lemma loader_ids_disjoint_witness :
  "statASM" +:+ index_text 1 ∉ loader_ids tt /\ "sGQMS" +:+ index_text 12 ∉ loader_ids tt.
Proof.
  split; apply (proj1 (loader_ids_disjoint tt)); refine (bool_decide_unpack _ _); vm_compute; exact I.
Defined.
End UnitPage.
